(* ===== verification/_CoqProject ===== *)
-Q . S2P
Prelude.v
Threads.v
GoStrings.v
Sha256.v
BaseN.v
GoTime.v
RFC3339.v
Json.v
JsonText.v
JsonGo.v
Projection.v
GoOS.v
GoURL.v
Http.v
Crypto.v
Framing.v
Identity.v
EdgeProto.v
EdgeSign.v
Grant.v
Registry.v
Tokens.v
Chan.v
Hub.v
PaneHub.v
Convert.v
Pairing.v
Server.v
Streams.v
EdgeClient.v
Connect.v
LinkConnect.v
Handler.v
Trust.v
TypeSafe.v
Revocation.v
Comeback.v
Sections.v
Interleaved.v
EdgeConnect.v
Transport.v
Bonjour.v
