(* ===== verification/Prelude.v ===== *)
(** * rook-host: a verification development

    rook-host lets a phone watch and steer the coding agents of one machine. The
    program has two rails. The link rail (link/, with identity/, registry/,
    pairing/, projection/, transport/ and bonjour/) is a TLS server on the
    machine: a phone scans a QR code, pairs by proving a secret and a key,
    authenticates with a signed challenge, then reads and watches bounded
    snapshots and submits answers and commands. The edge rail (edgeclient/,
    edgesign/, edge/) polls a cloud for signed commands, checks them, executes
    them and reports signed events. This library models both in Rocq and proves
    what makes them correct.

    ** Files and the code they model

    Foundations, from the language and its standard library:
    - [Prelude]: octet strings, machine words, outcomes of a call ([res]), state
      with early return ([SE]) and its equations, histories of a cell, tactics
      and hint databases.
    - [Threads]: programs of atomic sections, their weakest preconditions against
      an invariant that holds between sections, pools of threads that run, are
      joined by new ones, and are lost together when the process crashes.
    - [GoStrings], [Sha256], [BaseN], [GoTime], [RFC3339], [GoURL]: what the code
      uses of strings, unicode/utf8, strconv, crypto/sha256, encoding/base64,
      encoding/base32, time (the calendar included) and net/url, as executable
      functions. Integers wrap where Go's do ([w64], [w32], [i32], [i64]).
    - [Json] (strings: escapes, surrogates, invalid octets), [JsonText] (values,
      both layouts, the parser) and [JsonGo] (encoding/json over the types the
      code serializes: tags, omitempty and omitzero, case folding, unknown,
      repeated and null fields; the class [GoValue] a struct implements once).
    - [GoOS]: the [World], oracles for the clock, the random source and every
      file operation (each may fail, or write a prefix and stop), and the
      write-then-rename sequence both state files are saved with.
    - [Crypto]: Ed25519 as a class whose one law is that verification accepts
      what signing made; [Seed] and [Public] panic on a private key too short to
      slice, which the handlers of [Server] hand on ([or_panic]). No theorem assumes unforgeability or collision
      resistance; where a digest stands for its input the statement says so.
    - [Framing]: the length-prefixed encoding of the signed statements.

    The link rail:
    - [Projection] (projection/projection.go): snapshots, pane frames, digests,
      their clamps, and the validation and natural keys of answers and commands.
    - [Identity] (identity/identity.go, identity/sign.go): the state file and
      its creation, device and host ids, pins, pairing proofs and challenge
      answers.
    - [Pairing] (pairing/pairing.go): the enrollment window and the QR URL.
    - [Registry] (registry/registry.go): the book of devices, in memory and on
      disk; the abstract book ([op_book]) it refines.
    - [Tokens] (link/tokens.go), [Chan] and [Hub] (link/hub.go), [PaneHub]
      (link/panehub.go), [Convert] (link/convert.go): the server's parts.
    - [Server] (link/server.go, link/executor.go): one record for the server,
      one definition per RPC handler, composed of the parts above.
    - [Streams] (link/server.go): the loops of WatchStatus and WatchPane, written
      once against the class [WatchHub] that states what a hub promises a
      watcher, with an instance and its laws for each hub.
    - [Http], [Connect]: what the code uses of net/http (requests, the
      multiplexer, trailing slashes) and, as a class with its laws, of the
      third-party connect library: clients and handlers of a procedure, their
      options and interceptors, and a wire between them; with an in-process
      instance that satisfies every law. The laws speak of calls that go out
      ([goes_out]): the context lasts, the header is one net/http does not
      change, and the message is one proto3 encodes (strings in UTF-8, numbers
      in their width, below 2 GiB). Nothing is said of other calls.
    - [LinkConnect] (gen/rook/link/v1/linkv1connect): procedures, clients,
      handlers and unimplemented handlers of the two link services, and what of
      each message encodes, by the types of its fields in link.pb.go.
    - [Handler] (link/server.go): the server's methods as those services, the
      errors' texts, both services on one mux.
    - [Trust], [TypeSafe], [Revocation], [Comeback]: the whole host under arbitrary
      requests, embedder calls and restarts of the process, one step each.
    - [Sections], [Interleaved]: every handler as a program of its critical
      sections, and the whole host with any number of calls in flight, which a
      crash of the process ends between any two of their sections.
    - [Transport] (transport/transport.go): the listener as a state machine over
      its goroutine, connections, requests in flight, failure channel and calls
      of [Shutdown], and the address hints; [Bonjour] (bonjour/): the TXT record, and [Advertise] and [Stop] of
      both builds with their goroutine.

    The edge rail:
    - [EdgeProto] (gen/rook/edge/v1): the messages.
    - [EdgeSign] (edgesign/edgesign.go), [Grant] (edgesign/grant.go): the signed
      encodings, the seeds, the grants with their exact JSON, the checklist.
    - [EdgeClient] (edgeclient/client.go, edge/edge.go): registration, the sync
      pass, refusal, events, the Follow and watch loops, the interceptors.
    - [EdgeConnect] (gen/rook/edge/v1/edgev1connect, edgeclient/client.go): the
      edge service's client and handler, and [NewRPC].

    ** State, concurrency and failure

    A method that holds its lock from start to end is one atomic step; one that
    unlocks first is several, and theorems about hubs, tokens and nonces
    quantify over every interleaving of the steps (histories as lists, or an
    inductive reachability relation). Watchers are references into a heap,
    shared by the hub's set and the stream that owns them; a publication's
    channel operations interleave with the watcher's receives. Handlers are
    sequential computations over the server record, and in [Sections] also
    programs of the critical sections they are made of, which a pool runs in any
    order ([Sections.handlers_are_their_sections] checks the two translations
    against each other: they agree when nothing slips in). An error keeps
    the state reached so far, as in Go; [Panic] is an outcome of its own. A crash
    (an event [Restart] of a life, a move [Crash] of a pool) drops the memory and
    every call in flight; the next process sees the disk and nothing else. One in
    the middle of a save is a fault of one of its file operations followed by a
    restart.

    ** What the theorems show

    - Authority: [Server.authorize_exact], [effects_need_authority],
      [Authenticate_exact], [Pair_exact], [handshake_completes] (the handshake
      does succeed), [RevokeDevice_complete]; [Tokens.nonce_single_use],
      [token_resolve_spec]; [Pairing.Redeem_only_fresh_window];
      [EdgeClient.SyncOnce_executes_verified]; [Grant.VerifyCommandGrant_exact].
    - The whole host: [Trust.chain_of_trust] (every effect, token and device
      goes back to a challenge answered, a pairing proven and a window the
      embedder opened, across restarts), [Handler.remote_is_local] (the generated
      clients, the mux and the handlers cross nothing; a response that proto3
      does not encode reaches its caller as an internal error, after the method
      has acted), [TypeSafe.host_never_panics] (for identities with a whole key,
      as [Identity.LoadOrCreate_keyed] says the loader's are),
      [Revocation.revocation_outlives_restarts] and [Comeback.pairing_outlives_restarts]
      (what was reported to the embedder or the device still holds after any
      later life), [Transport.front_door] (connections, requests in flight and
      what [Shutdown] waits for and answers); with calls interleaved and crashes
      between their sections, [Interleaved.interleaved_authority].
    - Routing: [EdgeConnect.NewRPC_authenticates],
      [LinkConnect.unimplemented_answers].
    - Durability: [Registry.registry_refines], [registry_life_wf],
      [revocation_is_final] (across crashes and restarts), [Add_grants],
      [Open_refuses_truncated]; [Identity.LoadOrCreate_durable],
      [truncated_identity_refused], [load_rederives].
    - Streams: [Hub.hub_latest_wins], [PaneHub.pane_latest_wins],
      [pane_source_alternates], [pane_dropDevice_exact];
      [Streams.status_stream_up_to_date], [revoked_streams_end].
    - Signed statements: [EdgeSign.signed_statements_unambiguous],
      [envelope_sign_verify], [Grant.parsed_grants_unambiguous],
      [ActionDigest_binds].
    - From the cloud to the device: [Grant.signed_grant_is_spendable] (what the
      cloud signs the device decodes and accepts until it expires) and
      [EdgeClient.approved_command_runs] (an approved command is executed and its
      receipt submitted).
    - Reporting and loops: [EdgeClient.SyncOnce_reports], [Follow_persists],
      [watch_backs_off], [event_ids_identify].
    - Bounds, keys and encodings: the clamp theorems, [ValidCommand_spec],
      [natural_keys_identify] of [Projection]; the round trips of [Pairing],
      [Convert] and [Bonjour] ([Darwin.Advertise_exact], [Other.Stop_terminates]);
      [Transport.Addrs_spec].

    Some theorems record where the code and its comments part, among them
    [Server.stream_opened_after_revocation],
    [Interleaved.answer_lands_after_revocation], [Registry.failed_Add_is_live],
    [Registry.Open_checks_nothing_else], [Server.unchecked_key_panics],
    [Tokens.expired_tokens_stay], [PaneHub.rewatch_continues],
    [Grant.ActionDigest_ambiguous] and [EdgeClient.odd_cloud_key_panics].

    ** Fuel and bounds

    Recursions that are not structural carry a fuel that is a bound on their
    input's length, and a lemma shows it is enough ([utf8_valid_go_fuel],
    [unquote_go_fuel], [parse_fuel_enough], [dec_spec], [strip_stuck],
    [txt_entries_concat]); no theorem is conditional on fuel. Loops that run for ever in the code (Follow, watch, the two
    streams) take a finite schedule of what happens to them, and theorems
    quantify over schedules. Sequence counters wrap at 64 bits; theorems that
    need fewer publications say so.

    ** What is not modelled

    The connect library, protobuf encoding, X.509 certificates and their keys,
    the system's mDNS daemon and the third-party responder are parameters
    ([Connect], [Wire], [Message], [IdentityLib], [Peers] and sections'
    variables) with the documented laws the code relies on, each class having a
    concrete instance that the witnesses use. So are the choices Go leaves open
    (the order of a map's range, of equal elements in a sort: [RegistryLib],
    [Host]), fmt's quoting verb, which needs the Unicode tables, the texts of
    json's and os's errors, and AddDate in the machine's own time zone. Times are
    instants and print in UTC, where the program puts every time it stores; a
    nil and an empty slice of a [Device] are one value. Of TLS there is the
    version and the certificate agreed. Not modelled: logging, and the generated
    messages beyond their fields (reflection, accessors). In [Trust], [TypeSafe],
    [Revocation] and [Comeback] a request is one step; in [Transport] a handler
    is any program of sections, and a request stays in flight until its last. In
    [Sections] drawing random octets belongs to the section that stores them, and
    the executor's call is one section; a watch's receives interleave in [Hub],
    [PaneHub] and [Streams]. *)

From Stdlib Require Export ZArith Lia.
From Stdlib Require Export Strings.Byte.
From stdpp Require Export base gmap strings list fin_maps numbers.

#[global] Open Scope Z_scope.
#[global] Set Default Goal Selector "!".

(** ** Bytes

    A Go [string] and a Go [[]byte] are both finite sequences of octets, so one
    type carries both; the conversions [[]byte(s)] and [string(b)] of the source
    are the identity here. *)

Abbreviation bytes := (list byte).

(** A Go string literal. *)
Definition str (s : string) : bytes := String.list_byte_of_string s.
Arguments str _%_string.

#[export] Instance byte_eq_decision : EqDecision byte := Byte.byte_eq_dec.

#[export] Program Instance byte_countable : Countable byte :=
  inj_countable Byte.to_N Byte.of_N _.
Next Obligation. exact Byte.of_to_N. Qed.

(** [int(b)] for an octet, and the truncating conversion [byte(x)]. *)
Definition Zb (b : byte) : Z := Z.of_N (Byte.to_N b).
Definition bZ (z : Z) : byte := default x00 (Byte.of_N (Z.to_N (z mod 256))).

Lemma Zb_range b : 0 <= Zb b < 256.
Proof. unfold Zb. pose proof (Byte.to_N_bounded b). lia. Qed.

Lemma bZ_Zb b : bZ (Zb b) = b.
Proof.
  unfold bZ. rewrite Z.mod_small by apply Zb_range.
  unfold Zb. by rewrite N2Z.id, Byte.of_to_N.
Qed.

Lemma Zb_bZ z : Zb (bZ z) = z mod 256.
Proof.
  unfold Zb, bZ. pose proof (Z.mod_pos_bound z 256 ltac:(lia)) as Hb.
  destruct (Byte.of_N (Z.to_N (z mod 256))) as [b|] eqn:E; simpl.
  - apply Byte.to_of_N in E. rewrite E. lia.
  - apply Byte.of_N_None_iff in E. lia.
Qed.

#[export] Instance Zb_inj : Inj (=) (=) Zb.
Proof. intros x y H. by rewrite <- (bZ_Zb x), H, bZ_Zb. Qed.

(** ** Machine words *)

(** Truncation to [uint64] and [uint32], and the signed conversions to
    [int32] and [int64]. *)
Definition w64 (z : Z) : Z := z mod 2 ^ 64.
Definition w32 (z : Z) : Z := z mod 2 ^ 32.
Definition i32 (z : Z) : Z := (z + 2 ^ 31) mod 2 ^ 32 - 2 ^ 31.
Definition i64 (z : Z) : Z := (z + 2 ^ 63) mod 2 ^ 64 - 2 ^ 63.

Lemma i32_id z : - 2 ^ 31 <= z < 2 ^ 31 -> i32 z = z.
Proof. intros. unfold i32. rewrite Z.mod_small; lia. Qed.

Lemma w32_id z : 0 <= z < 2 ^ 32 -> w32 z = z.
Proof. intros. by apply Z.mod_small. Qed.

Lemma w64_id z : 0 <= z < 2 ^ 64 -> w64 z = z.
Proof. intros. by apply Z.mod_small. Qed.

Lemma i32_range z : - 2 ^ 31 <= i32 z < 2 ^ 31.
Proof. unfold i32. pose proof (Z.mod_pos_bound (z + 2 ^ 31) (2 ^ 32)). lia. Qed.

Lemma w64_i64 z : w64 (i64 z) = w64 z.
Proof.
  unfold w64, i64. rewrite Zminus_mod_idemp_l.
  by replace (z + 2 ^ 63 - 2 ^ 63) with z by lia.
Qed.

(** ** Big-endian byte strings *)

Fixpoint be_bytes (n : nat) (v : Z) : bytes :=
  match n with
  | O => []
  | S n' => bZ (v / 256 ^ Z.of_nat n') :: be_bytes n' v
  end.

Fixpoint be_val (l : bytes) : Z :=
  match l with
  | [] => 0
  | b :: l' => Zb b * 256 ^ Z.of_nat (length l') + be_val l'
  end.

Lemma length_be_bytes n v : length (be_bytes n v) = n.
Proof. induction n; simpl; congruence. Qed.

Lemma be_val_range l : 0 <= be_val l < 256 ^ Z.of_nat (length l).
Proof.
  induction l as [|b l IH]; [simpl; lia|]. cbn [be_val length].
  rewrite Nat2Z.inj_succ, Z.pow_succ_r by lia.
  pose proof (Zb_range b). nia.
Qed.

Lemma be_val_be_bytes n v : be_val (be_bytes n v) = v mod 256 ^ Z.of_nat n.
Proof.
  induction n as [|n IH]; [simpl; by rewrite Z.mod_1_r|].
  cbn [be_bytes be_val]. rewrite length_be_bytes, IH, Zb_bZ.
  rewrite Nat2Z.inj_succ, Z.pow_succ_r, (Z.mul_comm 256) by lia.
  rewrite Z.rem_mul_r by lia. lia.
Qed.

Lemma be_bytes_inj n v w :
  0 <= v < 256 ^ Z.of_nat n -> 0 <= w < 256 ^ Z.of_nat n ->
  be_bytes n v = be_bytes n w -> v = w.
Proof.
  intros Hv Hw H%(f_equal be_val).
  by rewrite !be_val_be_bytes, !Z.mod_small in H.
Qed.

(** ** Outcomes of a call

    A Go call returns its value, returns an error, or panics. *)

Inductive res (E A : Type) : Type :=
| Ok (a : A)
| Err (e : E)
| Panic.
Arguments Ok {E A} a.
Arguments Err {E A} e.
Arguments Panic {E A}.

Definition is_ok {E A} (r : res E A) : bool := if r is Ok _ then true else false.

Definition res_map_err {E E' A} (f : E -> E') (r : res E A) : res E' A :=
  match r with Ok a => Ok a | Err e => Err (f e) | Panic => Panic end.

(** A computation that threads a state and may return an error early; as in
    Go, the state reached so far survives the error. *)
Definition SE (S E A : Type) : Type := S -> res E A * S.

#[export] Instance SE_ret S E : MRet (SE S E) := fun A a s => (Ok a, s).
#[export] Instance SE_bind S E : MBind (SE S E) := fun A B k m s =>
  match m s with
  | (Ok a, s') => k a s'
  | (Err e, s') => (Err e, s')
  | (Panic, s') => (Panic, s')
  end.

Definition throw {S E A} (e : E) : SE S E A := fun s => (Err e, s).
Definition panic {S E A} : SE S E A := fun s => (Panic, s).
Definition gets {S E A} (f : S -> A) : SE S E A := fun s => (Ok (f s), s).
Definition modify {S E} (f : S -> S) : SE S E unit := fun s => (Ok tt, f s).
(** [if c { return e }] *)
Definition throw_if {S E} (c : bool) (e : E) : SE S E unit :=
  if c then throw e else mret ().
Definition of_res {S E A} (r : res E A) : SE S E A := fun s => (r, s).
(** [if err != nil { return wrap(err) }] *)
Definition map_err {S E E' A} (f : E -> E') (m : SE S E A) : SE S E' A :=
  fun s => let '(r, s') := m s in (res_map_err f r, s').
Definition of_option {E A} (e : E) (o : option A) : res E A :=
  match o with Some a => Ok a | None => Err e end.

(** A result that is there unless the call panics. *)
Definition or_panic {E A} (o : option A) : res E A :=
  match o with Some a => Ok a | None => Panic end.

(** Run a computation on a part of the state. *)
Definition zoom {S T E A} (get : S -> T) (put : T -> S -> S) (m : SE T E A) : SE S E A :=
  fun s => let '(r, t) := m (get s) in (r, put t s).

(** ** Equations of computations *)

Section equations.
Context {S E A B : Type}.
Implicit Types (k : A -> SE S E B) (s : S).

Lemma bind_eq (m : SE S E A) k s :
  (m ≫= k) s = match m s with
               | (Ok a, s') => k a s' | (Err e, s') => (Err e, s') | (Panic, s') => (Panic, s')
               end.
Proof. reflexivity. Qed.

Lemma gets_bind (f : S -> A) k s : (gets f ≫= k) s = k (f s) s.
Proof. reflexivity. Qed.

Lemma modify_bind (f : S -> S) (k : unit -> SE S E B) s : (modify f ≫= k) s = k () (f s).
Proof. reflexivity. Qed.

Lemma throw_if_bind c e (k : unit -> SE S E B) s :
  (throw_if c e ≫= k) s = if c then (Err e, s) else k () s.
Proof. by destruct c. Qed.

Lemma of_res_bind (r : res E A) k s :
  (of_res r ≫= k) s = match r with Ok a => k a s | Err e => (Err e, s) | Panic => (Panic, s) end.
Proof. by destruct r. Qed.

Lemma or_panic_bind (o : option A) k s :
  (of_res (or_panic o) ≫= k) s = match o with Some a => k a s | None => (Panic, s) end.
Proof. by destruct o. Qed.

Lemma mret_bind (a : A) k s : (mret (M := SE S E) a ≫= k) s = k a s.
Proof. reflexivity. Qed.

Lemma mret_eq (a : A) s : mret (M := SE S E) a s = (Ok a, s).
Proof. reflexivity. Qed.
End equations.

(** ** Generic lemmas *)

Lemma SE_bind_Ok {S E A B} (m : SE S E A) (k : A -> SE S E B) s b s' :
  (m ≫= k) s = (Ok b, s') -> exists a s1, m s = (Ok a, s1) /\ k a s1 = (Ok b, s').
Proof. unfold mbind, SE_bind. destruct (m s) as [[a|e|] s1]; intros; simplify_eq; eauto. Qed.

Lemma map_err_Ok {S E E' A} (f : E -> E') (m : SE S E A) s a s' :
  map_err f m s = (Ok a, s') -> m s = (Ok a, s').
Proof. unfold map_err. destruct (m s) as [[]]; intros; by simplify_eq/=. Qed.

Lemma of_option_Ok {E A} (e : E) (o : option A) a : of_option e o = Ok a -> o = Some a.
Proof. destruct o; intros; by simplify_eq/=. Qed.

Lemma bool_decide_bytes (x y : bytes) : bool_decide (x = y) = true <-> x = y.
Proof. apply bool_decide_eq_true. Qed.

Lemma cons_inj_both {A} (x y : A) l k : x :: l = y :: k -> x = y /\ l = k.
Proof. intros H. by injection H. Qed.

Lemma app_inj_len {A} (l1 l2 k1 k2 : list A) :
  length l1 = length l2 -> l1 ++ k1 = l2 ++ k2 -> l1 = l2 /\ k1 = k2.
Proof. apply app_inj_1. Qed.

Lemma take_prefix_of {A} n (l : list A) : take n l `prefix_of` l.
Proof. exists (drop n l). by rewrite take_drop. Qed.

(** ** Histories

    A cell of some state, observed along a history: each event either sets it,
    or keeps or clears the value it has. Its value is what the last event that
    set it left, provided every later event kept it. *)

Section history.
Context {Ev V : Type} (cell : list Ev -> option V) (sets : Ev -> option V) (keeps : Ev -> V -> bool).
Context (cell_nil : cell [] = None).
Context (cell_snoc : forall h e, cell (h ++ [e]) =
  match sets e with
  | Some v => Some v
  | None => match cell h with Some v => if keeps e v then Some v else None | None => None end
  end).

Lemma cell_history h v :
  cell h = Some v <->
  exists h1 e h2, h = h1 ++ e :: h2 /\ sets e = Some v /\
                  Forall (fun e' => sets e' = None /\ keeps e' v = true) h2.
Proof using cell_nil cell_snoc.
  induction h as [|e h IH] using rev_ind.
  - rewrite cell_nil. split; [done|]. intros (h1 & e & h2 & Hh & _). by destruct h1.
  - rewrite cell_snoc. split.
    + destruct (sets e) as [v'|] eqn:Hs.
      * intros [= ->]. exists h, e, []. split_and!; [done|done|constructor].
      * destruct (cell h) as [v'|] eqn:Hc; [|done]. destruct (keeps e v') eqn:Hk; [|done].
        intros [= ->]. destruct (proj1 IH eq_refl) as (h1 & e' & h2 & -> & ? & ?).
        exists h1, e', (h2 ++ [e]). rewrite <- app_assoc. split_and!; [done|done|].
        apply Forall_app. split; [done|]. by repeat constructor.
    + intros (h1 & e' & h2 & Hh & Hs & Hf).
      destruct (decide (h2 = [])) as [->|Hne].
      * apply app_inj_tail in Hh as [-> ->]. by rewrite Hs.
      * destruct (exists_last Hne) as (h2' & e'' & ->). rewrite app_comm_cons, app_assoc in Hh.
        apply app_inj_tail in Hh as [-> <-]. apply Forall_app in Hf as [Hf [Hn Hk]%Forall_inv].
        rewrite Hn, (proj2 IH), Hk; [done|]. by exists h1, e', h2'.
Qed.
End history.

(** ** Automation *)

Create HintDb rook discriminated.
#[export] Hint Resolve Zb_range be_val_range i32_range : rook.
Create Rewrite HintDb rookrw.
#[export] Hint Rewrite @length_be_bytes be_val_be_bytes Zb_bZ bZ_Zb : rookrw.

(** Case analysis on every scrutinee of the goal, solving the easy cases. *)
Ltac split_cases :=
  repeat (case_match; simplify_eq/=); try done.

(** Undo one step of a computation that returned. *)
Ltac bind_Ok H :=
  let a := fresh "a" in let s := fresh "s" in let H' := fresh "H" in
  apply SE_bind_Ok in H as (a & s & H' & H); try apply map_err_Ok in H'.

(** Split an equation of lists into equations of elements, without reducing
    the elements. *)
Ltac cons_eqs H :=
  repeat (let H' := fresh "Heq" in apply cons_inj_both in H as [H' H]).

(** Evaluate the closed decisions of the goal. *)
Ltac eval_bool_decide :=
  repeat match goal with
  | |- context [bool_decide ?P] =>
    let b := eval vm_compute in (bool_decide P) in
    match b with
    | true => change (bool_decide P) with true
    | false => change (bool_decide P) with false
    end
  end.
