(* ===== verification/Threads.v ===== *)
(** * Threads that interleave at their critical sections

    A handler as a program: a tree of atomic sections, each run under one lock,
    between which other threads may run. Run alone it is a computation of the
    sequential monad. A program may note facts, in the section that makes them
    true; the log of them is the history the theorems speak of. [wp] is the
    weakest precondition against an invariant that holds whenever no section is
    running, and [pool_safe] is its adequacy for a pool of threads under any
    schedule, crashes and restarts of the process included. *)

From S2P Require Import Prelude.

Section threads.
Context {S E F : Type}.

(** A section and what follows it both depend on the state it starts in. *)
Inductive prog (A : Type) : Type :=
| Ret (r : res E A)
| Act (go : S -> list F * S) (next : S -> prog A).
#[global] Arguments Ret {A} r.
#[global] Arguments Act {A} go next.

#[global] Instance prog_ret : MRet prog := fun A a => Ret (Ok a).
Fixpoint prog_bind {A B : Type} (k : A -> prog B) (p : prog A) : prog B :=
  match p with
  | Ret (Ok a) => k a
  | Ret (Err e) => Ret (Err e)
  | Ret Panic => Ret Panic
  | Act go next => Act go (fun s => prog_bind k (next s))
  end.
#[global] Instance prog_mbind : MBind prog := @prog_bind.

(** One section, with what it notes. *)
Definition atom {A : Type} (m : SE S E A) (note : res E A -> list F) : prog A :=
  Act (fun s => (note (fst (m s)), snd (m s))) (fun s => Ret (fst (m s))).
Definition silent {A : Type} (m : SE S E A) : prog A := atom m (fun _ => []).

Definition prog_void {A : Type} (p : prog A) : prog unit := _ ← p; mret ().

(** ** Alone *)

Fixpoint alone {A : Type} (p : prog A) (s : S) : res E A * S :=
  match p with
  | Ret r => (r, s)
  | Act go next => alone (next s) (snd (go s))
  end.

Lemma alone_atom {A} (m : SE S E A) note s : alone (atom m note) s = m s.
Proof. unfold atom. cbn. by destruct (m s). Qed.

Lemma alone_bind {A B} (p : prog A) (k : A -> prog B) (m : SE S E A) (k' : A -> SE S E B) s :
  (forall s, alone p s = m s) -> (forall a s, alone (k a) s = k' a s) -> alone (p ≫= k) s = (m ≫= k') s.
Proof.
  intros Hp Hk. rewrite bind_eq, <- Hp. clear Hp m. unfold mbind, prog_mbind.
  induction p as [[a|e|]|go next IH] in s |- *; cbn; [apply Hk|done|done|apply IH].
Qed.

(** ** Weakest preconditions *)

Context (inv : list F -> S -> Prop).

Fixpoint wp {A : Type} (Q : list F -> A -> Prop) (p : prog A) (L : list F) : Prop :=
  match p with
  | Ret (Ok a) => Q L a
  | Ret _ => True
  | Act go next => forall L' s, L `prefix_of` L' -> inv L' s ->
      inv (L' ++ fst (go s)) (snd (go s)) /\ wp Q (next s) (L' ++ fst (go s))
  end.

Lemma wp_ret {A} Q (a : A) L : Q L a -> wp Q (mret a) L.
Proof. done. Qed.

Lemma wp_bind {A B} Q (p : prog A) (k : A -> prog B) L :
  wp (fun L a => wp Q (k a) L) p L -> wp Q (p ≫= k) L.
Proof.
  unfold mbind, prog_mbind. induction p as [[a|e|]|go next IH] in L |- *; cbn; [done..|].
  intros Hf L' s HL Hs. destruct (Hf L' s HL Hs) as [Hi Hp]. split; [done|]. by apply IH.
Qed.

Lemma wp_atom {A} Q (m : SE S E A) note L :
  (forall L' s, L `prefix_of` L' -> inv L' s ->
     inv (L' ++ note (fst (m s))) (snd (m s)) /\
     forall a, fst (m s) = Ok a -> Q (L' ++ note (fst (m s))) a) ->
  wp Q (atom m note) L.
Proof.
  intros Hm L' s HL Hs. destruct (Hm L' s HL Hs) as [Hi Hq]. split; [done|]. cbn. destruct (fst (m s)); auto.
Qed.

(** A section that notes nothing. *)
Lemma wp_silent {A} Q (m : SE S E A) L :
  (forall L' s, L `prefix_of` L' -> inv L' s ->
     inv L' (snd (m s)) /\ forall a, fst (m s) = Ok a -> Q L' a) ->
  wp Q (silent m) L.
Proof.
  intros Hm. apply wp_atom. intros L' s HL Hs. destruct (Hm L' s HL Hs) as [Hi Hq].
  rewrite app_nil_r. by split.
Qed.

Lemma wp_wand {A} (Q Q' : list F -> A -> Prop) p L :
  wp Q p L -> (forall L' a, L `prefix_of` L' -> Q L' a -> Q' L' a) -> wp Q' p L.
Proof.
  induction p as [[a|e|]|go next IH] in L |- *; cbn; intros Hp HQ; [by apply HQ|done..|].
  intros L' s HL Hs. destruct (Hp L' s HL Hs) as [Hi Hn]. split; [done|]. apply IH; [done|].
  intros L2 a HL2. apply HQ. etrans; [exact HL|]. etrans; [by apply prefix_app_r|exact HL2].
Qed.

(** A thread may be put off. *)
Lemma wp_later {A} (p : prog A) L L' : L `prefix_of` L' -> wp (fun _ _ => True) p L -> wp (fun _ _ => True) p L'.
Proof.
  intros HL. destruct p as [[a|e|]|go next]; cbn; [done..|]. intros Hp L2 s HL2. apply Hp. by etrans.
Qed.

(** ** The pool *)

Context {C R : Type} (code : C -> prog unit) (boot : R -> S -> option S).

Record system := MkSystem { state : S; pool : list (prog unit); log : list F }.

(** A call arrives; a thread runs its next section; the process dies with every
    thread of it and another one comes up, when it does. *)
Inductive move := Spawn (c : C) | Run (i : nat) | Crash (r : R).

Definition run_thread (i : nat) (x : system) : system :=
  match pool x !! i with
  | Some (Act go next) =>
    let '(l, s) := go (state x) in MkSystem s (<[i := next (state x)]> (pool x)) (log x ++ l)
  | _ => x
  end.
Definition make (x : system) (m : move) : system :=
  match m with
  | Spawn c => MkSystem (state x) (pool x ++ [code c]) (log x)
  | Run i => run_thread i x
  | Crash r => match boot r (state x) with Some s => MkSystem s [] (log x) | None => x end
  end.
Definition moves (ms : list move) (x : system) : system := fold_left make ms x.

Lemma make_log x m : log x `prefix_of` log (make x m).
Proof.
  destruct m as [c|i|r]; cbn; [done| |by destruct (boot r (state x))].
  unfold run_thread. destruct (pool x !! i) as [[|go next]|]; [done| |done].
  destruct (go (state x)) as [l s]. cbn. by apply prefix_app_r.
Qed.

(** Adequacy. *)
Definition safe (x : system) : Prop :=
  inv (log x) (state x) /\ Forall (fun p => wp (fun _ _ => True) p (log x)) (pool x).

(** Booting keeps the invariant, with nothing noted. *)
Definition boots_safely : Prop := forall L r s s', inv L s -> boot r s = Some s' -> inv L s'.

Lemma make_safe x m : (forall c, wp (fun _ _ => True) (code c) []) -> boots_safely -> safe x -> safe (make x m).
Proof.
  intros Hc Hboot [Hi Hp]. destruct m as [c|i|r]; cbn; cycle 2.
  { destruct (boot r (state x)) as [s|] eqn:Hr; [|by split]. split; [by eapply Hboot|constructor]. }
  - split; [done|]. cbn [pool log]. apply Forall_app. split; [done|]. repeat constructor.
    apply (wp_later _ []); [apply prefix_nil|apply Hc].
  - unfold run_thread. destruct (pool x !! i) as [[r|go next]|] eqn:Hx; [by split| |by split].
    destruct (proj1 (Forall_lookup _ _) Hp i _ Hx (log x) (state x) ltac:(done) Hi) as [Hi' Hp'].
    destruct (go (state x)) as [l s]. split; [done|]. cbn [pool log].
    apply Forall_insert; [|exact Hp']. eapply List.Forall_impl; [|exact Hp]. intros q Hq.
    apply (wp_later _ (log x)); [by apply prefix_app_r|exact Hq].
Qed.

Lemma pool_safe x ms : (forall c, wp (fun _ _ => True) (code c) []) -> boots_safely -> safe x -> safe (moves ms x).
Proof.
  intros Hc Hboot. unfold moves. induction ms as [|m ms IH] in x |- *; intros Hx; [done|]. by apply IH, make_safe.
Qed.

(** Every thread ends after finitely many sections of its own; run without a
    break, it does what its program does alone. *)
Lemma thread_ends i p x : pool x !! i = Some p ->
  exists n, let x' := moves (repeat (Run i) n) x in
    state x' = snd (alone p (state x)) /\ pool x' !! i = Some (Ret (fst (alone p (state x)))) /\
    (forall j, j <> i -> pool x' !! j = pool x !! j).
Proof.
  induction p as [r|go next IH] in x |- *; intros Hx; [by exists 0%nat|].
  pose proof (lookup_lt_Some _ _ _ Hx) as Hlt.
  destruct (IH (state x) (make x (Run i))) as (n & Hs & Hp & Hj).
  { cbn. unfold run_thread. rewrite Hx. destruct (go (state x)). by apply list_lookup_insert_eq. }
  assert (state (make x (Run i)) = snd (go (state x))) as Hst.
  { cbn. unfold run_thread. rewrite Hx. by destruct (go (state x)). }
  rewrite Hst in Hs, Hp. exists (Datatypes.S n). cbn [repeat]. split_and!; [exact Hs|exact Hp|].
  intros j Hne. change (moves (Run i :: repeat (Run i) n) x) with (moves (repeat (Run i) n) (make x (Run i))).
  rewrite Hj by done. cbn. unfold run_thread. rewrite Hx. destruct (go (state x)). by apply list_lookup_insert_ne.
Qed.
End threads.
Arguments prog : clear implicits.
Arguments system : clear implicits.
Arguments move : clear implicits.
