(* ===== verification/GoStrings.v ===== *)
(** * The parts of Go's [strings], [strconv], [unicode/utf8], [encoding/hex] and
    [fmt] the program uses, on byte strings. *)

From S2P Require Import Prelude.

(** ** UTF-8

    [utf8.ValidString]: the table of first bytes and the accept ranges of the
    second byte are the ones of the Unicode standard, which Go follows. *)

Definition in_range (lo hi : Z) (b : byte) : bool := (lo <=? Zb b) && (Zb b <=? hi).
Definition is_cont (b : byte) : bool := in_range 0x80 0xBF b.

(** The second byte a first byte of a 3- or 4-byte rune accepts. *)
Definition accept2 (b0 b1 : byte) : bool :=
  let c0 := Zb b0 in
  if c0 =? 0xE0 then in_range 0xA0 0xBF b1
  else if c0 =? 0xED then in_range 0x80 0x9F b1
  else if c0 =? 0xF0 then in_range 0x90 0xBF b1
  else if c0 =? 0xF4 then in_range 0x80 0x8F b1
  else is_cont b1.

(** The length of the valid rune encoding [s] starts with, if it does. *)
Definition rune_len (s : bytes) : option nat :=
  match s with
  | [] => None
  | b0 :: s1 =>
    if in_range 0x00 0x7F b0 then Some 1%nat
    else match s1 with
    | [] => None
    | b1 :: s2 =>
      if in_range 0xC2 0xDF b0 then (if is_cont b1 then Some 2%nat else None)
      else match s2 with
      | [] => None
      | b2 :: s3 =>
        if in_range 0xE0 0xEF b0 then
          (if accept2 b0 b1 && is_cont b2 then Some 3%nat else None)
        else match s3 with
        | [] => None
        | b3 :: _ =>
          if in_range 0xF0 0xF4 b0 then
            (if accept2 b0 b1 && is_cont b2 && is_cont b3 then Some 4%nat else None)
          else None
        end
      end
    end
  end.

Fixpoint utf8_valid_go (fuel : nat) (s : bytes) : bool :=
  match s, fuel with
  | [], _ => true
  | _, O => false
  | _, S fuel' =>
    match rune_len s with
    | Some n => utf8_valid_go fuel' (drop n s)
    | None => false
    end
  end.

(** [utf8.ValidString]; every rune is at least one byte, so [length s] steps
    always reach the end ([utf8_valid_step]). *)
Definition utf8_valid (s : bytes) : bool := utf8_valid_go (length s) s.

(** Runes as data: a valid rune encoding. *)
Definition is_rune (r : bytes) : Prop := rune_len r = Some (length r).

Lemma rune_len_bounds s n : rune_len s = Some n -> (1 <= n <= length s)%nat.
Proof.
  unfold rune_len. intros H.
  repeat (case_match; simplify_eq/=); lia.
Qed.

(** Case analysis on the tests of [rune_len] in hypothesis [H]. *)
Ltac rune_cases H :=
  repeat (case_match; simplify_eq/=);
  rewrite ?andb_true_iff in *; destruct_and?.

Lemma rune_len_app r t : is_rune r -> rune_len (r ++ t) = Some (length r).
Proof.
  unfold is_rune, rune_len. intros H.
  destruct r as [|b0 [|b1 [|b2 [|b3 r]]]]; simpl in *;
    rune_cases H; done || congruence || (f_equal; lia).
Qed.

Lemma rune_len_take s n : rune_len s = Some n -> is_rune (take n s).
Proof.
  unfold is_rune. intros H.
  assert (length (take n s) = n) as ->.
  { apply rune_len_bounds in H. rewrite length_take. lia. }
  revert H. unfold rune_len. intros H.
  destruct s as [|b0 [|b1 [|b2 [|b3 s]]]]; simpl in *; rune_cases H; simpl;
    repeat (case_match; simplify_eq/=); try done.
Qed.

Lemma accept2_cont b0 b1 : accept2 b0 b1 = true -> is_cont b1 = true.
Proof. unfold accept2, is_cont, in_range. repeat case_match; lia. Qed.

(** The first byte of a rune is not a continuation byte, the others are. *)
Lemma rune_head_tail r :
  is_rune r ->
  exists b0 t, r = b0 :: t /\ is_cont b0 = false /\ Forall (fun b => is_cont b = true) t.
Proof.
  unfold is_rune. intros H.
  destruct r as [|b0 r]; [done|]. exists b0, r. split; [done|].
  destruct r as [|b1 [|b2 [|b3 r]]]; simpl in *; rune_cases H;
    repeat match goal with
    | H : Some _ = Some _ |- _ => injection H as H
    | H : context [length _] |- _ => destruct r; [clear H|simpl in H; lia]
    end.
  all: split; [unfold is_cont, in_range in *; lia|].
  all: eauto using Forall_cons_2, accept2_cont.
Qed.

Lemma utf8_valid_go_fuel f1 f2 s :
  (length s <= f1)%nat -> (length s <= f2)%nat -> utf8_valid_go f1 s = utf8_valid_go f2 s.
Proof.
  revert f2 s. induction f1 as [|f1 IH]; intros f2 s H1 H2.
  - destruct s; [by destruct f2|simpl in *; lia].
  - destruct s as [|b s]; [by destruct f2|].
    destruct f2 as [|f2]; [simpl in *; lia|]. cbn [utf8_valid_go].
    destruct (rune_len (b :: s)) as [n|] eqn:E; [|done].
    apply rune_len_bounds in E. apply IH; rewrite length_drop; lia.
Qed.

Lemma utf8_valid_step s n :
  rune_len s = Some n -> utf8_valid s = utf8_valid (drop n s).
Proof.
  intros E. pose proof (rune_len_bounds _ _ E) as Hb. unfold utf8_valid.
  destruct s as [|b s]; [simpl in *; lia|].
  change (length (b :: s)) with (S (length s)). cbn [utf8_valid_go]. rewrite E.
  apply utf8_valid_go_fuel; rewrite length_drop; simpl in *; lia.
Qed.

Lemma utf8_valid_stuck s : rune_len s = None -> s <> [] -> utf8_valid s = false.
Proof. unfold utf8_valid. destruct s; [done|]. cbn [length utf8_valid_go]. by intros ->. Qed.

Lemma utf8_valid_rune_app r t : is_rune r -> utf8_valid (r ++ t) = utf8_valid t.
Proof.
  intros Hr. rewrite (utf8_valid_step _ _ (rune_len_app _ t Hr)).
  by rewrite drop_app_length.
Qed.

Lemma utf8_valid_inv s :
  utf8_valid s = true -> s = [] \/ exists r t, is_rune r /\ s = r ++ t /\ utf8_valid t = true.
Proof.
  intros H. destruct (decide (s = [])) as [->|Hne]; [by left|right].
  destruct (rune_len s) as [n|] eqn:E.
  - exists (take n s), (drop n s). rewrite take_drop.
    split; [by apply rune_len_take|]. split; [done|].
    by rewrite <- (utf8_valid_step _ _ E).
  - by rewrite utf8_valid_stuck in H.
Qed.

(** A valid string is a concatenation of runes, and conversely. *)
Lemma utf8_valid_runes s :
  utf8_valid s = true <-> exists rs, Forall is_rune rs /\ s = concat rs.
Proof.
  split.
  - remember (length s) as n eqn:En. revert s En.
    induction n as [n IH] using lt_wf_ind. intros s -> H.
    destruct (utf8_valid_inv _ H) as [->|(r & t & Hr & -> & Ht)].
    + by exists [].
    + destruct (IH (length t)) with (s := t) as (rs & Hrs & ->); [|done..|].
      { pose proof (rune_len_bounds _ _ Hr). rewrite length_app. lia. }
      exists (r :: rs). split; [by constructor|done].
  - intros (rs & Hrs & ->). induction Hrs as [|r rs Hr _ IH]; [done|].
    cbn [concat]. by rewrite utf8_valid_rune_app.
Qed.

Lemma utf8_valid_app a b :
  utf8_valid a = true -> utf8_valid (a ++ b) = utf8_valid b.
Proof.
  intros (rs & Hrs & ->)%utf8_valid_runes.
  induction Hrs as [|r rs Hr _ IH]; [done|].
  cbn [concat]. by rewrite <- app_assoc, utf8_valid_rune_app.
Qed.

(** A proper non-empty prefix of a rune is not valid. *)
Lemma utf8_rune_prefix_invalid r n :
  is_rune r -> (0 < n < length r)%nat -> utf8_valid (take n r) = false.
Proof.
  intros Hr Hn. destruct (utf8_valid (take n r)) eqn:E; [|done]. exfalso.
  destruct (utf8_valid_inv _ E) as [H0|(r' & t & Hr' & Ht & _)].
  - apply (f_equal length) in H0. rewrite length_take in H0. simpl in H0. lia.
  - assert (r = r' ++ (t ++ drop n r)) as Heq.
    { by rewrite app_assoc, <- Ht, take_drop. }
    pose proof (rune_len_app r' (t ++ drop n r) Hr') as Hl.
    rewrite <- Heq, Hr in Hl. injection Hl as Hl.
    apply (f_equal length) in Ht. rewrite length_app, length_take in Ht. lia.
Qed.

(** The cut points of a valid string that leave a valid prefix are exactly the
    rune boundaries: the end, and the offsets of a byte that is not a
    continuation byte. *)
Lemma utf8_cut_valid s n :
  utf8_valid s = true -> (n <= length s)%nat ->
  (utf8_valid (take n s) = true <->
   n = length s \/ exists b, s !! n = Some b /\ is_cont b = false).
Proof.
  intros (rs & Hrs & ->)%utf8_valid_runes. revert n.
  induction Hrs as [|r rs Hr Hrs IH]; intros n Hn.
  { simpl in *. rewrite take_nil. split; [left; lia|done]. }
  cbn [concat] in *. set (t := concat rs) in *.
  destruct (rune_head_tail _ Hr) as (b0 & rt & Er & Hb0 & Hrt).
  rewrite length_app in Hn.
  destruct (decide (n = 0)%nat) as [->|Hn0].
  { rewrite take_0. split; [|done]. intros _. right. exists b0. by rewrite Er. }
  destruct (decide (n < length r)%nat) as [Hlt|Hge].
  - rewrite take_app_le by lia. rewrite utf8_rune_prefix_invalid by (done || lia).
    rewrite length_app, lookup_app_l by lia. split; [done|].
    intros [->|(b & Hb & Hc)]; [lia|]. rewrite Er in Hb.
    destruct n as [|n]; [done|]. simpl in Hb.
    pose proof (Forall_lookup_1 _ _ _ _ Hrt Hb) as Hcb. simpl in Hcb. congruence.
  - rewrite take_app_ge by lia. rewrite utf8_valid_rune_app by done.
    rewrite IH by lia. rewrite length_app, lookup_app_r by lia.
    split; (intros [?|?]; [left; lia|by right]).
Qed.

(** ** [strings.TrimSpace] *)

(** The encodings of the runes of [unicode.IsSpace] by their length. *)
Definition space1 (b : byte) : bool := in_range 9 13 b || (Zb b =? 32).
Definition space2 (b0 b1 : byte) : bool :=
  (Zb b0 =? 0xC2) && ((Zb b1 =? 0x85) || (Zb b1 =? 0xA0)).
Definition space3 (b0 b1 b2 : byte) : bool :=
  ((Zb b0 =? 0xE1) && (Zb b1 =? 0x9A) && (Zb b2 =? 0x80))
  || ((Zb b0 =? 0xE2) && (Zb b1 =? 0x80)
      && (in_range 0x80 0x8A b2 || in_range 0xA8 0xA9 b2 || (Zb b2 =? 0xAF)))
  || ((Zb b0 =? 0xE2) && (Zb b1 =? 0x81) && (Zb b2 =? 0x9F))
  || ((Zb b0 =? 0xE3) && (Zb b1 =? 0x80) && (Zb b2 =? 0x80)).

(** Length of the white-space rune at the front of [s]; [lead_space_r] reads
    the reversed string, where the last rune comes first, byte by byte. *)
Definition lead_space_with (p2 : byte -> byte -> bool) (p3 : byte -> byte -> byte -> bool)
    (s : bytes) : option nat :=
  match s with
  | b0 :: s1 =>
    if space1 b0 then Some 1%nat else
    match s1 with
    | b1 :: s2 =>
      if p2 b0 b1 then Some 2%nat else
      match s2 with
      | b2 :: _ => if p3 b0 b1 b2 then Some 3%nat else None
      | [] => None
      end
    | [] => None
    end
  | [] => None
  end.
Definition lead_space : bytes -> option nat := lead_space_with space2 space3.
Definition lead_space_r : bytes -> option nat :=
  lead_space_with (fun b1 b0 => space2 b0 b1) (fun b2 b1 b0 => space3 b0 b1 b2).

(** Drop what [f] finds at the front, while it finds something. *)
Fixpoint strip (f : bytes -> option nat) (fuel : nat) (s : bytes) : bytes :=
  match fuel with
  | O => s
  | S fuel' => match f s with Some n => strip f fuel' (drop n s) | None => s end
  end.

Definition TrimLeftSpace (s : bytes) : bytes := strip lead_space (length s) s.
Definition TrimRightSpace (s : bytes) : bytes := rev (strip lead_space_r (length s) (rev s)).
Definition TrimSpace (s : bytes) : bytes := TrimRightSpace (TrimLeftSpace s).

Lemma lead_space_with_bounds p2 p3 s n :
  lead_space_with p2 p3 s = Some n -> (1 <= n <= length s)%nat.
Proof. unfold lead_space_with. intros. repeat (case_match; simplify_eq/=); lia. Qed.

Lemma lead_space_with_app p2 p3 s t n :
  lead_space_with p2 p3 s = Some n -> is_Some (lead_space_with p2 p3 (s ++ t)).
Proof.
  unfold lead_space_with. intros H.
  destruct s as [|b0 [|b1 [|b2 s]]]; simpl in *; repeat (case_match; simplify_eq/=); eauto.
Qed.

Section strip.
Context (f : bytes -> option nat) (Hf : forall s n, f s = Some n -> (1 <= n <= length s)%nat).

Lemma strip_stuck fuel s : (length s <= fuel)%nat -> f (strip f fuel s) = None.
Proof using Hf.
  revert s. induction fuel as [|fuel IH]; intros s Hs; simpl.
  - destruct (f s) as [n|] eqn:E; [|done]. apply Hf in E. lia.
  - destruct (f s) as [n|] eqn:E; [|done]. apply IH.
    apply Hf in E. rewrite length_drop. lia.
Qed.

Lemma strip_id fuel s : f s = None -> strip f fuel s = s.
Proof using. destruct fuel; simpl; [done|]. by intros ->. Qed.

Lemma strip_suffix fuel s : strip f fuel s `suffix_of` s.
Proof using.
  revert s. induction fuel as [|fuel IH]; intros s; simpl; [done|].
  destruct (f s) as [n|]; [|done].
  transitivity (drop n s); [apply IH|]. exists (take n s). by rewrite take_drop.
Qed.
End strip.

Lemma TrimLeftSpace_stuck s : lead_space (TrimLeftSpace s) = None.
Proof. apply strip_stuck; [apply lead_space_with_bounds|done]. Qed.

Lemma TrimRightSpace_stuck s : lead_space_r (rev (TrimRightSpace s)) = None.
Proof.
  unfold TrimRightSpace. rewrite rev_involutive.
  apply strip_stuck; [apply lead_space_with_bounds|]. by rewrite length_rev.
Qed.

Lemma TrimRightSpace_prefix s : TrimRightSpace s `prefix_of` s.
Proof.
  unfold TrimRightSpace. destruct (strip_suffix lead_space_r (length s) (rev s)) as [k Hk].
  exists (rev k). rewrite <- rev_app_distr, <- Hk. by rewrite rev_involutive.
Qed.

Lemma TrimSpace_stuck s : lead_space (TrimSpace s) = None.
Proof.
  unfold TrimSpace. destruct (TrimRightSpace_prefix (TrimLeftSpace s)) as [k Hk].
  destruct (lead_space (TrimRightSpace (TrimLeftSpace s))) as [n|] eqn:E; [|done].
  apply (lead_space_with_app _ _ _ k) in E as [m Hm].
  rewrite <- Hk in Hm. pose proof (TrimLeftSpace_stuck s) as Hs.
  unfold lead_space in Hs. congruence.
Qed.

(** A string that neither starts nor ends with a space is left alone, so
    trimming is idempotent. *)
Lemma TrimSpace_id s : lead_space s = None -> lead_space_r (rev s) = None -> TrimSpace s = s.
Proof.
  intros H1 H2. unfold TrimSpace, TrimLeftSpace, TrimRightSpace.
  rewrite (strip_id _ _ s), strip_id by done. apply rev_involutive.
Qed.

Lemma TrimSpace_idem s : TrimSpace (TrimSpace s) = TrimSpace s.
Proof. apply TrimSpace_id; [apply TrimSpace_stuck|apply TrimRightSpace_stuck]. Qed.

Lemma TrimSpace_length s : (length (TrimSpace s) <= length s)%nat.
Proof.
  unfold TrimSpace. etransitivity; [apply prefix_length, TrimRightSpace_prefix|].
  apply suffix_length, strip_suffix.
Qed.

Example TrimSpace_example :
  TrimSpace (str " compact " ++ [xc2; xa0; xe3; x80; x80]) = str "compact".
Proof. reflexivity. Qed.

(** ** Prefixes: [strings.HasPrefix], [strings.TrimPrefix] *)

Definition HasPrefix (s p : bytes) : bool := bool_decide (p = take (length p) s).
Definition TrimPrefix (s p : bytes) : bytes :=
  if HasPrefix s p then drop (length p) s else s.

Lemma HasPrefix_app p s : HasPrefix (p ++ s) p = true.
Proof. apply bool_decide_eq_true. by rewrite take_app_length. Qed.

Lemma HasPrefix_spec s p : HasPrefix s p = true -> s = p ++ TrimPrefix s p.
Proof.
  unfold TrimPrefix. intros H. rewrite H. apply bool_decide_eq_true in H.
  transitivity (take (length p) s ++ drop (length p) s); [by rewrite take_drop|].
  by rewrite <- H.
Qed.

Lemma TrimPrefix_app p s : TrimPrefix (p ++ s) p = s.
Proof. unfold TrimPrefix. by rewrite HasPrefix_app, drop_app_length. Qed.

(** ** Decimal integers: [strconv.Itoa], [strconv.FormatInt(_, 10)],
    [strconv.Atoi] and the verb [%d] *)

Definition digit (d : Z) : byte := bZ (48 + d).

Fixpoint dec_go (fuel : nat) (n : Z) (acc : bytes) : bytes :=
  match fuel with
  | O => acc
  | S fuel' =>
    let acc' := digit (n mod 10) :: acc in
    if n <? 10 then acc' else dec_go fuel' (n / 10) acc'
  end.

(** A number below [2 ^ k] has at most [k + 1] decimal digits. *)
Definition dec (n : Z) : bytes := dec_go (S (Z.to_nat (Z.log2 n))) n [].
Definition itoa (z : Z) : bytes := if z <? 0 then str "-" ++ dec (- z) else dec z.

Definition is_digit (b : byte) : bool := in_range 48 57 b.
Definition dec_val (s : bytes) : Z := fold_left (fun a b => 10 * a + (Zb b - 48)) s 0.

(** [strconv.Atoi] on a 64-bit platform: [None] for a syntax or range error. *)
Definition Atoi (s : bytes) : option Z :=
  let '(neg, ds) := match s with
                    | b :: s' => if Zb b =? 45 then (true, s')
                                 else if Zb b =? 43 then (false, s') else (false, s)
                    | [] => (false, [])
                    end in
  if bool_decide (ds = []) || negb (forallb is_digit ds) then None else
  let v := if (neg : bool) then - dec_val ds else dec_val ds in
  if (- 2 ^ 63 <=? v) && (v <? 2 ^ 63) then Some v else None.

Lemma Zb_digit d : 0 <= d < 10 -> Zb (digit d) = 48 + d.
Proof. intros. unfold digit. rewrite Zb_bZ, Z.mod_small; lia. Qed.

Lemma is_digit_digit d : 0 <= d < 10 -> is_digit (digit d) = true.
Proof. intros. unfold is_digit, in_range. rewrite Zb_digit by done. lia. Qed.

Lemma dec_val_app s t : dec_val (s ++ t) = fold_left (fun a b => 10 * a + (Zb b - 48)) t (dec_val s).
Proof. unfold dec_val. by rewrite fold_left_app. Qed.

(** The digits pushed before [acc] read as [n]. *)
Lemma dec_go_spec fuel n acc :
  0 <= n < 2 ^ Z.of_nat fuel -> (0 < fuel)%nat ->
  exists ds, dec_go fuel n acc = ds ++ acc /\ dec_val ds = n
             /\ forallb is_digit ds = true /\ ds <> []
             /\ (forall b, head ds = Some b -> n <> 0 -> Zb b <> 48).
Proof.
  revert n acc. induction fuel as [|fuel IH]; intros n acc Hn Hf; [lia|].
  rewrite Nat2Z.inj_succ, Z.pow_succ_r in Hn by lia. cbn [dec_go].
  pose proof (Z.mod_pos_bound n 10 ltac:(lia)) as Hm.
  destruct (Z.ltb_spec n 10) as [Hlt|Hge].
  - exists [digit (n mod 10)]. rewrite Z.mod_small by lia. split; [done|].
    cbn. rewrite Zb_digit, is_digit_digit by lia.
    repeat split; [lia|done|]. intros b [= <-] ?. rewrite Zb_digit by lia. lia.
  - pose proof (Z.div_mod n 10 ltac:(lia)) as Hdm.
    destruct (IH (n / 10) (digit (n mod 10) :: acc)) as (ds & -> & Hv & Hd & Hne & Hh).
    { split; [apply Z.div_pos; lia|]. apply Z.div_lt_upper_bound; lia. }
    { destruct fuel; [simpl in *; lia|lia]. }
    exists (ds ++ [digit (n mod 10)]). rewrite <- app_assoc. split; [done|].
    rewrite dec_val_app, Hv, forallb_app, Hd. cbn.
    rewrite Zb_digit, is_digit_digit by lia.
    repeat split; [lia|by destruct ds|].
    intros b Hb _. destruct ds as [|b' ds]; [done|]. cbn in Hb, Hh.
    apply Hh; [done|]. assert (1 <= n / 10) by (apply Z.div_le_lower_bound; lia). lia.
Qed.

Lemma dec_spec n :
  0 <= n -> dec_val (dec n) = n /\ forallb is_digit (dec n) = true /\ dec n <> []
            /\ (forall b, head (dec n) = Some b -> n <> 0 -> Zb b <> 48).
Proof.
  intros Hn. unfold dec.
  destruct (dec_go_spec (S (Z.to_nat (Z.log2 n))) n []) as (ds & -> & ?); [|lia|].
  - split; [done|]. rewrite Nat2Z.inj_succ, Z2Nat.id by apply Z.log2_nonneg.
    destruct (decide (n = 0)) as [->|]; [simpl; lia|]. apply Z.log2_spec. lia.
  - by rewrite app_nil_r.
Qed.

Lemma dec_inj m n : 0 <= m -> 0 <= n -> dec m = dec n -> m = n.
Proof.
  intros Hm Hn H. destruct (dec_spec m Hm) as [<- _], (dec_spec n Hn) as [<- _].
  by rewrite H.
Qed.

Lemma Atoi_itoa n : - 2 ^ 63 <= n < 2 ^ 63 -> Atoi (itoa n) = Some n.
Proof.
  intros Hn. unfold Atoi, itoa. destruct (Z.ltb_spec n 0) as [Hneg|Hpos].
  - destruct (dec_spec (- n) ltac:(lia)) as (Hv & Hd & Hne & _).
    change (str "-" ++ dec (- n)) with (x2d :: dec (- n)). cbv iota beta.
    change (Zb x2d =? 45) with true. cbv iota beta.
    rewrite bool_decide_eq_false_2 by done. rewrite Hd, Hv. cbn [orb negb]. rewrite Z.opp_involutive.
    destruct (Z.leb_spec (- 2 ^ 63) n); [|lia]. destruct (Z.ltb_spec n (2 ^ 63)); [done|lia].
  - destruct (dec_spec n ltac:(lia)) as (Hv & Hd & Hne & _).
    destruct (dec n) as [|b ds] eqn:E; [done|].
    assert (48 <= Zb b <= 57) as Hb.
    { cbn in Hd. apply andb_true_iff in Hd as [Hd _]. unfold is_digit, in_range in Hd. lia. }
    rewrite (proj2 (Z.eqb_neq _ _)) by lia. rewrite (proj2 (Z.eqb_neq _ _)) by lia.
    rewrite bool_decide_eq_false_2 by done. rewrite Hd, Hv. cbn [orb negb].
    destruct (Z.leb_spec (- 2 ^ 63) n); [|lia]. destruct (Z.ltb_spec n (2 ^ 63)); [done|lia].
Qed.

Lemma itoa_nonempty z : itoa z <> [].
Proof.
  unfold itoa. destruct (Z.ltb_spec z 0) as [|Hz]; [done|]. by destruct (dec_spec z Hz) as (_ & _ & ? & _).
Qed.

(** ** Hexadecimal: [hex.EncodeToString] and the verb [%x] *)

Definition hex_digit (d : Z) : byte := if d <? 10 then bZ (48 + d) else bZ (87 + d).
Definition hex_byte (b : byte) : bytes := [hex_digit (Zb b / 16); hex_digit (Zb b mod 16)].
Definition hex_encode (s : bytes) : bytes := concat (map hex_byte s).

Lemma hex_digit_inj c d :
  0 <= c < 16 -> 0 <= d < 16 -> hex_digit c = hex_digit d -> c = d.
Proof.
  intros Hc Hd H%(f_equal Zb). unfold hex_digit in H.
  destruct (Z.ltb_spec c 10), (Z.ltb_spec d 10);
    rewrite !Zb_bZ, !Z.mod_small in H; lia.
Qed.

#[export] Instance hex_byte_inj : Inj (=) (=) hex_byte.
Proof.
  intros b c [= H1 H2]. apply (inj Zb).
  pose proof (Zb_range b); pose proof (Zb_range c).
  apply hex_digit_inj in H1; [|Z.div_mod_to_equations; lia..].
  apply hex_digit_inj in H2; [|Z.div_mod_to_equations; lia..].
  rewrite (Z.div_mod (Zb b) 16), (Z.div_mod (Zb c) 16) by lia. lia.
Qed.

Lemma length_hex_encode s : length (hex_encode s) = (2 * length s)%nat.
Proof. unfold hex_encode. induction s; [done|]. cbn [map concat]. rewrite length_app, IHs. cbn. lia. Qed.

#[export] Instance hex_encode_inj : Inj (=) (=) hex_encode.
Proof.
  intros s. induction s as [|b s IH]; intros [|c t] H; [done..|].
  unfold hex_encode in H. cbn [map concat] in H.
  apply app_inj_len in H as [->%(inj hex_byte) H]; [|done].
  f_equal. by apply IH.
Qed.

(** ** [strings.Join] and [strings.Split] for a one-byte separator *)

Fixpoint Join (xs : list bytes) (sep : bytes) : bytes :=
  match xs with
  | [] => []
  | [x] => x
  | x :: xs' => x ++ sep ++ Join xs' sep
  end.

Fixpoint Split (s : bytes) (sep : byte) : list bytes :=
  match s with
  | [] => [[]]
  | b :: s' =>
    if decide (b = sep) then [] :: Split s' sep
    else match Split s' sep with
         | x :: xs => (b :: x) :: xs
         | [] => [[b]]
         end
  end.

Lemma Split_no_sep x sep : sep ∉ x -> Split x sep = [x].
Proof.
  induction x as [|b x IH]; intros Hx; [done|]. cbn [Split].
  rewrite not_elem_of_cons in Hx. destruct Hx as [Hb Hx].
  rewrite decide_False by congruence. by rewrite IH.
Qed.

Lemma Split_app_sep x sep t : sep ∉ x -> Split (x ++ sep :: t) sep = x :: Split t sep.
Proof.
  induction x as [|b x IH]; intros Hx; cbn [app Split].
  - by rewrite decide_True.
  - rewrite not_elem_of_cons in Hx. destruct Hx as [Hb Hx].
    rewrite decide_False by congruence. by rewrite IH.
Qed.

Lemma Split_Join xs sep :
  xs <> [] -> Forall (fun x => sep ∉ x) xs -> Split (Join xs [sep]) sep = xs.
Proof.
  intros Hne Hall. induction Hall as [|x xs Hx Hall IH]; [done|].
  destruct xs as [|y ys]; cbn [Join]; [by apply Split_no_sep|].
  cbn [app]. rewrite Split_app_sep by done. f_equal. by apply IH.
Qed.

(** ** Scanning octet by octet *)

(** The longest prefix of octets satisfying [f], and the rest. *)
Fixpoint span (f : byte -> bool) (s : bytes) : bytes * bytes :=
  match s with
  | [] => ([], [])
  | b :: s' => if f b then let '(a, r) := span f s' in (b :: a, r) else ([], s)
  end.

(** What follows the octet [b], when [s] starts with it. *)
Definition expect (b : byte) (s : bytes) : option bytes :=
  match s with c :: s' => if bool_decide (c = b) then Some s' else None | [] => None end.

Lemma expect_cons b s : expect b (b :: s) = Some s.
Proof. cbn. by rewrite bool_decide_eq_true_2. Qed.

Lemma expect_Some b s r : expect b s = Some r <-> s = b :: r.
Proof.
  split; [|intros ->; apply expect_cons]. destruct s as [|c s]; cbn; [done|].
  case_bool_decide; intros; by simplify_eq.
Qed.

Lemma span_spec f a r :
  forallb f a = true -> (forall b, head r = Some b -> f b = false) -> span f (a ++ r) = (a, r).
Proof.
  intros Ha Hr. induction a as [|b a IH]; cbn [app span forallb] in *.
  - destruct r as [|b r]; [done|]. cbn [span]. by rewrite Hr.
  - apply andb_true_iff in Ha as [-> Ha]. by rewrite IH.
Qed.

Lemma span_app f s a r :
  span f s = (a, r) -> s = a ++ r /\ forallb f a = true /\ (forall b, head r = Some b -> f b = false).
Proof.
  revert a r. induction s as [|b s IH]; intros a r; cbn [span]; [by intros [= <- <-]|].
  destruct (f b) eqn:Hb.
  - destruct (span f s) as [a' r']. intros [= <- <-]. destruct (IH a' r') as (-> & Ha & Hr); [done|].
    cbn. by rewrite Hb, Ha.
  - intros [= <- <-]. split; [done|]. split; [done|]. by intros c [= <-].
Qed.

#[export] Hint Rewrite expect_cons : rookrw.

#[export] Hint Resolve TrimSpace_idem : rook.
