(* ===== verification/Sha256.v ===== *)
(** * [crypto/sha256]: [sha256.Sum256] as FIPS 180-4 defines it

    Every digest of the program is computed by this executable definition, so
    that its encodings can be evaluated on the repository's golden vectors. *)

From S2P Require Import Prelude.

(** ** 32-bit word operations *)

Definition add32 (x y : Z) : Z := Z.land (x + y) 0xFFFFFFFF.
Definition rotr (n x : Z) : Z :=
  Z.lor (Z.shiftr x n) (Z.land (Z.shiftl x (32 - n)) 0xFFFFFFFF).
Definition not32 (x : Z) : Z := Z.lxor x 0xFFFFFFFF.

Definition sha_ch (x y z : Z) : Z := Z.lxor (Z.land x y) (Z.land (not32 x) z).
Definition sha_maj (x y z : Z) : Z :=
  Z.lxor (Z.land x y) (Z.lxor (Z.land x z) (Z.land y z)).
Definition big_sigma0 (x : Z) : Z := Z.lxor (rotr 2 x) (Z.lxor (rotr 13 x) (rotr 22 x)).
Definition big_sigma1 (x : Z) : Z := Z.lxor (rotr 6 x) (Z.lxor (rotr 11 x) (rotr 25 x)).
Definition small_sigma0 (x : Z) : Z := Z.lxor (rotr 7 x) (Z.lxor (rotr 18 x) (Z.shiftr x 3)).
Definition small_sigma1 (x : Z) : Z := Z.lxor (rotr 17 x) (Z.lxor (rotr 19 x) (Z.shiftr x 10)).

(** The standard defines its constants: the first 32 bits of the fractional
    parts of the cube roots of the first 64 primes (round constants) and of the
    square roots of the first 8 (initial value). *)
Definition primes64 : list Z :=
  [2; 3; 5; 7; 11; 13; 17; 19; 23; 29; 31; 37; 41; 43; 47; 53; 59; 61; 67; 71; 73; 79; 83; 89; 97;
   101; 103; 107; 109; 113; 127; 131; 137; 139; 149; 151; 157; 163; 167; 173; 179; 181; 191; 193;
   197; 199; 211; 223; 227; 229; 233; 239; 241; 251; 257; 263; 269; 271; 277; 281; 283; 293; 307; 311].

(** Integer cube root, one bit at a time. *)
Fixpoint icbrt_go (n : nat) (x r : Z) : Z :=
  match n with
  | O => r
  | S n' =>
    let c := r + 2 ^ Z.of_nat n' in
    icbrt_go n' x (if c * c * c <=? x then c else r)
  end.

Definition sha_k : list Z :=
  Eval vm_compute in map (fun p => icbrt_go 36 (p * 2 ^ 96) 0 mod 2 ^ 32) primes64.
Definition sha_iv : list Z :=
  Eval vm_compute in map (fun p => Z.sqrt (p * 2 ^ 64) mod 2 ^ 32) (take 8 primes64).

Record hstate := HState { ha : Z; hb : Z; hc : Z; hd : Z; he : Z; hf : Z; hg : Z; hh : Z }.

Definition sha_h0 : hstate :=
  Eval vm_compute in
  match sha_iv with
  | [a; b; c; d; e; f; g; h] => HState a b c d e f g h
  | _ => HState 0 0 0 0 0 0 0 0
  end.

(** ** Message schedule and compression *)

(** [sched n w] lists [n] schedule words from the window [w] of the next 16. *)
Fixpoint sched (n : nat) (w : list Z) : list Z :=
  match n, w with
  | S n', w0 :: rest =>
    let w1 := nth 0 rest 0 in
    let w9 := nth 8 rest 0 in
    let w14 := nth 13 rest 0 in
    w0 :: sched n' (rest ++ [add32 (add32 (small_sigma1 w14) w9) (add32 (small_sigma0 w1) w0)])
  | _, _ => []
  end.

Definition sha_round (s : hstate) (kw : Z * Z) : hstate :=
  let t1 := add32 (add32 (hh s) (big_sigma1 (he s)))
                  (add32 (sha_ch (he s) (hf s) (hg s)) (add32 (fst kw) (snd kw))) in
  let t2 := add32 (big_sigma0 (ha s)) (sha_maj (ha s) (hb s) (hc s)) in
  HState (add32 t1 t2) (ha s) (hb s) (hc s) (add32 (hd s) t1) (he s) (hf s) (hg s).

Definition sha_block (s : hstate) (ws : list Z) : hstate :=
  let r := fold_left sha_round (combine sha_k (sched 64 ws)) s in
  HState (add32 (ha s) (ha r)) (add32 (hb s) (hb r)) (add32 (hc s) (hc r)) (add32 (hd s) (hd r))
         (add32 (he s) (he r)) (add32 (hf s) (hf r)) (add32 (hg s) (hg r)) (add32 (hh s) (hh r)).

(** ** Padding and the digest *)

Definition sha_pad (m : bytes) : bytes :=
  m ++ x80 :: repeat x00 (Z.to_nat ((55 - Z.of_nat (length m)) mod 64))
    ++ be_bytes 8 (8 * Z.of_nat (length m)).

Fixpoint words32 (m : bytes) : list Z :=
  match m with
  | b0 :: b1 :: b2 :: b3 :: m' => be_val [b0; b1; b2; b3] :: words32 m'
  | _ => []
  end.

Fixpoint sha_blocks (fuel : nat) (s : hstate) (ws : list Z) : hstate :=
  match fuel, ws with
  | S fuel', _ :: _ => sha_blocks fuel' (sha_block s (take 16 ws)) (drop 16 ws)
  | _, _ => s
  end.

Definition digest_of (s : hstate) : bytes :=
  concat (map (be_bytes 4) [ha s; hb s; hc s; hd s; he s; hf s; hg s; hh s]).

Definition Sum256 (m : bytes) : bytes :=
  let ws := words32 (sha_pad m) in digest_of (sha_blocks (length ws) sha_h0 ws).

(** The standard's test vector. *)
Example Sum256_abc :
  Sum256 (str "abc") =
  be_bytes 32 0xba7816bf8f01cfea414140de5dae2223b00361a396177a9cb410ff61f20015ad.
Proof. vm_compute. reflexivity. Qed.

Lemma length_Sum256 m : length (Sum256 m) = 32%nat.
Proof. reflexivity. Qed.

#[global] Opaque Sum256.
#[export] Hint Rewrite length_Sum256 : rookrw.
