(* ===== verification/BaseN.v ===== *)
(** * [encoding/base64] and [encoding/base32]

    Both encodings cut the bit string of the input, most significant bit first,
    into groups of [k] bits (6 or 5), pad the last group with zero bits and
    print each group with an alphabet; the padded variant of base64 then fills
    the text with ['='] to a multiple of four characters. *)

From S2P Require Import Prelude GoStrings.

Fixpoint bits_msb (n : nat) (z : Z) : list bool :=
  match n with
  | O => []
  | S n' => Z.testbit z (Z.of_nat n') :: bits_msb n' z
  end.

Fixpoint bits_val (l : list bool) : Z :=
  match l with
  | [] => 0
  | b :: l' => Z.b2z b * 2 ^ Z.of_nat (length l') + bits_val l'
  end.

Definition byte_bits (b : byte) : list bool := bits_msb 8 (Zb b).
Definition bytes_bits (s : bytes) : list bool := concat (map byte_bits s).

(** [chunks k fuel l]: groups of [k] bits, the last one padded with zeros. *)
Fixpoint chunks (k fuel : nat) (l : list bool) : list (list bool) :=
  match fuel with
  | O => []
  | S fuel' =>
    match l with
    | [] => []
    | _ => (take k l ++ repeat false (k - length l)) :: chunks k fuel' (drop k l)
    end
  end.

(** Groups to octets, the incomplete last group dropped. *)
Fixpoint bits_bytes (fuel : nat) (l : list bool) : bytes :=
  match fuel with
  | O => []
  | S fuel' =>
    if (length l <? 8)%nat then [] else bZ (bits_val (take 8 l)) :: bits_bytes fuel' (drop 8 l)
  end.

Definition baseN_encode (k : nat) (alpha : Z -> byte) (s : bytes) : bytes :=
  let l := bytes_bits s in map (fun g => alpha (bits_val g)) (chunks k (length l) l).

Definition baseN_decode (k : nat) (value : byte -> option Z) (t : bytes) : option bytes :=
  vs ← mapM value t;
  let l := concat (map (bits_msb k) vs) in
  Some (bits_bytes (length l) l).

(** ** Alphabets *)

Definition b64_std (v : Z) : byte :=
  if v <? 26 then bZ (65 + v) else if v <? 52 then bZ (71 + v)
  else if v <? 62 then bZ (v - 4) else if v =? 62 then x2b else x2f.
Definition b64_url (v : Z) : byte :=
  if v <? 26 then bZ (65 + v) else if v <? 52 then bZ (71 + v)
  else if v <? 62 then bZ (v - 4) else if v =? 62 then x2d else x5f.
Definition b64_std_value (b : byte) : option Z :=
  let c := Zb b in
  if in_range 65 90 b then Some (c - 65) else if in_range 97 122 b then Some (c - 71)
  else if in_range 48 57 b then Some (c + 4)
  else if c =? 43 then Some 62 else if c =? 47 then Some 63 else None.
(** The base32 alphabet [A-Z2-7], after the [strings.ToLower] the program applies. *)
Definition b32_lower (v : Z) : byte := if v <? 26 then bZ (97 + v) else bZ (24 + v).

(** [base64.RawURLEncoding.EncodeToString] *)
Definition RawURLEncode : bytes -> bytes := baseN_encode 6 b64_url.

Definition b64_padding (n : nat) : bytes :=
  match (n mod 4)%nat with 2%nat => [x3d; x3d] | 3%nat => [x3d] | _ => [] end.

(** [base64.StdEncoding.EncodeToString] *)
Definition StdEncode (s : bytes) : bytes :=
  let t := baseN_encode 6 b64_std s in t ++ b64_padding (length t).

(** [base64.StdEncoding.DecodeString]: carriage returns and line feeds are
    skipped, the length must be a multiple of four, only the last one or two
    characters may be padding, and (no strict mode) trailing bits are ignored. *)
Definition StdDecode (t : bytes) : option bytes :=
  let t := filter (fun b => b <> x0a /\ b <> x0d) t in
  if negb ((length t mod 4)%nat =? 0)%nat then None else
  let body := match rev t with
              | x3d :: x3d :: _ => take (length t - 2) t
              | x3d :: _ => take (length t - 1) t
              | _ => t
              end in
  baseN_decode 6 b64_std_value body.

(** [strings.ToLower(base32.StdEncoding.WithPadding(NoPadding).EncodeToString(s))] *)
Definition Base32Lower : bytes -> bytes := baseN_encode 5 b32_lower.

Example RawURLEncode_example : RawURLEncode (str "secret-secret") = str "c2VjcmV0LXNlY3JldA".
Proof. reflexivity. Qed.
Example StdEncode_example : StdEncode (str "hello") = str "aGVsbG8=".
Proof. reflexivity. Qed.
Example StdDecode_example : StdDecode (str "aGVsbG8=") = Some (str "hello").
Proof. reflexivity. Qed.
Example Base32Lower_example : Base32Lower (str "foob") = str "mzxw6yq".
Proof. reflexivity. Qed.

(** ** Bits *)

Lemma length_bits_msb n z : length (bits_msb n z) = n.
Proof. induction n; simpl; congruence. Qed.

Lemma bits_val_bits_msb n z : bits_val (bits_msb n z) = z mod 2 ^ Z.of_nat n.
Proof.
  induction n as [|n IH]; [simpl; by rewrite Z.mod_1_r|].
  cbn [bits_msb bits_val]. rewrite length_bits_msb, IH, Nat2Z.inj_succ, Z.pow_succ_r by lia.
  rewrite (Z.mul_comm 2), Z.rem_mul_r, Z.testbit_spec' by lia. lia.
Qed.

Lemma bits_val_range l : 0 <= bits_val l < 2 ^ Z.of_nat (length l).
Proof.
  induction l as [|b l IH]; [simpl; lia|]. cbn [bits_val length].
  rewrite Nat2Z.inj_succ, Z.pow_succ_r by lia. destruct b; simpl Z.b2z; lia.
Qed.

Lemma bits_val_inj l1 l2 : length l1 = length l2 -> bits_val l1 = bits_val l2 -> l1 = l2.
Proof.
  revert l2. induction l1 as [|b1 l1 IH]; intros [|b2 l2] Hl Hv; simplify_eq/=; [done|].
  rewrite Hl in Hv. pose proof (bits_val_range l1) as H1. pose proof (bits_val_range l2) as H2.
  rewrite Hl in H1. assert (b1 = b2 /\ bits_val l1 = bits_val l2) as [-> ?].
  { destruct b1, b2; simpl Z.b2z in Hv; split; done || lia. }
  f_equal. by apply IH.
Qed.

Lemma bits_msb_bits_val l : bits_msb (length l) (bits_val l) = l.
Proof.
  apply bits_val_inj; [apply length_bits_msb|].
  rewrite bits_val_bits_msb, Z.mod_small; [done|]. apply bits_val_range.
Qed.

Lemma byte_bits_val b : bZ (bits_val (byte_bits b)) = b.
Proof.
  unfold byte_bits. rewrite bits_val_bits_msb, Z.mod_small; [apply bZ_Zb|].
  pose proof (Zb_range b). simpl. lia.
Qed.

Lemma length_bytes_bits s : length (bytes_bits s) = (8 * length s)%nat.
Proof. unfold bytes_bits. induction s; [done|]. cbn [map concat]. rewrite length_app, IHs. simpl. lia. Qed.

(** ** Round trips *)

Lemma bits_bytes_spec fuel s z :
  (length z < 8)%nat -> (8 * length s + length z <= fuel)%nat ->
  bits_bytes fuel (bytes_bits s ++ z) = s.
Proof.
  revert s. induction fuel as [|fuel IH]; intros s Hz Hf.
  { destruct s; [done|simpl in *; lia]. }
  cbn [bits_bytes]. rewrite length_app, length_bytes_bits.
  destruct s as [|b s].
  - cbn [length]. destruct (Nat.ltb_spec (8 * 0 + length z) 8); [done|lia].
  - cbn [length] in *. destruct (Nat.ltb_spec (8 * S (length s) + length z) 8); [lia|].
    unfold bytes_bits. cbn [map concat]. rewrite <- app_assoc.
    rewrite take_app_length', drop_app_length' by done.
    rewrite byte_bits_val. f_equal. apply IH; lia.
Qed.

Section groups.
Context (k : nat).

Lemma concat_length_k (gs : list (list bool)) :
  Forall (fun g => length g = k) gs -> length (concat gs) = (k * length gs)%nat.
Proof. induction 1; cbn [concat length]; rewrite ?length_app; lia. Qed.

Lemma concat_bits_msb gs :
  Forall (fun g => length g = k) gs -> concat (map (bits_msb k) (map bits_val gs)) = concat gs.
Proof.
  induction 1 as [|g gs <- _ IH]; cbn [map concat]; [done|].
  by rewrite bits_msb_bits_val, IH.
Qed.
End groups.

Section chunks.
Context (k : nat) (Hk : (0 < k)%nat).

Lemma chunks_spec fuel l :
  (length l <= fuel)%nat ->
  Forall (fun g => length g = k) (chunks k fuel l) /\
  exists p, (p < k)%nat /\ concat (chunks k fuel l) = l ++ repeat false p.
Proof using Hk.
  revert l. induction fuel as [|fuel IH]; intros l Hl.
  { destruct l; [|simpl in *; lia]. split; [constructor|]. by exists O. }
  destruct l as [|b l]; [split; [constructor|]; by exists O|].
  cbn [chunks]. set (l0 := b :: l) in *.
  destruct (IH (drop k l0)) as [IHf (p & Hp & IHp)].
  { rewrite length_drop. subst l0. simpl in *. lia. }
  assert (length (take k l0 ++ repeat false (k - length l0)) = k) as Hg.
  { rewrite length_app, length_take, repeat_length. lia. }
  split; [by constructor|].
  destruct (decide (k <= length l0)%nat) as [Hle|Hgt].
  - exists p. split; [done|]. cbn [concat]. rewrite IHp.
    replace (k - length l0)%nat with O by lia. simpl repeat.
    by rewrite app_nil_r, app_assoc, take_drop.
  - exists (k - length l0)%nat. split; [subst l0; simpl; lia|]. cbn [concat].
    rewrite take_ge by lia. rewrite drop_ge by lia.
    destruct fuel; by rewrite app_nil_r.
Qed.

End chunks.

Section baseN.
Context (k : nat) (alpha : Z -> byte) (value : byte -> option Z).
Context (Hk : (0 < k <= 8)%nat).
Context (Hval : forall v, 0 <= v < 2 ^ Z.of_nat k -> value (alpha v) = Some v).

(** Length of the text: [ceil (8 n / k)]. *)
Lemma length_baseN_encode s :
  exists p, (p < k)%nat /\ (k * length (baseN_encode k alpha s) = 8 * length s + p)%nat.
Proof using Hk.
  destruct (chunks_spec k ltac:(lia) (length (bytes_bits s)) (bytes_bits s)) as [Hg (p & Hp & Hc)];
    [done|].
  exists p. split; [done|]. unfold baseN_encode. rewrite length_map.
  rewrite <- (concat_length_k k _ Hg), Hc, length_app, repeat_length, length_bytes_bits. lia.
Qed.

Lemma baseN_decode_encode s : baseN_decode k value (baseN_encode k alpha s) = Some s.
Proof using Hk Hval.
  unfold baseN_decode, baseN_encode.
  destruct (chunks_spec k ltac:(lia) (length (bytes_bits s)) (bytes_bits s)) as [Hg (p & Hp & Hc)];
    [done|].
  set (gs := chunks _ _ _) in *.
  assert (mapM value (map (fun g => alpha (bits_val g)) gs) = Some (map bits_val gs)) as ->.
  { clear Hc. induction Hg as [|g gs Hl _ IH]; [done|]. cbn.
    rewrite Hval by (rewrite <- Hl; apply bits_val_range). cbn. by rewrite IH. }
  cbn. f_equal. rewrite (concat_bits_msb k) by done. rewrite Hc.
  apply bits_bytes_spec; rewrite ?length_app, ?repeat_length, ?length_bytes_bits; lia.
Qed.

Lemma baseN_encode_inj : Inj (=) (=) (baseN_encode k alpha).
Proof using Hk Hval.
  intros x y H%(f_equal (baseN_decode k value)).
  by rewrite !baseN_decode_encode in H; simplify_eq.
Qed.

Lemma baseN_encode_alphabet (P : byte -> Prop) s :
  (forall v, 0 <= v < 2 ^ Z.of_nat k -> P (alpha v)) -> Forall P (baseN_encode k alpha s).
Proof using Hk.
  intros HP. unfold baseN_encode.
  destruct (chunks_spec k ltac:(lia) (length (bytes_bits s)) (bytes_bits s)) as [Hg _]; [done|].
  induction Hg as [|g gs Hl _ IH]; constructor; [|done].
  apply HP. rewrite <- Hl. apply bits_val_range.
Qed.
End baseN.

(** Check a property of the values [0 .. n-1] by evaluation. *)
Lemma forallb_upto (P : Z -> bool) (n : nat) :
  forallb P (map Z.of_nat (List.seq 0 n)) = true -> forall v, 0 <= v < Z.of_nat n -> P v = true.
Proof.
  intros H v Hv. rewrite forallb_forall in H. apply H.
  rewrite in_map_iff. exists (Z.to_nat v). split; [lia|]. apply in_seq. lia.
Qed.

Ltac by_upto n :=
  let v := fresh "v" in let Hv := fresh "Hv" in
  intros v Hv; apply (bool_decide_eq_true_1 _); revert v Hv;
  apply (forallb_upto _ n); vm_compute; reflexivity.

Definition b64_url_value (b : byte) : option Z :=
  let c := Zb b in
  if in_range 65 90 b then Some (c - 65) else if in_range 97 122 b then Some (c - 71)
  else if in_range 48 57 b then Some (c + 4)
  else if c =? 45 then Some 62 else if c =? 95 then Some 63 else None.

#[export] Instance RawURLEncode_inj : Inj (=) (=) RawURLEncode.
Proof. apply (baseN_encode_inj 6 b64_url b64_url_value); [lia|]. by_upto 64%nat. Qed.

Definition b32_lower_value (b : byte) : option Z :=
  if in_range 97 122 b then Some (Zb b - 97)
  else if in_range 50 55 b then Some (Zb b - 24) else None.

#[export] Instance Base32Lower_inj : Inj (=) (=) Base32Lower.
Proof. apply (baseN_encode_inj 5 b32_lower b32_lower_value); [lia|]. by_upto 32%nat. Qed.

Lemma length_RawURLEncode s :
  exists p, (p < 6)%nat /\ (6 * length (RawURLEncode s) = 8 * length s + p)%nat.
Proof. apply length_baseN_encode. lia. Qed.

Lemma RawURLEncode_nil s : RawURLEncode s = [] -> s = [].
Proof.
  intros E. destruct (length_RawURLEncode s) as (p & Hp & Hl). rewrite E in Hl.
  destruct s; [done|]. simpl in Hl. lia.
Qed.

Lemma length_Base32Lower s :
  exists p, (p < 5)%nat /\ (5 * length (Base32Lower s) = 8 * length s + p)%nat.
Proof. apply length_baseN_encode. lia. Qed.

Lemma Base32Lower_alphabet s :
  Forall (fun b => in_range 97 122 b || in_range 50 55 b = true) (Base32Lower s).
Proof. apply baseN_encode_alphabet; [lia|]. by_upto 32%nat. Qed.

Lemma filter_Forall_id {A} (P : A -> Prop) `{!forall x, Decision (P x)} (l : list A) :
  Forall P l -> filter P l = l.
Proof. induction 1; [done|]. rewrite filter_cons_True by done. congruence. Qed.

Lemma StdDecode_StdEncode s : StdDecode (StdEncode s) = Some s.
Proof.
  unfold StdDecode, StdEncode.
  destruct (length_baseN_encode 6 b64_std ltac:(lia) s) as (p & Hp & Hl).
  assert (Forall (fun b => (b <> x0a /\ b <> x0d) /\ b <> x3d) (baseN_encode 6 b64_std s)) as Hall.
  { apply baseN_encode_alphabet; [lia|]. by_upto 64%nat. }
  pose proof (baseN_decode_encode 6 b64_std b64_std_value ltac:(lia)
                ltac:(by_upto 64%nat) s) as Hdec.
  set (t := baseN_encode 6 b64_std s) in *. clearbody t.
  rewrite list.filter_app, (filter_Forall_id _ t) by (apply Forall_forall; intros b Hb; rewrite Forall_forall in Hall; by apply Hall).
  assert (length t mod 4 = 0 \/ length t mod 4 = 2 \/ length t mod 4 = 3)%nat as Hm.
  { pose proof (Nat.div_mod_eq (length t) 4). pose proof (Nat.mod_upper_bound (length t) 4). lia. }
  pose proof (Nat.div_mod_eq (length t) 4) as Hdm.
  assert (forall pad, (length (t ++ pad) mod 4 = (length t mod 4 + length pad) mod 4)%nat) as Hpad.
  { intros pad. rewrite length_app. by rewrite Nat.Div0.add_mod_idemp_l. }
  assert (forall b, b ∈ rev t -> b <> x3d) as Hlast.
  { intros b Hin. rewrite list_elem_of_In, <- in_rev in Hin.
    rewrite Forall_forall in Hall. by destruct (Hall b Hin). }
  unfold b64_padding. destruct Hm as [Hm|[Hm|Hm]]; rewrite Hm.
  - change (filter _ []) with (@nil byte). rewrite app_nil_r, Hm. cbn [negb Nat.eqb].
    destruct (rev t) as [|b r]; [done|].
    assert (b <> x3d) as Hb by (apply Hlast; by left).
    by destruct b.
  - change (filter _ [x3d; x3d]) with [x3d; x3d].
    rewrite Hpad, Hm. cbn [negb Nat.eqb length Nat.add Nat.modulo Nat.divmod fst Nat.sub].
    rewrite rev_app_distr. cbn [rev app]. rewrite length_app. cbn [length].
    rewrite take_app_length' by lia. done.
  - change (filter _ [x3d]) with [x3d].
    rewrite Hpad, Hm. cbn [negb Nat.eqb length Nat.add Nat.modulo Nat.divmod fst Nat.sub].
    rewrite rev_app_distr. cbn [rev app]. rewrite length_app. cbn [length].
    replace (length t + 1 - 1)%nat with (length t) by lia.
    rewrite take_app_length.
    destruct (rev t) as [|b r]; [done|].
    assert (b <> x3d) as Hb by (apply Hlast; by left).
    by destruct b.
Qed.

#[global] Opaque RawURLEncode Base32Lower.
