(* ===== verification/GoTime.v ===== *)
(** * Package [time]: instants and durations

    An instant is the number of nanoseconds since the zero [time.Time]
    (January 1, year 1, UTC). [UTC()] changes only the printed location, so it
    is the identity here, and the wall and monotonic readings of one process
    are taken to agree. *)

From S2P Require Import Prelude.

Definition time := Z.

Definition Nanosecond : Z := 1.
Definition Second : Z := 1000000000.
Definition Minute : Z := 60 * Second.
Definition Hour : Z := 60 * Minute.

Definition zeroTime : time := 0.
Definition IsZero (t : time) : bool := t =? 0.
Definition Before (t u : time) : bool := t <? u.
Definition After (t u : time) : bool := u <? t.
Definition Add (t : time) (d : Z) : time := t + d.

(** Seconds from the zero instant to January 1, 1970. *)
Definition unixToInternal : Z := 62135596800.
Definition Unix (t : time) : Z := t / Second - unixToInternal.
Definition Nanos (t : time) : Z := t mod Second.
Definition unixTime (sec nsec : Z) : time := (sec + unixToInternal) * Second + nsec.

(** [UnixNano]: an [int64], so instants before 1678 or after 2262 wrap. *)
Definition UnixNano (t : time) : Z := i64 (t - unixToInternal * Second).

Lemma unixTime_Unix t : unixTime (Unix t) (Nanos t) = t.
Proof.
  unfold unixTime, Unix, Nanos. pose proof (Z.div_mod t Second ltac:(unfold Second; lia)). lia.
Qed.

Lemma Before_spec t u : Before t u = true <-> t < u.
Proof. apply Z.ltb_lt. Qed.

#[export] Hint Rewrite unixTime_Unix : rookrw.
