(* ===== verification/RFC3339.v ===== *)
(** * Package [time]: the calendar and RFC 3339

    [Time.MarshalJSON] and [time.Parse(time.RFC3339, _)]. The parser is the
    general one of [time.Parse], which is more lenient than RFC 3339 (one-digit
    hours, a decimal comma, zone offsets up to 24 hours and 60 minutes); the
    strict fast path in front of it only accepts less. Instants are printed in
    UTC, the location every instant the program stores is in. *)

From S2P Require Import Prelude GoStrings GoTime.

(** ** The calendar *)

Definition isLeap (y : Z) : bool := (y mod 4 =? 0) && (negb (y mod 100 =? 0) || (y mod 400 =? 0)).

Definition month_lengths (leap : bool) : list Z :=
  [31; if leap then 29 else 28; 31; 30; 31; 30; 31; 31; 30; 31; 30; 31].

(** [daysIn(Month(m), y)] *)
Definition daysIn (m y : Z) : Z := nth (Z.to_nat (m - 1)) (month_lengths (isLeap y)) 0.

(** Days from January 1, year 1, to January 1 of year [y]. *)
Definition days_before_year (y : Z) : Z := let p := y - 1 in 365 * p + p / 4 - p / 100 + p / 400.

Fixpoint days_before_month (ls : list Z) (m : nat) : Z :=
  match ls, m with l :: ls', S m' => l + days_before_month ls' m' | _, _ => 0 end.

Definition days_of (y m d : Z) : Z :=
  days_before_year y + days_before_month (month_lengths (isLeap y)) (Z.to_nat (m - 1)) + (d - 1).

(** The year of a day: the estimate is off by one at most. *)
Definition year_of (n : Z) : Z :=
  let y := 1 + n * 400 / 146097 in
  if n <? days_before_year y then y - 1
  else if days_before_year (y + 1) <=? n then y + 1 else y.

(** The month, counted from [m], and the day of the month of a day of the year. *)
Fixpoint month_day (ls : list Z) (m n : Z) : Z * Z :=
  match ls with
  | [] => (m, n + 1)
  | l :: ls' => if n <? l then (m, n + 1) else month_day ls' (m + 1) (n - l)
  end.

Definition civil (n : Z) : Z * Z * Z :=
  let y := year_of n in
  let '(m, d) := month_day (month_lengths (isLeap y)) 1 (n - days_before_year y) in (y, m, d).

(** [time.Date] in UTC. *)
Definition Date (y m d hour min sec nsec : Z) : time :=
  (((days_of y m d * 24 + hour) * 60 + min) * 60 + sec) * Second + nsec.

Definition day_number (t : time) : Z := t / (24 * Hour).

Example calendar_examples :
  civil 0 = (1, 1, 1) /\ days_of 1970 1 1 * 86400 = unixToInternal /\
  civil (days_of 2000 2 29) = (2000, 2, 29) /\ civil (days_of 1900 3 1 - 1) = (1900, 2, 28) /\
  civil (days_of 2024 12 31) = (2024, 12, 31) /\ civil (-366) = (0, 1, 1).
Proof. by vm_compute. Qed.

(** ** Printing: [Time.MarshalJSON] without the quotes *)

Definition pad2 (n : Z) : bytes := [digit (n / 10); digit (n mod 10)].
Definition pad4 (n : Z) : bytes := pad2 (n / 100) ++ pad2 (n mod 100).

(** The nine digits of the nanoseconds, without trailing zeros. *)
Fixpoint digits_of (k : nat) (n : Z) : bytes :=
  match k with O => [] | S k' => digits_of k' (n / 10) ++ [digit (n mod 10)] end.

Fixpoint trim_zeros (s : bytes) : bytes :=
  match s with
  | [] => []
  | b :: s' => match trim_zeros s' with
               | [] => if bool_decide (b = x30) then [] else [b]
               | t => b :: t
               end
  end.

Definition format_nanos (n : Z) : bytes :=
  match trim_zeros (digits_of 9 n) with [] => [] | ds => x2e :: ds end.

Definition time_text (t : time) : bytes :=
  let '(y, m, d) := civil (day_number t) in
  let s := t / Second in
  pad4 y ++ x2d :: pad2 m ++ x2d :: pad2 d ++ x54 ::
  pad2 (s / 3600 mod 24) ++ x3a :: pad2 (s / 60 mod 60) ++ x3a :: pad2 (s mod 60) ++
  format_nanos (t mod Second) ++ [x5a].

(** An error for a year of more or fewer than four digits. *)
Definition time_Marshal (t : time) : option bytes :=
  let '(y, _, _) := civil (day_number t) in
  if (0 <=? y) && (y <=? 9999) then Some (time_text t) else None.

(** ** Parsing: [time.Parse(time.RFC3339, _)] *)

(** [getnum]: one digit will do unless [fixed]. *)
Definition getnum (fixed : bool) (s : bytes) : option (Z * bytes) :=
  match s with
  | a :: s1 =>
    if negb (is_digit a) then None else
    match s1 with
    | b :: s2 => if is_digit b then Some (10 * (Zb a - 48) + (Zb b - 48), s2)
                 else if fixed then None else Some (Zb a - 48, s1)
    | [] => if fixed then None else Some (Zb a - 48, [])
    end
  | [] => None
  end.

Definition get_year (s : bytes) : option (Z * bytes) :=
  let p := take 4 s in
  if (length p =? 4)%nat && forallb is_digit p then Some (dec_val p, drop 4 s) else None.

Definition checked (lo hi : Z) (o : option (Z * bytes)) : option (Z * bytes) :=
  '(n, s) ← o; if (lo <=? n) && (n <=? hi) then Some (n, s) else None.

(** [parseNanoseconds]: digits after the ninth are dropped. *)
Definition nanos (ds : bytes) : Z := dec_val (take 9 ds) * 10 ^ Z.of_nat (9 - length ds).

(** The fraction the layout does not mention. *)
Definition get_fraction (s : bytes) : Z * bytes :=
  match s with
  | p :: s' =>
    if bool_decide (p = x2e) || bool_decide (p = x2c) then
      match span is_digit s' with ([], _) => (0, s) | (ds, r) => (nanos ds, r) end
    else (0, s)
  | [] => (0, [])
  end.

(** [Z07:00]: the zone's offset in seconds. *)
Definition get_zone (s : bytes) : option (Z * bytes) :=
  match s with
  | [] => None
  | z :: s1 =>
    if bool_decide (z = x5a) then Some (0, s1) else
    match s1 with
    | h1 :: h2 :: c :: m1 :: m2 :: rest =>
      if negb (bool_decide (c = x3a)) then None else
      '(hr, _) ← checked 0 24 (getnum true [h1; h2]);
      '(mm, _) ← checked 0 60 (getnum true [m1; m2]);
      let off := (hr * 60 + mm) * 60 in
      if bool_decide (z = x2b) then Some (off, rest)
      else if bool_decide (z = x2d) then Some (- off, rest) else None
    | _ => None
    end
  end.

Definition ParseRFC3339 (s : bytes) : option time :=
  '(y, s) ← get_year s; s ← expect x2d s;
  '(m, s) ← checked 1 12 (getnum true s); s ← expect x2d s;
  '(d, s) ← getnum true s; s ← expect x54 s;
  '(hour, s) ← checked 0 23 (getnum false s); s ← expect x3a s;
  '(min, s) ← checked 0 59 (getnum true s); s ← expect x3a s;
  '(sec, s) ← checked 0 59 (getnum true s);
  let '(nsec, s) := get_fraction s in
  '(off, s) ← get_zone s;
  if negb (bool_decide (s = [])) then None
  else if (d <? 1) || (daysIn m y <? d) then None
  else Some (Date y m d hour min sec nsec - off * Second).

Example ParseRFC3339_examples :
  ParseRFC3339 (str "2026-07-27T12:00:00Z") = Some (unixTime 1785153600 0) /\
  ParseRFC3339 (str "2026-07-27T14:30:00.25+02:30") = Some (unixTime 1785153600 250000000) /\
  ParseRFC3339 (str "2026-07-27T9:00:00,1234567899Z") = Some (unixTime 1785142800 123456789) /\
  ParseRFC3339 (str "2026-07-26T24:00:00Z") = None /\
  ParseRFC3339 (str "2026-02-29T00:00:00Z") = None /\
  ParseRFC3339 (str "2026-07-27T12:00:00Z ") = None /\
  ParseRFC3339 (str "2026-07-27 12:00:00Z") = None /\
  ParseRFC3339 (str "2026-07-27T12:00:00-24:60") = Some (unixTime 1785243600 0) /\
  time_Marshal (unixTime 1785153600 250000000) = Some (str "2026-07-27T12:00:00.25Z") /\
  time_Marshal zeroTime = Some (str "0001-01-01T00:00:00Z").
Proof. by vm_compute. Qed.

(** ** Lemmas: the calendar *)

Ltac div_lia := Z.div_mod_to_equations; lia.

Lemma days_before_year_succ y :
  days_before_year (y + 1) = days_before_year y + (if isLeap y then 366 else 365).
Proof.
  unfold days_before_year, isLeap. replace (y + 1 - 1) with y by lia.
  destruct (Z.eqb_spec (y mod 4) 0), (Z.eqb_spec (y mod 100) 0), (Z.eqb_spec (y mod 400) 0);
    cbn [andb orb negb]; div_lia.
Qed.

Lemma year_estimate n :
  let y := n * 400 / 146097 + 1 in days_before_year y - 365 <= n < days_before_year (y + 1) + 365.
Proof.
  cbv zeta. unfold days_before_year. set (q := n * 400 / 146097).
  replace (q + 1 - 1) with q by lia. replace (q + 1 + 1 - 1) with (q + 1) by lia.
  assert (146097 * q <= n * 400 < 146097 * q + 146097) as Hq by (unfold q; div_lia).
  clearbody q. div_lia.
Qed.

Lemma year_of_spec n : days_before_year (year_of n) <= n < days_before_year (year_of n + 1).
Proof.
  unfold year_of. set (y := 1 + n * 400 / 146097).
  pose proof (days_before_year_succ (y - 1)) as H1. pose proof (days_before_year_succ y) as H2.
  pose proof (days_before_year_succ (y + 1)) as H3. replace (y - 1 + 1) with y in * by lia.
  assert (days_before_year y - 365 <= n < days_before_year (y + 1) + 365) as Hn.
  { unfold y. rewrite Z.add_comm. apply year_estimate. }
  destruct (Z.ltb_spec n (days_before_year y)); [|destruct (Z.leb_spec (days_before_year (y + 1)) n)];
    replace (y - 1 + 1) with y by lia; repeat case_match; lia.
Qed.

Definition sum_Z (ls : list Z) : Z := fold_right Z.add 0 ls.

Lemma month_day_spec ls m n :
  0 <= n < sum_Z ls ->
  let '(m', d) := month_day ls m n in
  let i := Z.to_nat (m' - m) in
  m <= m' < m + Z.of_nat (length ls) /\ 1 <= d <= nth i ls 0 /\ days_before_month ls i + (d - 1) = n.
Proof.
  revert m n. induction ls as [|l ls IH]; intros m n Hn; [simpl in Hn; lia|].
  cbn [month_day sum_Z fold_right] in *. fold (sum_Z ls) in Hn. destruct (Z.ltb_spec n l) as [Hl|Hl].
  - rewrite Z.sub_diag. change (Z.to_nat 0) with 0%nat. cbn [nth days_before_month length]. lia.
  - specialize (IH (m + 1) (n - l) ltac:(lia)). destruct (month_day ls (m + 1) (n - l)) as [m' d].
    destruct IH as (Hm & Hd & Hs). replace (Z.to_nat (m' - m)) with (S (Z.to_nat (m' - (m + 1)))) by lia.
    cbn [nth days_before_month length]. lia.
Qed.

(** A day's civil date is one the calendar has, and denotes that day. *)
Lemma civil_spec n :
  let '(y, m, d) := civil n in
  y = year_of n /\ 1 <= m <= 12 /\ 1 <= d <= daysIn m y /\ days_of y m d = n.
Proof.
  unfold civil. pose proof (year_of_spec n) as Hy. rewrite days_before_year_succ in Hy.
  set (y := year_of n) in *. pose proof (month_day_spec (month_lengths (isLeap y)) 1 (n - days_before_year y)) as Hm.
  destruct (month_day _ _ _) as [m d]. destruct Hm as (Hm & Hd & Hs).
  { destruct (isLeap y); cbn; lia. }
  unfold daysIn, days_of. destruct (isLeap y); cbn [length month_lengths] in Hm; lia.
Qed.

Lemma daysIn_le m y : daysIn m y <= 31.
Proof.
  unfold daysIn. generalize (Z.to_nat (m - 1)). intros i.
  destruct (isLeap y); do 12 (destruct i as [|i]; [cbn; lia|]); by destruct i.
Qed.

(** ** Lemmas: reading back what is printed *)

Lemma getnum_pad2 fixed n s : 0 <= n < 100 -> getnum fixed (pad2 n ++ s) = Some (n, s).
Proof.
  intros Hn. unfold getnum, pad2. cbn [app].
  rewrite !is_digit_digit, !Zb_digit by div_lia. cbn [negb]. do 2 f_equal. div_lia.
Qed.

Lemma checked_pad2 fixed lo hi n s :
  0 <= n < 100 -> lo <= n <= hi -> checked lo hi (getnum fixed (pad2 n ++ s)) = Some (n, s).
Proof.
  intros. unfold checked. rewrite getnum_pad2 by done. cbn.
  by rewrite (proj2 (Z.leb_le lo n)), (proj2 (Z.leb_le n hi)) by lia.
Qed.

Lemma get_year_pad4 n s : 0 <= n <= 9999 -> get_year (pad4 n ++ s) = Some (n, s).
Proof.
  intros Hn. unfold get_year, pad4, pad2. cbn [app take length drop forallb].
  rewrite !is_digit_digit by div_lia. cbn [andb Nat.eqb]. do 2 f_equal.
  rewrite take_0. unfold dec_val. cbn [fold_left]. rewrite !Zb_digit by div_lia.
  pose proof (Z.div_mod n 100 ltac:(lia)). pose proof (Z.div_mod (n / 100) 10 ltac:(lia)).
  pose proof (Z.div_mod (n mod 100) 10 ltac:(lia)). lia.
Qed.

Lemma digits_of_spec k n :
  0 <= n < 10 ^ Z.of_nat k ->
  length (digits_of k n) = k /\ forallb is_digit (digits_of k n) = true /\ dec_val (digits_of k n) = n.
Proof.
  revert n. induction k as [|k IH]; intros n Hn; cbn [digits_of].
  { split; [done|]. split; [done|]. cbn in *. lia. }
  rewrite Nat2Z.inj_succ, Z.pow_succ_r in Hn by lia.
  destruct (IH (n / 10)) as (Hl & Hd & Hv).
  { split; [div_lia|]. apply Z.div_lt_upper_bound; lia. }
  rewrite length_app, forallb_app, dec_val_app, Hl, Hd, Hv. cbn.
  rewrite is_digit_digit, Zb_digit by div_lia. repeat split; [lia|div_lia].
Qed.

Lemma trim_zeros_spec s : exists k, s = trim_zeros s ++ replicate k x30.
Proof.
  induction s as [|b s [k IH]]; [by exists 0%nat|]. cbn [trim_zeros].
  destruct (trim_zeros s) as [|c t].
  - cbn [app] in IH. case_bool_decide; [exists (S k)|exists k]; by subst.
  - exists k. cbn [app] in *. by rewrite IH at 1.
Qed.

Lemma dec_val_zeros s k : dec_val (s ++ replicate k x30) = dec_val s * 10 ^ Z.of_nat k.
Proof.
  induction k as [|k IH]; [cbn [replicate]; rewrite app_nil_r; lia|].
  rewrite replicate_S_end, app_assoc, dec_val_app, IH. cbn [fold_left].
  replace (Zb x30) with 48 by done. rewrite Nat2Z.inj_succ, Z.pow_succ_r; lia.
Qed.

Lemma get_fraction_nanos n s :
  0 <= n < Second -> get_fraction (format_nanos n ++ x5a :: s) = (n, x5a :: s).
Proof.
  intros Hn. unfold format_nanos. destruct (digits_of_spec 9 n Hn) as (Hl & Hd & Hv).
  destruct (trim_zeros_spec (digits_of 9 n)) as [k Hk].
  destruct (trim_zeros (digits_of 9 n)) as [|c ds]; rewrite Hk in Hl, Hd, Hv.
  - cbn [app] in Hv |- *. rewrite <- Hv. cbn. f_equal. symmetry. exact (dec_val_zeros [] k).
  - rewrite forallb_app, andb_true_iff in Hd. rewrite dec_val_zeros in Hv.
    rewrite length_app, length_replicate in Hl. destruct Hd as [Hd _].
    change ((x2e :: c :: ds) ++ x5a :: s) with (x2e :: (c :: ds) ++ x5a :: s).
    unfold get_fraction. cbn [bool_decide decide_rel orb].
    rewrite span_spec; [|done|by intros b [= <-]]. f_equal. unfold nanos.
    rewrite take_ge by lia. rewrite <- Hv. do 2 f_equal. lia.
Qed.

(** An instant splits into its day and its time of day. *)
Lemma Date_split t y m d :
  days_of y m d = day_number t ->
  let s := t / Second in
  Date y m d (s / 3600 mod 24) (s / 60 mod 60) (s mod 60) (t mod Second) = t.
Proof.
  unfold Date, day_number, Hour, Minute. intros ->. cbv zeta.
  assert (t / (24 * (60 * (60 * Second))) = t / Second / 60 / 60 / 24) as ->.
  { rewrite !Z.div_div by (unfold Second; lia). f_equal. }
  replace (t / Second / 3600) with (t / Second / 60 / 60) by (by rewrite Z.div_div by lia).
  pose proof (Z.div_mod t Second ltac:(unfold Second; lia)). set (s := t / Second) in *.
  pose proof (Z.div_mod s 60 ltac:(lia)). pose proof (Z.div_mod (s / 60) 60 ltac:(lia)).
  pose proof (Z.div_mod (s / 60 / 60) 24 ltac:(lia)). nia.
Qed.

(** What [Time.MarshalJSON] prints reads back as the same instant. *)
Lemma ParseRFC3339_time_Marshal t s : time_Marshal t = Some s -> ParseRFC3339 s = Some t.
Proof.
  unfold time_Marshal, time_text. pose proof (civil_spec (day_number t)) as Hc.
  destruct (civil (day_number t)) as [[y m] d]. destruct Hc as (_ & Hm & Hd & Hn).
  destruct (_ && _) eqn:Hy; [|done]. apply andb_true_iff in Hy as [?%Z.leb_le ?%Z.leb_le].
  intros <-%(inj Some). pose proof (daysIn_le m y) as Hd31.
  unfold ParseRFC3339.
  rewrite get_year_pad4 by lia. cbn [mbind option_bind]. rewrite expect_cons. cbn [mbind option_bind].
  rewrite checked_pad2 by lia. cbn [mbind option_bind]. rewrite expect_cons. cbn [mbind option_bind].
  rewrite getnum_pad2 by lia. cbn [mbind option_bind]. rewrite expect_cons. cbn [mbind option_bind].
  rewrite checked_pad2 by div_lia. cbn [mbind option_bind]. rewrite expect_cons. cbn [mbind option_bind].
  rewrite checked_pad2 by div_lia. cbn [mbind option_bind]. rewrite expect_cons. cbn [mbind option_bind].
  rewrite checked_pad2 by div_lia. cbn [mbind option_bind].
  rewrite get_fraction_nanos by (apply Z.mod_pos_bound; unfold Second; lia).
  cbn [get_zone]. rewrite !bool_decide_eq_true_2 by done. cbn [mbind option_bind negb].
  rewrite (proj2 (Z.ltb_ge d 1)), (proj2 (Z.ltb_ge _ d)) by lia. cbn [orb].
  f_equal. rewrite Z.mul_0_l, Z.sub_0_r. by apply Date_split.
Qed.

(** Every instant of the years 0 to 9999 has a text. *)
Definition year0 : time := Date 0 1 1 0 0 0 0.
Definition year10000 : time := Date 10000 1 1 0 0 0 0.

Lemma days_before_year_mono a b : a <= b -> days_before_year a <= days_before_year b.
Proof. unfold days_before_year. intros. div_lia. Qed.

Lemma time_Marshal_Some t : year0 <= t < year10000 <-> is_Some (time_Marshal t).
Proof.
  unfold time_Marshal. pose proof (civil_spec (day_number t)) as Hc.
  destruct (civil (day_number t)) as [[y m] d]. destruct Hc as (-> & _).
  pose proof (year_of_spec (day_number t)) as Hy. set (y := year_of (day_number t)) in *.
  pose proof (days_before_year_mono (y + 1) 0). pose proof (days_before_year_mono 0 y).
  pose proof (days_before_year_mono 10000 y). pose proof (days_before_year_mono (y + 1) 10000).
  assert (days_before_year 0 = -366 /\ days_before_year 10000 = 3652059) as [E1 E2] by done.
  assert (year0 = -366 * (24 * Hour) /\ year10000 = 3652059 * (24 * Hour)) as [-> ->] by done.
  assert (-366 * (24 * Hour) <= t < 3652059 * (24 * Hour) <-> -366 <= day_number t < 3652059) as ->.
  { unfold day_number. change (24 * Hour) with 86400000000000. div_lia. }
  destruct (Z.leb_spec 0 y), (Z.leb_spec y 9999); cbn [andb];
    split; intros; try (by eexists); try (lia || by destruct (is_Some_None (A := bytes))).
Qed.
