(* ===== verification/Json.v ===== *)
(** * The string literals [encoding/json] writes and reads

    [json.Marshal] escapes HTML-sensitive characters, control characters and
    the two JavaScript line separators, and replaces octets that are not UTF-8.
    The scanner finds the end of a literal, [unquote] decodes it; both invert
    the escaping on valid UTF-8, and what [unquote] returns is always valid. *)

From S2P Require Import Prelude GoStrings.

Definition backslash : byte := x5c.
Definition quote : byte := x22.

(** A literal with apostrophes for quotation marks. *)
Definition apos (s : bytes) : bytes := map (fun b => if bool_decide (b = x27) then quote else b) s.

(** The escape of one ASCII character. *)
Definition json_ascii (b : byte) : bytes :=
  if bool_decide (b = quote) || bool_decide (b = backslash) then [backslash; b]
  else if bool_decide (b = x08) then [backslash; x62]
  else if bool_decide (b = x0c) then [backslash; x66]
  else if bool_decide (b = x0a) then [backslash; x6e]
  else if bool_decide (b = x0d) then [backslash; x72]
  else if bool_decide (b = x09) then [backslash; x74]
  else if (Zb b <? 32) || bool_decide (b = x3c) || bool_decide (b = x3e) || bool_decide (b = x26)
  then backslash :: str "u00" ++ hex_byte b
  else [b].

(** One valid rune: U+2028 and U+2029 are escaped. *)
Definition json_rune (r : bytes) : bytes :=
  match r with
  | [b] => json_ascii b
  | [xe2; x80; xa8] => backslash :: str "u2028"
  | [xe2; x80; xa9] => backslash :: str "u2029"
  | _ => r
  end.

Fixpoint json_escape_go (fuel : nat) (s : bytes) : bytes :=
  match fuel, s with
  | S fuel', _ :: _ =>
    match rune_len s with
    | Some n => json_rune (take n s) ++ json_escape_go fuel' (drop n s)
    | None => (backslash :: str "ufffd") ++ json_escape_go fuel' (drop 1 s)
    end
  | _, _ => []
  end.

Definition json_escape (s : bytes) : bytes := json_escape_go (length s) s.
Definition json_string (s : bytes) : bytes := quote :: json_escape s ++ [quote].

Example json_string_example :
  json_string (map bZ [97; 60; 34; 92; 10; 1; 0xe2; 0x80; 0xa8; 0xff; 0xc3; 0xa9]) =
  quote :: str "a\u003c\" ++ quote :: str "\\\n\u0001\u2028\ufffd" ++ map bZ [0xc3; 0xa9; 34].
Proof. by vm_compute. Qed.

(** A string slice: [null] when nil. *)
Definition json_strings (l : option (list bytes)) : bytes :=
  match l with
  | None => str "null"
  | Some xs => str "[" ++ Join (map json_string xs) (str ",") ++ str "]"
  end.

Definition json_bool (b : bool) : bytes := if b then str "true" else str "false".

(** ["key":] *)
Definition json_key (k : bytes) : bytes := json_string k ++ str ":".

(** ** The scanner *)

Definition is_hex (b : byte) : bool := is_digit b || in_range 65 70 b || in_range 97 102 b.
Definition hex_digit_val (b : byte) : Z :=
  if Zb b <? 58 then Zb b - 48 else if Zb b <? 97 then Zb b - 55 else Zb b - 87.

(** A character that may follow a backslash, [u] apart. *)
Definition is_escape (b : byte) : bool :=
  bool_decide (b ∈ [quote; backslash; x2f; x62; x66; x6e; x72; x74]).

(** From after the opening quote: the octets up to the closing one, and what
    follows it. *)
Fixpoint scan_string (s : bytes) : option (bytes * bytes) :=
  match s with
  | [] => None
  | b :: t =>
    if bool_decide (b = quote) then Some ([], t)
    else if bool_decide (b = backslash) then
      match t with
      | [] => None
      | e :: t1 =>
        if is_escape e then '(raw, r) ← scan_string t1; Some (b :: e :: raw, r)
        else if bool_decide (e = x75) then
          match t1 with
          | h1 :: h2 :: h3 :: h4 :: t2 =>
            if forallb is_hex [h1; h2; h3; h4] then
              '(raw, r) ← scan_string t2; Some (b :: e :: h1 :: h2 :: h3 :: h4 :: raw, r)
            else None
          | _ => None
          end
        else None
      end
    else if Zb b <? 32 then None
    else '(raw, r) ← scan_string t; Some (b :: raw, r)
  end.

(** ** [unquote], on a literal the scanner has passed: where Go gives up, which
    cannot happen then, it stops *)

(** [utf8.AppendRune] *)
Definition rune_error : bytes := [xef; xbf; xbd].
Definition is_surrogate (r : Z) : bool := (0xD800 <=? r) && (r <? 0xE000).
Definition encode_rune (r : Z) : bytes :=
  if r <? 0 then rune_error
  else if r <? 0x80 then [bZ r]
  else if r <? 0x800 then [bZ (0xC0 + r / 64); bZ (0x80 + r mod 64)]
  else if is_surrogate r || (0x10FFFF <? r) then rune_error
  else if r <? 0x10000 then
    [bZ (0xE0 + r / 4096); bZ (0x80 + r / 64 mod 64); bZ (0x80 + r mod 64)]
  else [bZ (0xF0 + r / 262144); bZ (0x80 + r / 4096 mod 64); bZ (0x80 + r / 64 mod 64);
        bZ (0x80 + r mod 64)].

(** [getu4] after the [\u] *)
Definition hex4 (s : bytes) : Z := fold_left (fun a b => 16 * a + hex_digit_val b) (take 4 s) 0.

(** [utf16.DecodeRune], [None] for a pair that is not one. *)
Definition decode_pair (r1 r2 : Z) : option Z :=
  if (0xD800 <=? r1) && (r1 <? 0xDC00) && (0xDC00 <=? r2) && (r2 <? 0xE000)
  then Some ((r1 - 0xD800) * 1024 + (r2 - 0xDC00) + 0x10000) else None.

Definition unescape (e : byte) : byte :=
  if bool_decide (e = x62) then x08 else if bool_decide (e = x66) then x0c
  else if bool_decide (e = x6e) then x0a else if bool_decide (e = x72) then x0d
  else if bool_decide (e = x74) then x09 else e.

(** After [\uXXXX]: the rune, and what is left; half a surrogate pair takes the
    other half along, or is replaced. *)
Definition unquote_u (t : bytes) : bytes * bytes :=
  let r := hex4 t in
  let rest := drop 4 t in
  if is_surrogate r then
    match rest with
    | x5c :: x75 :: t2 =>
      match decode_pair r (hex4 t2) with
      | Some c => (encode_rune c, drop 4 t2)
      | None => (rune_error, rest)
      end
    | _ => (rune_error, rest)
    end
  else (encode_rune r, rest).

Fixpoint unquote_go (fuel : nat) (s : bytes) : bytes :=
  match fuel, s with
  | S fuel', b :: t =>
    if bool_decide (b = backslash) then
      match t with
      | [] => []
      | e :: t1 =>
        if bool_decide (e = x75) then let '(r, rest) := unquote_u t1 in r ++ unquote_go fuel' rest
        else if is_escape e then unescape e :: unquote_go fuel' t1 else []
      end
    else match rune_len s with
         | Some n => take n s ++ unquote_go fuel' (drop n s)
         | None => rune_error ++ unquote_go fuel' t
         end
  | _, _ => []
  end.

Definition unquote (s : bytes) : bytes := unquote_go (length s) s.

Example unquote_examples :
  unquote (str "a\n\u0041\/\ud83d\ude00\ud83dx") =
    str "a" ++ [x0a; x41; x2f] ++ map bZ [0xF0; 0x9F; 0x98; 0x80] ++ rune_error ++ str "x" /\
  unquote [xff; x61; xc3; xa9] = rune_error ++ [x61; xc3; xa9] /\
  scan_string (str "a\" ++ quote :: str "b" ++ quote :: str ",") = Some (str "a\" ++ quote :: str "b", str ",") /\
  scan_string (str "\x" ++ [quote]) = None /\ scan_string [x0a; quote] = None.
Proof. by vm_compute. Qed.

(** ** Lemmas: escaping *)

Lemma json_escape_go_fuel f1 f2 s :
  (length s <= f1)%nat -> (length s <= f2)%nat -> json_escape_go f1 s = json_escape_go f2 s.
Proof.
  revert f2 s. induction f1 as [|f1 IH]; intros f2 s H1 H2.
  - destruct s; [by destruct f2|simpl in *; lia].
  - destruct s as [|b s]; [by destruct f2|]. destruct f2 as [|f2]; [simpl in *; lia|].
    cbn [json_escape_go]. destruct (rune_len (b :: s)) as [n|] eqn:E.
    + apply rune_len_bounds in E. f_equal. apply IH; rewrite length_drop; lia.
    + f_equal. apply IH; rewrite length_drop; simpl in *; lia.
Qed.

Lemma json_escape_rune r t : is_rune r -> json_escape (r ++ t) = json_rune r ++ json_escape t.
Proof.
  intros Hr. pose proof (rune_len_bounds _ _ Hr) as Hb. unfold json_escape at 1.
  destruct r as [|b r]; [simpl in *; lia|]. cbn [app length json_escape_go].
  change (b :: r ++ t) with ((b :: r) ++ t). rewrite (rune_len_app _ t Hr).
  rewrite take_app_length, drop_app_length. f_equal.
  apply json_escape_go_fuel; rewrite ?length_app; lia.
Qed.


(** A rune's escape passes the scanner. *)
Lemma scan_rune r t :
  is_rune r ->
  scan_string (json_rune r ++ t) = ('(raw, rest) ← scan_string t; Some (json_rune r ++ raw, rest)).
Proof.
  intros Hr. destruct (rune_head_tail _ Hr) as (b & r' & -> & Hb & Ht).
  destruct r' as [|c r'].
  { clear. by destruct b. }
  assert (json_rune (b :: c :: r') ++ t = (backslash :: str "u2028") ++ t /\ json_rune (b :: c :: r') = backslash :: str "u2028" \/
          json_rune (b :: c :: r') = backslash :: str "u2029" \/ json_rune (b :: c :: r') = b :: c :: r') as Hc.
  { unfold json_rune. repeat (case_match; subst; auto). }
  destruct Hc as [[-> ->]|[->| ->]]; [by cbn|by cbn|].
  assert (forall l, Forall (fun x => (Zb x <? 128) = false) l ->
    scan_string (l ++ t) = ('(raw, rest) ← scan_string t; Some (l ++ raw, rest))) as Hscan.
  { induction 1 as [|x l Hx _ IH]; cbn [app]; [by destruct (scan_string t) as [[]|]|]. cbn [app scan_string].
    rewrite !bool_decide_eq_false_2 by (intros ->; done). apply Z.ltb_ge in Hx.
    rewrite (proj2 (Z.ltb_ge _ 32)) by lia. rewrite IH. by destruct (scan_string t) as [[]|]. }
  apply Hscan. constructor.
  - clear -Hr. unfold is_rune in Hr. apply Z.ltb_ge. cbn in Hr. unfold in_range in Hr.
    pose proof (Zb_range b). destruct (Z.ltb_spec (Zb b) 128); [|lia].
    by rewrite (proj2 (Z.leb_le 0 _)), (proj2 (Z.leb_le _ 0x7F)) in Hr by lia.
  - eapply List.Forall_impl; [|exact Ht]. intros x. unfold is_cont, in_range. cbv beta. lia.
Qed.

Lemma scan_json_escape s t : scan_string (json_escape s ++ quote :: t) = Some (json_escape s, t).
Proof.
  unfold json_escape. generalize (length s). intros n. revert s.
  induction n as [|n IH]; intros s; [done|]. destruct s as [|b s]; [done|].
  cbn [json_escape_go]. destruct (rune_len (b :: s)) as [k|] eqn:Hk.
  - rewrite <- app_assoc, scan_rune by (by eapply rune_len_take). by rewrite IH.
  - rewrite <- app_assoc. cbn. by rewrite IH.
Qed.

(** ** Lemmas: decoding *)

Lemma unquote_u_length t r rest : unquote_u t = (r, rest) -> (length rest <= length t)%nat.
Proof.
  unfold unquote_u. pose proof (length_drop t 4) as Hl. set (u := drop 4 t) in *.
  destruct (is_surrogate _); [|intros [= <- <-]; lia].
  repeat (case_match; simplify_eq/=); intros; simplify_eq; rewrite ?length_drop; simpl in *; lia.
Qed.

Lemma unquote_go_fuel f1 f2 s :
  (length s <= f1)%nat -> (length s <= f2)%nat -> unquote_go f1 s = unquote_go f2 s.
Proof.
  revert f2 s. induction f1 as [|f1 IH]; intros f2 s H1 H2.
  - destruct s; [by destruct f2|simpl in *; lia].
  - destruct s as [|b s]; [by destruct f2|]. destruct f2 as [|f2]; [simpl in *; lia|].
    cbn [unquote_go]. simpl in H1, H2. case_bool_decide.
    + destruct s as [|e s]; [done|]. simpl in H1, H2.
      case_bool_decide; [|destruct (is_escape e); [f_equal; apply IH; lia|done]].
      destruct (unquote_u s) as [r rest] eqn:Hu. apply unquote_u_length in Hu. f_equal. apply IH; lia.
    + destruct (rune_len (b :: s)) as [n|] eqn:E.
      * apply rune_len_bounds in E. f_equal. apply IH; rewrite length_drop; simpl; lia.
      * f_equal. apply IH; lia.
Qed.

Lemma unquote_cons b t :
  unquote (b :: t) =
  if bool_decide (b = backslash) then
    match t with
    | [] => []
    | e :: t1 =>
      if bool_decide (e = x75) then let '(r, rest) := unquote_u t1 in r ++ unquote rest
      else if is_escape e then unescape e :: unquote t1 else []
    end
  else match rune_len (b :: t) with
       | Some n => take n (b :: t) ++ unquote (drop n (b :: t))
       | None => rune_error ++ unquote t
       end.
Proof.
  unfold unquote at 1. cbn [length unquote_go]. case_bool_decide.
  - destruct t as [|e t]; [done|]. case_bool_decide; [|destruct (is_escape e); [f_equal; apply unquote_go_fuel; simpl; lia|done]].
    destruct (unquote_u t) as [r rest] eqn:Hu. apply unquote_u_length in Hu.
    f_equal. apply unquote_go_fuel; simpl; lia.
  - destruct (rune_len (b :: t)) as [n|] eqn:E; [|done].
    apply rune_len_bounds in E. f_equal. apply unquote_go_fuel; rewrite length_drop; simpl in *; lia.
Qed.

(** A rune's escape decodes to the rune. *)
Lemma unquote_rune r t : is_rune r -> unquote (json_rune r ++ t) = r ++ unquote t.
Proof.
  intros Hr. destruct (rune_head_tail _ Hr) as (b & r' & -> & Hb & Ht).
  assert (forall e u, json_rune (b :: r') = backslash :: e :: u -> e <> x75 -> u = [] ->
     is_escape e = true -> b :: r' = [unescape e] -> unquote (json_rune (b :: r') ++ t) = (b :: r') ++ unquote t) as Hesc.
  { intros e u -> He -> Hi ->. cbn [app]. rewrite unquote_cons.
    by rewrite bool_decide_eq_true_2, bool_decide_eq_false_2, Hi by done. }
  assert (forall h1 h2 h3 h4, json_rune (b :: r') = [backslash; x75; h1; h2; h3; h4] ->
     is_surrogate (hex4 [h1; h2; h3; h4]) = false -> encode_rune (hex4 [h1; h2; h3; h4]) = b :: r' ->
     unquote (json_rune (b :: r') ++ t) = (b :: r') ++ unquote t) as Hu.
  { intros h1 h2 h3 h4 -> Hs <-. cbn [app]. rewrite unquote_cons.
    rewrite !bool_decide_eq_true_2 by done. unfold unquote_u.
    change (hex4 (h1 :: h2 :: h3 :: h4 :: t)) with (hex4 [h1; h2; h3; h4]). by rewrite Hs. }
  assert (b <> backslash -> json_rune (b :: r') = b :: r' ->
          unquote (json_rune (b :: r') ++ t) = (b :: r') ++ unquote t) as Hplain.
  { intros Hbs ->. cbn [app]. rewrite unquote_cons, bool_decide_eq_false_2 by done.
    change (b :: r' ++ t) with ((b :: r') ++ t). rewrite (rune_len_app _ t Hr).
    by rewrite take_app_length, drop_app_length. }
  destruct r' as [|c r'].
  - clear Hb Ht Hr. destruct b; first
      [by apply Hplain|by eapply Hesc; [reflexivity|..]|by eapply Hu; [reflexivity|vm_compute; reflexivity..]].
  - destruct (decide (b :: c :: r' = [xe2; x80; xa8])) as [Heq|H1];
      [rewrite Heq in *; by eapply Hu; [reflexivity|vm_compute; reflexivity..]|].
    destruct (decide (b :: c :: r' = [xe2; x80; xa9])) as [Heq|H2];
      [rewrite Heq in *; by eapply Hu; [reflexivity|vm_compute; reflexivity..]|].
    apply Hplain.
    + intros ->. unfold is_rune in Hr. cbn in Hr. by simplify_eq/=.
    + unfold json_rune. repeat (case_match; subst; try done).
Qed.

Lemma unquote_json_escape s : utf8_valid s = true -> unquote (json_escape s) = s.
Proof.
  intros (rs & Hrs & ->)%utf8_valid_runes. induction Hrs as [|r rs Hr _ IH]; [done|].
  cbn [concat]. rewrite json_escape_rune, unquote_rune by done. by rewrite IH.
Qed.

(** What a string comes back as: octets that are not UTF-8 become U+FFFD. *)
Definition mended (s : bytes) : bytes := unquote (json_escape s).

Example mended_example : mended (map bZ [0x61; 0xff; 0xc3; 0xa9; 0xe2; 0x80]) =
  map bZ [0x61] ++ rune_error ++ map bZ [0xc3; 0xa9] ++ rune_error ++ rune_error.
Proof. by vm_compute. Qed.

(** Literals of valid strings determine the string and what follows. *)
Lemma json_string_app_inj s s' t t' :
  utf8_valid s = true -> utf8_valid s' = true ->
  json_string s ++ t = json_string s' ++ t' -> s = s' /\ t = t'.
Proof.
  intros Hs Hs' H. unfold json_string in H. cbn [app] in H. injection H as H.
  rewrite <- !app_assoc in H. cbn [app] in H.
  pose proof (scan_json_escape s t) as E. rewrite H, scan_json_escape in E. injection E as Ee ->.
  split; [|done]. by rewrite <- (unquote_json_escape s Hs), <- Ee, unquote_json_escape.
Qed.

(** ** Lemmas: every decoded string is valid UTF-8 *)

Lemma encode_rune_valid r : is_rune (encode_rune r).
Proof.
  unfold encode_rune, is_rune. pose proof Zb_bZ as E. destruct (Z.ltb_spec r 0) as [|Hr]; [done|].
  destruct (Z.ltb_spec r 0x80).
  { unfold rune_len, in_range. rewrite E, Z.mod_small by lia. cbn [length].
    by rewrite (proj2 (Z.leb_le 0 r)), (proj2 (Z.leb_le r 0x7F)) by lia. }
  destruct (Z.ltb_spec r 0x800).
  { unfold rune_len, in_range, is_cont, in_range. rewrite !E, !Z.mod_small by (Z.div_mod_to_equations; lia).
    cbn [length]. repeat case_match; try done; Z.div_mod_to_equations; lia. }
  unfold is_surrogate.
  destruct (Z.leb_spec 0xD800 r), (Z.ltb_spec r 0xE000); cbn [andb orb]; try done.
  all: destruct (Z.ltb_spec 0x10FFFF r); [done|].
  all: destruct (Z.ltb_spec r 0x10000); try lia.
  all: unfold rune_len, accept2, is_cont, in_range.
  all: rewrite !E, !Z.mod_small by (Z.div_mod_to_equations; lia).
  all: cbn [length]; repeat case_match; try done; Z.div_mod_to_equations; lia.
Qed.

Lemma utf8_valid_app_rune r t : is_rune r -> utf8_valid t = true -> utf8_valid (r ++ t) = true.
Proof. intros Hr Ht. by rewrite utf8_valid_rune_app. Qed.

Lemma unquote_u_rune t r rest : unquote_u t = (r, rest) -> is_rune r.
Proof.
  unfold unquote_u. intros H. pose proof encode_rune_valid.
  repeat (case_match; simplify_eq/=); try done; by simplify_eq.
Qed.

Lemma unescape_rune e : is_escape e = true -> is_rune [unescape e].
Proof. by destruct e. Qed.

Lemma unquote_valid s : utf8_valid (unquote s) = true.
Proof.
  unfold unquote. generalize (length s). intros n. revert s.
  induction n as [|n IH]; intros s; [done|]. destruct s as [|b s]; [done|]. cbn [unquote_go].
  case_bool_decide.
  - destruct s as [|e s]; [done|]. case_bool_decide.
    + destruct (unquote_u s) as [r rest] eqn:Hu. apply utf8_valid_app_rune; [by eapply unquote_u_rune|done].
    + destruct (is_escape e) eqn:He; [|done].
      apply (utf8_valid_app_rune [_]); [by apply unescape_rune|done].
  - destruct (rune_len (b :: s)) as [k|] eqn:Hk; [|by apply utf8_valid_app_rune].
    apply utf8_valid_app_rune; [by eapply rune_len_take|done].
Qed.
