(* ===== verification/JsonText.v ===== *)
(** * JSON text: the values, [json.Marshal]'s and [json.MarshalIndent]'s
    layouts, and the scanner of [encoding/json]

    A value keeps its strings and numbers as the octets of the text: what they
    mean depends on the Go type they are decoded into. The parser accepts what
    the scanner accepts (RFC 8259, any octets of 32 and more inside strings,
    nesting up to 10000) and returns the value together with what follows it. *)

From S2P Require Import Prelude GoStrings RFC3339 Json.

#[local] Unset Elimination Schemes.
Inductive json :=
| JNull
| JBool (b : bool)
| JNum (lit : bytes)
| JStr (raw : bytes)
| JArr (vs : list json)
| JObj (ms : list (bytes * json)).
#[local] Set Elimination Schemes.

(** ** Printing *)

(** A line break and the indentation of level [n]: two spaces each. *)
Fixpoint spaces (n : nat) : bytes := match n with O => [] | S n' => x20 :: x20 :: spaces n' end.

(** The layout: [None] is [Marshal]'s, [Some n] is [MarshalIndent(_, "", "  ")]
    at level [n]. *)
Definition break (ind : option nat) : bytes := from_option (fun n => x0a :: spaces n) [] ind.
Definition colon (ind : option nat) : bytes := x3a :: match ind with Some _ => [x20] | None => [] end.

Definition literal (raw : bytes) : bytes := quote :: raw ++ [quote].

(** What follows the first item of a list: the others, each after a comma. *)
Definition print_tail {A} (item : A -> bytes) (close : bytes) : list A -> bytes :=
  fix tail l := match l with [] => close | a :: l' => x2c :: item a ++ tail l' end.

Fixpoint json_print (ind : option nat) (v : json) : bytes :=
  match v with
  | JNull => str "null"
  | JBool b => json_bool b
  | JNum lit => lit
  | JStr raw => literal raw
  | JArr [] => str "[]"
  | JArr (v :: vs) =>
    let elem v := break (S <$> ind) ++ json_print (S <$> ind) v in
    x5b :: elem v ++ print_tail elem (break ind ++ [x5d]) vs
  | JObj [] => str "{}"
  | JObj (m :: ms) =>
    let member '(k, v) := break (S <$> ind) ++ literal k ++ colon ind ++ json_print (S <$> ind) v in
    x7b :: member m ++ print_tail member (break ind ++ [x7d]) ms
  end.

Definition compact : json -> bytes := json_print None.
Definition indented : json -> bytes := json_print (Some 0%nat).

(** ** Scanning *)

Definition is_space (b : byte) : bool := bool_decide (b ∈ [x20; x09; x0d; x0a]).

Fixpoint skip_ws (s : bytes) : bytes :=
  match s with b :: s' => if is_space b then skip_ws s' else s | [] => [] end.

(** One or more digits. *)
Definition scan_digits (s : bytes) : option (bytes * bytes) :=
  let '(ds, r) := span is_digit s in if bool_decide (ds = []) then None else Some (ds, r).

(** No leading zeros. *)
Definition scan_int (s : bytes) : option (bytes * bytes) :=
  match expect x30 s with Some r => Some ([x30], r) | None => scan_digits s end.

Definition scan_frac (s : bytes) : option (bytes * bytes) :=
  match expect x2e s with
  | Some r => '(ds, r) ← scan_digits r; Some (x2e :: ds, r)
  | None => Some ([], s)
  end.

(** An optional octet among [bs]. *)
Definition scan_opt (bs : bytes) (s : bytes) : bytes * bytes :=
  match s with
  | b :: r => if bool_decide (b ∈ bs) then ([b], r) else ([], s)
  | [] => ([], [])
  end.

Definition scan_exp (s : bytes) : option (bytes * bytes) :=
  match scan_opt (str "eE") s with
  | ([], _) => Some ([], s)
  | (e, r) => let '(sg, r) := scan_opt (str "+-") r in '(ds, r) ← scan_digits r; Some (e ++ sg ++ ds, r)
  end.

Definition scan_number (s : bytes) : option (bytes * bytes) :=
  let '(sg, r) := scan_opt (str "-") s in
  '(i, r) ← scan_int r; '(f, r) ← scan_frac r; '(e, r) ← scan_exp r;
  Some (sg ++ i ++ f ++ e, r).

Definition scan_word (w : bytes) (v : json) (s : bytes) : option (json * bytes) :=
  if HasPrefix s w then Some (v, drop (length w) s) else None.

(** [depth] is how many arrays and objects may still be opened. *)
Fixpoint parse_value (fuel : nat) (depth : Z) (s : bytes) {struct fuel} : option (json * bytes) :=
  match fuel with
  | O => None
  | S fuel' =>
    match skip_ws s with
    | [] => None
    | b :: t =>
      if bool_decide (b = quote) then '(raw, r) ← scan_string t; Some (JStr raw, r)
      else if bool_decide (b = x7b) then
        if depth <=? 0 then None else
        match expect x7d (skip_ws t) with
        | Some r => Some (JObj [], r)
        | None => '(ms, r) ← parse_members fuel' (depth - 1) t; Some (JObj ms, r)
        end
      else if bool_decide (b = x5b) then
        if depth <=? 0 then None else
        match expect x5d (skip_ws t) with
        | Some r => Some (JArr [], r)
        | None => '(vs, r) ← parse_elems fuel' (depth - 1) t; Some (JArr vs, r)
        end
      else if bool_decide (b = x74) then scan_word (str "true") (JBool true) (b :: t)
      else if bool_decide (b = x66) then scan_word (str "false") (JBool false) (b :: t)
      else if bool_decide (b = x6e) then scan_word (str "null") JNull (b :: t)
      else '(lit, r) ← scan_number (b :: t); Some (JNum lit, r)
    end
  end
with parse_elems (fuel : nat) (depth : Z) (s : bytes) {struct fuel} : option (list json * bytes) :=
  match fuel with
  | O => None
  | S fuel' =>
    '(v, r) ← parse_value fuel' depth s;
    match expect x2c (skip_ws r) with
    | Some r' => '(vs, r'') ← parse_elems fuel' depth r'; Some (v :: vs, r'')
    | None => r' ← expect x5d (skip_ws r); Some ([v], r')
    end
  end
with parse_members (fuel : nat) (depth : Z) (s : bytes) {struct fuel}
    : option (list (bytes * json) * bytes) :=
  match fuel with
  | O => None
  | S fuel' =>
    t ← expect quote (skip_ws s);
    '(k, r) ← scan_string t;
    r1 ← expect x3a (skip_ws r);
    '(v, r2) ← parse_value fuel' depth r1;
    match expect x2c (skip_ws r2) with
    | Some r' => '(ms, r'') ← parse_members fuel' depth r'; Some ((k, v) :: ms, r'')
    | None => r' ← expect x7d (skip_ws r2); Some ([(k, v)], r')
    end
  end.

Definition maxNestingDepth : Z := 10000.

(** Each call with the same text is made at most twice before an octet is
    consumed. *)
Definition parse_fuel (s : bytes) : nat := (2 * length s + 2)%nat.

(** The whole text is one value between white space. *)
Definition json_parse (s : bytes) : option json :=
  '(v, r) ← parse_value (parse_fuel s) maxNestingDepth s;
  if bool_decide (skip_ws r = []) then Some v else None.

(** ** Lemmas: lengths, and fuel *)

Lemma skip_ws_length s : (length (skip_ws s) <= length s)%nat.
Proof. induction s as [|b s IH]; [done|]. cbn. case_match; simpl; lia. Qed.

Lemma scan_string_length s raw r : scan_string s = Some (raw, r) -> (length r < length s)%nat.
Proof.
  remember (length s) as n eqn:Hn. revert s raw r Hn.
  induction n as [n IH] using lt_wf_ind. intros [|b s] raw r ->; [done|].
  assert (forall t raw r, (length t < length (b :: s))%nat -> scan_string t = Some (raw, r) ->
                          (length r < length t)%nat) as Ht by (intros; by eapply IH).
  intros H. cbn [scan_string] in H.
  case_bool_decide; [by simplify_eq/=; lia|]. case_bool_decide.
  - destruct s as [|e t1]; [done|]. destruct (is_escape e).
    { apply bind_Some in H as ([] & E & H). simplify_eq. apply Ht in E; simpl in *; lia. }
    case_bool_decide; [|done]. do 4 (destruct t1 as [|? t1]; [done|]). destruct (forallb _ _); [|done].
    apply bind_Some in H as ([] & E & H). simplify_eq. apply Ht in E; simpl in *; lia.
  - destruct (_ <? _); [done|].
    apply bind_Some in H as ([] & E & H). simplify_eq. apply Ht in E; simpl in *; lia.
Qed.

Lemma scan_digits_length s a r : scan_digits s = Some (a, r) -> (length r < length s)%nat.
Proof.
  unfold scan_digits. destruct (span is_digit s) as [ds r'] eqn:E. apply span_app in E as [-> _].
  case_bool_decide; intros; simplify_eq. rewrite length_app. destruct a; [done|]. simpl. lia.
Qed.

Lemma scan_opt_length bs s a r : scan_opt bs s = (a, r) -> (length r <= length s)%nat.
Proof. unfold scan_opt. repeat case_match; intros; simplify_eq/=; lia. Qed.

Lemma scan_number_length s a r : scan_number s = Some (a, r) -> (length r < length s)%nat.
Proof.
  unfold scan_number. intros H. destruct (scan_opt (str "-") s) as [sg s1] eqn:E1. apply scan_opt_length in E1.
  apply bind_Some in H as ([i s2] & Hi & H). apply bind_Some in H as ([f s3] & Hf & H).
  apply bind_Some in H as ([e s4] & He & H). injection H as _ <-.
  assert (length s2 < length s1)%nat as H2.
  { unfold scan_int in Hi. destruct (expect x30 s1) eqn:E; [|by apply scan_digits_length in Hi].
    apply expect_Some in E as ->. simplify_eq/=. lia. }
  assert (length s3 <= length s2)%nat as H3.
  { unfold scan_frac in Hf. destruct (expect x2e s2) eqn:E; [|by simplify_eq].
    apply expect_Some in E as ->. apply bind_Some in Hf as ([] & ?%scan_digits_length & ?).
    simplify_eq/=. lia. }
  assert (length s4 <= length s3)%nat as H4; [|lia].
  unfold scan_exp in He. destruct (scan_opt (str "eE") s3) as [[|c l] s3'] eqn:E3; [by simplify_eq|].
  destruct (scan_opt (str "+-") s3') as [sg' s5] eqn:E5. apply scan_opt_length in E3, E5.
  apply bind_Some in He as ([] & ?%scan_digits_length & ?); simplify_eq; lia.
Qed.

Lemma scan_word_length w v s v' r :
  w <> [] -> scan_word w v s = Some (v', r) -> (length r < length s)%nat.
Proof.
  intros Hw. unfold scan_word. destruct (HasPrefix s w) eqn:E; [|done]. intros [= <- <-].
  apply HasPrefix_spec in E. rewrite E, length_app, drop_app_length.
  destruct w; [done|]. simpl. lia.
Qed.

Lemma expect_ws_length b s r : expect b (skip_ws s) = Some r -> (length r < length s)%nat.
Proof. intros E%expect_Some. pose proof (skip_ws_length s) as H. rewrite E in H. simpl in H. lia. Qed.

(** Take a successful parse apart, and measure its steps. *)
Ltac parse_steps H :=
  repeat first
    [apply bind_Some in H as (? & ? & H)
    |match type of H with context [match ?p with (_, _) => _ end] => is_var p; destruct p end
    |match type of H with context [match expect ?b ?s with _ => _ end] =>
       let E := fresh "Ex" in destruct (expect b s) eqn:E end];
  simplify_eq/=.

Lemma parse_lengths fuel :
  (forall d s v r, parse_value fuel d s = Some (v, r) -> (length r < length s)%nat) /\
  (forall d s v r, parse_elems fuel d s = Some (v, r) -> (length r < length s)%nat) /\
  (forall d s v r, parse_members fuel d s = Some (v, r) -> (length r < length s)%nat).
Proof.
  induction fuel as [|fuel (IHv & IHe & IHm)]; [done|].
  split_and!; intros d s v r H; cbn [parse_value parse_elems parse_members] in H.
  - pose proof (skip_ws_length s) as Hs. destruct (skip_ws s) as [|b t]; [done|]. simpl in Hs.
    repeat case_bool_decide; try (apply scan_word_length in H; [simpl in H; lia|done]);
      try (destruct (d <=? 0); [done|]); parse_steps H;
      repeat match goal with
      | E : expect _ (skip_ws _) = Some _ |- _ => apply expect_ws_length in E
      | E : scan_string _ = _ |- _ => apply scan_string_length in E
      | E : scan_number _ = _ |- _ => apply scan_number_length in E
      | E : parse_elems _ _ _ = _ |- _ => apply IHe in E
      | E : parse_members _ _ _ = _ |- _ => apply IHm in E
      end; simpl in *; lia.
  - parse_steps H;
      repeat match goal with
      | E : expect _ (skip_ws _) = Some _ |- _ => apply expect_ws_length in E
      | E : parse_value _ _ _ = _ |- _ => apply IHv in E
      | E : parse_elems _ _ _ = _ |- _ => apply IHe in E
      end; lia.
  - parse_steps H;
      repeat match goal with
      | E : expect _ (skip_ws _) = Some _ |- _ => apply expect_ws_length in E
      | E : scan_string _ = _ |- _ => apply scan_string_length in E
      | E : parse_value _ _ _ = _ |- _ => apply IHv in E
      | E : parse_members _ _ _ = _ |- _ => apply IHm in E
      end; lia.
Qed.

(** Equal computations of a prefix make equal parses. *)
Lemma bind_ext_Some {A B} (o o' : option A) (f g : A -> option B) :
  o = o' -> (forall a, o = Some a -> f a = g a) -> o ≫= f = o' ≫= g.
Proof. intros <- H. destruct o; [by apply H|done]. Qed.

(** Fuel beyond the bound makes no difference. *)
Lemma parse_fuel_enough f1 f2 s d :
  ((2 * length s + 1 <= f1 -> 2 * length s + 1 <= f2 -> parse_value f1 d s = parse_value f2 d s) /\
   (2 * length s + 2 <= f1 -> 2 * length s + 2 <= f2 -> parse_elems f1 d s = parse_elems f2 d s) /\
   (2 * length s + 2 <= f1 -> 2 * length s + 2 <= f2 -> parse_members f1 d s = parse_members f2 d s))%nat.
Proof.
  revert f2 s d. induction f1 as [|f1 IH]; intros f2 s d; [split_and!; intros; lia|].
  destruct f2 as [|f2]; [split_and!; intros; lia|].
  split_and!; intros H1 H2; cbn [parse_value parse_elems parse_members].
  - pose proof (skip_ws_length s) as Hs. destruct (skip_ws s) as [|b t]; [done|]. simpl in Hs.
    destruct (IH f2 t (d - 1)) as (_ & -> & ->); [done|lia..].
  - apply bind_ext_Some; [apply IH; lia|]. intros [v r] Hv%parse_lengths.
    destruct (expect x2c (skip_ws r)) eqn:E; [|done]. apply expect_ws_length in E.
    apply bind_ext_Some; [apply IH; lia|done].
  - apply bind_ext_Some; [done|]. intros t Ht%expect_ws_length.
    apply bind_ext_Some; [done|]. intros [k r] Hk%scan_string_length.
    apply bind_ext_Some; [done|]. intros r1 Hr%expect_ws_length.
    apply bind_ext_Some; [apply IH; lia|]. intros [v r2] Hv%parse_lengths.
    destruct (expect x2c (skip_ws r2)) eqn:E; [|done]. apply expect_ws_length in E.
    apply bind_ext_Some; [apply IH; lia|done].
Qed.

(** ** The layouts are read back *)

Section induction.
Context (P : json -> Prop).
Context (Hnull : P JNull) (Hbool : forall b, P (JBool b)) (Hnum : forall lit, P (JNum lit))
  (Hstr : forall raw, P (JStr raw)) (Harr : forall vs, Forall P vs -> P (JArr vs))
  (Hobj : forall ms, Forall (fun kv => P (snd kv)) ms -> P (JObj ms)).

Fixpoint json_induction (v : json) : P v :=
  match v with
  | JNull => Hnull
  | JBool b => Hbool b
  | JNum lit => Hnum lit
  | JStr raw => Hstr raw
  | JArr vs => Harr vs ((fix all vs : Forall P vs :=
      match vs with
      | [] => List.Forall_nil P
      | v :: vs' => List.Forall_cons P v vs' (json_induction v) (all vs')
      end) vs)
  | JObj ms => Hobj ms ((fix all ms : Forall (fun kv => P (snd kv)) ms :=
      match ms with
      | [] => List.Forall_nil _
      | kv :: ms' => List.Forall_cons _ kv ms' (match kv return P (snd kv) with (_, v) => json_induction v end) (all ms')
      end) ms)
  end.
End induction.

(** Octets the scanner reads as one literal. *)
Definition raw_ok (raw : bytes) : Prop := forall t, scan_string (raw ++ quote :: t) = Some (raw, t).

(** Text a number does not run into. *)
Definition stops (t : bytes) : Prop :=
  forall b, head t = Some b -> is_digit b = false /\ b ∉ str ".eE".

Definition lit_ok (lit : bytes) : Prop :=
  (exists b l, lit = b :: l /\ is_digit b || bool_decide (b = x2d) = true) /\
  forall t, stops t -> scan_number (lit ++ t) = Some (lit, t).

(** Values the scanner can produce, with at most [d] levels. *)
Fixpoint json_ok (d : Z) (v : json) : Prop :=
  match v with
  | JNull | JBool _ => True
  | JNum lit => lit_ok lit
  | JStr raw => raw_ok raw
  | JArr vs => 0 < d /\ (fix all vs := match vs with [] => True | v :: vs' => json_ok (d - 1) v /\ all vs' end) vs
  | JObj ms =>
    0 < d /\
    (fix all ms := match ms with [] => True | (k, v) :: ms' => raw_ok k /\ json_ok (d - 1) v /\ all ms' end) ms
  end.

Lemma json_ok_arr d vs : json_ok d (JArr vs) <-> 0 < d /\ Forall (json_ok (d - 1)) vs.
Proof.
  cbn [json_ok]. f_equiv. induction vs as [|v vs IH]; [done|]. by rewrite List.Forall_cons_iff, IH.
Qed.

Lemma json_ok_obj d ms :
  json_ok d (JObj ms) <-> 0 < d /\ Forall (fun '(k, v) => raw_ok k /\ json_ok (d - 1) v) ms.
Proof.
  cbn [json_ok]. f_equiv. induction ms as [|[k v] ms IH]; [done|].
  rewrite List.Forall_cons_iff, IH. tauto.
Qed.

Lemma skip_ws_spaces n s : skip_ws (spaces n ++ s) = skip_ws s.
Proof. induction n as [|n IH]; [done|]. exact IH. Qed.

Lemma skip_ws_break ind s : skip_ws (break ind ++ s) = skip_ws s.
Proof. destruct ind as [n|]; [apply skip_ws_spaces|done]. Qed.

Lemma parse_value_ws f d s s' : skip_ws s = skip_ws s' -> parse_value f d s = parse_value f d s'.
Proof. intros H. destruct f; [done|]. cbn [parse_value]. by rewrite H. Qed.

Lemma parse_value_break f d ind s : parse_value f d (break ind ++ s) = parse_value f d s.
Proof. apply parse_value_ws, skip_ws_break. Qed.

Lemma parse_elems_ws f d s s' : skip_ws s = skip_ws s' -> parse_elems f d s = parse_elems f d s'.
Proof. intros H. destruct f; [done|]. cbn [parse_elems]. by rewrite (parse_value_ws f d s s'). Qed.

Lemma parse_members_ws f d s s' : skip_ws s = skip_ws s' -> parse_members f d s = parse_members f d s'.
Proof. intros H. destruct f; [done|]. cbn [parse_members]. by rewrite H. Qed.

(** Octets a number does not run into. *)
Definition stopper (c : byte) : bool := negb (is_digit c) && bool_decide (c ∉ str ".eE").

Lemma stops_cons c t : stopper c = true -> stops (c :: t).
Proof. intros [Hd%negb_true_iff Hn%bool_decide_eq_true]%andb_true_iff b [= <-]. done. Qed.

Lemma stops_close ind c t : stopper c = true -> stops (break ind ++ c :: t).
Proof. intros H. destruct ind as [n|]; [by apply stops_cons|by apply stops_cons]. Qed.

(** With fuel enough, [m] parses a text to [x]. *)
Definition parses {A} (m : nat -> option (A * bytes)) (x : A) (t : bytes) : Prop :=
  exists F, forall f, (F <= f)%nat -> m f = Some (x, t).

Definition reads_back (v : json) : Prop := forall ind d t,
  json_ok d v -> stops t -> parses (fun f => parse_value f d (json_print ind v ++ t)) v t.

Lemma parse_elems_print ind d t v vs :
  let elem v := break (S <$> ind) ++ json_print (S <$> ind) v in
  Forall reads_back (v :: vs) -> Forall (json_ok d) (v :: vs) -> stops t ->
  parses (fun f => parse_elems f d ((elem v ++ print_tail elem (break ind ++ [x5d]) vs) ++ t)) (v :: vs) t.
Proof.
  intros elem Hr Hok Ht. revert v Hr Hok. induction vs as [|v' vs IH]; intros v Hr Hok.
  all: apply Forall_cons_iff in Hr as [Hv Hr]; apply Forall_cons_iff in Hok as [Hd Hok].
  - destruct (Hv (S <$> ind) d (break ind ++ x5d :: t) Hd) as [F HF].
    { by apply stops_close. }
    exists (S F). intros [|f] Hf; [lia|]. cbn [parse_elems print_tail]. unfold elem at 1.
    rewrite <- !app_assoc, parse_value_break. cbn [app]. rewrite HF by lia. cbn [mbind option_bind].
    by rewrite skip_ws_break.
  - destruct (IH v' Hr Hok) as [F2 HF2].
    destruct (Hv (S <$> ind) d (print_tail elem (break ind ++ [x5d]) (v' :: vs) ++ t) Hd) as [F HF].
    { by apply stops_cons. }
    exists (S (max F F2)). intros [|f] Hf; [lia|]. cbn [parse_elems]. unfold elem at 1.
    rewrite <- !app_assoc, parse_value_break, HF by lia. cbn [mbind option_bind print_tail app skip_ws].
    change (is_space x2c) with false. cbn [expect]. rewrite bool_decide_eq_true_2 by done.
    by rewrite HF2 by lia.
Qed.

Lemma parse_member_print ind d f k x u :
  raw_ok k ->
  parse_members (S f) d ((break (S <$> ind) ++ literal k ++ colon ind ++ x) ++ u) =
  ('(v, r) ← parse_value f d (x ++ u);
   match expect x2c (skip_ws r) with
   | Some r' => '(ms, r'') ← parse_members f d r'; Some ((k, v) :: ms, r'')
   | None => r' ← expect x7d (skip_ws r); Some ([(k, v)], r')
   end).
Proof.
  intros Hk. cbn [parse_members]. rewrite <- !app_assoc, skip_ws_break.
  change (skip_ws (literal k ++ colon ind ++ x ++ u)) with (quote :: (k ++ [quote]) ++ colon ind ++ x ++ u).
  rewrite expect_cons. cbn [mbind option_bind]. rewrite <- app_assoc. cbn [app]. rewrite Hk.
  cbn [mbind option_bind]. unfold colon. cbn [app skip_ws]. change (is_space x3a) with false. cbv iota.
  rewrite expect_cons. cbn [mbind option_bind].
  destruct ind as [n|]; cbn [app]; [|done]. by rewrite (parse_value_ws f d (x20 :: x ++ u) (x ++ u)).
Qed.

Lemma parse_members_print ind d t m ms :
  let member '(k, v) := break (S <$> ind) ++ literal k ++ colon ind ++ json_print (S <$> ind) v in
  Forall (fun m => reads_back (snd m)) (m :: ms) ->
  Forall (fun '(k, v) => raw_ok k /\ json_ok d v) (m :: ms) -> stops t ->
  parses (fun f => parse_members f d ((member m ++ print_tail member (break ind ++ [x7d]) ms) ++ t)) (m :: ms) t.
Proof.
  intros member Hr Hok Ht. revert m Hr Hok. induction ms as [|m' ms IH]; intros [k v] Hr Hok.
  all: apply Forall_cons_iff in Hr as [Hv Hr]; apply Forall_cons_iff in Hok as [[Hk Hd] Hok]; cbn [snd] in Hv.
  all: pose proof (fun f u => parse_member_print ind d f k (json_print (S <$> ind) v) u Hk) as Hm.
  - destruct (Hv (S <$> ind) d (break ind ++ x7d :: t) Hd) as [F HF].
    { by apply stops_close. }
    exists (S F). intros [|f] Hf; [lia|]. cbn [print_tail].
    cbn [member]. rewrite <- (app_assoc _ _ t), Hm. rewrite <- app_assoc. cbn [app]. rewrite HF by lia. cbn [mbind option_bind].
    by rewrite skip_ws_break.
  - destruct (IH m' Hr Hok) as [F2 HF2].
    destruct (Hv (S <$> ind) d (print_tail member (break ind ++ [x7d]) (m' :: ms) ++ t) Hd) as [F HF].
    { by apply stops_cons. }
    exists (S (max F F2)). intros [|f] Hf; [lia|].
    cbn [member]. rewrite <- (app_assoc _ _ t), Hm, HF by lia. cbn [mbind option_bind print_tail app skip_ws].
    change (is_space x2c) with false. cbn [expect]. rewrite bool_decide_eq_true_2 by done.
    by rewrite HF2 by lia.
Qed.

(** A number's text starts the number branch. *)
Lemma lit_branch b :
  is_digit b || bool_decide (b = x2d) = true ->
  is_space b = false /\ Forall (fun c => b <> c) [quote; x7b; x5b; x74; x66; x6e].
Proof. intros H. destruct b; try done; (split; [done|repeat constructor; discriminate]). Qed.

(** Printed values begin with their own first octet. *)
Lemma print_head ind d v :
  json_ok d v -> exists b s, json_print ind v = b :: s /\ is_space b = false /\ b <> x5d.
Proof.
  destruct v as [|[]|lit|raw|[|v vs]|[|m ms]]; intros Hok; try by eexists _, _.
  destruct Hok as [(b & l & -> & Hb) _]. exists b, l. split; [done|].
  split; [by apply lit_branch in Hb as []|by intros ->].
Qed.

Lemma parse_print v : reads_back v.
Proof.
  induction v as [|b|lit|raw|vs IH|ms IH] using json_induction; intros ind d t Hok Ht.
  - exists 1%nat. by intros [|f]; [lia|].
  - exists 1%nat. intros [|f]; [lia|]. by destruct b.
  - destruct Hok as [(b & l & -> & Hb) Hs]. exists 1%nat. intros [|f] ?; [lia|].
    specialize (Hs t Ht). apply lit_branch in Hb as [Hsp Hb]. rewrite !Forall_cons_iff in Hb. destruct_and!.
    cbn [json_print app] in *. cbn [parse_value skip_ws]. rewrite Hsp, !bool_decide_eq_false_2 by done.
    by rewrite Hs.
  - exists 1%nat. intros [|f] ?; [lia|]. cbn [json_print]. unfold literal. cbn [app].
    rewrite <- app_assoc. cbn [app parse_value skip_ws]. change (is_space quote) with false. cbv iota.
    rewrite bool_decide_eq_true_2 by done. by rewrite Hok.
  - apply json_ok_arr in Hok as [Hd Hok]. destruct vs as [|v vs].
    { exists 1%nat. intros [|f] ?; [lia|]. cbn. by rewrite (proj2 (Z.leb_gt d 0)). }
    destruct (parse_elems_print ind (d - 1) t v vs IH Hok Ht) as [F HF].
    exists (S F). intros [|f] Hf; [lia|]. cbn [json_print]. cbv zeta. cbn [app parse_value skip_ws].
    change (is_space x5b) with false. cbv iota. rewrite !bool_decide_eq_false_2, bool_decide_eq_true_2 by done.
    rewrite (proj2 (Z.leb_gt d 0)) by done. rewrite HF by lia. cbn [mbind option_bind].
    rewrite <- !app_assoc, skip_ws_break. apply Forall_cons_iff in Hok as [Hv _].
    destruct (print_head (S <$> ind) _ _ Hv) as (b & s & -> & Hb & Hne). cbn [app skip_ws]. rewrite Hb.
    cbn [expect]. by rewrite bool_decide_eq_false_2.
  - apply json_ok_obj in Hok as [Hd Hok]. destruct ms as [|[k v] ms].
    { exists 1%nat. intros [|f] ?; [lia|]. cbn. by rewrite (proj2 (Z.leb_gt d 0)). }
    destruct (parse_members_print ind (d - 1) t (k, v) ms IH Hok Ht) as [F HF].
    exists (S F). intros [|f] Hf; [lia|]. cbn [json_print]. cbv zeta. cbn [app parse_value skip_ws].
    change (is_space x7b) with false. cbv iota. rewrite !bool_decide_eq_false_2, bool_decide_eq_true_2 by done.
    rewrite (proj2 (Z.leb_gt d 0)) by done. rewrite HF by lia. cbn [mbind option_bind].
    by rewrite <- !app_assoc, skip_ws_break.
Qed.

(** Both layouts of a value parse to the value. *)
Lemma json_parse_print ind v : json_ok maxNestingDepth v -> json_parse (json_print ind v) = Some v.
Proof.
  intros Hok. destruct (parse_print v ind maxNestingDepth [] Hok) as [F HF]; [done|].
  rewrite app_nil_r in HF. unfold json_parse, parse_fuel.
  rewrite (proj1 (parse_fuel_enough _ (max F (2 * length (json_print ind v) + 2)) _ _)) by lia.
  rewrite HF by lia. done.
Qed.

(** ** Truncated text is refused *)

Definition is_num (v : json) : bool := if v is JNum _ then true else false.

Lemma skip_ws_app s t b r : skip_ws s = b :: r -> skip_ws (s ++ t) = b :: r ++ t.
Proof.
  induction s as [|c s IH]; [done|]. cbn [skip_ws app]. destruct (is_space c); [done|].
  by intros [= -> ->].
Qed.

Lemma expect_ws_app b s r t : expect b (skip_ws s) = Some r -> expect b (skip_ws (s ++ t)) = Some (r ++ t).
Proof. intros E%expect_Some. rewrite (skip_ws_app _ t _ _ E). apply expect_cons. Qed.

Lemma expect_ws_app_None b s t :
  skip_ws s <> [] -> expect b (skip_ws s) = None -> expect b (skip_ws (s ++ t)) = None.
Proof.
  destruct (skip_ws s) as [|c r] eqn:E; [done|]. intros _. rewrite (skip_ws_app _ t _ _ E). cbn [expect].
  by case_bool_decide.
Qed.

Lemma expect_app_None b s t : s <> [] -> expect b s = None -> expect b (s ++ t) = None.
Proof. destruct s; [done|]. intros _. cbn [expect app]. by case_bool_decide. Qed.

Lemma scan_string_app s raw r t : scan_string s = Some (raw, r) -> scan_string (s ++ t) = Some (raw, r ++ t).
Proof.
  remember (length s) as n eqn:Hn. revert s raw r Hn.
  induction n as [n IH] using lt_wf_ind. intros [|b s] raw r ->; [done|].
  assert (forall u raw r, (length u < length (b :: s))%nat -> scan_string u = Some (raw, r) ->
                          scan_string (u ++ t) = Some (raw, r ++ t)) as Hu by (intros; by eapply IH).
  cbn [scan_string app]. case_bool_decide; [by intros [= <- <-]|]. case_bool_decide.
  - destruct s as [|e s]; [done|]. cbn [app]. destruct (is_escape e).
    { intros ([raw' r'] & E & [= <- <-])%bind_Some. apply Hu in E; [|simpl; lia]. by rewrite E. }
    case_bool_decide; [|done]. do 4 (destruct s as [|? s]; [done|]). cbn [app]. destruct (forallb _ _); [|done].
    intros ([raw' r'] & E & [= <- <-])%bind_Some. apply Hu in E; [|simpl; lia]. by rewrite E.
  - destruct (_ <? _); [done|].
    intros ([raw' r'] & E & [= <- <-])%bind_Some. apply Hu in E; [|simpl; lia]. by rewrite E.
Qed.

Lemma span_more f s a r t : span f s = (a, r) -> r <> [] -> span f (s ++ t) = (a, r ++ t).
Proof.
  intros (-> & Ha & Hr)%span_app Hne. rewrite <- app_assoc. apply span_spec; [done|].
  destruct r; [done|]. intros c [= <-]. by apply Hr.
Qed.

Lemma scan_digits_app s a r t : scan_digits s = Some (a, r) -> r <> [] -> scan_digits (s ++ t) = Some (a, r ++ t).
Proof.
  unfold scan_digits. destruct (span is_digit s) as [ds r'] eqn:E. case_bool_decide; [done|].
  intros [= <- <-] Hr. rewrite (span_more _ _ _ _ t E Hr). by rewrite bool_decide_eq_false_2.
Qed.

Lemma scan_opt_app bs s a r t : scan_opt bs s = (a, r) -> r <> [] -> scan_opt bs (s ++ t) = (a, r ++ t).
Proof. destruct s as [|b s]; cbn; [by intros [= <- <-]|]. case_bool_decide; by intros [= <- <-]. Qed.

Lemma length_ne {A} (l k : list A) : (length l < length k)%nat -> k <> [].
Proof. by destruct k; simpl; [lia|]. Qed.

Lemma scan_number_app s a r t : scan_number s = Some (a, r) -> r <> [] -> scan_number (s ++ t) = Some (a, r ++ t).
Proof.
  unfold scan_number. intros H Hr. destruct (scan_opt (str "-") s) as [sg s1] eqn:E1.
  apply bind_Some in H as ([i s2] & Hi & H). apply bind_Some in H as ([f s3] & Hf & H).
  apply bind_Some in H as ([e s4] & He & H). injection H as <- <-.
  assert (s3 <> [] /\ scan_exp (s3 ++ t) = Some (e, s4 ++ t)) as [H3 F3].
  { unfold scan_exp in He |- *. destruct (scan_opt (str "eE") s3) as [[|c l] s3'] eqn:E3.
    - simplify_eq. split; [done|]. apply (scan_opt_app _ _ _ _ t) in E3.
      + rewrite E3. done.
      + unfold scan_opt in E3. repeat case_match; by simplify_eq.
    - destruct (scan_opt (str "+-") s3') as [sg' s5] eqn:E5.
      apply bind_Some in He as ([ds s6] & Hd & ?). simplify_eq.
      pose proof (scan_digits_length _ _ _ Hd) as L. pose proof (scan_opt_length _ _ _ _ E5).
      pose proof (scan_opt_length _ _ _ _ E3).
      split; [apply (length_ne s4); lia|].
      rewrite (scan_opt_app _ _ _ _ t E3), (scan_opt_app _ _ _ _ t E5), (scan_digits_app _ _ _ t Hd);
        [done|done|apply (length_ne s4); lia|apply (length_ne s4); lia]. }
  assert (s2 <> [] /\ scan_frac (s2 ++ t) = Some (f, s3 ++ t)) as [H2 F2].
  { unfold scan_frac in Hf |- *. destruct (expect x2e s2) as [u|] eqn:E.
    - apply expect_Some in E as ->. split; [done|]. cbn [app]. rewrite expect_cons.
      apply bind_Some in Hf as ([ds s5] & Hd & ?). simplify_eq. by rewrite (scan_digits_app _ _ _ t Hd).
    - simplify_eq. split; [done|]. by rewrite expect_app_None. }
  assert (s1 <> [] /\ scan_int (s1 ++ t) = Some (i, s2 ++ t)) as [H1 F1].
  { unfold scan_int in Hi |- *. destruct (expect x30 s1) as [u|] eqn:E.
    - apply expect_Some in E as ->. split; [done|]. cbn [app]. rewrite expect_cons. by simplify_eq.
    - pose proof (scan_digits_length _ _ _ Hi) as L. apply length_ne in L as Hne. split; [done|].
      by rewrite expect_app_None, (scan_digits_app _ _ _ t Hi). }
  rewrite (scan_opt_app _ _ _ _ t E1), F1 by done. cbn [mbind option_bind]. rewrite F2. cbn [mbind option_bind].
  by rewrite F3.
Qed.

Lemma scan_word_app w v s v' r t : scan_word w v s = Some (v', r) -> scan_word w v (s ++ t) = Some (v', r ++ t).
Proof.
  unfold scan_word. destruct (HasPrefix s w) eqn:E; [|done]. intros [= <- <-].
  apply HasPrefix_spec in E. rewrite E, <- app_assoc, HasPrefix_app, !drop_app_length. done.
Qed.

(** More text after a finished value changes nothing. *)
Lemma parse_app f :
  (forall d s v r t, parse_value f d s = Some (v, r) -> r <> [] \/ is_num v = false ->
                     parse_value f d (s ++ t) = Some (v, r ++ t)) /\
  (forall d s v r t, parse_elems f d s = Some (v, r) -> parse_elems f d (s ++ t) = Some (v, r ++ t)) /\
  (forall d s v r t, parse_members f d s = Some (v, r) -> parse_members f d (s ++ t) = Some (v, r ++ t)).
Proof.
  induction f as [|f (IHv & IHe & IHm)]; [done|].
  split_and!; intros d s v r t H; [intros Hr|..]; cbn [parse_value parse_elems parse_members] in H |- *.
  - destruct (skip_ws s) as [|b u] eqn:Es; [done|]. rewrite (skip_ws_app _ t _ _ Es).
    case_bool_decide.
    { apply bind_Some in H as ([raw r'] & E & [= <- <-]). by rewrite (scan_string_app _ _ _ t E). }
    case_bool_decide.
    { destruct (d <=? 0); [done|]. destruct (expect x7d (skip_ws u)) as [u'|] eqn:E.
      { rewrite (expect_ws_app _ _ _ t E). by simplify_eq. }
      apply bind_Some in H as ([ms r'] & Em & [= <- <-]).
      rewrite expect_ws_app_None, (IHm _ _ _ _ t Em); [done| |done].
      destruct f; [done|]. cbn [parse_members] in Em. apply bind_Some in Em as (? & Em%expect_Some & _).
      by rewrite Em. }
    case_bool_decide.
    { destruct (d <=? 0); [done|]. destruct (expect x5d (skip_ws u)) as [u'|] eqn:E.
      { rewrite (expect_ws_app _ _ _ t E). by simplify_eq. }
      apply bind_Some in H as ([ms r'] & Em & [= <- <-]).
      rewrite expect_ws_app_None, (IHe _ _ _ _ t Em); [done| |done].
      intros Hn. destruct f as [|[|f]]; [done..|]. cbn [parse_elems parse_value] in Em. by rewrite Hn in Em. }
    do 3 (case_bool_decide; [by apply (scan_word_app _ _ (b :: u))|]).
    apply bind_Some in H as ([lit r'] & E & [= <- <-]). destruct Hr as [Hr|]; [|done].
    change (b :: u ++ t) with ((b :: u) ++ t). by rewrite (scan_number_app _ _ _ t E Hr).
  - apply bind_Some in H as ([v' r'] & E & H).
    assert (skip_ws r' <> []) as Hs by (intros Hs; by rewrite Hs in H).
    rewrite (IHv _ _ _ _ t E) by (left; by intros ->). cbn [mbind option_bind].
    destruct (expect x2c (skip_ws r')) as [u|] eqn:Ec.
    + rewrite (expect_ws_app _ _ _ t Ec). apply bind_Some in H as ([vs r''] & Ee & [= <- <-]).
      by rewrite (IHe _ _ _ _ t Ee).
    + rewrite expect_ws_app_None by done. apply bind_Some in H as (u & Ee & [= <- <-]).
      by rewrite (expect_ws_app _ _ _ t Ee).
  - apply bind_Some in H as (u & Eu & H). rewrite (expect_ws_app _ _ _ t Eu). cbn [mbind option_bind].
    apply bind_Some in H as ([k r1] & Ek & H). rewrite (scan_string_app _ _ _ t Ek). cbn [mbind option_bind].
    apply bind_Some in H as (u2 & E2 & H). rewrite (expect_ws_app _ _ _ t E2). cbn [mbind option_bind].
    apply bind_Some in H as ([v' r'] & E & H).
    assert (skip_ws r' <> []) as Hs by (intros Hs; by rewrite Hs in H).
    rewrite (IHv _ _ _ _ t E) by (left; by intros ->). cbn [mbind option_bind].
    destruct (expect x2c (skip_ws r')) as [u3|] eqn:Ec.
    + rewrite (expect_ws_app _ _ _ t Ec). apply bind_Some in H as ([vs r''] & Ee & [= <- <-]).
      by rewrite (IHm _ _ _ _ t Ee).
    + rewrite expect_ws_app_None by done. apply bind_Some in H as (u3 & Ee & [= <- <-]).
      by rewrite (expect_ws_app _ _ _ t Ee).
Qed.

Lemma parse_value_head f d s v r b u :
  parse_value f d s = Some (v, r) -> skip_ws s = b :: u -> b = x7b \/ b = x5b -> is_num v = false.
Proof.
  destruct f; [done|]. cbn [parse_value]. intros H E Hb. rewrite E in H.
  repeat case_bool_decide; subst; try (by destruct Hb); try (destruct (d <=? 0); [done|]); parse_steps H; done.
Qed.

(** No proper prefix of a printed array or object is a JSON text. *)
Lemma json_parse_truncated ind v p t :
  json_ok maxNestingDepth v -> (exists vs, v = JArr vs) \/ (exists ms, v = JObj ms) ->
  json_print ind v = p ++ t -> t <> [] -> json_parse p = None.
Proof.
  intros Hok Hv Hp Ht. destruct (json_parse p) as [v'|] eqn:E; [exfalso|done].
  unfold json_parse in E. apply bind_Some in E as ([v1 r] & E & Hr). case_bool_decide as Hws; [|done].
  assert (exists b u, p = b :: u /\ (b = x7b \/ b = x5b)) as (b & u & -> & Hb).
  { destruct p as [|b u]; [done|]. exists b, u. split; [done|].
    destruct Hv as [[[|x vs] ->]|[[|x ms] ->]]; injection Hp as <- _; auto. }
  assert (is_num v1 = false) as Hn.
  { eapply (parse_value_head _ _ _ _ _ b u); [exact E| |done]. by destruct Hb as [->| ->]. }
  destruct (parse_print v ind maxNestingDepth [] Hok) as [F HF]; [done|]. rewrite app_nil_r in HF.
  set (f := max F (parse_fuel (b :: u))).
  rewrite (proj1 (parse_fuel_enough _ f _ _)) in E by (unfold f, parse_fuel; lia).
  apply (proj1 (parse_app _)) with (t := t) in E; [|by right]. rewrite <- Hp, HF in E by lia.
  injection E as _ E. symmetry in E. by apply app_eq_nil in E as [_ ->].
Qed.

(** ** The literals Go's types print *)

Lemma raw_ok_escape s : raw_ok (json_escape s).
Proof. intros t. apply scan_json_escape. Qed.

(** Octets a literal holds as they are. *)
Definition plain (b : byte) : bool := (32 <=? Zb b) && bool_decide (b ∉ [quote; backslash]).

Lemma raw_ok_plain raw : forallb plain raw = true -> raw_ok raw.
Proof.
  intros H t. induction raw as [|b raw IH]; [done|]. cbn [forallb] in H.
  apply andb_true_iff in H as [[Hb Hn%bool_decide_eq_true]%andb_true_iff H].
  rewrite !not_elem_of_cons in Hn. destruct Hn as (? & ? & _).
  cbn [app scan_string]. rewrite !bool_decide_eq_false_2 by done.
  apply Z.leb_le in Hb. rewrite (proj2 (Z.ltb_ge _ _)) by lia. by rewrite IH.
Qed.

Lemma unquote_plain raw : forallb (fun b => plain b && (Zb b <? 128)) raw = true -> unquote raw = raw.
Proof.
  induction raw as [|b raw IH]; [done|]. cbn [forallb]. unfold plain at 1.
  rewrite !andb_true_iff. intros [[[_ Hn%bool_decide_eq_true] Hb] H]. rewrite !not_elem_of_cons in Hn.
  rewrite unquote_cons, bool_decide_eq_false_2 by tauto.
  assert (rune_len (b :: raw) = Some 1%nat) as -> by (clear -Hb; by destruct b). cbn [take drop app].
  f_equal. by apply IH.
Qed.

Lemma stops_expect c t : stops t -> c ∈ str ".eE" -> expect c t = None.
Proof.
  intros Ht Hc. destruct t as [|b t]; [done|]. destruct (Ht b eq_refl) as [_ Hb]. cbn [expect].
  rewrite bool_decide_eq_false_2; [done|by intros ->].
Qed.

Lemma dec_head n : 0 <= n -> exists b ds, dec n = b :: ds /\ is_digit b = true /\ (b = x30 -> n = 0 /\ ds = []).
Proof.
  intros Hn. destruct (dec_spec n Hn) as (_ & Hd & Hne & Hh). destruct (dec n) as [|b ds] eqn:E; [done|].
  cbn [forallb] in Hd. apply andb_true_iff in Hd as [Hb _]. exists b, ds. split; [done|]. split; [done|].
  intros ->. destruct (decide (n = 0)) as [->|Hnz]; [change (dec 0) with [x30] in E; by simplify_eq|].
  by destruct (Hh x30 eq_refl Hnz).
Qed.

Lemma lit_ok_itoa z : lit_ok (itoa z).
Proof.
  assert (forall n t, 0 <= n -> stops t -> scan_int (dec n ++ t) = Some (dec n, t)) as Hint.
  { intros n t Hn Ht. destruct (dec_head n Hn) as (b & ds & E & Hb & H0). unfold scan_int, scan_digits.
    destruct (dec_spec n Hn) as (_ & Hd & Hne & _). destruct (decide (b = x30)) as [->|Hnz].
    - destruct (H0 eq_refl) as [-> ->]. by rewrite E.
    - rewrite span_spec; [|done|by intros c Hc; apply Ht]. rewrite bool_decide_eq_false_2 by done.
      rewrite E. cbn [app expect]. by rewrite bool_decide_eq_false_2. }
  assert (forall t, stops t -> scan_frac t = Some ([], t) /\ scan_exp t = Some ([], t)) as Hend.
  { intros t Ht. unfold scan_frac, scan_exp. rewrite (stops_expect x2e) by (done || by apply (bool_decide_unpack _)).
    split; [done|]. destruct t as [|b t]; [done|]. cbn [scan_opt].
    rewrite bool_decide_eq_false_2; [done|]. destruct (Ht b eq_refl) as [_ Hb]. intros Hin. apply Hb.
    revert Hin. cbn. rewrite !elem_of_cons, elem_of_nil. tauto. }
  unfold itoa. destruct (Z.ltb_spec z 0) as [Hz|Hz].
  - split; [by eexists _, _|]. intros t Ht. unfold scan_number.
    change (scan_opt (str "-") ((str "-" ++ dec (- z)) ++ t)) with ([x2d], dec (- z) ++ t).
    destruct (Hend t Ht) as [Hf He]. rewrite Hint by (done || lia). cbn [mbind option_bind].
    rewrite Hf. cbn [mbind option_bind]. rewrite He. cbn [mbind option_bind]. by rewrite !app_nil_r.
  - destruct (dec_head z Hz) as (b & ds & E & Hb & _). split; [exists b, ds; by rewrite Hb|].
    intros t Ht. unfold scan_number. assert (scan_opt (str "-") (dec z ++ t) = ([], dec z ++ t)) as ->.
    { rewrite E. cbn [app scan_opt]. rewrite bool_decide_eq_false_2; [done|].
      intros Hin%list_elem_of_singleton. by subst b. }
    destruct (Hend t Ht) as [Hf He]. rewrite Hint by done. cbn [mbind option_bind].
    rewrite Hf. cbn [mbind option_bind]. rewrite He. cbn [mbind option_bind app]. by rewrite !app_nil_r.
Qed.

Example json_parse_examples :
  json_parse (str " [1, -0.5e+7 ,true,null,{}] ") =
    Some (JArr [JNum (str "1"); JNum (str "-0.5e+7"); JBool true; JNull; JObj []]) /\
  json_parse (str "[1,]") = None /\ json_parse (str "[01]") = None /\ json_parse (str "nul") = None /\
  json_parse (str "{}{}") = None /\ json_parse [] = None /\
  indented (JArr [JObj [(str "a", JNull)]; JArr []]) =
    str "[" ++ x0a :: str "  {" ++ x0a :: str "    " ++ literal (str "a") ++ str ": null" ++
    x0a :: str "  }," ++ x0a :: str "  []" ++ x0a :: str "]".
Proof. by vm_compute. Qed.
