(* ===== verification/JsonGo.v ===== *)
(** * Package [encoding/json]: Go values to JSON and back

    [json.Marshal] and [json.Unmarshal] work on the type of their argument. A
    [gtype] is a Go type with its struct tags, a [gval] a value of it; [json_of]
    and [decode] are the two directions, [decode] writing into an existing value
    the way [Unmarshal] does. An error anywhere makes the whole result an error:
    no caller here looks at a value [Unmarshal] left half written. *)

From S2P Require Import Prelude GoStrings BaseN GoTime RFC3339 Json JsonText.

(** ** Types and values *)

(** The options of a field's tag. *)
Inductive tag := Always | OmitEmpty | OmitZero.

(** [time.Time] marshals itself; [[]byte] is base64 text. *)
#[local] Unset Elimination Schemes.
Inductive gtype :=
| TString
| TInt
| TBool
| TBytes
| TTime
| TPtr (t : gtype)
| TSlice (t : gtype)
| TStruct (fs : list (bytes * tag * gtype)).

(** A slice is [None] when nil; otherwise its elements, and those beyond its
    length that its array still holds, which a later decoding writes over. *)
Inductive gval :=
| VString (s : bytes)
| VInt (z : Z)
| VBool (b : bool)
| VBytes (o : option (bytes * bytes))
| VTime (t : time)
| VPtr (o : option gval)
| VSlice (o : option (list gval * list gval))
| VStruct (vs : list gval).
#[local] Set Elimination Schemes.

Fixpoint zero (t : gtype) : gval :=
  match t with
  | TString => VString []
  | TInt => VInt 0
  | TBool => VBool false
  | TBytes => VBytes None
  | TTime => VTime zeroTime
  | TPtr _ => VPtr None
  | TSlice _ => VSlice None
  | TStruct fs => VStruct (map (fun '(_, t) => zero t) fs)
  end.

(** [isEmptyValue], and [reflect.Value.IsZero] or the type's own [IsZero]. *)
Definition empty_value (v : gval) : bool :=
  match v with
  | VString [] | VBool false | VBytes None | VBytes (Some ([], _)) | VPtr None
  | VSlice None | VSlice (Some ([], _)) => true
  | VInt z => z =? 0
  | _ => false
  end.

Fixpoint zero_value (v : gval) : bool :=
  match v with
  | VString [] | VBool false | VBytes None | VPtr None | VSlice None => true
  | VInt z => z =? 0
  | VTime t => IsZero t
  | VStruct vs => forallb zero_value vs
  | _ => false
  end.

Definition omitted (o : tag) (v : gval) : bool :=
  match o with Always => false | OmitEmpty => empty_value v | OmitZero => zero_value v end.

(** ** Marshalling: [None] is an error *)

Fixpoint json_of (t : gtype) (v : gval) : option json :=
  match t, v with
  | TString, VString s => Some (JStr (json_escape s))
  | TInt, VInt z => Some (JNum (itoa z))
  | TBool, VBool b => Some (JBool b)
  | TBytes, VBytes None => Some JNull
  | TBytes, VBytes (Some (s, _)) => Some (JStr (StdEncode s))
  | TTime, VTime t => JStr <$> time_Marshal t
  | TPtr _, VPtr None => Some JNull
  | TPtr t, VPtr (Some v) => json_of t v
  | TSlice _, VSlice None => Some JNull
  | TSlice t, VSlice (Some (vs, _)) => JArr <$> mapM (json_of t) vs
  | TStruct fs, VStruct vs =>
    JObj <$> (fix fields fs vs :=
      match fs, vs with
      | (name, o, t) :: fs', v :: vs' =>
        if omitted o v then fields fs' vs'
        else j ← json_of t v; ms ← fields fs' vs'; Some ((name, j) :: ms)
      | [], [] => Some []
      | _, _ => None
      end) fs vs
  | _, _ => None
  end.

(** ** Unmarshalling *)

(** [foldName]: ASCII letters in upper case, and the two other runes that fold
    to one. A field's name is ASCII, so the rest of the folding table can make
    no difference to a match. *)
Definition kelvin_sign : bytes := [xe2; x84; xaa].
Definition long_s : bytes := [xc5; xbf].
Definition upper (b : byte) : byte := if in_range 97 122 b then bZ (Zb b - 32) else b.

Fixpoint fold_name (fuel : nat) (s : bytes) : bytes :=
  match fuel, s with
  | S fuel', b :: s' =>
    if HasPrefix s kelvin_sign then x4b :: fold_name fuel' (drop 3 s)
    else if HasPrefix s long_s then x53 :: fold_name fuel' (drop 2 s)
    else upper b :: fold_name fuel' s'
  | _, _ => []
  end.

Definition foldName (s : bytes) : bytes := fold_name (length s) s.

(** The field a key is decoded into: by its exact name, or the first whose name
    folds to the same; a key without a field is skipped. *)
Definition find_field (key : bytes) (names : list bytes) : option nat :=
  match list_find (fun n => n = key) names with
  | Some (i, _) => Some i
  | None => fst <$> list_find (fun n => foldName n = foldName key) names
  end.

(** The elements of an array, each decoded into what is in its place already. *)
Fixpoint decode_elems {A} (dec : json -> A -> option A) (z : A) (js : list json) (olds : list A)
    : option (list A * list A) :=
  match js with
  | [] => Some ([], olds)
  | j :: js' =>
    v ← dec j (default z (head olds));
    '(vs, stale) ← decode_elems dec z js' (tail olds);
    Some (v :: vs, stale)
  end.

(** Into a slice: an empty array makes a fresh one. *)
Definition decode_array {A} (dec : json -> A -> option A) (z : A) (js : list json)
    (old : option (list A * list A)) : option (option (list A * list A)) :=
  match js with
  | [] => Some (Some ([], []))
  | _ => Some <$> decode_elems dec z js (from_option (fun '(vs, stale) => vs ++ stale) [] old)
  end.

(** An array into a [[]byte]: [strconv.ParseUint] and the 8-bit range. *)
Definition decode_octet (j : json) (old : byte) : option byte :=
  match j with
  | JNum lit => if forallb is_digit lit && (dec_val lit <? 256) then Some (bZ (dec_val lit)) else None
  | JNull => Some old
  | _ => None
  end.

Fixpoint decode (t : gtype) (j : json) (old : gval) {struct t} : option gval :=
  match t, old with
  | TString, VString _ =>
    match j with JStr raw => Some (VString (unquote raw)) | JNull => Some old | _ => None end
  | TInt, VInt _ => match j with JNum lit => VInt <$> Atoi lit | JNull => Some old | _ => None end
  | TBool, VBool _ => match j with JBool b => Some (VBool b) | JNull => Some old | _ => None end
  | TBytes, VBytes o =>
    match j with
    | JStr raw => s ← StdDecode (unquote raw); Some (VBytes (Some (s, [])))
    | JArr js => VBytes <$> decode_array decode_octet x00 js o
    | JNull => Some (VBytes None)
    | _ => None
    end
  | TTime, VTime _ =>
    match j with JStr raw => VTime <$> ParseRFC3339 raw | JNull => Some old | _ => None end
  | TPtr t, VPtr o =>
    match j with
    | JNull => Some (VPtr None)
    | _ => v ← decode t j (default (zero t) o); Some (VPtr (Some v))
    end
  | TSlice t, VSlice o =>
    match j with
    | JArr js => VSlice <$> decode_array (decode t) (zero t) js o
    | JNull => Some (VSlice None)
    | _ => None
    end
  | TStruct fs, VStruct vs =>
    match j with
    | JObj ms =>
      VStruct <$> (fix members ms vs :=
        match ms with
        | [] => Some vs
        | (key, j) :: ms' =>
          match find_field (unquote key) (map (fun '(n, _, _) => n) fs) with
          | None => members ms' vs
          | Some i =>
            vs' ← (fix at_ fs vs i {struct fs} :=
                     match fs, vs, i with
                     | (_, _, t) :: _, v :: vs', O => v' ← decode t j v; Some (v' :: vs')
                     | _ :: fs', v :: vs', S i' => (v ::.) <$> at_ fs' vs' i'
                     | _, _, _ => None
                     end) fs vs i;
            members ms' vs'
          end
        end) ms vs
    | JNull => Some old
    | _ => None
    end
  | _, _ => None
  end.

(** ** The calls *)

(** A Go type of the program: its shape, and the two directions between it and
    the values above. *)
Class GoValue (A : Type) := { go_type : gtype; to_go : A -> gval; of_go : gval -> option A }.
Arguments go_type A {_}.

Definition Marshal `{GoValue A} (a : A) : option bytes := compact <$> json_of (go_type A) (to_go a).
Definition MarshalIndent `{GoValue A} (a : A) : option bytes := indented <$> json_of (go_type A) (to_go a).

(** Into a zero value. *)
Definition Unmarshal `{GoValue A} (raw : bytes) : option A :=
  j ← json_parse raw; v ← decode (go_type A) j (zero (go_type A)); of_go v.

(** ** Lemmas: the recursions by name *)

Section induction.
Context (P : gtype -> Prop).
Context (Hstring : P TString) (Hint : P TInt) (Hbool : P TBool) (Hbytes : P TBytes) (Htime : P TTime)
  (Hptr : forall t, P t -> P (TPtr t)) (Hslice : forall t, P t -> P (TSlice t))
  (Hstruct : forall fs, Forall (fun f => P (snd f)) fs -> P (TStruct fs)).

Fixpoint gtype_induction (t : gtype) : P t :=
  match t with
  | TString => Hstring | TInt => Hint | TBool => Hbool | TBytes => Hbytes | TTime => Htime
  | TPtr t => Hptr t (gtype_induction t)
  | TSlice t => Hslice t (gtype_induction t)
  | TStruct fs => Hstruct fs ((fix all fs : Forall (fun f => P (snd f)) fs :=
      match fs with
      | [] => List.Forall_nil _
      | f :: fs' =>
        List.Forall_cons _ f fs' (match f return P (snd f) with (_, t) => gtype_induction t end) (all fs')
      end) fs)
  end.
End induction.

Abbreviation field := (bytes * tag * gtype)%type.
Definition field_name (f : field) : bytes := f.1.1.
Definition names (fs : list field) : list bytes := map (fun '(n, _, _) => n) fs.
Definition zeros (fs : list field) : list gval := map (fun '(_, t) => zero t) fs.

Fixpoint fields_of (fs : list field) (vs : list gval) : option (list (bytes * json)) :=
  match fs, vs with
  | (name, o, t) :: fs', v :: vs' =>
    if omitted o v then fields_of fs' vs'
    else j ← json_of t v; ms ← fields_of fs' vs'; Some ((name, j) :: ms)
  | [], [] => Some []
  | _, _ => None
  end.

Lemma json_of_struct fs vs : json_of (TStruct fs) (VStruct vs) = JObj <$> fields_of fs vs.
Proof. reflexivity. Qed.

(** Decode into the [i]-th field. *)
Definition decode_at (j : json) : list field -> list gval -> nat -> option (list gval) :=
  fix at_ fs vs i {struct fs} :=
    match fs, vs, i with
    | (_, _, t) :: _, v :: vs', O => v' ← decode t j v; Some (v' :: vs')
    | _ :: fs', v :: vs', S i' => (v ::.) <$> at_ fs' vs' i'
    | _, _, _ => None
    end.

Definition decode_members (fs : list field) : list (bytes * json) -> list gval -> option (list gval) :=
  fix members ms vs :=
    match ms with
    | [] => Some vs
    | (key, j) :: ms' =>
      match find_field (unquote key) (names fs) with
      | None => members ms' vs
      | Some i => vs' ← decode_at j fs vs i; members ms' vs'
      end
    end.

Lemma decode_struct fs ms vs : decode (TStruct fs) (JObj ms) (VStruct vs) = VStruct <$> decode_members fs ms vs.
Proof. reflexivity. Qed.

(** ** Values of a type *)

(** Strings are valid UTF-8 and integers fit, hidden elements included. *)
Fixpoint has_type (t : gtype) (v : gval) : Prop :=
  match t, v with
  | TString, VString s => utf8_valid s = true
  | TInt, VInt z => - 2 ^ 63 <= z < 2 ^ 63
  | TBool, VBool _ | TBytes, VBytes _ | TTime, VTime _ | TPtr _, VPtr None | TSlice _, VSlice None => True
  | TPtr t, VPtr (Some v) => has_type t v
  | TSlice t, VSlice (Some (vs, stale)) => Forall (has_type t) vs /\ Forall (has_type t) stale
  | TStruct fs, VStruct vs =>
    (fix fields fs vs := match fs, vs with
                         | (_, _, t) :: fs', v :: vs' => has_type t v /\ fields fs' vs'
                         | [], [] => True
                         | _, _ => False
                         end) fs vs
  | _, _ => False
  end.

Definition field_typed (f : field) (v : gval) : Prop := has_type (snd f) v.

Lemma has_type_struct fs vs : has_type (TStruct fs) (VStruct vs) <-> Forall2 field_typed fs vs.
Proof.
  revert vs. induction fs as [|[[n o] t] fs IH]; intros [|v vs]; try (split; [done|by inversion 1]).
  split; [intros [Hv Hvs]; constructor; [done|by apply IH]|].
  inversion 1; subst. split; [done|by apply IH].
Qed.

Lemma zero_typed t : has_type t (zero t).
Proof.
  induction t as [| | | | | | |fs IH] using gtype_induction; try done.
  cbn [zero]. apply has_type_struct. induction IH as [|[[n o] t] fs Ht _ IH]; by constructor.
Qed.

Lemma decode_elems_Forall {A} (P : A -> Prop) (dec : json -> A -> option A) z js olds vs stale :
  (forall j o v, P o -> dec j o = Some v -> P v) -> P z -> Forall P olds ->
  decode_elems dec z js olds = Some (vs, stale) -> Forall P vs /\ Forall P stale.
Proof.
  intros Hdec Hz. revert olds vs stale. induction js as [|j js IH]; intros olds vs stale Ho H; cbn in H.
  - by simplify_eq.
  - apply bind_Some in H as (v & Hv & H). apply bind_Some in H as ([vs' st] & Hs & H). simplify_eq.
    apply IH in Hs as [? ?]; [|by destruct Ho]. split; [|done]. constructor; [|done].
    eapply Hdec; [|exact Hv]. by destruct Ho.
Qed.

Lemma decode_array_Forall {A} (P : A -> Prop) (dec : json -> A -> option A) z js old r :
  (forall j o v, P o -> dec j o = Some v -> P v) -> P z ->
  match old with None => True | Some (vs, stale) => Forall P vs /\ Forall P stale end ->
  decode_array dec z js old = Some r ->
  match r with None => True | Some (vs, stale) => Forall P vs /\ Forall P stale end.
Proof.
  intros Hdec Hz Ho H. unfold decode_array in H. destruct js as [|j js]; [by simplify_eq|].
  apply fmap_Some in H as ([vs st] & H & ->). eapply decode_elems_Forall; [done..| |done].
  destruct old as [[vs' st']|]; [|constructor]. destruct Ho. by apply Forall_app.
Qed.

Lemma Atoi_range s z : Atoi s = Some z -> - 2 ^ 63 <= z < 2 ^ 63.
Proof.
  unfold Atoi. intros H. destruct (match s with [] => _ | _ => _ end) as [neg ds].
  destruct (_ || _); [done|]. destruct (_ && _) eqn:E; simplify_eq.
  apply andb_true_iff in E as [?%Z.leb_le ?%Z.ltb_lt]. done.
Qed.

Lemma decode_at_typed j fs vs i vs' :
  Forall (fun f => forall j old v, has_type (snd f) old -> decode (snd f) j old = Some v -> has_type (snd f) v) fs ->
  Forall2 field_typed fs vs -> decode_at j fs vs i = Some vs' -> Forall2 field_typed fs vs'.
Proof.
  intros Hdec Hvs. revert i vs'. induction Hvs as [|[[n o] t] v fs vs Hv Hvs IH]; intros i vs' H; [done|].
  apply Forall_cons_iff in Hdec as [Ht Hdec]. destruct i as [|i]; cbn [decode_at] in H.
  - apply bind_Some in H as (v' & Hv' & [= <-]). constructor; [|done]. by eapply Ht.
  - apply fmap_Some in H as (vs1 & H & ->). constructor; [done|]. by eapply IH.
Qed.

(** Whatever the text, [Unmarshal] leaves a value of the type. *)
Lemma decode_typed t j old v : has_type t old -> decode t j old = Some v -> has_type t v.
Proof.
  revert j old v. induction t as [| | | | |t IH|t IH|fs IH] using gtype_induction; intros j old v Ho H;
    destruct old as [s|z|b|o|u|o|o|vs]; try done; cbn [decode] in H.
  - destruct j; simplify_eq; [done|]. apply unquote_valid.
  - destruct j; simplify_eq; [done|]. apply fmap_Some in H as (z' & ?%Atoi_range & ->). done.
  - by destruct j; simplify_eq.
  - destruct j; simplify_eq; [done| |].
    + by apply bind_Some in H as (? & _ & [= <-]).
    + by apply fmap_Some in H as (? & _ & ->).
  - destruct j; simplify_eq; [done|]. by apply fmap_Some in H as (? & _ & ->).
  - assert (v = VPtr None \/ exists v', v = VPtr (Some v') /\ decode t j (default (zero t) o) = Some v') as [->|(v' & -> & Hv)];
      [destruct j; try (apply bind_Some in H as (? & ? & [= <-])); simplify_eq; eauto|done|].
    cbn [has_type]. eapply IH; [|exact Hv]. destruct o; [done|apply zero_typed].
  - destruct j; simplify_eq; [done|]. apply fmap_Some in H as (r & H & ->). cbn [has_type].
    apply (decode_array_Forall (has_type t)) in H; [|done|apply zero_typed|by destruct o as [[]|]].
    by destruct r as [[]|].
  - destruct j as [| | | | |ms]; simplify_eq; [done|].
    change (VStruct <$> decode_members fs ms vs = Some v) in H. apply fmap_Some in H as (vs' & H & ->).
    apply has_type_struct. apply has_type_struct in Ho. revert vs Ho H.
    induction ms as [|[k j] ms IHm]; intros vs Ho H; [by simplify_eq/=|]. cbn [decode_members] in H.
    destruct (find_field _ _) as [i|]; [|by eapply IHm].
    apply bind_Some in H as (vs1 & Hat & H). eapply IHm; [|exact H]. by eapply decode_at_typed.
Qed.

(** ** Round trips *)

(** Types whose encoding can be read back: no pointer to something that prints
    as [null], and structs with distinct plain ASCII field names. *)
Definition nonnull (t : gtype) : bool :=
  match t with TPtr _ | TSlice _ | TBytes => false | _ => true end.

Definition plain_ascii (b : byte) : bool := plain b && (Zb b <? 128).

Fixpoint type_ok (t : gtype) : bool :=
  match t with
  | TPtr t => nonnull t && type_ok t
  | TSlice t => type_ok t
  | TStruct fs =>
    bool_decide (NoDup (map (fun '(n, _, _) => n) fs)) && forallb (fun '(n, _, _) => forallb plain_ascii n) fs &&
    forallb (fun '(_, t) => type_ok t) fs
  | _ => true
  end.

(** Levels of arrays and objects in the encoding. *)
Fixpoint type_depth (t : gtype) : Z :=
  match t with
  | TBytes | TString | TInt | TBool | TTime => 0
  | TPtr t => type_depth t
  | TSlice t => 1 + type_depth t
  | TStruct fs => 1 + fold_right (fun '(_, t) d => Z.max (type_depth t) d) 0 fs
  end.

(** Values with nothing hidden behind their slices, and whose omitted fields
    are zero. *)
Fixpoint tidy (t : gtype) (v : gval) : Prop :=
  match t, v with
  | TBytes, VBytes (Some (_, stale)) => stale = []
  | TPtr t, VPtr (Some v) => tidy t v
  | TSlice t, VSlice (Some (vs, stale)) => Forall (tidy t) vs /\ stale = []
  | TStruct fs, VStruct vs =>
    (fix fields fs vs := match fs, vs with
                         | (_, o, t) :: fs', v :: vs' =>
                           (omitted o v = true -> v = zero t) /\ tidy t v /\ fields fs' vs'
                         | _, _ => True
                         end) fs vs
  | _, _ => True
  end.

(** A value as JSON carries it: its strings mended. *)
Fixpoint mend (v : gval) : gval :=
  match v with
  | VString s => VString (mended s)
  | VPtr (Some v) => VPtr (Some (mend v))
  | VSlice (Some (vs, stale)) => VSlice (Some (map mend vs, map mend stale))
  | VStruct vs => VStruct (map mend vs)
  | _ => v
  end.

Lemma mend_typed t v : has_type t v -> mend v = v.
Proof.
  assert (forall t vs, (forall v, has_type t v -> mend v = v) -> Forall (has_type t) vs -> map mend vs = vs) as Hall.
  { intros u vs Hu. induction 1 as [|w ws Hw _ IH]; [done|]. cbn. by rewrite Hu, IH. }
  revert v. induction t as [| | | | |t IH|t IH|fs IH] using gtype_induction; intros v Hv;
    destruct v as [s|z|b|o|u|o|o|vs]; try done.
  - cbn [mend]. unfold mended. by rewrite unquote_json_escape.
  - destruct o as [v|]; [|done]. cbn. by rewrite IH.
  - destruct o as [[vs stale]|]; [|done]. destruct Hv. cbn. by rewrite !(Hall t).
  - apply has_type_struct in Hv. cbn [mend]. f_equal.
    induction Hv as [|f v fs vs Hv _ IHv]; [done|]. apply Forall_cons_iff in IH as [IH IHs].
    cbn [map]. by rewrite IH, IHv.
Qed.

Lemma mend_zero t : mend (zero t) = zero t.
Proof. exact (mend_typed t _ (zero_typed t)). Qed.

Lemma type_ok_struct fs :
  type_ok (TStruct fs) = true ->
  NoDup (names fs) /\ Forall (fun f => unquote (field_name f) = field_name f /\ raw_ok (field_name f)) fs /\
  Forall (fun f => type_ok (snd f) = true) fs.
Proof.
  cbn [type_ok]. rewrite !andb_true_iff, bool_decide_eq_true, !forallb_forall.
  intros [[Hn Hp] Ht]. split; [done|]. rewrite !Forall_forall. split; intros [[n o] t] Hf; [|by apply Ht in Hf].
  apply Hp in Hf. split; [by apply unquote_plain|]. apply raw_ok_plain. rewrite forallb_forall in Hf |- *.
  intros b Hb%Hf. by apply andb_true_iff in Hb as [].
Qed.

Lemma json_ok_mono d d' v : json_ok d v -> d <= d' -> json_ok d' v.
Proof.
  revert d d'. induction v as [| | | |vs IH|ms IH] using json_induction; intros d d' H Hd; try done.
  - apply json_ok_arr in H as [? H]. apply json_ok_arr. split; [lia|].
    rewrite !Forall_forall in *. intros v Hv. eapply IH; [done|by apply H|lia].
  - apply json_ok_obj in H as [? H]. apply json_ok_obj. split; [lia|].
    rewrite !Forall_forall in *. intros [k v] Hv. destruct (H _ Hv). split; [done|].
    eapply (IH (k, v)); [done|done|lia].
Qed.

Lemma is_digit_plain s : forallb is_digit s = true -> forallb plain s = true.
Proof.
  rewrite !forallb_forall. intros H b Hb%H. clear -Hb. by destruct b.
Qed.

Lemma plain_pad2 n : 0 <= n < 100 -> forallb plain (pad2 n) = true.
Proof. intros. apply is_digit_plain. cbn. by rewrite !is_digit_digit by div_lia. Qed.

(** An instant's text goes into a literal as it is. *)
Lemma raw_ok_time t s : time_Marshal t = Some s -> raw_ok s.
Proof.
  unfold time_Marshal, time_text. pose proof (civil_spec (day_number t)) as Hc.
  destruct (civil (day_number t)) as [[y m] d]. destruct Hc as (_ & Hm & Hd & _).
  destruct (_ && _) eqn:Hy; [|done]. apply andb_true_iff in Hy as [?%Z.leb_le ?%Z.leb_le].
  intros <-%(inj Some). apply raw_ok_plain. pose proof (daysIn_le m y).
  assert (forallb plain (format_nanos (t mod Second)) = true) as Hn.
  { assert (0 <= t mod Second < Second) as Hb by (apply Z.mod_pos_bound; done).
    destruct (digits_of_spec 9 _ Hb) as (_ & Hds & _). unfold format_nanos.
    destruct (trim_zeros_spec (digits_of 9 (t mod Second))) as [k Hk].
    destruct (trim_zeros _) as [|b ds]; [done|]. rewrite Hk, forallb_app, andb_true_iff in Hds.
    change (forallb plain (b :: ds) = true). apply is_digit_plain, Hds. }
  unfold pad4. repeat (rewrite forallb_app || cbn [forallb]).
  rewrite Hn, !plain_pad2 by div_lia. done.
Qed.

Lemma raw_ok_base64 s : raw_ok (StdEncode s) /\ unquote (StdEncode s) = StdEncode s.
Proof.
  assert (Forall (fun b => plain_ascii b = true) (StdEncode s)) as H.
  { unfold StdEncode. apply Forall_app. split.
    - apply baseN_encode_alphabet; [lia|]. by_upto 64%nat.
    - unfold b64_padding. repeat case_match; repeat constructor. }
  rewrite Forall_forall in H. split; [apply raw_ok_plain|apply unquote_plain]; apply forallb_forall; intros b Hb%H.
  - by apply andb_true_iff in Hb as [].
  - done.
Qed.

Definition deepest (fs : list field) : Z := fold_right (fun '(_, t) d => Z.max (type_depth t) d) 0 fs.

Lemma deepest_spec fs : 0 <= deepest fs /\ Forall (fun f => type_depth (snd f) <= deepest fs) fs.
Proof.
  induction fs as [|[[n o] t] fs [H0 IH]]; [done|]. cbn [deepest fold_right]. fold (deepest fs).
  split; [lia|]. constructor; [simpl; lia|]. eapply List.Forall_impl; [|exact IH]. intros f. cbv beta. lia.
Qed.

Lemma type_depth_nonneg t : 0 <= type_depth t.
Proof.
  induction t as [| | | | |t IH|t IH|fs _] using gtype_induction; cbn [type_depth]; try lia.
  pose proof (proj1 (deepest_spec fs)). unfold deepest in *. lia.
Qed.

Lemma fields_of_ok d fs vs ms :
  Forall (fun f => raw_ok (field_name f)) fs ->
  Forall (fun f => forall v j, json_of (snd f) v = Some j -> json_ok d j) fs ->
  fields_of fs vs = Some ms -> Forall (fun '(k, v) => raw_ok k /\ json_ok d v) ms.
Proof.
  revert vs ms. induction fs as [|[[n o] t] fs IH]; intros [|v vs] ms Hn Ht H; simplify_eq/=; [constructor|].
  apply Forall_cons_iff in Hn as [Hn Hns]. apply Forall_cons_iff in Ht as [Ht Hts].
  destruct (omitted o v); [by eapply IH|]. apply bind_Some in H as (j & Hj & H).
  apply bind_Some in H as (ms' & Hms & [= <-]). constructor; [split; [done|by eapply Ht]|by eapply IH].
Qed.

(** The encoding is a value the scanner can produce, at the type's depth. *)
Lemma json_of_ok t v j : type_ok t = true -> json_of t v = Some j -> json_ok (type_depth t) j.
Proof.
  revert v j. induction t as [| | | | |t IH|t IH|fs IH] using gtype_induction; intros v j Ht Hj;
    destruct v as [s|z|b|o|u|o|o|vs]; try done; cbn [json_of] in Hj.
  - injection Hj as <-. apply raw_ok_escape.
  - injection Hj as <-. apply lit_ok_itoa.
  - by injection Hj as <-.
  - destruct o as [[s stale]|]; injection Hj as <-; [apply raw_ok_base64|done].
  - apply fmap_Some in Hj as (s & ?%raw_ok_time & ->). done.
  - cbn [type_ok] in Ht. apply andb_true_iff in Ht as [_ Ht].
    destruct o as [v|]; [by eapply IH|by injection Hj as <-].
  - destruct o as [[vs stale]|]; [|by injection Hj as <-]. apply fmap_Some in Hj as (js & Hj & ->).
    apply json_ok_arr. cbn [type_depth]. apply mapM_Some in Hj. pose proof (type_depth_nonneg t).
    split; [lia|]. replace (1 + type_depth t - 1) with (type_depth t) by lia.
    induction Hj; constructor; [by eapply IH|done].
  - change (JObj <$> fields_of fs vs = Some j) in Hj. apply fmap_Some in Hj as (ms & Hj & ->).
    apply type_ok_struct in Ht as (_ & Hn & Ht). destruct (deepest_spec fs) as [Hd Hle].
    apply json_ok_obj. cbn [type_depth]. fold (deepest fs). split; [lia|].
    replace (1 + deepest fs - 1) with (deepest fs) by lia.
    eapply fields_of_ok; [| |exact Hj].
    + eapply List.Forall_impl; [|exact Hn]. by intros f [].
    + rewrite Forall_forall in *. intros f Hf v j' Hj'. eapply json_ok_mono; [|by apply Hle].
      eapply IH; [done|by apply Ht|done].
Qed.

Lemma find_field_exact fs1 n o t fs2 :
  NoDup (names (fs1 ++ (n, o, t) :: fs2)) -> find_field n (names (fs1 ++ (n, o, t) :: fs2)) = Some (length fs1).
Proof.
  intros Hn. unfold find_field. unfold names in *. rewrite map_app in *. cbn [map] in *.
  destruct (list_find (fun m => m = n) _) as [[i m]|] eqn:E.
  - apply list_find_Some in E as (Hi & -> & _). f_equal.
    eapply NoDup_lookup; [done|exact Hi|]. rewrite lookup_app_r by (by rewrite length_map).
    by rewrite length_map, Nat.sub_diag.
  - exfalso. eapply list_find_None in E. rewrite Forall_forall in E. apply (E n); [|done].
    rewrite list_elem_of_In || idtac. apply in_app_iff. right. by left.
Qed.

Lemma decode_at_here j fs1 n o t fs2 vs1 v vs2 :
  length fs1 = length vs1 ->
  decode_at j (fs1 ++ (n, o, t) :: fs2) (vs1 ++ v :: vs2) (length fs1) =
  v' ← decode t j v; Some (vs1 ++ v' :: vs2).
Proof.
  revert vs1. induction fs1 as [|[[m p] u] fs1 IH]; intros [|w vs1] Hl; simplify_eq/=; [done|].
  change ((w ::.) <$> decode_at j (fs1 ++ (n, o, t) :: fs2) (vs1 ++ v :: vs2) (length fs1) =
          v' ← decode t j v; Some (w :: vs1 ++ v' :: vs2)).
  rewrite IH by done. by destruct (decode t j v).
Qed.

(** Decoding a struct's own encoding fills the fields in, one after the other. *)
Lemma decode_fields fs1 vs1 fs2 vs2 ms :
  NoDup (names (fs1 ++ fs2)) -> Forall (fun f => unquote (field_name f) = field_name f) fs2 ->
  Forall (fun f => forall v j, has_type (snd f) (mend v) -> tidy (snd f) v -> json_of (snd f) v = Some j ->
                               decode (snd f) j (zero (snd f)) = Some (mend v)) fs2 ->
  length fs1 = length vs1 -> Forall2 field_typed fs2 (map mend vs2) -> tidy (TStruct fs2) (VStruct vs2) ->
  fields_of fs2 vs2 = Some ms ->
  decode_members (fs1 ++ fs2) ms (vs1 ++ zeros fs2) = Some (vs1 ++ map mend vs2).
Proof.
  intros Hn Hq Hd Hl Ht. change (map mend vs2) with (mend <$> vs2) in Ht. apply (Forall2_fmap_r mend field_typed) in Ht. revert fs1 vs1 ms Hn Hq Hd Hl.
  induction Ht as [|[[n o] t] v fs2 vs2 Hv Hvs IH]; intros fs1 vs1 ms Hn Hq Hd Hl Htidy H; simplify_eq/=; [done|].
  apply Forall_cons_iff in Hq as [Hq Hqs]. apply Forall_cons_iff in Hd as [Hd Hds].
  destruct Htidy as (Hz & Htv & Htvs).
  assert (forall w ms', fields_of fs2 vs2 = Some ms' -> w = mend v ->
    decode_members (fs1 ++ (n, o, t) :: fs2) ms' (vs1 ++ w :: zeros fs2) = Some (vs1 ++ mend v :: map mend vs2)) as Hrest.
  { intros w ms' Hms ->. specialize (IH (fs1 ++ [(n, o, t)]) (vs1 ++ [mend v]) ms').
    rewrite <- !app_assoc in IH. apply IH; try done. rewrite !length_app. simpl. lia. }
  destruct (omitted o v).
  - apply Hrest; [done|]. by rewrite (Hz eq_refl), mend_zero.
  - apply bind_Some in H as (j & Hj & H). apply bind_Some in H as (ms' & Hms & [= <-]).
    change (match find_field (unquote n) (names (fs1 ++ (n, o, t) :: fs2)) with
            | None => decode_members (fs1 ++ (n, o, t) :: fs2) ms' (vs1 ++ zero t :: zeros fs2)
            | Some i => vs' ← decode_at j (fs1 ++ (n, o, t) :: fs2) (vs1 ++ zero t :: zeros fs2) i;
                        decode_members (fs1 ++ (n, o, t) :: fs2) ms' vs'
            end = Some (vs1 ++ mend v :: map mend vs2)).
    cbn [field_name fst] in Hq. rewrite Hq, find_field_exact, decode_at_here by done.
    cbn [snd] in Hd. rewrite (Hd v j Hv Htv Hj). by apply Hrest.
Qed.

Lemma decode_elems_fresh {A} (dec : json -> A -> option A) z js vs :
  Forall2 (fun j v => dec j z = Some v) js vs -> decode_elems dec z js [] = Some (vs, []).
Proof.
  induction 1 as [|j v js vs Hj _ IH]; [done|]. cbn [decode_elems head tail default from_option].
  rewrite Hj. cbn [mbind option_bind]. by rewrite IH.
Qed.

Lemma nonnull_not_null t v : nonnull t = true -> json_of t v <> Some JNull.
Proof. destruct t, v; try done; intros _; cbn [json_of]; by intros (? & ? & ?)%fmap_Some. Qed.

(** What a value encodes to decodes to the value with its strings mended. *)
Lemma decode_json_of_mend t v j :
  type_ok t = true -> has_type t (mend v) -> tidy t v -> json_of t v = Some j -> decode t j (zero t) = Some (mend v).
Proof.
  revert v j. induction t as [| | | | |t IH|t IH|fs IH] using gtype_induction; intros v j Hok Hv Ht Hj;
    destruct v as [s|z|b|o|u|o|o|vs]; try done; cbn [json_of] in Hj.
  - by injection Hj as <-.
  - injection Hj as <-. cbn [decode zero]. by rewrite Atoi_itoa.
  - by injection Hj as <-.
  - destruct o as [[s stale]|]; injection Hj as <-; [|done]. cbn [decode zero tidy] in *. subst stale.
    by rewrite (proj2 (raw_ok_base64 s)), StdDecode_StdEncode.
  - apply fmap_Some in Hj as (s & Hs & ->). cbn [decode zero]. by rewrite (ParseRFC3339_time_Marshal _ _ Hs).
  - cbn [type_ok] in Hok. apply andb_true_iff in Hok as [Hnn Hok].
    destruct o as [v|]; [|by injection Hj as <-]. cbn [mend has_type tidy] in Hv, Ht |- *.
    pose proof (nonnull_not_null t v Hnn) as Hne. specialize (IH v j Hok Hv Ht Hj). cbn [zero decode default from_option].
    destruct j; [by rewrite Hj in Hne|..]; unfold id; by rewrite IH.
  - destruct o as [[vs stale]|]; [|by injection Hj as <-]. apply fmap_Some in Hj as (js & Hj & ->).
    destruct Ht as [Ht ->], Hv as [Hv _]. cbn [zero decode mend]. apply mapM_Some in Hj.
    destruct js as [|j js]; [by inversion Hj; subst|]. unfold decode_array. cbn [from_option].
    rewrite (decode_elems_fresh _ _ _ (map mend vs)); [done|].
    clear -IH Hok Hj Hv Ht. induction Hj as [|x y l k Hx _ IHl]; [constructor|].
    apply Forall_cons_iff in Hv as [??]. apply Forall_cons_iff in Ht as [??].
    constructor; [by apply IH|by apply IHl].
  - change (JObj <$> fields_of fs vs = Some j) in Hj. apply fmap_Some in Hj as (ms & Hj & ->).
    apply type_ok_struct in Hok as (Hn & Hp & Hts). cbn [mend] in Hv |- *. apply has_type_struct in Hv.
    change (VStruct <$> decode_members fs ms (zeros fs) = Some (VStruct (map mend vs))).
    pose proof (decode_fields [] [] fs vs ms Hn) as E. cbn [app] in E. rewrite E; try done.
    + eapply List.Forall_impl; [|exact Hp]. by intros f [].
    + rewrite Forall_forall in *. intros f Hf v j ???. apply IH; [done|by apply Hts|done..].
Qed.

(** What a value of a type encodes to decodes to the value. *)
Lemma decode_json_of t v j :
  type_ok t = true -> has_type t v -> tidy t v -> json_of t v = Some j -> decode t j (zero t) = Some v.
Proof.
  intros Hok Hv Ht Hj. pose proof (mend_typed t v Hv) as Hm. rewrite <- Hm at 1. apply decode_json_of_mend; [done| |done..].
  by rewrite Hm.
Qed.

(** ** What can be marshalled *)

(** The instants a value shows. *)
Fixpoint times (v : gval) : list time :=
  match v with
  | VTime t => [t]
  | VPtr (Some v) => times v
  | VSlice (Some (vs, _)) | VStruct vs => flat_map times vs
  | _ => []
  end.

(** [Time.MarshalJSON] is the only source of errors. *)
Lemma json_of_Some t v :
  has_type t v -> Forall (fun u => year0 <= u < year10000) (times v) -> is_Some (json_of t v).
Proof.
  revert v. induction t as [| | | | |t IH|t IH|fs IH] using gtype_induction; intros v Hv Hu;
    destruct v as [s|z|b|o|u|o|o|vs]; try done; cbn [times] in Hu; cbn [json_of].
  - by destruct o as [[]|].
  - apply Forall_cons_iff in Hu as [Hu _]. apply time_Marshal_Some in Hu as [s ->]. by eexists.
  - destruct o as [v|]; [by apply IH|done].
  - destruct o as [[vs stale]|]; [|done]. destruct Hv as [Hv _].
    enough (is_Some (mapM (json_of t) vs)) as [js ->] by done. clear stale.
    induction Hv as [|v vs Hv _ IHv]; [by eexists|]. cbn [flat_map] in Hu. apply Forall_app in Hu as [Hu1 Hu2].
    destruct (IH v Hv Hu1) as [j Hj], (IHv Hu2) as [js Hjs]. cbn [mapM]. rewrite Hj. cbn [mbind option_bind].
    rewrite Hjs. by eexists.
  - change (is_Some (JObj <$> fields_of fs vs)). apply has_type_struct in Hv.
    enough (is_Some (fields_of fs vs)) as [js ->] by done.
    induction Hv as [|[[n o] t] v fs vs Hv _ IHv]; [by eexists|].
    apply Forall_cons_iff in IH as [IH IHs]. cbn [flat_map] in Hu. apply Forall_app in Hu as [Hu1 Hu2].
    destruct (IHv IHs Hu2) as [js Hjs]. cbn [fields_of]. rewrite Hjs.
    destruct (omitted o v); [by eexists|]. cbn [snd] in IH. destruct (IH v Hv Hu1) as [j Hj]. rewrite Hj. by eexists.
Qed.

Lemma utf8_valid_base64 s : utf8_valid (StdEncode s) = true.
Proof. rewrite <- (proj2 (raw_ok_base64 s)). apply unquote_valid. Qed.

(** ** The calls, for the types of the program *)

Class GoValueLaws (A : Type) `{GoValue A} : Prop := {
  go_type_ok : type_ok (go_type A) = true;
  go_type_shallow : type_depth (go_type A) <= maxNestingDepth;
  go_type_struct : exists fs, go_type A = TStruct fs;
  of_to_go (a : A) : of_go (to_go a) = Some a;
  of_go_total v : has_type (go_type A) v -> is_Some (of_go (A := A) v) }.

(** What a file can carry: valid strings, integers that fit. *)
Definition storable `{GoValue A} (a : A) : Prop :=
  has_type (go_type A) (to_go a) /\ tidy (go_type A) (to_go a).

Section calls.
Context {A : Type} `{GoValueLaws A}.

Lemma go_json_ok (a : A) j : json_of (go_type A) (to_go a) = Some j -> json_ok maxNestingDepth j.
Proof. intros Hj. eapply json_ok_mono; [|apply go_type_shallow]. eapply json_of_ok; [apply go_type_ok|done]. Qed.

Lemma Unmarshal_mended ind (a : A) j :
  has_type (go_type A) (mend (to_go a)) -> tidy (go_type A) (to_go a) -> json_of (go_type A) (to_go a) = Some j ->
  Unmarshal (json_print ind j) = of_go (A := A) (mend (to_go a)).
Proof.
  intros Hv Ht Hj. unfold Unmarshal. rewrite json_parse_print by (by eapply go_json_ok). cbn [mbind option_bind].
  by rewrite (decode_json_of_mend _ _ _ go_type_ok Hv Ht Hj).
Qed.

Lemma Unmarshal_printed ind (a : A) j :
  storable a -> json_of (go_type A) (to_go a) = Some j -> Unmarshal (json_print ind j) = Some a.
Proof.
  intros [Hv Ht] Hj. pose proof (mend_typed _ _ Hv) as Hm. rewrite (Unmarshal_mended ind a j); [|by rewrite Hm|done..].
  rewrite Hm. apply of_to_go.
Qed.

(** Both encodings decode to the value encoded. *)
Lemma Unmarshal_Marshal (a : A) raw : storable a -> Marshal a = Some raw -> Unmarshal raw = Some a.
Proof. intros Ha (j & Hj & ->)%fmap_Some. by apply Unmarshal_printed. Qed.

Lemma Unmarshal_MarshalIndent (a : A) raw : storable a -> MarshalIndent a = Some raw -> Unmarshal raw = Some a.
Proof. intros Ha (j & Hj & ->)%fmap_Some. by apply Unmarshal_printed. Qed.

(** Instants of the years 0 to 9999 are all it takes to be written. *)
Lemma MarshalIndent_Some (a : A) :
  storable a -> Forall (fun u => year0 <= u < year10000) (times (to_go a)) -> is_Some (MarshalIndent a).
Proof. intros [Hv _] Hu. destruct (json_of_Some _ _ Hv Hu) as [j Hj]. unfold MarshalIndent. rewrite Hj. by eexists. Qed.

(** A file cut short anywhere is an error. *)
Lemma Unmarshal_truncated (a : A) raw n :
  MarshalIndent a = Some raw -> (n < length raw)%nat -> Unmarshal (A := A) (take n raw) = None.
Proof.
  intros (j & Hj & ->)%fmap_Some Hn. unfold Unmarshal.
  rewrite (json_parse_truncated (Some 0%nat) j (take n (indented j)) (drop n (indented j))); [done| | | |].
  - by eapply go_json_ok.
  - right. destruct go_type_struct as [fs Hfs]. rewrite Hfs in Hj.
    destruct (to_go a); try done. apply fmap_Some in Hj as (ms & _ & ->). by exists ms.
  - by rewrite take_drop.
  - intros Hd%(f_equal length). rewrite length_drop in Hd. simpl in Hd. lia.
Qed.

(** A result is a value of the type, and an error is the parser's or the
    decoder's. *)
Lemma Unmarshal_Some raw (a : A) :
  Unmarshal raw = Some a <->
  exists j v, json_parse raw = Some j /\ decode (go_type A) j (zero (go_type A)) = Some v /\
              has_type (go_type A) v /\ of_go v = Some a.
Proof.
  unfold Unmarshal. split.
  - intros (j & Hj & (v & Hv & Ha)%bind_Some)%bind_Some. exists j, v. split_and!; try done.
    eapply decode_typed; [apply zero_typed|done].
  - intros (j & v & -> & Hv & _ & Ha). cbn [mbind option_bind]. by rewrite Hv.
Qed.

Lemma Unmarshal_None raw :
  Unmarshal (A := A) raw = None <->
  json_parse raw = None \/
  exists j, json_parse raw = Some j /\ decode (go_type A) j (zero (go_type A)) = None.
Proof.
  unfold Unmarshal. destruct (json_parse raw) as [j|]; cbn [mbind option_bind]; [|tauto].
  destruct (decode _ _ _) as [v|] eqn:Hv; cbn [mbind option_bind].
  - destruct (of_go_total v) as [a ->]; [eapply decode_typed; [apply zero_typed|done]|]. naive_solver.
  - naive_solver.
Qed.

(** [null] leaves the zero value: no error. *)
Lemma Unmarshal_null : Unmarshal (str "null") = of_go (A := A) (zero (go_type A)).
Proof. unfold Unmarshal. destruct go_type_struct as [fs ->]. reflexivity. Qed.
End calls.

(** Take a value of a concrete type apart, field by field. *)
Ltac typed_atom H :=
  lazymatch type of H with
  | match ?x with _ => _ end => destruct x; try (by destruct H); typed_atom H
  | _ => idtac
  end.

Ltac typed_cases H :=
  cbn [has_type] in H;
  lazymatch type of H with
  | match ?x with _ => _ end => destruct x; try (by destruct H); typed_cases H
  | _ /\ _ => let Ha := fresh "Ht" in destruct H as [Ha H]; typed_atom Ha; typed_cases H
  | _ => idtac
  end.

(** Values as the program holds them. *)
Definition as_string (v : gval) : option bytes := if v is VString s then Some s else None.
Definition string_slice (l : list bytes) : gval := VSlice (Some (map VString l, [])).

Lemma mapM_as_string l : mapM as_string (map VString l) = Some l.
Proof. induction l as [|s l IH]; [done|]. cbn. by rewrite IH. Qed.

Lemma strings_typed l : Forall (has_type TString) l -> exists ss, mapM as_string l = Some ss /\ Forall (fun s => utf8_valid s = true) ss.
Proof.
  induction 1 as [|v l Hv _ (ss & Hs & Hv')]; [by exists []|]. destruct v; try done.
  exists (s :: ss). cbn. rewrite Hs. split; [done|by constructor].
Qed.

Lemma strings_has_type l : Forall (fun s => utf8_valid s = true) l -> Forall (has_type TString) (map VString l).
Proof. induction 1; by constructor. Qed.

Lemma strings_tidy l : Forall (tidy TString) (map VString l).
Proof. induction l; by constructor. Qed.

(** Slices of structs. *)
Lemma mapM_of_to `{GoValueLaws A} (l : list A) : mapM of_go (map to_go l) = Some l.
Proof. induction l as [|a l IH]; [done|]. cbn [map mapM]. rewrite of_to_go. cbn. by rewrite IH. Qed.

Lemma mapM_of_go_total `{GoValueLaws A} vs :
  Forall (has_type (go_type A)) vs -> is_Some (mapM (of_go (A := A)) vs).
Proof.
  induction 1 as [|v vs Hv _ [l Hl]]; [by eexists|]. destruct (of_go_total v Hv) as [a Ha].
  exists (a :: l). cbn. by rewrite Ha; cbn; rewrite Hl.
Qed.

Lemma storable_slice `{GoValue A} (l : list A) :
  Forall storable l -> Forall (has_type (go_type A)) (map to_go l) /\ Forall (tidy (go_type A)) (map to_go l).
Proof. induction 1 as [|a l [??] _ [??]]; split; by constructor. Qed.

#[export] Hint Resolve strings_has_type strings_tidy : rook.
