(* ===== verification/Projection.v ===== *)
(** * Package [projection]: the bounded snapshot vocabulary

    The data of [src/projection/projection.go], its clamps, the answer and
    command validation, and the natural keys. *)

From S2P Require Import Prelude GoStrings GoTime.

(** A [float64] is only carried, never computed with: its bit pattern. *)
Definition float64 := Z.

Definition MaxAskIDLen : nat := 128.
Definition MaxAnswerLen : nat := 4096.
Definition MaxAnswerPending : nat := 20.
Definition MaxCommandPending : nat := 20.

(** ** Answers and commands *)

Inductive perror := ErrBadAnswer | ErrAnswerConflict | ErrBadCommand | ErrCommandConflict.

Record Answer := MkAnswer { an_AskID : bytes; an_Text : bytes; an_At : time }.

Definition too_long (s : bytes) (n : nat) : bool := (n <? length s)%nat.
Definition is_empty (s : bytes) : bool := (length s =? 0)%nat.

(** [now] is the value of the [time.Now().UTC()] the function calls. *)
Definition ValidAnswer (askID text : bytes) (now : time) : res perror Answer :=
  let askID := TrimSpace askID in
  let text := TrimSpace text in
  if is_empty askID || too_long askID MaxAskIDLen || is_empty text || too_long text MaxAnswerLen
  then Err ErrBadAnswer
  else Ok (MkAnswer askID text now).

Record Command := MkCommand {
  c_ID : bytes; c_Kind : bytes; c_SessionID : bytes; c_Workspace : bytes; c_Prompt : bytes;
  c_At : time }.

Definition CommandKinds : list bytes := [str "compact"; str "resume"; str "spawn"; str "say"].

(** [fnv8]: FNV-1a on 64 bits, folded to 32 bits and printed with [%08x]. *)
Definition fnv_step (h : Z) (b : byte) : Z := w64 (Z.lxor h (Zb b) * 1099511628211).
Definition fnv8 (s : bytes) : bytes :=
  let h := fold_left fnv_step s 14695981039346656037 in
  hex_encode (be_bytes 4 (w32 (Z.lxor h (Z.shiftr h 32)))).

(** [strconv.FormatInt(now.Unix()/60, 10)]; Go's integer division truncates. *)
Definition minute_bucket (now : time) : bytes := itoa (Z.quot (Unix now) 60).

Definition ValidCommand (kind sessionID workspace prompt : bytes) (now : time)
    : res perror Command :=
  let kind := TrimSpace kind in
  let sessionID := TrimSpace sessionID in
  let workspace := TrimSpace workspace in
  let prompt := TrimSpace prompt in
  if bool_decide (kind = str "compact") || bool_decide (kind = str "resume") then
    if is_empty sessionID || too_long sessionID MaxAskIDLen
       || negb (is_empty workspace) || negb (is_empty prompt)
    then Err ErrBadCommand
    else Ok (MkCommand (kind ++ str ":" ++ sessionID) kind sessionID [] [] now)
  else if bool_decide (kind = str "spawn") then
    if is_empty workspace || too_long workspace 200 || too_long prompt MaxAnswerLen
       || negb (is_empty sessionID)
    then Err ErrBadCommand
    else Ok (MkCommand (str "spawn:" ++ workspace ++ str ":" ++ fnv8 prompt)
                       kind [] workspace prompt now)
  else if bool_decide (kind = str "say") then
    if is_empty sessionID || too_long sessionID MaxAskIDLen
       || is_empty prompt || too_long prompt MaxAnswerLen || negb (is_empty workspace)
    then Err ErrBadCommand
    else Ok (MkCommand (str "say:" ++ sessionID ++ str ":"
                          ++ fnv8 (prompt ++ str "@" ++ minute_bucket now))
                       kind sessionID [] prompt now)
  else Err ErrBadCommand.

(** ** Snapshots *)

Record AgentDigest := MkAgentDigest { d_Headline : bytes; d_Bullets : list bytes; d_At : time }.

Record Agent := MkAgent {
  a_ID : bytes; a_State : bytes; a_Title : bytes; a_Ask : bytes; a_AskID : bytes;
  a_Model : bytes; a_CostUSD : float64; a_CtxPct : Z; a_Digest : option AgentDigest;
  a_Attached : bool; a_Now : bytes; a_NowAt : time; a_LastEvent : time }.

Record Workspace := MkWorkspace {
  w_Name : bytes; w_Branch : bytes; w_Attention : Z; w_Agents : list Agent }.

Record Usage := MkUsage {
  u_Mode : bytes; u_SessionPct : Z; u_SessionResets : bytes; u_WeekAllPct : Z;
  u_WeekAllResets : bytes; u_WeekModelName : bytes; u_WeekModelPct : Z;
  u_WeekModelResets : bytes; u_At : time; u_AgentTodayUSD : float64; u_AgentWeekUSD : float64 }.

Record Status := MkStatus {
  s_Hostname : bytes; s_RookVersion : bytes; s_HostID : bytes;
  s_Workspaces : list Workspace; s_Usage : option Usage }.

Definition zeroStatus : Status := MkStatus [] [] [] [] None.

(** [clip]'s loop steps the cut back over continuation bytes. *)
Fixpoint clip_at (s : bytes) (n : nat) : nat :=
  match n with
  | O => O
  | S n' => match s !! n with
            | Some b => if Z.land (Zb b) 0xC0 =? 0x80 then clip_at s n' else n
            | None => n  (* not reached: [clip] indexes below [len(s)] *)
            end
  end.

Definition clip (s : bytes) (n : nat) : bytes :=
  if (length s <=? n)%nat then s else take (clip_at s n) s.

Definition clampDigest (d : AgentDigest) : AgentDigest :=
  MkAgentDigest (clip (d_Headline d) 400)
                (map (fun b => clip b 400) (take 6 (d_Bullets d))) (d_At d).

Definition clampAgent (a : Agent) : Agent :=
  MkAgent (clip (a_ID a) MaxAskIDLen) (clip (a_State a) 200) (clip (a_Title a) 200)
    (clip (a_Ask a) 2000) (clip (a_AskID a) MaxAskIDLen) (clip (a_Model a) 200) (a_CostUSD a)
    (if (a_CtxPct a <? 0) || (999 <? a_CtxPct a) then 0 else a_CtxPct a)
    (d ← clampDigest <$> a_Digest a;
     (* A digest with nothing to headline is not a digest. *)
     if is_empty (d_Headline d) then None else Some d)
    (a_Attached a) (clip (a_Now a) 200) (a_NowAt a) (a_LastEvent a).

Definition clampWorkspace (w : Workspace) : Workspace :=
  MkWorkspace (clip (w_Name w) 200) (clip (w_Branch w) 200) (w_Attention w)
    (map clampAgent (take 50 (w_Agents w))).

Definition clampUsage (u : Usage) : Usage :=
  MkUsage (clip (u_Mode u) 32) (u_SessionPct u) (clip (u_SessionResets u) 100) (u_WeekAllPct u)
    (clip (u_WeekAllResets u) 100) (clip (u_WeekModelName u) 64) (u_WeekModelPct u)
    (clip (u_WeekModelResets u) 100) (u_At u) (u_AgentTodayUSD u) (u_AgentWeekUSD u).

(** [Status.Clamp] *)
Definition Status_Clamp (s : Status) : Status :=
  MkStatus (clip (s_Hostname s) 200) (clip (s_RookVersion s) 200) (clip (s_HostID s) MaxAskIDLen)
    (map clampWorkspace (take 100 (s_Workspaces s))) (clampUsage <$> s_Usage s).

(** ** Pane frames *)

Record StyleRun := MkStyleRun { sr_Start : Z; sr_Len : Z; sr_FG : Z; sr_BG : Z; sr_Attrs : Z }.
Record PaneRow := MkPaneRow { r_Text : bytes; r_Runs : list StyleRun }.
Record PaneFrame := MkPaneFrame {
  f_Cols : Z; f_Rows : Z; f_CursorX : Z; f_CursorY : Z; f_CursorVisible : bool;
  f_Lines : list PaneRow }.

Definition clampRow (r : PaneRow) : PaneRow :=
  MkPaneRow (clip (r_Text r) 2000) (take 500 (r_Runs r)).

(** [PaneFrame.Clamp] *)
Definition PaneFrame_Clamp (f : PaneFrame) : PaneFrame :=
  MkPaneFrame
    (if (f_Cols f <? 0) || (500 <? f_Cols f) then 500 else f_Cols f)
    (if (f_Rows f <? 0) || (200 <? f_Rows f) then 200 else f_Rows f)
    (if f_CursorX f <? 0 then 0 else f_CursorX f)
    (if f_CursorY f <? 0 then 0 else f_CursorY f)
    (f_CursorVisible f) (map clampRow (take 200 (f_Lines f))).

(** ** Full digests *)

Record Digest := MkDigest {
  g_ID : bytes; g_SessionID : bytes; g_Headline : bytes; g_Bullets : list bytes;
  g_FullText : bytes; g_Prompt : bytes; g_Reply : bytes; g_ReplyState : bytes; g_At : time;
  g_Model : bytes; g_CostUSD : float64 }.

(** [128 * 1024], kept in binary until a length is compared with it. *)
Definition maxFullText : nat := Z.to_nat (128 * 1024).
Definition maxSmall : nat := Z.to_nat (8 * 1024).

(** [Digest.Clamp] *)
Definition Digest_Clamp (d : Digest) : Digest :=
  MkDigest (clip (g_ID d) MaxAskIDLen) (clip (g_SessionID d) MaxAskIDLen) (clip (g_Headline d) 400)
    (map (fun b => clip b 400) (take 8 (g_Bullets d))) (clip (g_FullText d) maxFullText)
    (clip (g_Prompt d) maxSmall) (clip (g_Reply d) maxSmall) (clip (g_ReplyState d) 64) (g_At d)
    (clip (g_Model d) 128) (g_CostUSD d).

(** ** [clip] cuts on a rune boundary *)

Lemma cont_bits b : (Z.land (Zb b) 0xC0 =? 0x80) = is_cont b.
Proof. by destruct b. Qed.

Lemma clip_at_le s n : (clip_at s n <= n)%nat.
Proof.
  induction n as [|n IH]; simpl; [lia|].
  destruct (s !! S n) as [b|]; [|lia]. destruct (_ =? _); lia.
Qed.

Lemma clip_at_boundary s n :
  (n < length s)%nat ->
  clip_at s n = O \/ exists b, s !! clip_at s n = Some b /\ is_cont b = false.
Proof.
  induction n as [|n IH]; intros Hn; [by left|]. cbn [clip_at].
  destruct (lookup_lt_is_Some_2 s (S n) Hn) as [b Hb]. rewrite Hb, cont_bits.
  destruct (is_cont b) eqn:E; [apply IH; lia|right; eauto].
Qed.

Lemma clip_at_skips s n k b :
  (clip_at s n < k <= n)%nat -> s !! k = Some b -> is_cont b = true.
Proof.
  induction n as [|n IH]; intros Hk Hb; [lia|]. cbn [clip_at] in Hk.
  destruct (s !! S n) as [c|] eqn:E; [|lia]. rewrite cont_bits in Hk.
  destruct (is_cont c) eqn:Ec; [|lia].
  destruct (decide (k = S n)) as [->|]; [congruence|]. apply IH; [lia|done].
Qed.

Lemma clip_id s n : (length s <= n)%nat -> clip s n = s.
Proof. intros. unfold clip. by rewrite (proj2 (Nat.leb_le _ _)). Qed.

Lemma length_clip s n : (length (clip s n) <= n)%nat.
Proof.
  unfold clip. destruct (Nat.leb_spec (length s) n); [done|].
  rewrite length_take. pose proof (clip_at_le s n). lia.
Qed.

Lemma clip_prefix s n : clip s n `prefix_of` s.
Proof. unfold clip. case_match; [done|apply take_prefix_of]. Qed.

Lemma clip_valid s n : utf8_valid s = true -> utf8_valid (clip s n) = true.
Proof.
  intros Hv. unfold clip. destruct (Nat.leb_spec (length s) n); [done|].
  pose proof (clip_at_le s n). apply utf8_cut_valid; [done|lia|].
  destruct (clip_at_boundary s n) as [->|?]; [done| |by right].
  right. destruct (utf8_valid_inv _ Hv) as [->|(r & t & Hr & -> & _)]; [simpl in *; lia|].
  destruct (rune_head_tail _ Hr) as (b0 & rt & -> & ? & _). by exists b0.
Qed.

Lemma clip_longest s n p :
  utf8_valid s = true -> p `prefix_of` s -> utf8_valid p = true ->
  (length p <= n)%nat -> (length p <= length (clip s n))%nat.
Proof.
  intros Hv [t ->] Hp Hn. unfold clip.
  destruct (Nat.leb_spec (length (p ++ t)) n); [rewrite length_app; lia|].
  rewrite length_take. pose proof (clip_at_le (p ++ t) n).
  apply Nat.nlt_ge. intros Hlt. rewrite length_app in *.
  pose proof (proj1 (utf8_cut_valid (p ++ t) (length p) Hv ltac:(rewrite length_app; lia))) as Hc.
  rewrite take_app_length in Hc. destruct (Hc Hp) as [Hl|(b & Hb & Hb')].
  - rewrite length_app in Hl. lia.
  - rewrite (clip_at_skips (p ++ t) n (length p) b) in Hb'; [done|lia|done].
Qed.

#[export] Hint Resolve length_clip clip_valid : rook.

(** ** The bounds a clamped snapshot meets *)

Definition short (n : nat) (s : bytes) : Prop := (length s <= n)%nat.

Lemma clip_short n s : short n (clip s n).
Proof. apply length_clip. Qed.
Lemma short_clip n s : short n s -> clip s n = s.
Proof. apply clip_id. Qed.
#[export] Hint Resolve clip_short : rook.

Record AgentDigest_bounded (d : AgentDigest) : Prop := {
  db_Headline : short 400 (d_Headline d); db_headline : d_Headline d <> [];
  db_count : (length (d_Bullets d) <= 6)%nat; db_Bullets : Forall (short 400) (d_Bullets d) }.

Record Agent_bounded (a : Agent) : Prop := {
  ab_ID : short 128 (a_ID a); ab_State : short 200 (a_State a); ab_Title : short 200 (a_Title a);
  ab_Ask : short 2000 (a_Ask a); ab_AskID : short 128 (a_AskID a);
  ab_Model : short 200 (a_Model a); ab_Now : short 200 (a_Now a);
  ab_CtxPct : 0 <= a_CtxPct a <= 999;
  ab_Digest : forall d, a_Digest a = Some d -> AgentDigest_bounded d }.

Record Workspace_bounded (w : Workspace) : Prop := {
  wb_Name : short 200 (w_Name w); wb_Branch : short 200 (w_Branch w);
  wb_count : (length (w_Agents w) <= 50)%nat; wb_Agents : Forall Agent_bounded (w_Agents w) }.

Record Usage_bounded (u : Usage) : Prop := {
  ub_Mode : short 32 (u_Mode u); ub_SessionResets : short 100 (u_SessionResets u);
  ub_WeekAllResets : short 100 (u_WeekAllResets u);
  ub_WeekModelName : short 64 (u_WeekModelName u);
  ub_WeekModelResets : short 100 (u_WeekModelResets u) }.

Record Status_bounded (s : Status) : Prop := {
  sb_Hostname : short 200 (s_Hostname s); sb_RookVersion : short 200 (s_RookVersion s);
  sb_HostID : short 128 (s_HostID s);
  sb_Usage : forall u, s_Usage s = Some u -> Usage_bounded u;
  sb_count : (length (s_Workspaces s) <= 100)%nat;
  sb_Workspaces : Forall Workspace_bounded (s_Workspaces s) }.

Lemma map_take_Forall {A B} (P : B -> Prop) (f : A -> B) n (l : list A) :
  (forall x, P (f x)) -> (length (map f (take n l)) <= n)%nat /\ Forall P (map f (take n l)).
Proof.
  intros H. split.
  - rewrite length_map, length_take. lia.
  - generalize (take n l) as k. induction k; constructor; auto.
Qed.

Lemma map_take_id {A} (P : A -> Prop) (f : A -> A) n (l : list A) :
  (forall x, P x -> f x = x) -> (length l <= n)%nat -> Forall P l -> map f (take n l) = l.
Proof.
  intros Hf Hl HP. rewrite take_ge by done. induction HP; [done|].
  cbn [map length] in *. f_equal; [auto|]. apply IHHP. lia.
Qed.

Lemma is_empty_spec s : is_empty s = true <-> s = [].
Proof. unfold is_empty. by destruct s. Qed.

Lemma clampDigest_bounded a d :
  a_Digest (clampAgent a) = Some d -> AgentDigest_bounded d.
Proof.
  cbn. destruct (a_Digest a) as [d0|]; [|done]. cbn [fmap option_fmap option_map mbind option_bind].
  destruct (is_empty _) eqn:E; intros [= <-].
  destruct (map_take_Forall (short 400) (fun b => clip b 400) 6 (d_Bullets d0)) as [Hl HF];
    [auto with rook|].
  constructor; [apply clip_short| |exact Hl|exact HF].
  intros Hd. by rewrite (proj2 (is_empty_spec _) Hd) in E.
Qed.

Lemma clampAgent_bounded a : Agent_bounded (clampAgent a).
Proof.
  constructor; [apply clip_short..| |apply clampDigest_bounded]. cbn.
  destruct (_ || _) eqn:E; [lia|]. rewrite orb_false_iff in E. lia.
Qed.

Lemma clampWorkspace_bounded w : Workspace_bounded (clampWorkspace w).
Proof.
  destruct (map_take_Forall Agent_bounded clampAgent 50 (w_Agents w)) as [Hl HF];
    [apply clampAgent_bounded|].
  constructor; [apply clip_short..|exact Hl|exact HF].
Qed.

Lemma Status_Clamp_is_bounded s : Status_bounded (Status_Clamp s).
Proof.
  destruct (map_take_Forall Workspace_bounded clampWorkspace 100 (s_Workspaces s)) as [Hl HF];
    [apply clampWorkspace_bounded|].
  constructor; [apply clip_short..| |exact Hl|exact HF].
  cbn. intros u Hu. destruct (s_Usage s); simplify_eq/=. constructor; apply clip_short.
Qed.

(** ** Clamping leaves a bounded snapshot unchanged *)

Lemma clampAgent_id a : Agent_bounded a -> clampAgent a = a.
Proof.
  intros []. destruct a as [? ? ? ? ? ? ? ctx dg ? ? ? ?]; cbn in *.
  unfold clampAgent; cbn. rewrite !short_clip by done.
  assert ((ctx <? 0) || (999 <? ctx) = false) as -> by (apply orb_false_iff; lia).
  f_equal. destruct dg as [[h bs at']|]; cbn; [|done].
  destruct (ab_Digest0 _ eq_refl); cbn in *. unfold clampDigest; cbn.
  rewrite short_clip by done. rewrite (map_take_id (short 400)) by (done || apply short_clip).
  by destruct h.
Qed.

Lemma clampWorkspace_id w : Workspace_bounded w -> clampWorkspace w = w.
Proof.
  intros []. destruct w; unfold clampWorkspace; cbn in *.
  rewrite !short_clip by done. f_equal. by apply (map_take_id Agent_bounded); [apply clampAgent_id|..].
Qed.

Lemma Status_Clamp_id s : Status_bounded s -> Status_Clamp s = s.
Proof.
  intros []. destruct s as [? ? ? ws u]; unfold Status_Clamp; cbn in *.
  rewrite !short_clip by done. f_equal.
  - by apply (map_take_id Workspace_bounded); [apply clampWorkspace_id|..].
  - destruct u as [u|]; [|done]. destruct (sb_Usage0 _ eq_refl). destruct u; cbn in *.
    unfold clampUsage; cbn. by rewrite !short_clip.
Qed.
#[export] Hint Resolve Status_Clamp_is_bounded clampAgent_bounded : rook.

(** ** Total size of a clamped snapshot *)

Definition sum_by {A} (f : A -> nat) (l : list A) : nat := list_sum (map f l).

Lemma sum_by_le {A} (f : A -> nat) (b n : Z) (l : list A) :
  0 <= b -> Forall (fun x => Z.of_nat (f x) <= b) l -> Z.of_nat (length l) <= n ->
  Z.of_nat (sum_by f l) <= n * b.
Proof.
  intros Hb HF Hn. assert (Z.of_nat (sum_by f l) <= Z.of_nat (length l) * b) as H; [|nia].
  clear Hn. induction HF; unfold sum_by, list_sum in *; cbn [map foldr length] in *; lia.
Qed.

Definition AgentDigest_size (d : AgentDigest) : nat :=
  length (d_Headline d) + sum_by length (d_Bullets d).
Definition Agent_size (a : Agent) : nat :=
  length (a_ID a) + length (a_State a) + length (a_Title a) + length (a_Ask a)
  + length (a_AskID a) + length (a_Model a) + length (a_Now a)
  + from_option AgentDigest_size 0%nat (a_Digest a).
Definition Workspace_size (w : Workspace) : nat :=
  length (w_Name w) + length (w_Branch w) + sum_by Agent_size (w_Agents w).
Definition Usage_size (u : Usage) : nat :=
  length (u_Mode u) + length (u_SessionResets u) + length (u_WeekAllResets u)
  + length (u_WeekModelName u) + length (u_WeekModelResets u).
(** Text octets a snapshot carries. *)
Definition Status_size (s : Status) : nat :=
  length (s_Hostname s) + length (s_RookVersion s) + length (s_HostID s)
  + sum_by Workspace_size (s_Workspaces s) + from_option Usage_size 0%nat (s_Usage s).

Lemma Agent_size_le a : Agent_bounded a -> Z.of_nat (Agent_size a) <= 5856.
Proof.
  intros []. unfold short, Agent_size in *.
  assert (Z.of_nat (from_option AgentDigest_size 0%nat (a_Digest a)) <= 2800); [|lia].
  destruct (a_Digest a) as [d|]; [|simpl; lia].
  destruct (ab_Digest0 d eq_refl). cbn. unfold AgentDigest_size, short in *.
  assert (Z.of_nat (sum_by length (d_Bullets d)) <= 6 * 400); [|lia].
  apply sum_by_le; [done| |lia]. eapply Forall_impl; [|done]. simpl. lia.
Qed.

Lemma Workspace_size_le w : Workspace_bounded w -> Z.of_nat (Workspace_size w) <= 293200.
Proof.
  intros []. unfold short, Workspace_size in *.
  assert (Z.of_nat (sum_by Agent_size (w_Agents w)) <= 50 * 5856); [|lia].
  apply sum_by_le; [done| |lia]. eapply Forall_impl; [|done]. apply Agent_size_le.
Qed.

Lemma Status_size_le s : Status_bounded s -> Z.of_nat (Status_size s) <= 29320924.
Proof.
  intros []. unfold short, Status_size in *.
  assert (Z.of_nat (sum_by Workspace_size (s_Workspaces s)) <= 100 * 293200).
  { apply sum_by_le; [done| |lia]. eapply Forall_impl; [|done]. apply Workspace_size_le. }
  assert (from_option Usage_size 0%nat (s_Usage s) <= 396)%nat; [|lia].
  destruct (s_Usage s) as [u|]; [|simpl; lia]. destruct (sb_Usage0 u eq_refl).
  cbn. unfold Usage_size, short in *. lia.
Qed.

(** ** What [ValidCommand] accepts *)

(** A text of at least one and at most [n] octets. *)
Definition filled (n : nat) (s : bytes) : Prop := s <> [] /\ (length s <= n)%nat.

(** The four shapes of the protocol, on normalized fields. *)
Inductive command_shape : bytes -> bytes -> bytes -> bytes -> Prop :=
| shape_compact sid : filled 128 sid -> command_shape (str "compact") sid [] []
| shape_resume sid : filled 128 sid -> command_shape (str "resume") sid [] []
| shape_spawn ws p : filled 200 ws -> (length p <= 4096)%nat -> command_shape (str "spawn") [] ws p
| shape_say sid p : filled 128 sid -> filled 4096 p -> command_shape (str "say") sid [] p.

(** The text whose hash ends the natural key. *)
Definition dedup_text (kind prompt : bytes) (now : time) : bytes :=
  if bool_decide (kind = str "say") then prompt ++ str "@" ++ minute_bucket now else prompt.

Definition natural_key (kind sid ws prompt : bytes) (now : time) : bytes :=
  if bool_decide (kind = str "spawn") then str "spawn:" ++ ws ++ str ":" ++ fnv8 (dedup_text kind prompt now)
  else if bool_decide (kind = str "say") then str "say:" ++ sid ++ str ":" ++ fnv8 (dedup_text kind prompt now)
  else kind ++ str ":" ++ sid.

Lemma empty_or_too_long s n : is_empty s || too_long s n = false <-> filled n s.
Proof.
  unfold is_empty, too_long, filled. rewrite orb_false_iff, Nat.eqb_neq, Nat.ltb_ge.
  destruct s; simpl; split; intros []; split; done || lia.
Qed.

Lemma ValidCommand_normal kind sid ws prompt now :
  ValidCommand kind sid ws prompt now =
  ValidCommand (TrimSpace kind) (TrimSpace sid) (TrimSpace ws) (TrimSpace prompt) now.
Proof. unfold ValidCommand. by rewrite !TrimSpace_idem. Qed.

Lemma negb_is_empty s : negb (is_empty s) = false <-> s = [].
Proof. by rewrite negb_false_iff, is_empty_spec. Qed.

Lemma too_long_false s n : too_long s n = false <-> (length s <= n)%nat.
Proof. apply Nat.ltb_ge. Qed.

Ltac command_bools :=
  repeat match goal with
  | H : _ || _ = false |- _ => apply orb_false_iff in H as [? ?]
  | H : is_empty ?s = false, H' : too_long ?s ?n = false |- _ =>
    let F := fresh "F" in
    assert (filled n s) as F by (apply empty_or_too_long; by rewrite H, H'); clear H H'
  | H : negb (is_empty _) = false |- _ => apply negb_is_empty in H
  | H : too_long _ _ = false |- _ => apply too_long_false in H
  end.

Lemma ValidCommand_Ok kind sid ws prompt now c :
  ValidCommand kind sid ws prompt now = Ok c ->
  let k := TrimSpace kind in let s := TrimSpace sid in
  let w := TrimSpace ws in let p := TrimSpace prompt in
  command_shape k s w p /\ c = MkCommand (natural_key k s w p now) k s w p now.
Proof.
  unfold ValidCommand. cbv zeta.
  generalize (TrimSpace kind), (TrimSpace sid), (TrimSpace ws), (TrimSpace prompt).
  clear. intros k s w p H.
  repeat case_bool_decide; subst; cbn [orb] in H;
    try (destruct (_ || _) eqn:E in H; [done|]; command_bools; subst; injection H as <-;
         split; [by constructor|reflexivity]); done.
Qed.

Lemma ValidCommand_complete k s w p now :
  command_shape k s w p -> TrimSpace k = k -> TrimSpace s = s -> TrimSpace w = w -> TrimSpace p = p ->
  ValidCommand k s w p now = Ok (MkCommand (natural_key k s w p now) k s w p now).
Proof.
  intros Hs Hk Hs' Hw Hp. unfold ValidCommand, MaxAskIDLen, MaxAnswerLen. rewrite Hk, Hs', Hw, Hp. clear Hk Hs' Hw Hp.
  destruct Hs as [sid F|sid F|ws p F L|sid p F F2]; cbv zeta.
  all: eval_bool_decide; cbn [orb].
  all: repeat match goal with F : filled _ _ |- _ => apply empty_or_too_long, orb_false_iff in F as [??] end.
  all: try apply too_long_false in L.
  all: repeat match goal with H : ?x = false |- context [?x] => rewrite H end.
  all: reflexivity.
Qed.

Lemma ValidCommand_result kind sid ws prompt now :
  (exists c, ValidCommand kind sid ws prompt now = Ok c) \/
  ValidCommand kind sid ws prompt now = Err ErrBadCommand.
Proof. unfold ValidCommand. cbv zeta. repeat case_match; eauto. Qed.

(** ** Natural keys *)

Lemma length_fnv8 s : length (fnv8 s) = 8%nat.
Proof. unfold fnv8. by rewrite length_hex_encode, length_be_bytes. Qed.

Lemma sep_hash_inj (x y h k : bytes) :
  length h = 8%nat -> length k = 8%nat ->
  x ++ str ":" ++ h = y ++ str ":" ++ k -> x = y /\ h = k.
Proof.
  intros Hh Hk H.
  apply app_inj_2 in H as [-> H]; [|rewrite !length_app; lia].
  split; [done|]. by injection H.
Qed.

(** Equal natural keys name the same kind, the same target and, up to the
    32-bit hash, the same text. *)
Lemma natural_key_compact s w p t : natural_key (str "compact") s w p t = str "compact:" ++ s.
Proof. reflexivity. Qed.
Lemma natural_key_resume s w p t : natural_key (str "resume") s w p t = str "resume:" ++ s.
Proof. reflexivity. Qed.
Lemma natural_key_spawn s w p t :
  natural_key (str "spawn") s w p t = str "spawn:" ++ w ++ str ":" ++ fnv8 (dedup_text (str "spawn") p t).
Proof. reflexivity. Qed.
Lemma natural_key_say s w p t :
  natural_key (str "say") s w p t = str "say:" ++ s ++ str ":" ++ fnv8 (dedup_text (str "say") p t).
Proof. reflexivity. Qed.

Lemma natural_key_inj k1 s1 w1 p1 t1 k2 s2 w2 p2 t2 :
  command_shape k1 s1 w1 p1 -> command_shape k2 s2 w2 p2 ->
  natural_key k1 s1 w1 p1 t1 = natural_key k2 s2 w2 p2 t2 ->
  k1 = k2 /\ s1 = s2 /\ w1 = w2 /\
  (k1 = str "spawn" \/ k1 = str "say" ->
   fnv8 (dedup_text k1 p1 t1) = fnv8 (dedup_text k2 p2 t2)).
Proof.
  intros H1 H2. destruct H1, H2;
    rewrite ?natural_key_compact, ?natural_key_resume, ?natural_key_spawn, ?natural_key_say;
    intros HK; try discriminate HK; apply app_inv_head in HK.
  - by subst.
  - by subst.
  - apply sep_hash_inj in HK as [-> ?]; auto using length_fnv8.
  - apply sep_hash_inj in HK as [-> ?]; auto using length_fnv8.
Qed.

(** The text hashed for a [say] determines the prompt and the minute. *)
Lemma say_text_inj p1 p2 t1 t2 :
  minute_bucket t1 = minute_bucket t2 \/ (forall b, b ∈ minute_bucket t1 ++ minute_bucket t2 -> b <> x40) ->
  p1 ++ str "@" ++ minute_bucket t1 = p2 ++ str "@" ++ minute_bucket t2 ->
  p1 = p2 /\ minute_bucket t1 = minute_bucket t2.
Proof.
  intros Hb H. destruct Hb as [E|Hno].
  { rewrite E in H. apply app_inv_tail in H. done. }
  revert Hno H. generalize (minute_bucket t1) as m1, (minute_bucket t2) as m2. intros m1 m2 Hno.
  revert p2. induction p1 as [|b p1 IHp]; intros [|c p2] H; simplify_eq/=; try done.
  - exfalso. apply (Hno x40); [|done]. set_solver.
  - exfalso. apply (Hno x40); [|done]. set_solver.
  - by edestruct IHp as [-> ?].
Qed.

Lemma itoa_no_at z b : b ∈ itoa z -> b <> x40.
Proof.
  intros Hb ->. assert (forall n, 0 <= n -> x40 ∈ dec n -> False) as Hdec.
  { intros n Hn Hin. destruct (dec_spec n Hn) as (_ & Hd & _).
    rewrite forallb_forall in Hd. apply list_elem_of_In, Hd in Hin. done. }
  unfold itoa in Hb. destruct (Z.ltb_spec z 0) as [Hz|Hz]; [|by apply (Hdec z)].
  apply elem_of_app in Hb as [Hb|Hb]; [|apply (Hdec (- z)); [lia|done]].
  apply list_elem_of_In in Hb. cbn in Hb. by destruct Hb.
Qed.

Lemma dedup_text_say_inj p1 p2 t1 t2 :
  dedup_text (str "say") p1 t1 = dedup_text (str "say") p2 t2 ->
  p1 = p2 /\ Z.quot (Unix t1) 60 = Z.quot (Unix t2) 60.
Proof.
  intros H. destruct (say_text_inj p1 p2 t1 t2) as [-> Hm]; [|exact H|].
  { right. intros b [Hb|Hb]%elem_of_app; by eapply itoa_no_at. }
  split; [done|]. clear H. revert Hm. unfold minute_bucket.
  generalize (Z.quot (Unix t1) 60), (Z.quot (Unix t2) 60). intros m n.
  assert (forall k, 0 <= k -> str "-" ++ dec (- k) <> [] /\ forall l, dec k <> str "-" ++ l) as Hneg.
  { intros k Hk. split; [done|]. intros l E. destruct (dec_spec k Hk) as (_ & Hd & _).
    rewrite E in Hd. done. }
  unfold itoa. destruct (Z.ltb_spec m 0), (Z.ltb_spec n 0); intros E.
  - apply app_inv_head, dec_inj in E; lia.
  - exfalso. symmetry in E. by apply (Hneg n) in E.
  - exfalso. by apply (Hneg m) in E.
  - apply dec_inj in E; lia.
Qed.

(** ** Pane frames and full digests *)

Record PaneFrame_bounded (f : PaneFrame) : Prop := {
  fb_Cols : 0 <= f_Cols f <= 500; fb_Rows : 0 <= f_Rows f <= 200;
  fb_CursorX : 0 <= f_CursorX f; fb_CursorY : 0 <= f_CursorY f;
  fb_count : (length (f_Lines f) <= 200)%nat;
  fb_Lines : Forall (fun r => short 2000 (r_Text r) /\ (length (r_Runs r) <= 500)%nat) (f_Lines f) }.

Lemma PaneFrame_Clamp_bounded f : PaneFrame_bounded (PaneFrame_Clamp f).
Proof.
  destruct (map_take_Forall (fun r => short 2000 (r_Text r) /\ (length (r_Runs r) <= 500)%nat)
              clampRow 200 (f_Lines f)) as [Hl HF].
  { intros r. split; [apply clip_short|]. cbn. rewrite length_take. lia. }
  constructor; [cbn..|exact Hl|exact HF].
  - destruct (_ || _) eqn:E; [lia|]. apply orb_false_iff in E. lia.
  - destruct (_ || _) eqn:E; [lia|]. apply orb_false_iff in E. lia.
  - case_match; lia.
  - case_match; lia.
Qed.

Lemma PaneFrame_Clamp_id f : PaneFrame_bounded f -> PaneFrame_Clamp f = f.
Proof.
  intros []. destruct f as [c r x y v ls]; unfold PaneFrame_Clamp; cbn in *.
  assert ((c <? 0) || (500 <? c) = false) as -> by (apply orb_false_iff; lia).
  assert ((r <? 0) || (200 <? r) = false) as -> by (apply orb_false_iff; lia).
  rewrite (proj2 (Z.ltb_ge x 0)), (proj2 (Z.ltb_ge y 0)) by done. f_equal.
  eapply map_take_id; [|done|exact fb_Lines0]. intros [t rs] [Ht Hr]; unfold clampRow; cbn in *.
  by rewrite short_clip, take_ge.
Qed.

Record Digest_bounded (d : Digest) : Prop := {
  gb_ID : short 128 (g_ID d); gb_SessionID : short 128 (g_SessionID d);
  gb_Headline : short 400 (g_Headline d); gb_count : (length (g_Bullets d) <= 8)%nat;
  gb_Bullets : Forall (short 400) (g_Bullets d);
  gb_FullText : Z.of_nat (length (g_FullText d)) <= 131072;
  gb_Prompt : Z.of_nat (length (g_Prompt d)) <= 8192;
  gb_Reply : Z.of_nat (length (g_Reply d)) <= 8192;
  gb_ReplyState : short 64 (g_ReplyState d); gb_Model : short 128 (g_Model d) }.

Lemma length_clip_Z s n : 0 <= n -> Z.of_nat (length (clip s (Z.to_nat n))) <= n.
Proof. intros. pose proof (length_clip s (Z.to_nat n)). lia. Qed.

Lemma clip_Z_id s n : Z.of_nat (length s) <= n -> clip s (Z.to_nat n) = s.
Proof. intros. apply clip_id. lia. Qed.

Lemma Digest_Clamp_bounded d : Digest_bounded (Digest_Clamp d).
Proof.
  destruct (map_take_Forall (short 400) (fun b => clip b 400) 8 (g_Bullets d)) as [Hl HF];
    [auto with rook|].
  constructor; try apply clip_short; try exact Hl; try exact HF;
    cbn; by apply length_clip_Z.
Qed.

Lemma Digest_Clamp_id d : Digest_bounded d -> Digest_Clamp d = d.
Proof.
  intros []. destruct d; unfold Digest_Clamp, maxFullText, maxSmall; cbn [g_ID g_SessionID
    g_Headline g_Bullets g_FullText g_Prompt g_Reply g_ReplyState g_At g_Model g_CostUSD] in *.
  rewrite !clip_Z_id, !short_clip by done. f_equal.
  by apply (map_take_id (short 400)); [apply short_clip|..].
Qed.

#[export] Hint Resolve PaneFrame_Clamp_bounded Digest_Clamp_bounded : rook.

(** ** Properties *)

(** On valid UTF-8, [clip] returns the longest prefix of at most [n] octets
    that is itself valid UTF-8 - a clipped title never splits a rune, and never
    loses one that fits. *)
Theorem clip_longest_valid_prefix (s : bytes) (n : nat) :
  utf8_valid s = true ->
  clip s n `prefix_of` s /\ (length (clip s n) <= n)%nat /\ utf8_valid (clip s n) = true /\
  forall p, p `prefix_of` s -> utf8_valid p = true -> (length p <= n)%nat ->
            p `prefix_of` clip s n.
Proof.
  intros Hv. split; [apply clip_prefix|]. split; [apply length_clip|].
  split; [by apply clip_valid|]. intros p Hp Hpv Hn.
  pose proof (clip_longest s n p Hv Hp Hpv Hn).
  destruct (prefix_weak_total p (clip s n) s Hp (clip_prefix s n)) as [?|Hc]; [done|].
  by rewrite (prefix_length_eq _ _ Hc).
Qed.

Lemma clip_longest_valid_prefix_witness :
  utf8_valid (str "ab" ++ [xc3; xa9]) = true /\
  clip (str "ab" ++ [xc3; xa9]) 3 = str "ab" /\ utf8_valid (clip (str "ab" ++ [xc3; xa9]) 3) = true.
Proof.
  split; [reflexivity|]. split; [reflexivity|].
  apply (clip_longest_valid_prefix (str "ab" ++ [xc3; xa9]) 3). reflexivity.
Defined.

(** C34: [Status.Clamp] bounds every dimension of a snapshot, so its text never
    exceeds 29,320,924 octets in total, and it changes nothing in a snapshot
    already within the bounds; in particular it is idempotent. *)
Theorem Status_Clamp_spec (s : Status) :
  Status_bounded (Status_Clamp s) /\
  Z.of_nat (Status_size (Status_Clamp s)) <= 29320924 /\
  (Status_Clamp s = s <-> Status_bounded s).
Proof.
  split; [apply Status_Clamp_is_bounded|].
  split; [apply Status_size_le, Status_Clamp_is_bounded|].
  split; [intros <-; apply Status_Clamp_is_bounded|apply Status_Clamp_id].
Qed.

(** The clamps of pane frames and full digests bound every dimension they
    name and are the identity exactly on values already within the bounds. *)
Theorem frame_and_digest_clamp_spec (f : PaneFrame) (d : Digest) :
  (PaneFrame_bounded (PaneFrame_Clamp f) /\ (PaneFrame_Clamp f = f <-> PaneFrame_bounded f)) /\
  (Digest_bounded (Digest_Clamp d) /\ (Digest_Clamp d = d <-> Digest_bounded d)).
Proof.
  split; (split; [auto with rook|split; [intros <-; auto with rook|]]).
  - apply PaneFrame_Clamp_id.
  - apply Digest_Clamp_id.
Qed.

(** C32: [ValidCommand] accepts exactly the four shapes of the protocol (a
    known kind with its own fields filled within their limits and the other
    fields empty, after trimming); the command it returns carries the trimmed
    fields and their natural key, and revalidating it yields it again. *)
Theorem ValidCommand_spec (kind sid ws prompt : bytes) (now : time) :
  let k := TrimSpace kind in let s := TrimSpace sid in
  let w := TrimSpace ws in let p := TrimSpace prompt in
  (command_shape k s w p ->
   ValidCommand kind sid ws prompt now = Ok (MkCommand (natural_key k s w p now) k s w p now)) /\
  (~ command_shape k s w p -> ValidCommand kind sid ws prompt now = Err ErrBadCommand) /\
  (forall c, ValidCommand kind sid ws prompt now = Ok c ->
             ValidCommand (c_Kind c) (c_SessionID c) (c_Workspace c) (c_Prompt c) (c_At c) = Ok c
             /\ c_Kind c ∈ CommandKinds).
Proof.
  cbv zeta. split; [|split].
  - intros H. rewrite ValidCommand_normal. apply ValidCommand_complete; auto using TrimSpace_idem.
  - intros H. destruct (ValidCommand_result kind sid ws prompt now) as [[c E]|]; [|done].
    by apply ValidCommand_Ok in E as [? _].
  - intros c E. apply ValidCommand_Ok in E as [Hs ->]. cbn. split.
    + apply ValidCommand_complete; auto using TrimSpace_idem.
    + destruct Hs; set_solver.
Qed.

(** C33: natural keys identify commands. Two accepted commands with the same
    [ID] have the same kind and the same target; for [spawn] and [say] their
    hashed texts agree as well, and the text hashed for a [say] determines both
    the prompt and the minute it was sent in. *)
Theorem natural_keys_identify (k1 s1 w1 p1 k2 s2 w2 p2 : bytes) (t1 t2 : time) (c1 c2 : Command) :
  ValidCommand k1 s1 w1 p1 t1 = Ok c1 -> ValidCommand k2 s2 w2 p2 t2 = Ok c2 ->
  c_ID c1 = c_ID c2 ->
  c_Kind c1 = c_Kind c2 /\ c_SessionID c1 = c_SessionID c2 /\ c_Workspace c1 = c_Workspace c2 /\
  (c_Kind c1 = str "spawn" \/ c_Kind c1 = str "say" ->
   fnv8 (dedup_text (c_Kind c1) (c_Prompt c1) t1) = fnv8 (dedup_text (c_Kind c2) (c_Prompt c2) t2)) /\
  (dedup_text (str "say") (c_Prompt c1) t1 = dedup_text (str "say") (c_Prompt c2) t2 ->
   c_Prompt c1 = c_Prompt c2 /\ Z.quot (Unix t1) 60 = Z.quot (Unix t2) 60).
Proof.
  intros [H1 ->]%ValidCommand_Ok [H2 ->]%ValidCommand_Ok HID. cbn in *.
  destruct (natural_key_inj _ _ _ _ _ _ _ _ _ _ H1 H2 HID) as (? & ? & ? & ?).
  split_and!; [done..|apply dedup_text_say_inj].
Qed.

(** An instant: July 27, 2026, 12:00:00 UTC. *)
Definition noon : time := unixTime 1785153600 0.

Lemma natural_keys_identify_witness :
  exists c1 c2,
    ValidCommand (str " say ") (str "sess-1") [] (str "go") noon = Ok c1 /\
    ValidCommand (str "say") (str "sess-1 ") [] (str "go ") (noon + 59 * Second) = Ok c2 /\
    c_ID c1 = c_ID c2 /\ c_SessionID c1 = c_SessionID c2.
Proof.
  eexists _, _. split; [vm_compute; reflexivity|]. split; [vm_compute; reflexivity|].
  split; [reflexivity|].
  eapply (natural_keys_identify (str " say ") (str "sess-1") [] (str "go")
            (str "say") (str "sess-1 ") [] (str "go ") noon (noon + 59 * Second));
    [vm_compute; reflexivity..|reflexivity].
Defined.

(** Two submissions of one [say] get the same natural key when they fall in
    the same minute, whatever the spelling of their white space. *)
Theorem say_same_minute_same_key (s1 s2 p1 p2 : bytes) (t1 t2 : time) (c1 c2 : Command) :
  ValidCommand (str "say") s1 [] p1 t1 = Ok c1 -> ValidCommand (str "say") s2 [] p2 t2 = Ok c2 ->
  TrimSpace s1 = TrimSpace s2 -> TrimSpace p1 = TrimSpace p2 ->
  Z.quot (Unix t1) 60 = Z.quot (Unix t2) 60 -> c_ID c1 = c_ID c2.
Proof.
  intros [_ ->]%ValidCommand_Ok [_ ->]%ValidCommand_Ok Hs Hp Hm. cbn [c_ID].
  change (TrimSpace (str "say")) with (str "say"). rewrite !natural_key_say, Hs.
  unfold dedup_text, minute_bucket. by rewrite Hp, Hm.
Qed.

Lemma say_same_minute_same_key_witness :
  exists c1 c2,
    ValidCommand (str "say") (str "sess-1") [] (str "go") noon = Ok c1 /\
    ValidCommand (str "say") (str " sess-1") [] (str "go ") (noon + Second) = Ok c2 /\
    c_ID c1 = c_ID c2.
Proof.
  eexists _, _. split; [vm_compute; reflexivity|]. split; [vm_compute; reflexivity|].
  eapply (say_same_minute_same_key (str "sess-1") (str " sess-1") (str "go") (str "go ")
            noon (noon + Second)); vm_compute; reflexivity.
Defined.

(** A double-tap one nanosecond apart across a minute boundary gets two
    natural keys, so the executor's journal does not collapse it. *)
Theorem say_double_tap_splits :
  exists c1 c2,
    ValidCommand (str "say") (str "sess-1") [] (str "continue") (noon - 1) = Ok c1 /\
    ValidCommand (str "say") (str "sess-1") [] (str "continue") noon = Ok c2 /\
    c_ID c1 <> c_ID c2.
Proof.
  eexists _, _. split; [vm_compute; reflexivity|]. split; [vm_compute; reflexivity|].
  vm_compute. discriminate.
Qed.
