(* ===== verification/GoOS.v ===== *)
(** * The process environment: clock, random source and file system

    [time.Now], [crypto/rand] and [os] are functions of a [World]: the [i]-th
    clock reading, random draw and file operation answer what the world's
    oracles say. Theorems quantify over every world, so over every clock, every
    random source and every pattern of I/O failures. *)

From S2P Require Import Prelude GoStrings GoTime.

(** Why a file operation failed. [ENOENT] is what [os.IsNotExist] recognizes. *)
Inductive oserr := ENOENT | EIO.

(** A failing write: the file could not be opened (it is untouched), or only
    the first [n] octets reached it. A crash during the write is the same
    event, seen from the next boot. *)
Inductive fault := FailOpen | FailAfter (n : nat).

Record World := MkWorld {
  clock : nat -> time; ticks : nat;
  entropy : nat -> option (nat -> byte); draws : nat;
  disk : gmap bytes bytes;
  faults : nat -> option fault; ops : nat }.

Definition set_ticks (n : nat) (w : World) : World :=
  MkWorld (clock w) n (entropy w) (draws w) (disk w) (faults w) (ops w).
Definition set_draws (n : nat) (w : World) : World :=
  MkWorld (clock w) (ticks w) (entropy w) n (disk w) (faults w) (ops w).
Definition set_disk (d : gmap bytes bytes) (w : World) : World :=
  MkWorld (clock w) (ticks w) (entropy w) (draws w) d (faults w) (ops w).
Definition next_op (w : World) : World :=
  MkWorld (clock w) (ticks w) (entropy w) (draws w) (disk w) (faults w) (S (ops w)).

(** [time.Now()] *)
Definition Now {E} : SE World E time := fun w => (Ok (clock w (ticks w)), set_ticks (S (ticks w)) w).

(** [rand.Read(b)] with [len(b) = n] *)
Definition rand_Read (n : nat) : SE World oserr bytes := fun w =>
  let w' := set_draws (S (draws w)) w in
  match entropy w (draws w) with
  | Some f => (Ok (map f (List.seq 0 n)), w')
  | None => (Err EIO, w')
  end.

(** One file operation: [ok] is its effect when the oracle lets it happen. *)
Definition file_op {A} (on_fault : fault -> World -> World) (ok : World -> res oserr A * World)
    : SE World oserr A := fun w =>
  match faults w (ops w) with
  | Some f => (Err EIO, on_fault f (next_op w))
  | None => ok (next_op w)
  end.

Definition ReadFile (path : bytes) : SE World oserr bytes :=
  file_op (fun _ w => w)
    (fun w => match disk w !! path with Some raw => (Ok raw, w) | None => (Err ENOENT, w) end).

(** [filepath.Clean] on slash-separated paths, component by component; the
    accumulator holds the kept components, last first. *)
Definition clean_step (rooted : bool) (acc : list bytes) (c : bytes) : list bytes :=
  if bool_decide (c = []) || bool_decide (c = str ".") then acc
  else if bool_decide (c = str "..") then
    match acc with
    | [] => if rooted then [] else [c]
    | d :: acc' => if bool_decide (d = str "..") then c :: acc else acc'
    end
  else c :: acc.

Definition Clean (path : bytes) : bytes :=
  let rooted := HasPrefix path (str "/") in
  let body := Join (rev (fold_left (clean_step rooted) (Split path x2f) [])) (str "/") in
  if rooted then str "/" ++ body else if bool_decide (body = []) then str "." else body.

(** [filepath.Dir]: everything up to the last slash, cleaned. *)
Fixpoint up_to_slash (rpath : bytes) : bytes :=
  match rpath with
  | [] => []
  | b :: rpath' => if bool_decide (b = x2f) then rpath else up_to_slash rpath'
  end.
Definition Dir (path : bytes) : bytes := Clean (rev (up_to_slash (rev path))).

Example Dir_examples :
  Dir (str "/a/b/../c//d.json") = str "/a/c" /\ Dir (str "id.json") = str "." /\
  Dir (str "/x") = str "/" /\ Dir (str "../x/y") = str "../x".
Proof. by vm_compute. Qed.

(** Directories carry no content here; creating one can only fail. *)
Definition MkdirAll (dir : bytes) : SE World oserr unit :=
  file_op (fun _ w => w) (fun w => (Ok tt, w)).

(** [os.WriteFile] truncates, then writes: not atomic. *)
Definition WriteFile (path raw : bytes) : SE World oserr unit :=
  file_op (fun f w => match f with
                      | FailOpen => w
                      | FailAfter n => set_disk (<[path := take n raw]> (disk w)) w
                      end)
    (fun w => (Ok tt, set_disk (<[path := raw]> (disk w)) w)).

(** [os.Rename] replaces the target in one step. *)
Definition Rename (old new : bytes) : SE World oserr unit :=
  file_op (fun _ w => w)
    (fun w => match disk w !! old with
              | Some raw => (Ok tt, set_disk (<[new := raw]> (delete old (disk w))) w)
              | None => (Err ENOENT, w)
              end).

Definition tmp_path (path : bytes) : bytes := path ++ str ".tmp".

(** The write-then-rename sequence [registry.persistLocked] and
    [identity.create] end with. *)
Definition write_atomically (dir path raw : bytes) : SE World oserr unit :=
  _ ← MkdirAll dir;
  _ ← WriteFile (tmp_path path) raw;
  Rename (tmp_path path) path.

Lemma tmp_path_ne path : tmp_path path <> path.
Proof. intros H%(f_equal length). unfold tmp_path in H. rewrite length_app in H. simpl in H. lia. Qed.

(** Everything but the disk and the operation counter is left alone. *)
Definition same_env (w w' : World) : Prop :=
  clock w' = clock w /\ ticks w' = ticks w /\ entropy w' = entropy w /\ draws w' = draws w /\
  faults w' = faults w.

(** Whatever fails, the file at [path] ends up with its old content or with all
    of the new one, the latter exactly when the call reports success, and no
    file but [path] and its temporary sibling changes. *)
Lemma write_atomically_spec dir path raw w :
  let '(r, w') := write_atomically dir path raw w in
  same_env w w' /\
  (forall q, q <> path -> q <> tmp_path path -> disk w' !! q = disk w !! q) /\
  match r with
  | Ok _ => disk w' !! path = Some raw
  | Err _ => disk w' !! path = disk w !! path
  | Panic => False
  end.
Proof.
  unfold write_atomically, MkdirAll, WriteFile, Rename, file_op, mbind, SE_bind.
  pose proof (tmp_path_ne path) as Hne.
  destruct (faults w (ops w)); cbn; [done|].
  destruct (faults w (S (ops w))) as [[|n]|]; cbn;
    [done|split_and!; [done| |]; intros; by rewrite lookup_insert_ne|].
  destruct (faults w (S (S (ops w)))); cbn.
  - split_and!; [done| |]; intros; by rewrite lookup_insert_ne.
  - rewrite lookup_insert_eq. cbn. split_and!; [done| |by rewrite lookup_insert_eq].
    intros q ??. by rewrite lookup_insert_ne, lookup_delete_ne, lookup_insert_ne by done.
Qed.

(** With no fault in its three operations the sequence succeeds. *)
Lemma write_atomically_ok dir path raw w :
  (forall i, faults w i = None) -> fst (write_atomically dir path raw w) = Ok tt.
Proof.
  intros H. unfold write_atomically, MkdirAll, WriteFile, Rename, file_op, mbind, SE_bind.
  rewrite H. cbn. rewrite H. cbn. rewrite H. cbn. by rewrite lookup_insert_eq.
Qed.

(** ** What a computation leaves on disk *)

(** It returns, and touches no file. *)
Definition keeps_files {E A} (m : SE World E A) : Prop :=
  forall w, disk (snd (m w)) = disk w /\ faults (snd (m w)) = faults w /\ fst (m w) <> Panic.

(** It returns, and leaves [path] alone unless it succeeds. *)
Definition all_or_nothing {E A} (path : bytes) (m : SE World E A) : Prop :=
  forall w, fst (m w) <> Panic /\
    (is_ok (fst (m w)) = false -> disk (snd (m w)) !! path = disk w !! path).

Lemma keeps_files_ret {E A} (a : A) : keeps_files (E := E) (mret a).
Proof. done. Qed.

Lemma keeps_files_of_res {E A} (r : res E A) : r <> Panic -> keeps_files (of_res r).
Proof. done. Qed.

Lemma keeps_files_of_option {E A} (e : E) (o : option A) : keeps_files (of_res (of_option e o)).
Proof. apply keeps_files_of_res. by destruct o. Qed.

Lemma keeps_files_Now {E} : keeps_files (E := E) Now.
Proof. done. Qed.

Lemma keeps_files_rand n : keeps_files (rand_Read n).
Proof. intros w. unfold rand_Read. by destruct (entropy w (draws w)). Qed.

Lemma keeps_files_map_err {E E' A} (f : E -> E') (m : SE World E A) :
  keeps_files m -> keeps_files (map_err f m).
Proof.
  intros H w. destruct (H w) as (? & ? & ?). unfold map_err.
  destruct (m w) as [[]]; by simplify_eq/=.
Qed.

Lemma keeps_files_bind {E A B} (m : SE World E A) (k : A -> SE World E B) :
  keeps_files m -> (forall a, keeps_files (k a)) -> keeps_files (m ≫= k).
Proof.
  intros Hm Hk w. destruct (Hm w) as (Hd & Hf & Hp). unfold mbind, SE_bind.
  destruct (m w) as [[a|e|] w1]; simplify_eq/=; [|done..].
  destruct (Hk a w1) as (-> & -> & ?). done.
Qed.

Lemma all_or_nothing_bind {E A B} path (m : SE World E A) (k : A -> SE World E B) :
  keeps_files m -> (forall a, (exists w w', m w = (Ok a, w')) -> all_or_nothing path (k a)) ->
  all_or_nothing path (m ≫= k).
Proof.
  intros Hm Hk w. destruct (Hm w) as (Hd & Hf & Hp). unfold mbind, SE_bind.
  destruct (m w) as [[a|e|] w1] eqn:Hr; simplify_eq/=; try by rewrite Hd.
  destruct (Hk a ltac:(eauto) w1) as [? Hn]. split; [done|]. intros Ho. by rewrite Hn, Hd.
Qed.

Lemma all_or_nothing_write {E A} (f : oserr -> E) dir path raw (a : A) :
  all_or_nothing path (_ ← map_err f (write_atomically dir path raw); mret a).
Proof.
  intros w. pose proof (write_atomically_spec dir path raw w) as Hs.
  unfold mbind, SE_bind, map_err.
  destruct (write_atomically dir path raw w) as [[[]|e|] w']; destruct Hs as (_ & _ & ?);
    simplify_eq/=; split; done.
Qed.

#[export] Hint Resolve keeps_files_ret keeps_files_of_option keeps_files_Now keeps_files_rand
  keeps_files_map_err keeps_files_bind all_or_nothing_bind all_or_nothing_write : rook.

(** A world without failures, its random source and clock constant. *)
Definition calm (now : time) (b : byte) : World :=
  MkWorld (fun _ => now) 0 (fun i => Some (fun j => bZ (Zb b + Z.of_nat i))) 0 ∅ (fun _ => None) 0.
