(* ===== verification/GoURL.v ===== *)
(** * The parts of [net/url] the pairing code uses

    [url.Values] with its [Encode], [url.ParseQuery], the query escaping, and
    [url.Parse] as far as scheme, host and raw query. *)

From S2P Require Import Prelude GoStrings.

(** ** Escaping of a query component *)

Definition is_alnum (b : byte) : bool := in_range 97 122 b || in_range 65 90 b || in_range 48 57 b.
(** Unreserved characters: letters, digits, [-], [_], [.], [~]. *)
Definition unreserved (b : byte) : bool :=
  is_alnum b || (Zb b =? 45) || (Zb b =? 95) || (Zb b =? 46) || (Zb b =? 126).

Definition upper_hex (d : Z) : byte := if d <? 10 then bZ (48 + d) else bZ (55 + d).

Definition escape_byte (b : byte) : bytes :=
  if unreserved b then [b]
  else if Zb b =? 32 then [x2b]
  else [x25; upper_hex (Zb b / 16); upper_hex (Zb b mod 16)].

Definition QueryEscape (s : bytes) : bytes := concat (map escape_byte s).

Definition unhex (b : byte) : option Z :=
  if in_range 48 57 b then Some (Zb b - 48)
  else if in_range 97 102 b then Some (Zb b - 87)
  else if in_range 65 70 b then Some (Zb b - 55) else None.

(** The octets below 0x80 a host may contain literally. *)
Definition host_byte (b : byte) : bool :=
  unreserved b || bool_decide (b ∈ str "!$&'()*+,;=:[]<>" ++ [x22]).

(** [unescape]: [plus] says whether [+] means a space, [host] whether only
    octets above 0x7F (and [%25]) may be written with an escape. *)
Fixpoint unescape (plus host : bool) (s : bytes) : option bytes :=
  match s with
  | [] => Some []
  | b :: s1 =>
    if Zb b =? 37 then
      match s1 with
      | h :: l :: s2 =>
        match unhex h, unhex l with
        | Some vh, Some vl =>
          if host && (vh <? 8) && negb ((vh =? 2) && (vl =? 5)) then None
          else (bZ (16 * vh + vl) ::.) <$> unescape plus host s2
        | _, _ => None
        end
      | _ => None
      end
    else if host && (Zb b <? 128) && negb (host_byte b) then None
    else (((if plus && (Zb b =? 43) then x20 else b) ::.) <$> unescape plus host s1)
  end.

Definition QueryUnescape : bytes -> option bytes := unescape true false.

(** ** [url.Values] *)

(** Cut at the first occurrence of [sep]: [strings.Cut]. *)
Fixpoint Cut (s : bytes) (sep : byte) : bytes * bytes * bool :=
  match s with
  | [] => ([], [], false)
  | b :: s' =>
    if decide (b = sep) then ([], s', true)
    else let '(x, y, ok) := Cut s' sep in (b :: x, y, ok)
  end.

Abbreviation Values := (gmap bytes (list bytes)).

Definition Values_Set (k v : bytes) (m : Values) : Values := <[k := [v]]> m.
Definition Values_Get (m : Values) (k : bytes) : bytes :=
  match m !! k with Some (v :: _) => v | _ => [] end.
(** [m[key] = append(m[key], value)] *)
Definition Values_Add (k v : bytes) (m : Values) : Values :=
  <[k := default [] (m !! k) ++ [v]]> m.

(** Byte-wise lexicographic order, the order of [slices.Sorted] on strings. *)
Fixpoint bytes_leb (s t : bytes) : bool :=
  match s, t with
  | [], _ => true
  | _, [] => false
  | b :: s', c :: t' => if Zb b =? Zb c then bytes_leb s' t' else Zb b <? Zb c
  end.

Fixpoint insert_key (k : bytes) (l : list bytes) : list bytes :=
  match l with
  | [] => [k]
  | x :: l' => if bytes_leb k x then k :: l else x :: insert_key k l'
  end.
Definition sort_keys (l : list bytes) : list bytes := foldr insert_key [] l.

Definition encode_pair (kv : bytes * bytes) : bytes :=
  QueryEscape (fst kv) ++ str "=" ++ QueryEscape (snd kv).

(** The pairs in the order [Encode] prints them. *)
Definition Values_pairs (m : Values) : list (bytes * bytes) :=
  concat (map (fun k => map (pair k) (default [] (m !! k))) (sort_keys (elements (dom m)))).

Definition Values_Encode (m : Values) : bytes := Join (map encode_pair (Values_pairs m)) (str "&").

(** One [key=value] of a query; malformed ones are skipped, as [u.Query()]
    drops the error. *)
Definition query_part (m : Values) (part : bytes) : Values :=
  if bool_decide (x3b ∈ part) || bool_decide (part = []) then m else
  let '(k, v, _) := Cut part x3d in
  match QueryUnescape k, QueryUnescape v with
  | Some k, Some v => Values_Add k v m
  | _, _ => m
  end.

(** [u.Query()]: the parts between [&] signs, in order. *)
Definition ParseQuery (query : bytes) : Values :=
  fold_left query_part (Split query x26) ∅.

(** ** [url.Parse] *)

Record URLParts := MkURL {
  url_Scheme : bytes; url_Host : bytes; url_Path : bytes; url_RawQuery : bytes }.

Definition is_alpha (b : byte) : bool := in_range 97 122 b || in_range 65 90 b.
Definition to_lower (s : bytes) : bytes :=
  map (fun b => if in_range 65 90 b then bZ (Zb b + 32) else b) s.

(** [getScheme]: [None] for the missing-scheme error, otherwise the scheme
    (possibly empty) and the rest. [i] is the scheme read so far, reversed. *)
Fixpoint getScheme_go (raw acc s : bytes) : option (bytes * bytes) :=
  match s with
  | [] => Some ([], raw)
  | c :: s' =>
    if is_alpha c then getScheme_go raw (c :: acc) s'
    else if in_range 48 57 c || (Zb c =? 43) || (Zb c =? 45) || (Zb c =? 46) then
      if bool_decide (acc = []) then Some ([], raw) else getScheme_go raw (c :: acc) s'
    else if Zb c =? 58 then
      if bool_decide (acc = []) then None else Some (rev acc, s')
    else Some ([], raw)
  end.
Definition getScheme (raw : bytes) : option (bytes * bytes) := getScheme_go raw [] raw.

Definition contains_ctl (s : bytes) : bool := existsb (fun b => (Zb b <? 32) || (Zb b =? 127)) s.

(** The part after the last [sep], and the part before it when there is one. *)
Definition CutLast (s : bytes) (sep : byte) : option bytes * bytes :=
  let '(r, l, ok) := Cut (rev s) sep in
  (if (ok : bool) then Some (rev l) else None, rev r).

Definition valid_userinfo_byte (b : byte) : bool :=
  is_alnum b || bool_decide (b ∈ str "-._:~!$&'()*+,;=%@").

(** [parseHost]. A bracketed host is an IP literal, whose syntax is not
    modelled: it is reported as an error. [ParseURL] refuses every such URL,
    because the host keeps its brackets and so is never [pair]. *)
Definition parseHost (host : bytes) : option bytes :=
  if bool_decide (x5b ∈ host) || bool_decide (x5d ∈ host) then None else
  let '(before, port) := CutLast host x3a in
  if (if before is Some _ then negb (forallb is_digit port) else false) then None
  else unescape false true host.

Definition parseAuthority (authority : bytes) : option bytes :=
  let '(user, hostport) := CutLast authority x40 in
  host ← parseHost hostport;
  match user with
  | None => Some host
  | Some u =>
    if negb (forallb valid_userinfo_byte u) then None else
    let '(name, pass, _) := Cut u x3a in
    _ ← unescape false false name; _ ← unescape false false pass; Some host
  end.

Definition url_parse_nofrag (raw : bytes) : option URLParts :=
  if contains_ctl raw then None else
  if bool_decide (raw = str "*") then Some (MkURL [] [] (str "*") []) else
  '(scheme, rest) ← getScheme raw;
  let scheme := to_lower scheme in
  let '(rest, query) :=
    if bool_decide (head (rev rest) = Some x3f) && (length (filter (eq x3f) rest) =? 1)%nat
    then (removelast rest, [])
    else let '(r, q, _) := Cut rest x3f in (r, q) in
  if negb (HasPrefix rest (str "/")) && negb (bool_decide (scheme = [])) then
    Some (MkURL scheme [] [] query)  (* an opaque URL *)
  else if negb (HasPrefix rest (str "/"))
          && (let '(segment, _, _) := Cut rest x2f in bool_decide (x3a ∈ segment)) then
    None  (* first path segment contains a colon *)
  else if (negb (bool_decide (scheme = [])) || negb (HasPrefix rest (str "///")))
          && HasPrefix rest (str "//") then
    let '(authority, path, slash) := Cut (drop 2 rest) x2f in
    host ← parseAuthority authority;
    path ← unescape false false (if (slash : bool) then x2f :: path else []);
    Some (MkURL scheme host path query)
  else
    path ← unescape false false rest;
    Some (MkURL scheme [] path query).

(** [url.Parse]: the fragment is cut off first and must unescape. *)
Definition url_Parse (raw : bytes) : option URLParts :=
  let '(u, frag, _) := Cut raw x23 in
  url ← url_parse_nofrag u;
  _ ← unescape false false frag;
  Some url.

Example url_Parse_pair :
  url_Parse (str "Rook-Link://pair?v=1&s=%41+b#f") =
  Some (MkURL (str "rook-link") (str "pair") [] (str "v=1&s=%41+b")).
Proof. reflexivity. Qed.
Example url_Parse_user :
  url_Parse (str "rook-link://u:p@pair/x?v=1") = Some (MkURL (str "rook-link") (str "pair") (str "/x") (str "v=1")).
Proof. reflexivity. Qed.
Example url_Parse_opaque :
  url_Parse (str "rook-link:pair?v=1") = Some (MkURL (str "rook-link") [] [] (str "v=1")).
Proof. reflexivity. Qed.

(** ** Escaping round trip *)

(** The octets an encoded query is made of. *)
Definition query_byte (b : byte) : bool :=
  unreserved b || (Zb b =? 37) || (Zb b =? 43) || (Zb b =? 38) || (Zb b =? 61).
(** ... and those of one escaped component. *)
Definition component_byte (b : byte) : bool :=
  unreserved b || (Zb b =? 37) || (Zb b =? 43).

Lemma unescape_escape_byte b t :
  unescape true false (escape_byte b ++ t) = (b ::.) <$> unescape true false t.
Proof. by destruct b. Qed.

Lemma QueryUnescape_QueryEscape s : QueryUnescape (QueryEscape s) = Some s.
Proof.
  unfold QueryUnescape, QueryEscape. induction s as [|b s IH]; [done|].
  cbn [map concat]. by rewrite unescape_escape_byte, IH.
Qed.

Lemma escape_byte_component b : forallb component_byte (escape_byte b) = true.
Proof. by destruct b. Qed.

Lemma QueryEscape_component s : forallb component_byte (QueryEscape s) = true.
Proof.
  unfold QueryEscape. induction s as [|b s IH]; [done|].
  cbn [map concat]. by rewrite forallb_app, escape_byte_component, IH.
Qed.

Lemma not_in_component c s : forallb component_byte s = true -> component_byte c = false -> c ∉ s.
Proof.
  intros Hs Hc Hin. rewrite forallb_forall in Hs. apply list_elem_of_In, Hs in Hin. congruence.
Qed.

(** ** [strings.Cut] *)

Lemma Cut_found x sep y : sep ∉ x -> Cut (x ++ sep :: y) sep = (x, y, true).
Proof.
  induction x as [|b x IH]; intros Hx; cbn [app Cut]; [by rewrite decide_True|].
  rewrite not_elem_of_cons in Hx. destruct Hx as [? Hx].
  rewrite decide_False by congruence. by rewrite IH.
Qed.

Lemma Cut_absent x sep : sep ∉ x -> Cut x sep = (x, [], false).
Proof.
  induction x as [|b x IH]; intros Hx; cbn [Cut]; [done|].
  rewrite not_elem_of_cons in Hx. destruct Hx as [? Hx].
  rewrite decide_False by congruence. by rewrite IH.
Qed.

(** ** Queries *)

Lemma encode_pair_bytes kv : forallb (fun b => component_byte b || (Zb b =? 61)) (encode_pair kv) = true.
Proof.
  destruct kv as [k v]. unfold encode_pair. rewrite !forallb_app. cbn [fst snd].
  assert (forall s, forallb (fun b => component_byte b || (Zb b =? 61)) (QueryEscape s) = true) as H.
  { intros s. pose proof (QueryEscape_component s) as Hs. rewrite forallb_forall in Hs |- *.
    intros b Hb. by rewrite (Hs b Hb). }
  by rewrite !H.
Qed.

Lemma encode_pair_no_amp kv : x26 ∉ encode_pair kv.
Proof.
  intros Hin. pose proof (encode_pair_bytes kv) as H. rewrite forallb_forall in H.
  apply list_elem_of_In, H in Hin. done.
Qed.

Lemma query_part_encode_pair m k v : query_part m (encode_pair (k, v)) = Values_Add k v m.
Proof.
  unfold query_part. rewrite bool_decide_eq_false_2, bool_decide_eq_false_2.
  - unfold encode_pair. cbn [fst snd].
    change (QueryEscape k ++ str "=" ++ QueryEscape v) with (QueryEscape k ++ x3d :: QueryEscape v).
    rewrite Cut_found by (apply not_in_component; [apply QueryEscape_component|done]).
    by rewrite !QueryUnescape_QueryEscape.
  - unfold encode_pair. intros H%(f_equal length). rewrite !length_app in H. simpl in H. lia.
  - intros Hin. pose proof (encode_pair_bytes (k, v)) as H. rewrite forallb_forall in H.
    apply list_elem_of_In, H in Hin. done.
Qed.

Lemma ParseQuery_pairs ps :
  ParseQuery (Join (map encode_pair ps) (str "&")) =
  fold_left (fun m kv => Values_Add (fst kv) (snd kv) m) ps ∅.
Proof.
  unfold ParseQuery. change (str "&") with [x26].
  destruct (decide (ps = [])) as [->|Hne]; [reflexivity|].
  rewrite Split_Join.
  - generalize (∅ : Values). clear Hne. induction ps as [|[k v] ps IH]; intros m; [done|].
    cbn [map fold_left]. by rewrite query_part_encode_pair, IH.
  - by destruct ps.
  - apply Forall_forall. intros x (kv & <- & _)%in_map_iff. apply encode_pair_no_amp.
Qed.

Lemma Values_Add_list k vs m :
  vs <> [] ->
  fold_left (fun m kv => Values_Add (fst kv) (snd kv) m) (map (pair k) vs) m =
  <[k := default [] (m !! k) ++ vs]> m.
Proof.
  revert m. induction vs as [|v vs IH]; intros m Hne; [done|]. cbn [map fold_left fst snd].
  destruct vs as [|v' vs].
  - done.
  - rewrite IH by done. unfold Values_Add. rewrite lookup_insert_eq. cbn [default from_option].
    rewrite insert_insert_eq. f_equal. symmetry. apply (app_assoc _ [v] (v' :: vs)).
Qed.

Lemma Values_Add_keys (f : bytes -> list bytes) ks m :
  NoDup ks -> (forall k, k ∈ ks -> f k <> [] /\ m !! k = None) ->
  forall q,
    fold_left (fun m kv => Values_Add (fst kv) (snd kv) m)
              (concat (map (fun k => map (pair k) (f k)) ks)) m !! q =
    if decide (q ∈ ks) then Some (f q) else m !! q.
Proof.
  intros Hnd. revert m. induction Hnd as [|k ks Hk Hnd IH]; intros m Hm q.
  { cbn. by rewrite decide_False by set_solver. }
  cbn [map concat]. rewrite fold_left_app.
  destruct (Hm k) as [Hf Hnone]; [set_solver|].
  rewrite Values_Add_list by done. rewrite Hnone. cbn [default from_option app].
  rewrite IH.
  - destruct (decide (q = k)) as [->|Hne].
    + rewrite decide_False by done. rewrite decide_True by set_solver. apply lookup_insert_eq.
    + rewrite lookup_insert_ne by done. repeat case_decide; set_solver.
  - intros k' Hk'. destruct (Hm k') as [? ?]; [set_solver|].
    split; [done|]. rewrite lookup_insert_ne; [done|]. set_solver.
Qed.

Lemma insert_key_perm k l : insert_key k l ≡ₚ k :: l.
Proof.
  induction l as [|x l IH]; cbn [insert_key]; [done|].
  destruct (bytes_leb k x); [done|]. rewrite IH. constructor.
Qed.

Lemma sort_keys_perm l : sort_keys l ≡ₚ l.
Proof.
  induction l as [|k l IH]; [done|]. cbn [sort_keys foldr]. rewrite insert_key_perm. by f_equiv.
Qed.

(** Parsing an encoded query gives the same values back, whatever the keys and
    values are. *)
Lemma ParseQuery_Encode (m : Values) :
  (forall k vs, m !! k = Some vs -> vs <> []) -> ParseQuery (Values_Encode m) = m.
Proof.
  intros Hne. unfold Values_Encode. rewrite ParseQuery_pairs. unfold Values_pairs.
  apply map_eq. intros q.
  rewrite (Values_Add_keys (fun k => default [] (m !! k))).
  - case_decide as Hq; rewrite sort_keys_perm, elem_of_elements, elem_of_dom in Hq;
      [by destruct Hq as [vs ->]|].
    rewrite lookup_empty. symmetry. by apply eq_None_not_Some.
  - rewrite sort_keys_perm. apply NoDup_elements.
  - intros k Hk. rewrite sort_keys_perm, elem_of_elements, elem_of_dom in Hk.
    destruct Hk as [vs Hk]. rewrite Hk, lookup_empty. split; [by eapply Hne|done].
Qed.

Lemma Join_bytes (P : byte -> bool) xs sep :
  forallb P sep = true -> Forall (fun x => forallb P x = true) xs -> forallb P (Join xs sep) = true.
Proof.
  intros Hs HF. induction HF as [|x xs Hx HF IH]; [done|].
  destruct xs as [|y ys]; [done|].
  change (Join (x :: y :: ys) sep) with (x ++ sep ++ Join (y :: ys) sep).
  by rewrite !forallb_app, Hx, Hs, IH.
Qed.

Lemma Encode_bytes m : forallb query_byte (Values_Encode m) = true.
Proof.
  apply Join_bytes; [done|]. apply Forall_forall. intros x (kv & <- & _)%in_map_iff.
  pose proof (encode_pair_bytes kv) as H. rewrite forallb_forall in H |- *.
  intros b Hb. apply H in Hb. unfold component_byte, query_byte in *.
  rewrite !orb_true_iff in *. tauto.
Qed.

Lemma query_part_size part m : (size (query_part m part) <= S (size m))%nat.
Proof.
  unfold query_part, Values_Add. repeat case_match; try lia.
  rewrite map_size_insert. destruct (m !! _); simpl; lia.
Qed.
