(* ===== verification/Http.v ===== *)
(** * net/http and net/url as the RPC code uses them

    A handler answers a request and may change the state it serves. What connect
    itself puts into a request (method, headers, body) and writes as an answer
    are parameters; the path, [http.NotFound], redirects and [http.ServeMux] are
    net/http's own. Paths are taken as decoded: escapes in them are not
    modelled, and a redirect keeps the query, which is part of the payload. *)

From S2P Require Import Prelude GoStrings GoOS GoURL.

(** [strings.TrimRight] with a cutset of ASCII octets. *)
Fixpoint drop_cutset (cutset s : bytes) : bytes :=
  match s with
  | b :: s' => if bool_decide (b ∈ cutset) then drop_cutset cutset s' else s
  | [] => []
  end.
Definition TrimRight (s cutset : bytes) : bytes := rev (drop_cutset cutset (rev s)).

Definition ends_slash (s : bytes) : bool := bool_decide (head (rev s) = Some x2f).

(** [cleanPath] of net/http: the canonical path, which keeps a final slash. *)
Definition cleanPath (p : bytes) : bytes :=
  if bool_decide (p = []) then str "/" else
  let p := if HasPrefix p (str "/") then p else str "/" ++ p in
  let np := Clean p in
  if ends_slash p && negb (bool_decide (np = str "/")) then np ++ str "/" else np.

Section http.
Context {Payload Output : Type}.

Record HTTPRequest := MkHTTPRequest { URL_Path : bytes; payload : Payload }.
Inductive reply := WNotFound | WRedirect (location : bytes) | WOutput (o : Output).
Definition HTTPHandler (S : Type) : Type := HTTPRequest -> S -> reply * S.

Definition http_NotFound {S} : HTTPHandler S := fun _ s => (WNotFound, s).

(** [http.ServeMux] with the patterns the program registers: paths without
    method, host or wildcard. *)
Record ServeMux (S : Type) := MkMux { patterns : list (bytes * HTTPHandler S) }.
Arguments MkMux {S}. Arguments patterns {S}.
Definition NewServeMux {S} : ServeMux S := MkMux [].

(** [Handle] panics on an empty pattern and on one already registered. *)
Definition Handle {S E} (ph : bytes * HTTPHandler S) (m : ServeMux S) : res E (ServeMux S) :=
  if bool_decide (fst ph = []) || existsb (fun qh => bool_decide (fst qh = fst ph)) (patterns m) then Panic
  else Ok (MkMux (patterns m ++ [ph])).

(** A pattern ending in a slash stands for the whole subtree; the most specific
    pattern, which is the longest, is chosen. *)
Definition pattern_matches (pattern path : bytes) : bool :=
  if ends_slash pattern then HasPrefix path pattern else bool_decide (pattern = path).
Definition more_specific {S} (path : bytes) (best : option (bytes * HTTPHandler S))
    (ph : bytes * HTTPHandler S) : option (bytes * HTTPHandler S) :=
  if negb (pattern_matches (fst ph) path) then best
  else match best with
       | Some qh => if (length (fst qh) <? length (fst ph))%nat then Some ph else best
       | None => Some ph
       end.
Definition mux_match {S} (m : ServeMux S) (path : bytes) : option (bytes * HTTPHandler S) :=
  fold_left (more_specific path) (patterns m) None.

Definition exact_match {S} (found : option (bytes * HTTPHandler S)) (path : bytes) : bool :=
  if found is Some ph then bool_decide (fst ph = path) else false.

(** A subtree's root without its slash, and any path that is not canonical,
    are redirected. *)
Definition mux_ServeHTTP {S} (m : ServeMux S) : HTTPHandler S := fun r s =>
  let path := cleanPath (URL_Path r) in
  let found := mux_match m path in
  if negb (exact_match found path) && negb (ends_slash path) &&
     exact_match (mux_match m (path ++ str "/")) (path ++ str "/")
  then (WRedirect (path ++ str "/"), s)
  else if negb (bool_decide (path = URL_Path r)) then (WRedirect path, s)
  else match found with
       | Some ph => snd ph r s
       | None => http_NotFound r s
       end.

(** ** What the multiplexer can do to the state *)

Lemma mux_match_in {S} (m : ServeMux S) path ph :
  mux_match m path = Some ph -> ph ∈ patterns m /\ pattern_matches (fst ph) path = true.
Proof.
  unfold mux_match. intros Hm.
  assert (forall qs best, fold_left (more_specific path) qs best = Some ph ->
    best = Some ph \/ (ph ∈ qs /\ pattern_matches (fst ph) path = true)) as Hf; cycle 1.
  { destruct (Hf _ _ Hm) as [?|?]; done. }
  clear Hm. induction qs as [|qh qs IH]; intros best Hb; cbn [fold_left] in Hb; [by left|].
  apply IH in Hb as [Hb|[Hin Hp]]; [|right; split; [by right|done]].
  unfold more_specific in Hb. destruct (pattern_matches (fst qh) path) eqn:Hp; cbn [negb] in Hb; [|by left].
  destruct best as [bh|]; [destruct (_ <? _)%nat|]; simplify_eq; auto;
    right; (split; [by left|done]).
Qed.

(** Serving leaves the state alone, or is one registered handler's doing. *)
Lemma mux_ServeHTTP_cases {S} (m : ServeMux S) r s :
  snd (mux_ServeHTTP m r s) = s \/
  exists ph, ph ∈ patterns m /\ pattern_matches (fst ph) (URL_Path r) = true /\
    mux_ServeHTTP m r s = snd ph r s.
Proof.
  unfold mux_ServeHTTP. destruct (_ && _ && _); [by left|].
  case_bool_decide as Hpath; cbn [negb]; [|by left].
  destruct (mux_match m (cleanPath (URL_Path r))) as [ph|] eqn:Hm; [|by left].
  apply mux_match_in in Hm as [Hin Hp]. right. exists ph. by rewrite <- Hpath at 1.
Qed.

(** Two subtrees whose names have the same length: each gets every canonical
    path below it. *)
Lemma HasPrefix_unique p q path :
  HasPrefix path p = true -> HasPrefix path q = true -> length p = length q -> p = q.
Proof. unfold HasPrefix. rewrite !bool_decide_eq_true. intros Hp Hq Hl. by rewrite Hp, Hq, Hl. Qed.

Lemma not_exact_below {S} (m : ServeMux S) path p :
  HasPrefix path p = true -> Forall (fun ph => length (fst ph) = length p) (patterns m) ->
  exact_match (mux_match m (path ++ str "/")) (path ++ str "/") = false.
Proof.
  intros Hp Hall. destruct (mux_match m (path ++ str "/")) as [ph|] eqn:Hm; [|done]. cbn.
  apply bool_decide_eq_false. intros E. apply mux_match_in in Hm as [Hin _].
  rewrite Forall_forall in Hall. apply list_elem_of_In, Hall in Hin. rewrite E, length_app in Hin. cbn in Hin.
  apply HasPrefix_spec in Hp. rewrite Hp, length_app in Hin. lia.
Qed.

Lemma two_subtrees {S} (a b : bytes * HTTPHandler S) (r : HTTPRequest) (s : S) :
  ends_slash (fst a) = true -> ends_slash (fst b) = true -> length (fst a) = length (fst b) -> fst a <> fst b ->
  cleanPath (URL_Path r) = URL_Path r ->
  (HasPrefix (URL_Path r) (fst a) = true -> mux_ServeHTTP (MkMux [a; b]) r s = snd a r s) /\
  (HasPrefix (URL_Path r) (fst b) = true -> mux_ServeHTTP (MkMux [a; b]) r s = snd b r s).
Proof.
  intros Ha Hb Hl Hne Hc. unfold mux_ServeHTTP. rewrite Hc. rewrite (bool_decide_eq_true_2 (URL_Path r = URL_Path r)) by done.
  unfold mux_match at 1 3 4 6. cbn [patterns fold_left]. unfold more_specific, pattern_matches. rewrite Ha, Hb.
  split; intros Hp.
  - destruct (HasPrefix (URL_Path r) (fst b)) eqn:Hq; [by destruct (Hne (HasPrefix_unique _ _ _ Hp Hq Hl))|].
    rewrite (not_exact_below (MkMux [a; b]) _ (fst a) Hp) by (repeat apply List.Forall_cons; done).
    rewrite Hp, andb_false_r. done.
  - destruct (HasPrefix (URL_Path r) (fst a)) eqn:Hq; [by destruct (Hne (HasPrefix_unique _ _ _ Hq Hp Hl))|].
    rewrite (not_exact_below (MkMux [a; b]) _ (fst b) Hp) by (repeat apply List.Forall_cons; done).
    rewrite Hp, andb_false_r. done.
Qed.
End http.
Arguments HTTPRequest : clear implicits.
Arguments reply : clear implicits.
Arguments ServeMux : clear implicits.
Arguments HTTPHandler : clear implicits.
Arguments MkMux {Payload Output S}.
Arguments patterns {Payload Output S}.

(** ** Bases without a path

    [scheme://host] or [scheme://host:port], with a plain host name. *)

Definition name_byte (b : byte) : bool := is_alnum b || (Zb b =? 45) || (Zb b =? 46).
Definition path_byte (b : byte) : bool := unreserved b || (Zb b =? 47).

Record Origin := MkOrigin { o_scheme : bytes; o_name : bytes; o_port : option bytes }.
Definition origin_host (o : Origin) : bytes :=
  o_name o ++ from_option (fun p => str ":" ++ p) [] (o_port o).
Definition origin_url (o : Origin) : bytes := o_scheme o ++ str "://" ++ origin_host o.
Definition origin_ok (o : Origin) : bool :=
  negb (bool_decide (o_scheme o = []) || bool_decide (o_name o = [])) && forallb is_alpha (o_scheme o) &&
  forallb name_byte (o_name o) && from_option (forallb is_digit) true (o_port o).

Lemma forallb_not_in (P : byte -> bool) c s : forallb P s = true -> P c = false -> c ∉ s.
Proof. intros Hs Hc Hin. rewrite forallb_forall in Hs. apply list_elem_of_In, Hs in Hin. congruence. Qed.

Lemma forallb_impl (P Q : byte -> bool) s :
  (forall b, P b = true -> Q b = true) -> forallb P s = true -> forallb Q s = true.
Proof. intros HPQ. rewrite !forallb_forall. auto. Qed.

Lemma in_rev_iff (c : byte) s : c ∈ rev s <-> c ∈ s.
Proof. by rewrite !list_elem_of_In, <- in_rev. Qed.

(** The octets of a host follow those of its name and port. *)
Lemma forallb_host (P : byte -> bool) o :
  origin_ok o = true -> (forall b, name_byte b = true -> P b = true) ->
  (forall b, is_digit b = true -> P b = true) -> P x3a = true -> forallb P (origin_host o) = true.
Proof.
  unfold origin_ok, origin_host. intros [[_ Hn]%andb_true_iff Hp]%andb_true_iff HPn HPd HPc.
  rewrite forallb_app. apply andb_true_iff. split; [by apply (forallb_impl name_byte)|].
  destruct (o_port o) as [p|]; cbn [from_option] in *; [|done].
  change (str ":" ++ p) with (x3a :: p). cbn [forallb]. rewrite HPc. by apply (forallb_impl is_digit).
Qed.

Lemma getScheme_go_alpha raw acc s rest :
  forallb is_alpha s = true -> (acc <> [] \/ s <> []) ->
  getScheme_go raw acc (s ++ x3a :: rest) = Some (rev acc ++ s, rest).
Proof.
  revert acc. induction s as [|b s IH]; intros acc Hs Hne; cbn [app getScheme_go].
  - destruct acc; [by destruct Hne|]. by rewrite app_nil_r.
  - cbn in Hs. apply andb_true_iff in Hs as [Hb Hs]. rewrite Hb, IH by (try done; by left).
    cbn [rev]. by rewrite <- app_assoc.
Qed.

Lemma unescape_plain (P : byte -> bool) host s :
  (forall b, P b = true -> (Zb b =? 37) = false /\ host && (Zb b <? 128) && negb (host_byte b) = false) ->
  forallb P s = true -> unescape false host s = Some s.
Proof.
  intros HP. induction s as [|b s IH]; intros Hs; cbn [unescape]; [done|].
  cbn in Hs. apply andb_true_iff in Hs as [Hb Hs]. destruct (HP b Hb) as [-> ->]. by rewrite IH.
Qed.

Definition host_plain (b : byte) : bool := name_byte b || is_digit b || bool_decide (b = x3a).
Lemma host_is_plain o : origin_ok o = true -> forallb host_plain (origin_host o) = true.
Proof.
  intros Ho. apply forallb_host; unfold host_plain; [done|by intros b ->|intros b ->; by rewrite orb_true_r|done].
Qed.

Lemma parseHost_origin o : origin_ok o = true -> parseHost (origin_host o) = Some (origin_host o).
Proof.
  intros Ho. pose proof (host_is_plain o Ho) as Hh.
  unfold parseHost. rewrite !bool_decide_eq_false_2 by by apply (forallb_not_in _ _ _ Hh). cbn [orb].
  rewrite (unescape_plain host_plain); [|by intros []|done].
  unfold origin_ok in Ho. apply andb_true_iff in Ho as [[_ Hn]%andb_true_iff Hp].
  unfold origin_host, CutLast. destruct (o_port o) as [p|]; cbn [from_option] in *.
  - change (o_name o ++ str ":" ++ p) with (o_name o ++ [x3a] ++ p).
    rewrite !rev_app_distr, <- app_assoc. cbn [rev app].
    rewrite Cut_found by (rewrite in_rev_iff; by apply (forallb_not_in is_digit)).
    by rewrite rev_involutive, Hp.
  - rewrite app_nil_r, Cut_absent by (rewrite in_rev_iff; by apply (forallb_not_in name_byte)). done.
Qed.

(** A plain path appended to such a base is the path of the parsed URL. *)
Lemma url_Parse_origin o path :
  origin_ok o = true -> forallb path_byte path = true ->
  url_Parse (origin_url o ++ x2f :: path) =
  Some (MkURL (to_lower (o_scheme o)) (origin_host o) (x2f :: path) []).
Proof.
  intros Ho Hpath. pose proof (parseHost_origin o Ho) as Hhost. pose proof Ho as Ho'. unfold origin_ok in Ho'.
  apply andb_true_iff in Ho' as [[[Hne Hs]%andb_true_iff _]%andb_true_iff _].
  apply negb_true_iff, orb_false_iff in Hne as [Hne%bool_decide_eq_false _].
  set (plain := fun b => is_alpha b || name_byte b || is_digit b || path_byte b || bool_decide (b = x3a)).
  assert (forallb host_plain (origin_host o) = true) as Hph by by apply host_is_plain.
  assert (forallb plain (origin_url o ++ x2f :: path) = true) as Hall.
  { unfold origin_url. rewrite !forallb_app, !andb_true_iff. split_and!.
    - apply (forallb_impl is_alpha); [|done]. intros b Hb. unfold plain. by rewrite Hb.
    - done.
    - apply (forallb_impl host_plain); [|done]. intros b Hb. by destruct b.
    - change (forallb plain path = true). apply (forallb_impl path_byte); [|done].
      intros b Hb. unfold plain. by rewrite Hb, orb_true_r. }
  unfold url_Parse. rewrite Cut_absent by by apply (forallb_not_in plain).
  assert (url_parse_nofrag (origin_url o ++ x2f :: path) =
    Some (MkURL (to_lower (o_scheme o)) (origin_host o) (x2f :: path) [])) as ->; [|done].
  unfold url_parse_nofrag.
  assert (contains_ctl (origin_url o ++ x2f :: path) = false) as ->.
  { apply not_true_is_false. unfold contains_ctl. intros (b & Hb & Hc)%existsb_exists.
    rewrite forallb_forall in Hall. apply Hall in Hb. by destruct b. }
  assert (x2a ∉ origin_url o ++ x2f :: path) as Hstar by by apply (forallb_not_in plain).
  rewrite bool_decide_eq_false_2.
  2: { intros E. apply Hstar. rewrite E. by apply list_elem_of_singleton. }
  assert (x3f ∉ origin_url o ++ x2f :: path) as Hq by by apply (forallb_not_in plain).
  unfold origin_url in *. rewrite <- !app_assoc in Hq |- *. cbn [app str] in Hq |- *.
  change (o_scheme o ++ str "://" ++ origin_host o ++ x2f :: path)
    with (o_scheme o ++ x3a :: (x2f :: x2f :: origin_host o ++ x2f :: path)) in Hq |- *.
  unfold getScheme. rewrite getScheme_go_alpha by (try done; by right).
  cbn [mbind option_bind]. change (rev [] ++ o_scheme o) with (o_scheme o). set (rest := x2f :: x2f :: origin_host o ++ x2f :: path).
  assert (x3f ∉ rest) as Hr.
  { intros Hin. apply Hq. apply elem_of_app. right. by right. }
  assert (bool_decide (head (rev rest) = Some x3f) = false) as ->.
  { apply bool_decide_eq_false. intros E. apply Hr, in_rev_iff. destruct (rev rest); [done|].
    injection E as ->. by left. }
  cbn [andb]. rewrite Cut_absent by done.
  assert (bool_decide (to_lower (o_scheme o) = []) = false) as ->.
  { apply bool_decide_eq_false. by destruct (o_scheme o). }
  assert (HasPrefix rest (str "/") = true) as -> by reflexivity.
  assert (HasPrefix rest (str "//") = true) as -> by reflexivity.
  cbn [negb andb orb]. change (drop 2 rest) with (origin_host o ++ x2f :: path).
  rewrite Cut_found by by apply (forallb_not_in host_plain). unfold parseAuthority, CutLast.
  rewrite Cut_absent by (rewrite in_rev_iff; by apply (forallb_not_in host_plain)).
  rewrite rev_involutive, Hhost. cbn [mbind option_bind].
  rewrite (unescape_plain path_byte); [done|by intros []|exact Hpath].
Qed.

(** Trailing slashes of a base are dropped before a procedure is appended. *)
Lemma TrimRight_slashes s n :
  head (rev s) <> Some x2f -> TrimRight (s ++ repeat x2f n) (str "/") = s.
Proof.
  intros Hs. unfold TrimRight. rewrite rev_app_distr, rev_repeat.
  assert (drop_cutset (str "/") (repeat x2f n ++ rev s) = rev s) as ->; [|apply rev_involutive].
  induction n as [|n IH]; cbn [repeat app]; [|done].
  destruct (rev s) as [|b r]; [done|]. cbn [drop_cutset]. rewrite bool_decide_eq_false_2; [done|].
  intros ->%list_elem_of_singleton. by apply Hs.
Qed.

Lemma origin_url_no_slash o : origin_ok o = true -> head (rev (origin_url o)) <> Some x2f.
Proof.
  intros Ho. pose proof (host_is_plain o Ho) as Hh. unfold origin_url.
  assert (origin_host o <> []) as Hne.
  { unfold origin_ok in Ho. apply andb_true_iff in Ho as [[[Hne _]%andb_true_iff _]%andb_true_iff _].
    apply negb_true_iff, orb_false_iff in Hne as [_ Hne%bool_decide_eq_false].
    unfold origin_host. by destruct (o_name o). }
  destruct (origin_host o) as [|b h _] using rev_ind; [done|].
  rewrite !app_assoc, rev_unit. cbn. intros [= ->]. by rewrite forallb_app, andb_comm in Hh.
Qed.

(** The URL a client builds from its base and a procedure. *)
Lemma url_Path_base o n path :
  origin_ok o = true -> forallb path_byte path = true ->
  url_Path <$> url_Parse (TrimRight (origin_url o ++ repeat x2f n) (str "/") ++ x2f :: path) = Some (x2f :: path).
Proof.
  intros Ho Hp. rewrite TrimRight_slashes by by apply origin_url_no_slash. by rewrite url_Parse_origin.
Qed.
