(* ===== verification/Crypto.v ===== *)
(** * [crypto/ed25519] as an interface

    The program signs and verifies through six functions. The scheme itself is
    a type class; what the program relies on is that a signature made with a
    key verifies under its public half, and the fixed sizes. No theorem assumes
    that signatures cannot be forged: the theorems say which exact octets a
    verified signature covers. The panics are those of the package. *)

From S2P Require Import Prelude Sha256.

Definition SeedSize : nat := 32.
Definition PublicKeySize : nat := 32.
Definition PrivateKeySize : nat := 64.
Definition SignatureSize : nat := 64.

Class Ed25519 := {
  (** public key of a seed *)
  ed_public : bytes -> bytes;
  (** signature of a message under a 64-octet private key *)
  ed_sign : bytes -> bytes -> bytes;
  (** verification under a 32-octet key of a 64-octet signature *)
  ed_verify : bytes -> bytes -> bytes -> bool }.

Class Ed25519Laws `{Ed25519} : Prop := {
  ed_public_length seed : length seed = SeedSize -> length (ed_public seed) = PublicKeySize;
  ed_sign_length priv m : length (ed_sign priv m) = SignatureSize;
  ed_verify_sign seed m :
    length seed = SeedSize -> ed_verify (ed_public seed) m (ed_sign (seed ++ ed_public seed) m) = true }.

Section ed25519.
Context `{Ed25519}.

(** [ed25519.NewKeyFromSeed] panics on a seed of the wrong length. *)
Definition NewKeyFromSeed {E} (seed : bytes) : res E bytes :=
  if (length seed =? SeedSize)%nat then Ok (seed ++ ed_public seed) else Panic.

(** [priv.Seed()] slices the private key at 32; [priv.Public()] copies what
    follows into 32 fresh octets. Both panic ([None]) on a shorter key. *)
Definition priv_Seed (priv : bytes) : option bytes :=
  if (length priv <? SeedSize)%nat then None else Some (take SeedSize priv).
Definition priv_Public (priv : bytes) : option bytes :=
  if (length priv <? SeedSize)%nat then None
  else Some (take PublicKeySize (drop SeedSize priv ++ repeat x00 PublicKeySize)).

(** [ed25519.Sign] panics on a private key of the wrong length. *)
Definition ed25519_Sign {E} (priv m : bytes) : res E bytes :=
  if (length priv =? PrivateKeySize)%nat then Ok (ed_sign priv m) else Panic.

(** [ed25519.Verify] panics on a public key of the wrong length and refuses a
    signature of the wrong length. *)
Definition ed25519_Verify {E} (pub m sig : bytes) : res E bool :=
  if (length pub =? PublicKeySize)%nat then
    Ok ((length sig =? SignatureSize)%nat && ed_verify pub m sig)
  else Panic.

(** [len(sig) > 0 && ed25519.Verify(pub, m, sig)], the guard every verifier of
    the program starts with. *)
Definition verify_nonempty {E} (pub m sig : bytes) : res E bool :=
  if (length sig =? 0)%nat then Ok false else ed25519_Verify pub m sig.

(** The keys [NewKeyFromSeed] makes. *)
Definition key_pair (priv pub : bytes) : Prop :=
  exists seed, length seed = SeedSize /\ priv = seed ++ ed_public seed /\ pub = ed_public seed.
End ed25519.

Section laws.
Context `{Ed25519Laws}.

Lemma key_pair_lengths priv pub :
  key_pair priv pub -> length priv = PrivateKeySize /\ length pub = PublicKeySize.
Proof.
  intros (seed & Hs & -> & ->). rewrite length_app, Hs, ed_public_length by done. done.
Qed.

Lemma key_pair_long priv pub : key_pair priv pub -> (length priv <? SeedSize)%nat = false.
Proof. intros Hk. by rewrite (proj1 (key_pair_lengths _ _ Hk)). Qed.

Lemma key_pair_Public priv pub : key_pair priv pub -> priv_Public priv = Some pub.
Proof.
  intros Hk. unfold priv_Public. rewrite (key_pair_long _ _ Hk). destruct Hk as (seed & Hs & -> & ->).
  by rewrite drop_app_length', take_app_length' by (rewrite ?ed_public_length by done; done).
Qed.

Lemma key_pair_Seed priv pub :
  key_pair priv pub ->
  exists seed, priv_Seed priv = Some seed /\ length seed = SeedSize /\ priv = seed ++ ed_public seed.
Proof.
  intros Hk. unfold priv_Seed. rewrite (key_pair_long _ _ Hk). destruct Hk as (seed & Hs & -> & ->).
  exists seed. by rewrite take_app_length'.
Qed.

Lemma NewKeyFromSeed_Ok {E} seed priv : NewKeyFromSeed (E := E) seed = Ok priv ->
  length seed = SeedSize /\ key_pair priv (ed_public seed) /\ priv_Seed priv = Some seed.
Proof.
  unfold NewKeyFromSeed. destruct (Nat.eqb_spec (length seed) SeedSize) as [Hs|]; intros [= <-].
  assert (key_pair (seed ++ ed_public seed) (ed_public seed)) as Hk by by exists seed.
  split_and!; [done|done|]. unfold priv_Seed. rewrite (key_pair_long _ _ Hk). by rewrite take_app_length'.
Qed.

Lemma verify_sign {E} priv pub m :
  key_pair priv pub -> verify_nonempty (E := E) pub m (ed_sign priv m) = Ok true.
Proof.
  intros Hk. unfold verify_nonempty, ed25519_Verify. rewrite ed_sign_length.
  rewrite (proj2 (key_pair_lengths _ _ Hk)). destruct Hk as (seed & Hs & -> & ->).
  by rewrite ed_verify_sign.
Qed.

Lemma verify_nonempty_total {E} pub m sig :
  length pub = PublicKeySize -> exists b, verify_nonempty (E := E) pub m sig = Ok b.
Proof. intros Hp. unfold verify_nonempty, ed25519_Verify. rewrite Hp. case_match; eauto. Qed.

Lemma verify_nonempty_true {E} pub m sig :
  verify_nonempty (E := E) pub m sig = Ok true -> ed_verify pub m sig = true.
Proof.
  unfold verify_nonempty, ed25519_Verify. repeat case_match; intros Hv; simplify_eq.
  by apply andb_true_iff in H4 as [_ ?] || (apply andb_true_iff in Hv as [_ ?]; done).
Qed.
End laws.

(** A concrete scheme for evaluating examples: the public key is the digest of
    the seed and the tag the digest of public key and message, twice. It is a
    checksum, not a signature scheme. *)
#[export] Instance checksum_scheme : Ed25519 := {|
  ed_public seed := Sum256 seed;
  ed_sign priv m := let d := Sum256 (drop SeedSize priv ++ m) in d ++ d;
  ed_verify pub m sig := let d := Sum256 (pub ++ m) in bool_decide (sig = d ++ d) |}.

#[export] Instance checksum_laws : Ed25519Laws.
Proof.
  constructor; cbn [ed_public ed_sign ed_verify checksum_scheme]; intros.
  - apply length_Sum256.
  - by rewrite length_app, length_Sum256.
  - apply bool_decide_eq_true. by rewrite drop_app_length'.
Qed.
