(* ===== verification/Framing.v ===== *)
(** * Length-prefixed framing, shared by the two canonical encodings

    Each field is preceded by its length as eight big-endian octets. As long as
    lengths fit 64 bits, which every Go slice satisfies, the concatenation of
    any number of frames determines the fields. *)

From S2P Require Import Prelude.

(** [u64(v)]: [binary.BigEndian.PutUint64]. *)
Definition u64 (v : Z) : bytes := be_bytes 8 v.

Definition frame (f : bytes) : bytes := u64 (w64 (Z.of_nat (length f))) ++ f.
Definition frames (fs : list bytes) : bytes := concat (map frame fs).

(** The length fits the prefix. *)
Definition fits (f : bytes) : Prop := Z.of_nat (length f) < 2 ^ 64.

Lemma length_u64 v : length (u64 v) = 8%nat.
Proof. done. Qed.

Lemma u64_inj v w : 0 <= v < 2 ^ 64 -> 0 <= w < 2 ^ 64 -> u64 v = u64 w -> v = w.
Proof. apply (be_bytes_inj 8). Qed.

Lemma frame_app_inj f g t u :
  fits f -> fits g -> frame f ++ t = frame g ++ u -> f = g /\ t = u.
Proof.
  unfold frame, fits. intros Hf Hg H. rewrite <- (app_assoc _ f t), <- (app_assoc _ g u) in H.
  apply app_inj_len in H as [Hl H]; [|by rewrite !length_u64].
  rewrite !w64_id in Hl by lia. apply u64_inj in Hl; [|lia..].
  apply app_inj_len in H; [done|lia].
Qed.

Lemma frames_inj fs gs :
  Forall fits fs -> Forall fits gs -> frames fs = frames gs -> fs = gs.
Proof.
  intros Hf. revert gs. induction Hf as [|f fs Hf _ IH]; intros gs Hg H;
    destruct Hg as [|g gs Hg Hgs]; unfold frames in *; cbn [map concat] in H.
  - done.
  - apply (f_equal length) in H. unfold frame in H. rewrite !length_app, length_u64 in H.
    simpl in H. lia.
  - apply (f_equal length) in H. unfold frame in H. rewrite !length_app, length_u64 in H.
    simpl in H. lia.
  - apply frame_app_inj in H as [-> H]; [|done..]. f_equal. by apply IH.
Qed.

Lemma fits_small n f : length f = n -> Z.of_nat n < 2 ^ 64 -> fits f.
Proof. unfold fits. by intros ->. Qed.

Lemma fits_u64 v : fits (u64 v).
Proof. by apply (fits_small 8). Qed.

(** The loop of both packages: append prefix and field, field after field. *)
Definition append_frames (out : bytes) (fields : list bytes) : bytes :=
  fold_left (fun out f => (out ++ u64 (w64 (Z.of_nat (length f)))) ++ f) fields out.

Lemma append_frames_eq out fields : append_frames out fields = out ++ frames fields.
Proof.
  revert out. induction fields as [|f fs IH]; intros out; unfold append_frames, frames in *.
  - cbn [map concat fold_left]. by rewrite app_nil_r.
  - cbn [map concat fold_left]. rewrite IH. unfold frame. by rewrite !app_assoc.
Qed.

(** Reading frames back: the inverse the prefixes make possible. *)
Fixpoint unframe (fuel : nat) (s : bytes) : option (list bytes) :=
  match fuel, s with
  | _, [] => Some []
  | O, _ => None
  | S fuel', _ =>
    let n := Z.to_nat (be_val (take 8 s)) in
    if (8 + n <=? length s)%nat then cons (take n (drop 8 s)) <$> unframe fuel' (drop (8 + n) s)
    else None
  end.
Definition unframes (s : bytes) : option (list bytes) := unframe (length s) s.

Lemma unframe_frames fuel fs :
  Forall fits fs -> (length (frames fs) <= fuel)%nat -> unframe fuel (frames fs) = Some fs.
Proof.
  intros Hf. revert fuel. induction Hf as [|f fs Hf _ IH]; intros fuel Hl; [by destruct fuel|].
  unfold frames in *. cbn [map concat] in *. unfold frame at 1 in Hl. unfold frame at 1.
  set (u := u64 (w64 (Z.of_nat (length f)))) in *.
  assert (length u = 8%nat) as Hu by apply length_u64.
  assert (be_val u = Z.of_nat (length f)) as Hv.
  { unfold u, u64. rewrite be_val_be_bytes, w64_id by (unfold fits in Hf; lia).
    apply Z.mod_small. unfold fits in Hf. lia. }
  rewrite !length_app in Hl. destruct fuel as [|fuel]; [lia|]. cbn [unframe].
  destruct ((u ++ f) ++ concat (map frame fs)) as [|b l] eqn:E.
  { apply (f_equal length) in E. rewrite !length_app in E. simpl in E. lia. }
  rewrite <- E, <- app_assoc. rewrite take_app_length' by done. rewrite Hv, Nat2Z.id.
  rewrite !length_app, (proj2 (Nat.leb_le _ _)) by lia.
  rewrite (drop_app_length' u) by done. rewrite take_app_length' by done.
  rewrite app_assoc, drop_app_length' by (rewrite length_app; lia).
  by rewrite IH by lia.
Qed.

Lemma unframes_frames fs : Forall fits fs -> unframes (frames fs) = Some fs.
Proof. intros. by apply unframe_frames. Qed.
