(* ===== verification/Identity.v ===== *)
(** * Package [identity]: the host's identity file and the link rail's
    signed statements

    [crypto/tls], [crypto/x509] and [crypto/ecdsa] are the operations of a type
    class. Everything else is the code of the package, the JSON of the state
    file and the PEM blocks in it included. *)

From S2P Require Import Prelude GoStrings Sha256 BaseN GoTime RFC3339 Json JsonText JsonGo GoOS Crypto Framing.

(** ** Signed statements (sign.go) *)

Definition pairDomain : bytes := str "rook-link-pair/v1".
Definition authDomain : bytes := str "rook-link-auth/v1".

Definition canonical (domain : bytes) (fields : list bytes) : bytes :=
  let out := [] in
  let out := out ++ u64 (w64 (Z.of_nat (length domain))) in
  let out := out ++ domain in
  append_frames out fields.

Definition pairBytes (hostID secret devPub : bytes) : bytes :=
  canonical pairDomain [hostID; secret; devPub].
Definition authBytes (hostID deviceID nonce : bytes) : bytes :=
  canonical authDomain [hostID; deviceID; nonce].

Section statements.
Context `{Ed25519} {E : Type}.

Definition SignPairProof (devKey hostID pairingSecret devPub : bytes) : res E bytes :=
  ed25519_Sign devKey (pairBytes hostID pairingSecret devPub).
Definition VerifyPairProof (devPub hostID pairingSecret proof : bytes) : res E bool :=
  verify_nonempty devPub (pairBytes hostID pairingSecret devPub) proof.
Definition SignAuth (devKey hostID deviceID nonce : bytes) : res E bytes :=
  ed25519_Sign devKey (authBytes hostID deviceID nonce).
Definition VerifyAuth (devPub hostID deviceID nonce sig : bytes) : res E bool :=
  verify_nonempty devPub (authBytes hostID deviceID nonce) sig.
End statements.

(** ** Printable ids and pins *)

Definition fingerprint (pub : bytes) : bytes := Base32Lower (take 16 (Sum256 pub)).
Definition HostIDFor (pub : bytes) : bytes := fingerprint pub.
Definition DeviceIDFor (pub : bytes) : bytes := fingerprint pub.

(** [tls.Certificate]: the DER chain and the private key. *)
Record TLSCertificate := MkTLSCertificate { Certificate : list bytes; PrivateKey : bytes }.

Record Identity := MkIdentity { Key : bytes; TLSCert : TLSCertificate; TrustDomainID : bytes }.

(** [None] is the panic of a key shorter than its seed. *)
Definition PublicKey (id : Identity) : option bytes := priv_Public (Key id).
Definition HostID (id : Identity) : option bytes := HostIDFor <$> PublicKey id.

Definition PinSPKI (RawSubjectPublicKeyInfo : bytes) : bytes :=
  RawURLEncode (Sum256 RawSubjectPublicKeyInfo).

Record stateFile := MkStateFile {
  f_Version : Z; f_HostID : bytes; f_HostSeed : bytes; f_TLSCertPEM : bytes; f_TLSKeyPEM : bytes;
  f_TrustDomainID : bytes; f_CreatedAt : time }.

Record certTemplate := MkCertTemplate {
  SerialNumber : Z; CommonName : bytes; DNSNames : list bytes; NotBefore : time; NotAfter : time;
  KeyUsage : Z; ExtKeyUsage : list Z; BasicConstraintsValid : bool }.
Definition KeyUsageDigitalSignature : Z := 1.
Definition ExtKeyUsageServerAuth : Z := 1.

(** [pem.EncodeToMemory] of a block without headers: base64 in lines of 64. *)
Fixpoint pem_lines (fuel : nat) (s : bytes) : bytes :=
  match fuel, s with
  | S fuel', _ :: _ => take 64 s ++ x0a :: pem_lines fuel' (drop 64 s)
  | _, _ => []
  end.
Definition pem_EncodeToMemory (typ der : bytes) : bytes :=
  let body := StdEncode der in
  str "-----BEGIN " ++ typ ++ str "-----" ++ x0a :: pem_lines (length body) body ++
  str "-----END " ++ typ ++ str "-----" ++ [x0a].

Example pem_example :
  pem_EncodeToMemory (str "CERTIFICATE") (repeat x61 50) = Join (map str
    ["-----BEGIN CERTIFICATE-----";
     "YWFhYWFhYWFhYWFhYWFhYWFhYWFhYWFhYWFhYWFhYWFhYWFhYWFhYWFhYWFhYWFh"; "YWE=";
     "-----END CERTIFICATE-----"]) [x0a] ++ [x0a].
Proof. by vm_compute. Qed.

(** What the package calls in [crypto]. *)
Class IdentityLib := {
  x509_SPKI : bytes -> option bytes;
  X509KeyPair : bytes -> bytes -> option TLSCertificate;
  ecdsa_GenerateKey : SE World oserr bytes;
  AddYears : time -> Z -> time;
  x509_CreateCertificate : certTemplate -> bytes -> SE World oserr bytes;
  x509_MarshalECPrivateKey : bytes -> option bytes }.

(** The struct's tags. *)
#[export] Instance stateFile_go : GoValue stateFile := {|
  go_type := TStruct
    [(str "version", Always, TInt); (str "hostId", OmitEmpty, TString); (str "hostSeed", Always, TString);
     (str "tlsCertPem", Always, TString); (str "tlsKeyPem", Always, TString);
     (str "trustDomainId", Always, TString); (str "createdAt", Always, TTime)];
  to_go f := VStruct
    [VInt (f_Version f); VString (f_HostID f); VString (f_HostSeed f); VString (f_TLSCertPEM f);
     VString (f_TLSKeyPEM f); VString (f_TrustDomainID f); VTime (f_CreatedAt f)];
  of_go v :=
    match v with
    | VStruct [VInt n; VString h; VString s; VString c; VString k; VString d; VTime t] =>
      Some (MkStateFile n h s c k d t)
    | _ => None
    end |}.

#[export] Instance stateFile_laws : GoValueLaws stateFile.
Proof.
  constructor; [by vm_compute|by vm_compute|by eexists|by intros []|].
  intros v Hv. cbn [go_type stateFile_go] in Hv. by typed_cases Hv.
Qed.

Definition state_Marshal (f : stateFile) : option bytes := MarshalIndent f.
Definition state_Unmarshal (raw : bytes) : option stateFile := Unmarshal raw.
Arguments state_Marshal : simpl never.
Arguments state_Unmarshal : simpl never.

(** A state file JSON carries without loss: its strings are valid UTF-8. *)
Definition stateFile_ok (f : stateFile) : Prop :=
  - 2 ^ 63 <= f_Version f < 2 ^ 63 /\
  Forall (fun s => utf8_valid s = true)
    [f_HostID f; f_HostSeed f; f_TLSCertPEM f; f_TLSKeyPEM f; f_TrustDomainID f].

Lemma state_storable f : stateFile_ok f -> storable f.
Proof.
  intros [Hv Hs]. rewrite !Forall_cons_iff in Hs. destruct_and!. split; cbn [go_type to_go stateFile_go].
  - apply has_type_struct. by repeat (apply List.Forall2_cons; [done|]).
  - cbn. split_and!; try done. by destruct (f_HostID f).
Qed.

Lemma state_roundtrip f raw : stateFile_ok f -> state_Marshal f = Some raw -> state_Unmarshal raw = Some f.
Proof. intros Hf. by apply Unmarshal_MarshalIndent, state_storable. Qed.

Class IdentityLibLaws `{IdentityLib} : Prop := {
  ecdsa_files : keeps_files ecdsa_GenerateKey;
  x509_files tmpl key : keeps_files (x509_CreateCertificate tmpl key) }.

Inductive iderr :=
| ErrNotJSON | ErrSeed | ErrTLS | ErrNoDomain | ErrNoCert | ErrParseCert | ErrMarshal | ErrIO (e : oserr).

Section identity.
Context `{Ed25519, IdentityLib}.

Definition SPKIPin (id : Identity) : res iderr bytes :=
  match Certificate (TLSCert id) with
  | [] => Err ErrNoCert
  | der :: _ =>
    match x509_SPKI der with
    | None => Err ErrParseCert
    | Some spki => Ok (PinSPKI spki)
    end
  end.

Definition load (raw : bytes) : res iderr Identity :=
  match state_Unmarshal raw with
  | None => Err ErrNotJSON
  | Some f =>
    match StdDecode (f_HostSeed f) with
    | None => Err ErrSeed
    | Some seed =>
      if negb (length seed =? SeedSize)%nat then Err ErrSeed else
      match X509KeyPair (f_TLSCertPEM f) (f_TLSKeyPEM f) with
      | None => Err ErrTLS
      | Some cert =>
        if bool_decide (f_TrustDomainID f = []) then Err ErrNoDomain else
        match NewKeyFromSeed seed with
        | Ok key => Ok (MkIdentity key cert (f_TrustDomainID f))
        | Err e => Err e
        | Panic => Panic
        end
      end
    end
  end.

(** [ed25519.GenerateKey(rand.Reader)] draws a seed. *)
Definition GenerateKey : SE World oserr bytes :=
  seed ← rand_Read SeedSize; of_res (NewKeyFromSeed seed).

(** [rand.Int(rand.Reader, 1<<128)]: sixteen octets cover the range exactly, so
    the first draw is never retried. *)
Definition rand_Int128 : SE World oserr Z := b ← rand_Read 16; mret (be_val b).

Definition certificateBlock : bytes := str "CERTIFICATE".
Definition ecKeyBlock : bytes := str "EC PRIVATE KEY".

Definition selfSignedTLS (hostID : bytes) : SE World iderr (bytes * bytes) :=
  key ← map_err ErrIO ecdsa_GenerateKey;
  serial ← map_err ErrIO rand_Int128;
  now ← Now;
  let tmpl := MkCertTemplate serial hostID [hostID] (Add now (- Hour)) (AddYears now 10)
                KeyUsageDigitalSignature [ExtKeyUsageServerAuth] true in
  der ← map_err ErrIO (x509_CreateCertificate tmpl key);
  keyDER ← of_res (of_option ErrMarshal (x509_MarshalECPrivateKey key));
  mret (pem_EncodeToMemory certificateBlock der, pem_EncodeToMemory ecKeyBlock keyDER).

(** The version and variant bits, then [%x-%x-%x-%x-%x]. *)
Definition uuid_bits (b : bytes) : bytes :=
  alter (fun x => bZ (Z.lor (Z.land (Zb x) 0x3f) 0x80)) 8%nat
    (alter (fun x => bZ (Z.lor (Z.land (Zb x) 0x0f) 0x40)) 6%nat b).
Definition slice (i j : nat) (b : bytes) : bytes := take (j - i) (drop i b).
Definition uuid_text (b : bytes) : bytes :=
  Join [hex_encode (slice 0 4 b); hex_encode (slice 4 6 b); hex_encode (slice 6 8 b);
        hex_encode (slice 8 10 b); hex_encode (slice 10 16 b)] (str "-").

Definition randomUUID : SE World iderr bytes :=
  b ← map_err ErrIO (rand_Read 16);
  mret (uuid_text (uuid_bits b)).

Definition create (path : bytes) : SE World iderr Identity :=
  priv ← map_err ErrIO GenerateKey;
  pub ← of_res (or_panic (priv_Public priv));
  let hostID := HostIDFor pub in
  '(certPEM, keyPEM) ← selfSignedTLS hostID;
  cert ← of_res (of_option ErrTLS (X509KeyPair certPEM keyPEM));
  domain ← randomUUID;
  seed ← of_res (or_panic (priv_Seed priv));
  now ← Now;
  let f := MkStateFile 1 hostID (StdEncode seed) certPEM keyPEM domain now in
  raw ← of_res (of_option ErrMarshal (state_Marshal f));
  _ ← map_err ErrIO (write_atomically (Dir path) path raw);
  mret (MkIdentity priv cert domain).

Definition LoadOrCreate (path : bytes) : SE World iderr Identity := fun w =>
  match ReadFile path w with
  | (Ok raw, w') => (load raw, w')
  | (Err ENOENT, w') => create path w'
  | (Err e, w') => (Err (ErrIO e), w')
  | (Panic, w') => (Panic, w')
  end.
End identity.

(** ** Lemmas: text *)

Lemma canonical_frames domain fields : canonical domain fields = frames (domain :: fields).
Proof. unfold canonical. by rewrite append_frames_eq. Qed.

Lemma fits_domains : fits pairDomain /\ fits authDomain.
Proof. by split. Qed.

Definition ascii (b : byte) : bool := Zb b <? 128.

Lemma utf8_valid_ascii s : Forall (fun b => ascii b = true) s -> utf8_valid s = true.
Proof.
  induction 1 as [|b s Hb _ IH]; [done|].
  change (b :: s) with ([b] ++ s). rewrite utf8_valid_rune_app; [done|].
  unfold is_rune, rune_len, ascii in *. clear -Hb. by destruct b.
Qed.

Lemma hex_encode_ascii s : Forall (fun b => ascii b = true) (hex_encode s).
Proof.
  unfold hex_encode. induction s as [|b s IH]; [constructor|]. cbn [map concat].
  apply Forall_app. split; [|done]. clear. by destruct b; repeat constructor.
Qed.

Lemma StdEncode_ascii s : Forall (fun b => ascii b = true) (StdEncode s).
Proof.
  unfold StdEncode. apply Forall_app. split.
  - apply baseN_encode_alphabet; [lia|]. by_upto 64%nat.
  - unfold b64_padding. repeat case_match; repeat constructor.
Qed.

Lemma pem_lines_ascii fuel s :
  Forall (fun b => ascii b = true) s -> Forall (fun b => ascii b = true) (pem_lines fuel s).
Proof.
  revert s. induction fuel as [|fuel IH]; intros [|b s] Hs; cbn [pem_lines]; [constructor..|].
  rewrite <- (take_drop 64 (b :: s)) in Hs. apply Forall_app in Hs as [H1 H2].
  apply Forall_app. split; [done|]. constructor; [done|by apply IH].
Qed.

Lemma pem_text typ der :
  Forall (fun b => ascii b = true) typ -> utf8_valid (pem_EncodeToMemory typ der) = true.
Proof.
  intros Ht. apply utf8_valid_ascii. unfold pem_EncodeToMemory.
  repeat first [apply Forall_app; split|apply List.Forall_cons; [done|]|apply List.Forall_nil|done].
  apply pem_lines_ascii, StdEncode_ascii.
Qed.

Lemma Base32Lower_ascii s : Forall (fun b => ascii b = true) (Base32Lower s).
Proof.
  eapply Forall_impl; [|apply Base32Lower_alphabet]. intros b. clear. by destruct b.
Qed.

Lemma uuid_text_ok b : utf8_valid (uuid_text b) = true /\ uuid_text b <> [].
Proof.
  unfold uuid_text. cbn [Join]. split.
  - apply utf8_valid_ascii. rewrite !Forall_app. repeat split; try apply hex_encode_ascii; by repeat constructor.
  - intros H%(f_equal length). rewrite !length_app in H. simpl in H. lia.
Qed.

(** ** Lemmas: keys and the state file *)

Section lemmas.
Context `{Ed25519Laws, IdentityLibLaws}.

Lemma rand_Read_length n w b w' : rand_Read n w = (Ok b, w') -> length b = n.
Proof.
  unfold rand_Read. case_match; intros; simplify_eq/=. by rewrite length_map, length_seq.
Qed.

Lemma GenerateKey_files : keeps_files GenerateKey.
Proof.
  intros w. unfold GenerateKey, mbind, SE_bind, rand_Read, of_res, NewKeyFromSeed.
  destruct (entropy w (draws w)); [|done]. by rewrite length_map, length_seq.
Qed.

Lemma GenerateKey_Ok w priv w' : GenerateKey w = (Ok priv, w') -> exists pub, key_pair priv pub.
Proof.
  intros (seed & w1 & _ & [= Hk <-])%SE_bind_Ok. apply NewKeyFromSeed_Ok in Hk as (_ & Hk & _). eauto.
Qed.

(** Every identity the loader hands out has a key that can name its host. *)
Lemma LoadOrCreate_keyed path w id w' : LoadOrCreate path w = (Ok id, w') -> is_Some (HostID id).
Proof.
  unfold LoadOrCreate. destruct (ReadFile path w) as [[raw|[]|] w1]; [|unfold create|discriminate..].
  - unfold load. intros [= Hl _]. revert Hl. destruct (state_Unmarshal raw) as [f|]; [|discriminate].
    destruct (StdDecode _) as [seed|]; [|discriminate]. destruct (negb _); [discriminate|].
    destruct (X509KeyPair _ _); [|discriminate]. case_bool_decide; [discriminate|].
    destruct (NewKeyFromSeed seed) as [priv|e|] eqn:Hk; [|discriminate..]. intros [= <-].
    apply NewKeyFromSeed_Ok in Hk as (_ & Hk & _). unfold HostID, PublicKey. cbn [Key].
    rewrite (key_pair_Public _ _ Hk). by eexists.
  - intros (priv & w2 & _ & Hc)%SE_bind_Ok. apply SE_bind_Ok in Hc as (pub & w3 & Hp & Hc).
    apply SE_bind_Ok in Hc as ([certPEM keyPEM] & w4 & _ & Hc).
    repeat (apply SE_bind_Ok in Hc as (? & ? & _ & Hc)). injection Hc as <- _.
    unfold HostID, PublicKey. cbn [Key]. unfold of_res in Hp. destruct (priv_Public priv); [by eexists|discriminate].
Qed.

Lemma selfSignedTLS_files hostID : keeps_files (selfSignedTLS hostID).
Proof.
  unfold selfSignedTLS. pose proof ecdsa_files. pose proof x509_files.
  eauto 20 with rook.
Qed.

Lemma randomUUID_files : keeps_files randomUUID.
Proof. unfold randomUUID. eauto with rook. Qed.

Lemma create_all_or_nothing path : all_or_nothing path (create path).
Proof.
  unfold create. pose proof GenerateKey_files. pose proof selfSignedTLS_files. pose proof randomUUID_files.
  apply all_or_nothing_bind; [by eauto with rook|]. intros priv (w & w' & [pub Hk]%map_err_Ok%GenerateKey_Ok).
  destruct (key_pair_Seed _ _ Hk) as (seed & Hs & _). rewrite (key_pair_Public _ _ Hk), Hs. cbn [or_panic].
  apply all_or_nothing_bind; [by apply keeps_files_of_res|]. intros p _.
  repeat (apply all_or_nothing_bind; [by eauto with rook|]; intros; case_match || idtac).
  all: eauto with rook.
Qed.
End lemmas.

Section theorems.
Context `{Ed25519Laws, IdentityLibLaws}.

Lemma selfSignedTLS_text hostID w certPEM keyPEM w' :
  selfSignedTLS hostID w = (Ok (certPEM, keyPEM), w') ->
  utf8_valid certPEM = true /\ utf8_valid keyPEM = true.
Proof.
  unfold selfSignedTLS. intros Hs. do 5 bind_Ok Hs. injection Hs as <- <- <-.
  split; apply pem_text; by repeat constructor.
Qed.

Lemma key_pair_remake priv pub :
  key_pair priv pub -> forall seed, priv_Seed priv = Some seed ->
  length seed = SeedSize /\ NewKeyFromSeed (E := iderr) seed = Ok priv.
Proof.
  intros Hk seed. destruct (key_pair_Seed _ _ Hk) as (seed' & -> & Hl & Hp). intros [= <-].
  unfold NewKeyFromSeed. by rewrite Hl, <- Hp.
Qed.

(** Whatever [create] returns, the file it has just written loads as. *)
Lemma create_Ok path w id w' :
  create path w = (Ok id, w') ->
  (exists pub, PublicKey id = Some pub /\ key_pair (Key id) pub) /\ exists raw, disk w' !! path = Some raw /\ load raw = Ok id.
Proof.
  unfold create. intros Hc. bind_Ok Hc. rename a into priv.
  apply GenerateKey_Ok in H3 as [pub Hkp]. destruct (key_pair_Seed _ _ Hkp) as (seed & Hseed & _).
  destruct (key_pair_remake _ _ Hkp seed Hseed) as [Hlen Hmake].
  rewrite (key_pair_Public _ _ Hkp), Hseed in Hc. cbn [or_panic] in Hc. rewrite of_res_bind in Hc.
  bind_Ok Hc. destruct a as [certPEM keyPEM]. bind_Ok Hc. rename a into cert.
  bind_Ok Hc. rename a into domain. rewrite of_res_bind in Hc. do 3 bind_Ok Hc. rename a0 into raw.
  injection Hc as <- <-. cbn [PublicKey Key].
  split; [exists pub; split; [exact (key_pair_Public _ _ Hkp)|exact Hkp]|].
  exists raw. pose proof (write_atomically_spec (Dir path) path raw s4) as Hw.
  rewrite H8 in Hw. split; [apply Hw|].
  injection H4 as Hcert <-. apply of_option_Ok in Hcert.
  injection H7 as Hraw <-. apply of_option_Ok in Hraw.
  apply SE_bind_Ok in H5 as (ub & wu & _ & Hu). injection Hu as <- <-.
  apply selfSignedTLS_text in H3 as [??].
  unfold load. erewrite state_roundtrip; [|clear Hraw|exact Hraw].
  - cbn [f_HostSeed f_TLSCertPEM f_TLSKeyPEM f_TrustDomainID].
    rewrite StdDecode_StdEncode, Hlen. cbn [negb Nat.eqb]. rewrite Hcert.
    rewrite bool_decide_eq_false_2 by apply uuid_text_ok.
    by rewrite Hmake.
  - split; [done|]. repeat constructor; cbn; try done; try apply uuid_text_ok; apply utf8_valid_ascii;
      [apply Base32Lower_ascii|apply StdEncode_ascii].
Qed.

(** C30: [LoadOrCreate] never damages an identity, under every pattern of I/O
    failures: an existing file is left exactly as it is and (when it can be
    read) decides the result, whether it parses or not; a missing file is
    either still missing after an error, or holds a file from which the next
    boot loads the very identity that was returned. It never panics. *)
Theorem LoadOrCreate_durable path w :
  let '(r, w') := LoadOrCreate path w in
  r <> Panic /\
  match disk w !! path with
  | Some raw => disk w' = disk w /\ (r = load raw \/ r = Err (ErrIO EIO))
  | None =>
    match r with
    | Ok id => (exists pub, PublicKey id = Some pub /\ key_pair (Key id) pub) /\
               exists raw, disk w' !! path = Some raw /\ load raw = Ok id
    | _ => disk w' !! path = None
    end
  end.
Proof.
  unfold LoadOrCreate, ReadFile, file_op. destruct (faults w (ops w)); cbn.
  { split; [done|]. destruct (disk w !! path); [auto|done]. }
  destruct (disk w !! path) as [raw|] eqn:Hd; cbn.
  { split; [|by auto]. unfold load, NewKeyFromSeed. repeat (case_match; simplify_eq/=); done. }
  pose proof (create_all_or_nothing path (next_op w)) as [Hp Hn].
  destruct (create path (next_op w)) as [[id|e|] w'] eqn:Hc; cbn in *; [|by rewrite Hn|done].
  split; [done|]. by eapply create_Ok.
Qed.

(** A damaged identity is refused. Whatever part of a saved state file is
    left after its end was cut off, the next boot reports an error and leaves
    the file as it is: no identity is made up, and none is read from the rest. *)
Theorem truncated_identity_refused f raw k path w :
  state_Marshal f = Some raw -> (k < length raw)%nat ->
  disk w !! path = Some (take k raw) ->
  let '(r, w') := LoadOrCreate path w in
  (r = Err ErrNotJSON \/ r = Err (ErrIO EIO)) /\ disk w' = disk w.
Proof.
  intros Hm Hk Hd. unfold LoadOrCreate, ReadFile, file_op. destruct (faults w (ops w)); cbn; [by auto|].
  rewrite Hd. split; [left|done]. unfold load, state_Unmarshal. by rewrite (Unmarshal_truncated f raw k Hm Hk).
Qed.

(** The host id in the file is for other readers: the loader derives it from
    the seed, whatever the file says, and looks at neither version nor date. *)
Theorem load_rederives f g raw raw' :
  stateFile_ok f -> stateFile_ok g -> state_Marshal f = Some raw -> state_Marshal g = Some raw' ->
  f_HostSeed f = f_HostSeed g -> f_TLSCertPEM f = f_TLSCertPEM g -> f_TLSKeyPEM f = f_TLSKeyPEM g ->
  f_TrustDomainID f = f_TrustDomainID g ->
  load raw = load raw' /\
  forall id, load raw = Ok id -> exists seed, StdDecode (f_HostSeed f) = Some seed /\ HostID id = Some (HostIDFor (ed_public seed)).
Proof.
  intros Hf Hg Hmf Hmg E1 E2 E3 E4.
  unfold load. rewrite (state_roundtrip f raw Hf Hmf), (state_roundtrip g raw' Hg Hmg).
  rewrite <- E1, <- E2, <- E3, <- E4. split; [done|]. intros id.
  destruct (StdDecode (f_HostSeed f)) as [seed|]; [|done].
  destruct (Nat.eqb_spec (length seed) SeedSize) as [Hs|]; [|done]. cbn [negb].
  destruct (X509KeyPair _ _); [|done]. case_bool_decide; [done|]. unfold NewKeyFromSeed.
  rewrite (proj2 (Nat.eqb_eq _ _) Hs). intros [= <-]. exists seed. split; [done|].
  unfold HostID, PublicKey. cbn [Key]. by rewrite (key_pair_Public _ (ed_public seed)) by by exists seed.
Qed.

(** The statements verify: a pairing proof or challenge answer made with
    the private half of a device key is accepted for the same fields. *)
Theorem link_statements_verify priv pub hostID secret deviceID nonce :
  key_pair priv pub ->
  exists proof sig,
    SignPairProof (E := iderr) priv hostID secret pub = Ok proof /\
    VerifyPairProof (E := iderr) pub hostID secret proof = Ok true /\
    SignAuth (E := iderr) priv hostID deviceID nonce = Ok sig /\
    VerifyAuth (E := iderr) pub hostID deviceID nonce sig = Ok true.
Proof.
  intros Hk. unfold SignPairProof, SignAuth, ed25519_Sign, VerifyPairProof, VerifyAuth.
  rewrite (proj1 (key_pair_lengths _ _ Hk)). eexists _, _.
  split_and!; try reflexivity; by apply verify_sign.
Qed.
End theorems.

(** A printable id is 26 characters of the alphabet [a-z2-7], and two keys
    share one exactly when the first 128 bits of their SHA-256 digests agree;
    host and device ids are the same derivation. *)
Theorem fingerprint_spec p q :
  length (fingerprint p) = 26%nat /\
  Forall (fun b => in_range 97 122 b || in_range 50 55 b = true) (fingerprint p) /\
  (HostIDFor p = DeviceIDFor q <-> take 16 (Sum256 p) = take 16 (Sum256 q)).
Proof.
  unfold HostIDFor, DeviceIDFor, fingerprint. split_and!.
  - destruct (length_Base32Lower (take 16 (Sum256 p))) as (k & Hk & Hl).
    rewrite length_take, length_Sum256 in Hl. lia.
  - apply Base32Lower_alphabet.
  - split; [by intros ?%(inj Base32Lower)|by intros ->].
Qed.

Lemma uuid_text_inj b c :
  length b = 16%nat -> length c = 16%nat -> uuid_text b = uuid_text c -> b = c.
Proof.
  intros Hb Hc H. unfold uuid_text in H. cbn [Join] in H.
  do 17 (destruct b as [|? b]; try done). do 17 (destruct c as [|? c]; try done). clear Hb Hc.
  unfold slice in H. cbn [take drop Nat.sub] in H.
  do 4 (apply app_inj_len in H as [?%(inj hex_encode) H]; [|done];
        apply app_inj_len in H as [_ H]; [|done]).
  apply (inj hex_encode) in H. congruence.
Qed.

(** C22: [randomUUID] formats sixteen random octets as a version-4 UUID: 36
    characters, dashes after 8, 13, 18 and 23, version digit 4 and variant
    digit 8, 9, a or b; the other 122 bits are the random ones. *)
Theorem randomUUID_v4 b :
  length b = 16%nat ->
  length (uuid_text (uuid_bits b)) = 36%nat /\
  Forall (fun i => uuid_text (uuid_bits b) !! i = Some x2d) [8; 13; 18; 23]%nat /\
  uuid_text (uuid_bits b) !! 14%nat = Some x34 /\
  (exists v, v ∈ str "89ab" /\ uuid_text (uuid_bits b) !! 19%nat = Some v) /\
  (forall c, length c = 16%nat ->
    uuid_text (uuid_bits b) = uuid_text (uuid_bits c) -> uuid_bits b = uuid_bits c).
Proof.
  intros Hb. split_and!.
  5: { assert (forall d, length (uuid_bits d) = length d) as Hl
         by (intros; unfold uuid_bits; by rewrite !length_alter).
       intros c Hc. apply uuid_text_inj; rewrite Hl; done. }
  all: do 17 (destruct b as [|? b]; try done).
  - by repeat constructor.
  - clear. cbn. f_equal. by destruct b6.
  - eexists. split; [|reflexivity]. clear. cbn. apply (bool_decide_eq_true_1 _). by destruct b8.
Qed.

(** ** An instance, for evaluating examples *)

#[export] Instance toy_identity_lib : IdentityLib := {|
  x509_SPKI der := Some (drop 8 der);
  X509KeyPair c k := Some (MkTLSCertificate [c] k);
  ecdsa_GenerateKey := rand_Read 32;
  AddYears t n := t + n * 365 * 24 * Hour;
  x509_CreateCertificate tmpl key := mret (frames (CommonName tmpl :: DNSNames tmpl));
  x509_MarshalECPrivateKey key := Some key |}.

#[export] Instance toy_identity_laws : IdentityLibLaws.
Proof.
  constructor; cbn.
  - apply keeps_files_rand.
  - intros. apply keeps_files_ret.
Qed.

(** The enrollment scheme at the all-zero seed. *)
Lemma link_statements_verify_witness :
  let seed := repeat x00 32 in
  let pub := ed_public seed in
  key_pair (seed ++ pub) pub /\
  exists proof sig,
    SignPairProof (E := iderr) (seed ++ pub) (str "host") (str "secret") pub = Ok proof /\
    VerifyPairProof (E := iderr) pub (str "host") (str "secret") proof = Ok true /\
    SignAuth (E := iderr) (seed ++ pub) (str "host") (str "device") (str "nonce") = Ok sig /\
    VerifyAuth (E := iderr) pub (str "host") (str "device") (str "nonce") sig = Ok true.
Proof.
  intros seed pub. assert (key_pair (seed ++ pub) pub) as Hk by (by exists seed).
  split; [done|]. by apply (link_statements_verify (seed ++ pub) pub).
Defined.

Lemma randomUUID_v4_witness :
  length (str "0123456789abcdef") = 16%nat /\
  length (uuid_text (uuid_bits (str "0123456789abcdef"))) = 36%nat.
Proof. split; [done|]. by apply (randomUUID_v4 (str "0123456789abcdef")). Defined.

Definition toy_state : stateFile :=
  MkStateFile 1 (str "host") (StdEncode (repeat x07 32)) (str "c") (str "k") (str "domain") zeroTime.

Example toy_state_text :
  state_Marshal toy_state = Some (apos (Join (map str
    ["{"; "  'version': 1,"; "  'hostId': 'host',"; "  'hostSeed': 'BwcHBwcHBwcHBwcHBwcHBwcHBwcHBwcHBwcHBwcHBwc=',";
     "  'tlsCertPem': 'c',"; "  'tlsKeyPem': 'k',"; "  'trustDomainId': 'domain',";
     "  'createdAt': '0001-01-01T00:00:00Z'"; "}"]) [x0a])).
Proof. vm_compute. reflexivity. Qed.

Lemma truncated_identity_refused_witness :
  let raw := default [] (state_Marshal toy_state) in
  let w := set_disk {[str "/id.json" := take 200 raw]} (calm zeroTime x07) in
  fst (LoadOrCreate (str "/id.json") w) = Err ErrNotJSON.
Proof.
  intros raw w. assert (state_Marshal toy_state = Some raw) as Hm by (vm_compute; reflexivity).
  assert ((200 <? length raw)%nat = true) as Hk%Nat.ltb_lt by (vm_compute; reflexivity).
  assert (disk w !! str "/id.json" = Some (take 200 raw)) as Hd by exact (lookup_singleton_eq _ _).
  pose proof (truncated_identity_refused toy_state raw 200 (str "/id.json") w Hm Hk Hd) as H.
  assert (fst (LoadOrCreate (str "/id.json") w) <> Err (ErrIO EIO)) as Hne.
  { intros E. apply (f_equal (fun r => match r with Err (ErrIO _) => true | _ => false end)) in E. vm_compute in E. discriminate. }
  destruct (LoadOrCreate _ _) as [r w']. cbn [fst] in *. clear Hm Hk Hd.
  destruct H as [[->| ->] _]; [reflexivity|destruct Hne; reflexivity].
Defined.

Lemma load_rederives_witness :
  let raw h := default [] (state_Marshal (MkStateFile 1 h (StdEncode (repeat x07 32)) (str "c") (str "k") (str "domain") zeroTime)) in
  load (raw (str "host")) = load (raw (str "someone else")) /\ raw (str "host") <> raw (str "someone else").
Proof.
  intros raw. split; [|by intros E%(f_equal length); vm_compute in E].
  apply (load_rederives toy_state
    (MkStateFile 1 (str "someone else") (StdEncode (repeat x07 32)) (str "c") (str "k") (str "domain") zeroTime)).
  1,2: split; [done|repeat apply List.Forall_cons; done].
  1,2: vm_compute; reflexivity.
  all: reflexivity.
Defined.

(** A first boot in a world without faults, and what the next one loads. *)
Lemma LoadOrCreate_durable_witness :
  let path := str "/etc/rook/identity.json" in
  exists id w' raw,
    LoadOrCreate path (calm zeroTime x07) = (Ok id, w') /\
    (exists pub, PublicKey id = Some pub /\ key_pair (Key id) pub) /\ disk w' !! path = Some raw /\ load raw = Ok id.
Proof.
  intros path. pose proof (LoadOrCreate_durable path (calm zeroTime x07)) as H.
  destruct (LoadOrCreate _ _) as [[id|e|] w'] eqn:E.
  - destruct H as (_ & Hk & raw & Hd & Hl). by exists id, w', raw.
  - exfalso. apply (f_equal (fun p => is_ok (fst p))) in E. vm_compute in E. discriminate.
  - by destruct H as [[] _].
Defined.
