(* ===== verification/EdgeProto.v ===== *)
(** * The messages of the edge protocol (gen/rook/edge/v1) the program reads
    and writes

    Records carry the exported fields; [Any] and [Timestamp] are the well-known
    types. A nil message pointer is [None]. Integer fields are [Z] within the
    range of their Go type ([command_wf], [event_wf]). *)

From S2P Require Import Prelude GoTime Framing.

Record Any := MkAny { TypeUrl : bytes; Value : bytes }.

Record Timestamp := MkTimestamp { Seconds : Z; Nanos : Z }.
Definition AsTime (t : Timestamp) : time := unixTime (Seconds t) (Nanos t).
(** [timestamppb.New] *)
Definition timestamp_New (t : time) : Timestamp := MkTimestamp (Unix t) (GoTime.Nanos t).

Lemma AsTime_New t : AsTime (timestamp_New t) = t.
Proof. apply unixTime_Unix. Qed.

Record EdgeCommand := MkEdgeCommand {
  ProtocolVersion : bytes; c_CommandId : bytes; LogicalOperationId : bytes; Attempt : Z;
  c_DeviceId : bytes; TaskId : bytes; WorkflowRunId : bytes; ResourceType : bytes;
  ResourceId : bytes; c_FencingToken : Z; ExpectedAggregateVersion : Z;
  ExpiresAt : option Timestamp; IdempotencyKey : bytes; ApprovalGrantId : bytes;
  PolicyContextHash : bytes; c_Payload : option Any; c_PayloadDigest : bytes;
  CloudSignature : bytes; ApprovalGrant : bytes; LedgerPayload : bytes }.

Record EdgeEvent := MkEdgeEvent {
  EventId : bytes; e_DeviceId : bytes; DeviceSequence : Z; e_CommandId : bytes; Type_ : bytes;
  OccurredAt : option Timestamp; e_FencingToken : Z; e_Payload : option Any;
  e_PayloadDigest : bytes; DeviceSignature : bytes; Traceparent : bytes }.

Definition any_fits (p : option Any) : Prop := from_option (fun a => fits (TypeUrl a)) True p.

Definition uint64 (z : Z) : Prop := 0 <= z < 2 ^ 64.
Definition uint32 (z : Z) : Prop := 0 <= z < 2 ^ 32.

(** The ranges every Go value of the message type is in. *)
Definition command_wf (c : EdgeCommand) : Prop :=
  Forall fits [ProtocolVersion c; c_CommandId c; LogicalOperationId c; c_DeviceId c; TaskId c;
    WorkflowRunId c; ResourceType c; ResourceId c; IdempotencyKey c; ApprovalGrantId c;
    PolicyContextHash c; c_PayloadDigest c] /\
  any_fits (c_Payload c) /\ uint32 (Attempt c) /\ uint64 (c_FencingToken c) /\
  uint64 (ExpectedAggregateVersion c).

Definition event_wf (e : EdgeEvent) : Prop :=
  Forall fits [EventId e; e_DeviceId e; e_CommandId e; Type_ e; e_PayloadDigest e] /\
  any_fits (e_Payload e) /\ uint64 (DeviceSequence e) /\ uint64 (e_FencingToken e).

Definition set_CloudSignature (s : bytes) (c : EdgeCommand) : EdgeCommand :=
  match c with
  | MkEdgeCommand v ci lo a d t w rt ri ft ev ex ik ag ph p pd _ g lp =>
    MkEdgeCommand v ci lo a d t w rt ri ft ev ex ik ag ph p pd s g lp
  end.

Definition set_DeviceSignature (s : bytes) (e : EdgeEvent) : EdgeEvent :=
  match e with
  | MkEdgeEvent ei d sq ci ty oc ft p pd _ tr => MkEdgeEvent ei d sq ci ty oc ft p pd s tr
  end.
