(* ===== verification/EdgeSign.v ===== *)
(** * Package [edgesign]: signatures over canonical encodings of the two
    envelopes, and the seed's text form *)

From S2P Require Import Prelude GoStrings Sha256 BaseN GoTime GoOS Crypto Framing EdgeProto.
From S2P Require Identity.

Definition commandDomain : bytes := str "rook-edge-command/v1".
Definition eventDomain : bytes := str "rook-edge-event/v1".

(** The package's own copy of the encoding of [identity]. *)
Definition canonical (domain : bytes) (fields : list bytes) : bytes :=
  let out := [] in
  let out := out ++ u64 (w64 (Z.of_nat (length domain))) in
  let out := out ++ domain in
  append_frames out fields.

Definition commandBytes (cmd : EdgeCommand) : bytes :=
  let '(payload, payloadType) :=
    match c_Payload cmd with
    | Some p => (Sum256 (Value p), TypeUrl p)
    | None => ([], [])
    end in
  let expires := match ExpiresAt cmd with Some t => UnixNano (AsTime t) | None => 0 end in
  canonical commandDomain
    [ProtocolVersion cmd; c_CommandId cmd; LogicalOperationId cmd; u64 (w64 (Attempt cmd));
     c_DeviceId cmd; TaskId cmd; WorkflowRunId cmd; ResourceType cmd; ResourceId cmd;
     u64 (c_FencingToken cmd); u64 (ExpectedAggregateVersion cmd); u64 (w64 expires);
     IdempotencyKey cmd; ApprovalGrantId cmd; PolicyContextHash cmd; payloadType; payload;
     c_PayloadDigest cmd].

Definition eventBytes (ev : EdgeEvent) : bytes :=
  let '(payload, payloadType) :=
    match e_Payload ev with
    | Some p => (Sum256 (Value p), TypeUrl p)
    | None => ([], [])
    end in
  let occurred := match OccurredAt ev with Some t => UnixNano (AsTime t) | None => 0 end in
  canonical eventDomain
    [EventId ev; e_DeviceId ev; u64 (DeviceSequence ev); e_CommandId ev; Type_ ev;
     u64 (w64 occurred); u64 (e_FencingToken ev); payloadType; payload; e_PayloadDigest ev].

Inductive seederr := ErrNotBase64 | ErrSeedLength (n : nat).

Section sign.
Context `{Ed25519} {E : Type}.

(** [NewKey] is [ed25519.GenerateKey(rand.Reader)]: public key first. *)
Definition NewKey : SE World oserr (bytes * bytes) :=
  seed ← rand_Read SeedSize;
  priv ← of_res (NewKeyFromSeed seed);
  pub ← of_res (or_panic (priv_Public priv));
  mret (pub, priv).

Definition EncodeSeed (priv : bytes) : res seederr bytes :=
  match priv_Seed priv with Some seed => Ok (StdEncode seed) | None => Panic end.

Definition DecodeSeed (encoded : bytes) : res seederr bytes :=
  match StdDecode encoded with
  | None => Err ErrNotBase64
  | Some seed =>
    if negb (length seed =? SeedSize)%nat then Err (ErrSeedLength (length seed))
    else NewKeyFromSeed seed
  end.

Definition SignCommand (priv : bytes) (cmd : EdgeCommand) : res E EdgeCommand :=
  match ed25519_Sign priv (commandBytes cmd) with
  | Ok sig => Ok (set_CloudSignature sig cmd)
  | Err e => Err e
  | Panic => Panic
  end.
Definition VerifyCommand (pub : bytes) (cmd : EdgeCommand) : res E bool :=
  verify_nonempty pub (commandBytes cmd) (CloudSignature cmd).

Definition SignEvent (priv : bytes) (ev : EdgeEvent) : res E EdgeEvent :=
  match ed25519_Sign priv (eventBytes ev) with
  | Ok sig => Ok (set_DeviceSignature sig ev)
  | Err e => Err e
  | Panic => Panic
  end.
Definition VerifyEvent (pub : bytes) (ev : EdgeEvent) : res E bool :=
  verify_nonempty pub (eventBytes ev) (DeviceSignature ev).
End sign.

(** ** What a signature is about

    The abstract content of the four signed statements of the program: the
    fields themselves, the payload by type and digest, instants in nanoseconds
    as an [int64], an absent instant as the epoch. *)

Definition payload_view (p : option Any) : option (bytes * bytes) :=
  (fun a => (TypeUrl a, Sum256 (Value a))) <$> p.
Definition instant_view (t : option Timestamp) : Z :=
  match t with Some t => UnixNano (AsTime t) | None => 0 end.

Inductive view :=
| VPair (hostID secret devPub : bytes)
| VAuth (hostID deviceID nonce : bytes)
| VCommand (texts : list bytes) (attempt fencing version expires : Z)
    (payload : option (bytes * bytes)) (digest : bytes)
| VEvent (texts : list bytes) (seq fencing occurred : Z)
    (payload : option (bytes * bytes)) (digest : bytes).

Definition command_view (c : EdgeCommand) : view :=
  VCommand [ProtocolVersion c; c_CommandId c; LogicalOperationId c; c_DeviceId c; TaskId c;
      WorkflowRunId c; ResourceType c; ResourceId c; IdempotencyKey c; ApprovalGrantId c;
      PolicyContextHash c]
    (Attempt c) (c_FencingToken c) (ExpectedAggregateVersion c) (instant_view (ExpiresAt c))
    (payload_view (c_Payload c)) (c_PayloadDigest c).

Definition event_view (e : EdgeEvent) : view :=
  VEvent [EventId e; e_DeviceId e; e_CommandId e; Type_ e]
    (DeviceSequence e) (e_FencingToken e) (instant_view (OccurredAt e))
    (payload_view (e_Payload e)) (e_PayloadDigest e).

(** The statements the program signs, with the octets it signs. *)
Inductive statement :=
| SPair (hostID secret devPub : bytes)
| SAuth (hostID deviceID nonce : bytes)
| SCommand (c : EdgeCommand)
| SEvent (e : EdgeEvent).

Definition statement_bytes (s : statement) : bytes :=
  match s with
  | SPair h p k => Identity.pairBytes h p k
  | SAuth h d n => Identity.authBytes h d n
  | SCommand c => commandBytes c
  | SEvent e => eventBytes e
  end.

Definition statement_view (s : statement) : view :=
  match s with
  | SPair h p k => VPair h p k
  | SAuth h d n => VAuth h d n
  | SCommand c => command_view c
  | SEvent e => event_view e
  end.

Definition statement_wf (s : statement) : Prop :=
  match s with
  | SPair a b c | SAuth a b c => Forall fits [a; b; c]
  | SCommand c => command_wf c
  | SEvent e => event_wf e
  end.

(** ** Lemmas *)

Lemma edge_canonical_frames domain fields : canonical domain fields = frames (domain :: fields).
Proof. apply Identity.canonical_frames. Qed.

(** Both packages encode alike. *)
Lemma canonical_agree domain fields : canonical domain fields = Identity.canonical domain fields.
Proof. reflexivity. Qed.

Definition payload_digest (p : option Any) : bytes := from_option (fun a => Sum256 (Value a)) [] p.
Definition payload_type (p : option Any) : bytes := from_option TypeUrl [] p.

Definition command_fields (c : EdgeCommand) : list bytes :=
  [ProtocolVersion c; c_CommandId c; LogicalOperationId c; u64 (w64 (Attempt c)); c_DeviceId c;
   TaskId c; WorkflowRunId c; ResourceType c; ResourceId c; u64 (c_FencingToken c);
   u64 (ExpectedAggregateVersion c); u64 (w64 (instant_view (ExpiresAt c))); IdempotencyKey c;
   ApprovalGrantId c; PolicyContextHash c; payload_type (c_Payload c); payload_digest (c_Payload c);
   c_PayloadDigest c].

Definition event_fields (e : EdgeEvent) : list bytes :=
  [EventId e; e_DeviceId e; u64 (DeviceSequence e); e_CommandId e; Type_ e;
   u64 (w64 (instant_view (OccurredAt e))); u64 (e_FencingToken e); payload_type (e_Payload e);
   payload_digest (e_Payload e); e_PayloadDigest e].

Definition statement_frames (s : statement) : list bytes :=
  match s with
  | SPair h p k => [Identity.pairDomain; h; p; k]
  | SAuth h d n => [Identity.authDomain; h; d; n]
  | SCommand c => commandDomain :: command_fields c
  | SEvent e => eventDomain :: event_fields e
  end.

Lemma statement_bytes_frames s : statement_bytes s = frames (statement_frames s).
Proof.
  destruct s as [h p k|h d n|c|e]; cbn [statement_bytes statement_frames].
  - apply Identity.canonical_frames.
  - apply Identity.canonical_frames.
  - unfold commandBytes. destruct (c_Payload c) eqn:Hp; cbv beta iota; rewrite edge_canonical_frames;
      unfold command_fields; by rewrite Hp.
  - unfold eventBytes. destruct (e_Payload e) eqn:Hp; cbv beta iota; rewrite edge_canonical_frames;
      unfold event_fields; by rewrite Hp.
Qed.

Lemma fits_payload p : any_fits p -> fits (payload_type p) /\ fits (payload_digest p).
Proof.
  destruct p as [a|]; [|done]. intros Hf. split; [done|]. by apply (fits_small 32); [apply length_Sum256|].
Qed.

Lemma statement_frames_fit s : statement_wf s -> Forall fits (statement_frames s).
Proof.
  assert (fits Identity.pairDomain /\ fits Identity.authDomain /\ fits commandDomain /\ fits eventDomain)
    as (? & ? & ? & ?) by done.
  destruct s as [h p k|h d n|c|e]; cbn [statement_wf statement_frames].
  - intros. by constructor.
  - intros. by constructor.
  - intros (Hf & [??]%fits_payload & _). unfold command_fields.
    repeat (inversion Hf as [|?? ? Hf']; clear Hf; rename Hf' into Hf; subst).
    repeat constructor; auto using fits_u64.
  - intros (Hf & [??]%fits_payload & _). unfold event_fields.
    repeat (inversion Hf as [|?? ? Hf']; clear Hf; rename Hf' into Hf; subst).
    repeat constructor; auto using fits_u64.
Qed.

Lemma payload_view_iff p q :
  payload_view p = payload_view q <->
  payload_type p = payload_type q /\ payload_digest p = payload_digest q.
Proof.
  destruct p as [[t v]|], q as [[t' v']|]; unfold payload_view; cbn; split; try done.
  - generalize (Sum256 v), (Sum256 v'). intros ?? H. by injection H.
  - generalize (Sum256 v), (Sum256 v'). by intros ?? [-> ->].
  - intros [_ H%(f_equal length)]. by rewrite length_Sum256 in H.
  - intros [_ H%(f_equal length)]. by rewrite length_Sum256 in H.
Qed.

Lemma instant_view_range t : - 2 ^ 63 <= instant_view t < 2 ^ 63.
Proof.
  destruct t as [t|]; cbn; [|lia]. unfold UnixNano, i64.
  pose proof (Z.mod_pos_bound (AsTime t - unixToInternal * Second + 2 ^ 63) (2 ^ 64)). lia.
Qed.

Lemma w64_signed_inj x y : - 2 ^ 63 <= x < 2 ^ 63 -> - 2 ^ 63 <= y < 2 ^ 63 -> w64 x = w64 y -> x = y.
Proof.
  intros ?? H. cut (i64 (w64 x) = i64 (w64 y)); [|by rewrite H]. clear H.
  assert (forall z, - 2 ^ 63 <= z < 2 ^ 63 -> i64 (w64 z) = z) as E; [|by rewrite !E].
  clear. intros z Hz. unfold i64, w64. rewrite Zplus_mod_idemp_l, Z.mod_small; lia.
Qed.

Lemma u64_instant_inj t u :
  u64 (w64 (instant_view t)) = u64 (w64 (instant_view u)) -> instant_view t = instant_view u.
Proof.
  intros H%u64_inj; try apply Z.mod_pos_bound; try lia.
  apply w64_signed_inj; auto using instant_view_range.
Qed.

#[local] Opaque u64 w64.

(** Equal fields are equal views, kind by kind. *)
Lemma command_fields_view c d :
  command_wf c -> command_wf d -> command_fields c = command_fields d -> command_view c = command_view d.
Proof.
  intros (_ & _ & Ha & Hft & Hv) (_ & _ & Ha' & Hft' & Hv') H. unfold command_fields in H.
  cons_eqs H. unfold uint32 in *. rewrite !w64_id in Heq2 by lia. apply u64_inj in Heq2; [|lia..].
  apply u64_inj in Heq8; [|done..]. apply u64_inj in Heq9; [|done..]. apply u64_instant_inj in Heq10.
  unfold command_view. f_equal; [congruence..| |done]. by apply payload_view_iff.
Qed.

Lemma event_fields_view c d :
  event_wf c -> event_wf d -> event_fields c = event_fields d -> event_view c = event_view d.
Proof.
  intros (_ & _ & Hs & Hf) (_ & _ & Hs' & Hf') H. unfold event_fields in H.
  cons_eqs H.
  apply u64_inj in Heq1; [|done..]. apply u64_inj in Heq5; [|done..]. apply u64_instant_inj in Heq4.
  unfold event_view. f_equal; [congruence..| |done]. by apply payload_view_iff.
Qed.

Lemma view_frames s t : statement_view s = statement_view t -> statement_frames s = statement_frames t.
Proof.
  destruct s as [h p k|h d n|c|e], t as [h' p' k'|h' d' n'|c'|e']; cbn; intros Hv; try discriminate.
  - congruence.
  - congruence.
  - unfold command_view in Hv. injection Hv. intros.
    match goal with H : payload_view _ = _ |- _ => apply payload_view_iff in H as [] end.
    unfold command_fields. congruence.
  - unfold event_view in Hv. injection Hv. intros.
    match goal with H : payload_view _ = _ |- _ => apply payload_view_iff in H as [] end.
    unfold event_fields. congruence.
Qed.

(** ** Properties *)

(** C16: the octets of a signed statement determine the statement: its kind (no
    pairing proof, challenge answer, command or event can be replayed as one of
    another kind) and every field the views list, which is all of them but the
    signature, grant document, ledger payload and trace parent. A payload is
    bound by type and SHA-256 digest, an instant by its 64-bit nanosecond count. *)
Theorem signed_statements_unambiguous s t :
  statement_wf s -> statement_wf t ->
  statement_bytes s = statement_bytes t <-> statement_view s = statement_view t.
Proof.
  intros Hs Ht. rewrite !statement_bytes_frames. split.
  - intros H%frames_inj; [|by apply statement_frames_fit..].
    destruct s as [h p k|h d n|c|e], t as [h' p' k'|h' d' n'|c'|e']; cbn [statement_frames] in H;
      try (apply (f_equal head) in H; discriminate); cbn [statement_view].
    + congruence.
    + congruence.
    + apply command_fields_view; [done..|congruence].
    + apply event_fields_view; [done..|congruence].
  - intros H. by rewrite (view_frames s t).
Qed.

Section laws.
Context `{Ed25519Laws}.

(** What [SignCommand] and [SignEvent] sign verifies under the public half,
    signing changes nothing but the signature field, and a message with no
    signature never verifies. *)
Theorem envelope_sign_verify priv pub cmd ev :
  key_pair priv pub ->
  exists cmd' ev',
    SignCommand (E := oserr) priv cmd = Ok cmd' /\ VerifyCommand (E := oserr) pub cmd' = Ok true /\
    set_CloudSignature (CloudSignature cmd) cmd' = cmd /\
    SignEvent (E := oserr) priv ev = Ok ev' /\ VerifyEvent (E := oserr) pub ev' = Ok true /\
    set_DeviceSignature (DeviceSignature ev) ev' = ev /\
    VerifyCommand (E := oserr) pub (set_CloudSignature [] cmd) = Ok false /\
    VerifyEvent (E := oserr) pub (set_DeviceSignature [] ev) = Ok false.
Proof.
  intros Hk. unfold SignCommand, SignEvent, ed25519_Sign.
  rewrite (proj1 (key_pair_lengths _ _ Hk)). eexists _, _.
  pose proof (fun m => verify_sign (E := oserr) priv pub m Hk) as Hv.
  split_and!; try reflexivity; [|by destruct cmd| |by destruct ev|by destruct cmd|by destruct ev].
  - transitivity (verify_nonempty (E := oserr) pub (commandBytes cmd) (ed_sign priv (commandBytes cmd)));
      [by destruct cmd|apply Hv].
  - transitivity (verify_nonempty (E := oserr) pub (eventBytes ev) (ed_sign priv (eventBytes ev)));
      [by destruct ev|apply Hv].
Qed.

(** A private key survives the trip through configuration, and
    [DecodeSeed] accepts exactly the standard base64 texts of 32 octets, each
    error branch for its own reason; it never panics. *)
Theorem DecodeSeed_spec priv pub encoded :
  key_pair priv pub ->
  (exists text, EncodeSeed priv = Ok text /\ DecodeSeed text = Ok priv) /\
  match DecodeSeed encoded with
  | Ok key => StdDecode encoded = priv_Seed key /\ exists p, priv_Public key = Some p /\ key_pair key p
  | Err ErrNotBase64 => StdDecode encoded = None
  | Err (ErrSeedLength n) => n <> SeedSize /\ exists s, StdDecode encoded = Some s /\ length s = n
  | Panic => False
  end.
Proof.
  intros Hk. destruct (key_pair_Seed _ _ Hk) as (seed & Hseed & Hl & Hp). split.
  - unfold DecodeSeed, EncodeSeed, NewKeyFromSeed. rewrite Hseed. eexists. split; [done|].
    by rewrite StdDecode_StdEncode, Hl, <- Hp.
  - unfold DecodeSeed. destruct (StdDecode encoded) as [s|] eqn:Hd; [|done].
    destruct (Nat.eqb_spec (length s) SeedSize) as [Hs|Hs]; cbn [negb]; [|by eauto].
    destruct (NewKeyFromSeed s) as [key|e|] eqn:Hn; [|by unfold NewKeyFromSeed in Hn; rewrite Hs in Hn..].
    destruct (NewKeyFromSeed_Ok s key Hn) as (_ & Hkp & ->). split; [done|].
    exists (ed_public s). by rewrite (key_pair_Public _ _ Hkp).
Qed.
End laws.

(** ** The golden vectors of testdata/golden.json *)

Definition hex_value (b : byte) : Z := if Zb b <? 58 then Zb b - 48 else Zb b - 87.
Fixpoint unhex_text (s : bytes) : bytes :=
  match s with
  | h :: l :: s' => bZ (16 * hex_value h + hex_value l) :: unhex_text s'
  | _ => []
  end.

Definition golden_command : EdgeCommand :=
  MkEdgeCommand (str "rook-edge/1") (str "cmd_wfr_g1_cleanup_4") (str "op_wfr_g1_cleanup")
    1 (str "dev_g1") (str "task_g1") (str "wfr_g1") (str "worktree")
    (str "worktree_wfr_g1") 3 7 (Some (MkTimestamp 1785153600 0)) (str "cmd_wfr_g1_cleanup_4")
    (str "apr_wfr_g1_cleanup_4") (str "sha256:policy")
    (Some (MkAny (str "type.googleapis.com/rook.edge.v1.CleanupWorktree")
      (unhex_text (str "0a0f776f726b747265655f7766725f6731"))))
    (unhex_text (str "d6407f634709947ea7ddefa0c21684d0351e7b1a0b1ded1ed331bdfa47a8cd45"))
    [] [] [].

Definition golden_event : EdgeEvent :=
  MkEdgeEvent (str "devevt_cmd_wfr_g1_cleanup_4_succeeded") (str "dev_g1") 42
    (str "cmd_wfr_g1_cleanup_4") (str "com.rook.edge.command_result.v1")
    (Some (MkTimestamp 1785153540 0)) 3
    (Some (MkAny (str "type.googleapis.com/rook.edge.v1.CommandResult")
      (unhex_text (str "0a14636d645f7766725f67315f636c65616e75705f341209737563636565646564"))))
    (unhex_text (str "ca627a1c680c9beff11925256d3cf3f1a3e38c0ee024b52086063aa64cf1f2ca"))
    [] [].

(** The octets the repository records for them are the ones defined here. *)
Example golden_commandBytes : hex_encode (commandBytes golden_command) = str
  "0000000000000014726f6f6b2d656467652d636f6d6d616e642f7631000000000000000b726f6f6b2d656467652f310000000000000014636d645f7766725f67315f636c65616e75705f3400000000000000116f705f7766725f67315f636c65616e75700000000000000008000000000000000100000000000000066465765f673100000000000000077461736b5f673100000000000000067766725f67310000000000000008776f726b74726565000000000000000f776f726b747265655f7766725f67310000000000000008000000000000000300000000000000080000000000000007000000000000000818c623bdb58280000000000000000014636d645f7766725f67315f636c65616e75705f3400000000000000146170725f7766725f67315f636c65616e75705f34000000000000000d7368613235363a706f6c6963790000000000000030747970652e676f6f676c65617069732e636f6d2f726f6f6b2e656467652e76312e436c65616e7570576f726b747265650000000000000020f6bfc4070d8ce49b5aae42381631db52ef5f8a5373b9cf793b2edd14b1af1d040000000000000020d6407f634709947ea7ddefa0c21684d0351e7b1a0b1ded1ed331bdfa47a8cd45".
Proof. vm_compute. reflexivity. Qed.

Example golden_eventBytes : hex_encode (eventBytes golden_event) = str
  "0000000000000012726f6f6b2d656467652d6576656e742f763100000000000000256465766576745f636d645f7766725f67315f636c65616e75705f345f73756363656564656400000000000000066465765f67310000000000000008000000000000002a0000000000000014636d645f7766725f67315f636c65616e75705f34000000000000001f636f6d2e726f6f6b2e656467652e636f6d6d616e645f726573756c742e7631000000000000000818c623afbd3b280000000000000000080000000000000003000000000000002e747970652e676f6f676c65617069732e636f6d2f726f6f6b2e656467652e76312e436f6d6d616e64526573756c740000000000000020ca627a1c680c9beff11925256d3cf3f1a3e38c0ee024b52086063aa64cf1f2ca0000000000000020ca627a1c680c9beff11925256d3cf3f1a3e38c0ee024b52086063aa64cf1f2ca".
Proof. vm_compute. reflexivity. Qed.

Lemma signed_statements_unambiguous_witness :
  command_wf golden_command /\ event_wf golden_event /\
  commandBytes golden_command <> eventBytes golden_event.
Proof.
  assert (command_wf golden_command) as Hc by (split_and!; [by repeat apply List.Forall_cons|done..]).
  assert (event_wf golden_event) as He by (split_and!; [by repeat apply List.Forall_cons|done..]).
  split_and!; [done|done|]. intros H.
  apply (signed_statements_unambiguous (SCommand golden_command) (SEvent golden_event)) in H; done.
Defined.

Lemma toy_key_pair : key_pair (repeat x11 32 ++ ed_public (repeat x11 32)) (ed_public (repeat x11 32)).
Proof. by exists (repeat x11 32). Qed.

Lemma envelope_sign_verify_witness :
  let pub := ed_public (repeat x11 32) in
  exists cmd, SignCommand (E := oserr) (repeat x11 32 ++ pub) golden_command = Ok cmd /\
              VerifyCommand (E := oserr) pub cmd = Ok true.
Proof.
  intros pub. destruct (envelope_sign_verify _ _ golden_command golden_event toy_key_pair)
    as (cmd & ev & ? & ? & _). by exists cmd.
Defined.

Lemma DecodeSeed_spec_witness :
  let text := str "ERERERERERERERERERERERERERERERERERERERERERE=" in
  EncodeSeed (repeat x11 32 ++ ed_public (repeat x11 32)) = Ok text /\
  DecodeSeed text = Ok (repeat x11 32 ++ ed_public (repeat x11 32)).
Proof.
  intros text. assert (EncodeSeed (repeat x11 32 ++ ed_public (repeat x11 32)) = Ok text) as Ht by by vm_compute.
  split; [exact Ht|]. destruct (proj1 (DecodeSeed_spec _ _ [] toy_key_pair)) as (text' & Ht' & Hd).
  rewrite Ht in Ht'. by injection Ht' as ->.
Defined.
