(* ===== verification/Grant.v ===== *)
(** * Approval grants (edgesign/grant.go)

    The grant document, its signature over the exact JSON [json.Marshal] writes,
    and the device's checklist. [grant_Marshal] spells that JSON out; it is what
    the encoder of [JsonGo] prints for the document's type ([grant_Marshal_spec]). *)

From S2P Require Import Prelude GoStrings Sha256 BaseN GoTime RFC3339 Json JsonText JsonGo GoOS Crypto EdgeProto.

Record GrantDoc := MkGrantDoc {
  Schema : bytes; GrantID : bytes; RequestID : bytes; ActorID : bytes; ActionType : bytes;
  g_ActionDigest : bytes; ResourceScope : option (list bytes); g_WorkflowRunID : bytes;
  IssuedAt : bytes; g_ExpiresAt : bytes; SingleUse : bool; ServerSignature : bytes }.

Definition set_ServerSignature (s : bytes) (d : GrantDoc) : GrantDoc :=
  match d with
  | MkGrantDoc sc gi ri ai ty ad rs wr ia ex su _ => MkGrantDoc sc gi ri ai ty ad rs wr ia ex su s
  end.

(** [json.Marshal(doc)]: the struct's fields in order, the signature omitted
    when empty. *)
Definition json_fields (d : GrantDoc) : list (bytes * bytes) :=
  [(str "schema", json_string (Schema d)); (str "grantId", json_string (GrantID d));
   (str "requestId", json_string (RequestID d)); (str "actorId", json_string (ActorID d));
   (str "actionType", json_string (ActionType d)); (str "actionDigest", json_string (g_ActionDigest d));
   (str "resourceScope", json_strings (ResourceScope d));
   (str "workflowRunId", json_string (g_WorkflowRunID d)); (str "issuedAt", json_string (IssuedAt d));
   (str "expiresAt", json_string (g_ExpiresAt d)); (str "singleUse", json_bool (SingleUse d))] ++
  (if bool_decide (ServerSignature d = []) then []
   else [(str "serverSignature", json_string (ServerSignature d))]).

Definition grant_Marshal (d : GrantDoc) : bytes :=
  str "{" ++ Join (map (fun kv => json_key (fst kv) ++ snd kv) (json_fields d)) (str ",") ++ str "}".

(** The struct's tags. *)
#[export] Instance GrantDoc_go : GoValue GrantDoc := {|
  go_type := TStruct
    [(str "schema", Always, TString); (str "grantId", Always, TString); (str "requestId", Always, TString);
     (str "actorId", Always, TString); (str "actionType", Always, TString);
     (str "actionDigest", Always, TString); (str "resourceScope", Always, TSlice TString);
     (str "workflowRunId", Always, TString); (str "issuedAt", Always, TString);
     (str "expiresAt", Always, TString); (str "singleUse", Always, TBool);
     (str "serverSignature", OmitEmpty, TString)];
  to_go d := VStruct
    [VString (Schema d); VString (GrantID d); VString (RequestID d); VString (ActorID d);
     VString (ActionType d); VString (g_ActionDigest d); VSlice ((fun l => (map VString l, [])) <$> ResourceScope d);
     VString (g_WorkflowRunID d); VString (IssuedAt d); VString (g_ExpiresAt d); VBool (SingleUse d);
     VString (ServerSignature d)];
  of_go v :=
    match v with
    | VStruct [VString sc; VString gi; VString ri; VString ai; VString ty; VString ad; VSlice rs;
               VString wr; VString ia; VString ex; VBool su; VString sg] =>
      rs ← match rs with None => Some None | Some (l, _) => Some <$> mapM as_string l end;
      Some (MkGrantDoc sc gi ri ai ty ad rs wr ia ex su sg)
    | _ => None
    end |}.

Definition GrantSchema : bytes := str "rook.approval_grant.v1".

Definition action_text (workflowRunID deviceID resourceType resourceID ledgerPayload : bytes) : bytes :=
  Join [workflowRunID; deviceID; resourceType; resourceID; ledgerPayload] (str "|").
Definition ActionDigest (workflowRunID deviceID resourceType resourceID ledgerPayload : bytes) : bytes :=
  hex_encode (Sum256 (action_text workflowRunID deviceID resourceType resourceID ledgerPayload)).

Inductive granterr :=
| ENoGrant | ENoLedgerPayload | EPayloadDigest | ENotJSON | ESchema | EGrantID | ESignature
| EExpiryFormat | EExpired | ERun | EScope (scope : bytes) | EActionDigest.

Definition VerifiedLedgerPayload (cmd : EdgeCommand) : res granterr bytes :=
  if bool_decide (LedgerPayload cmd = []) then Err ENoLedgerPayload
  else if negb (bool_decide (Sum256 (LedgerPayload cmd) = c_PayloadDigest cmd)) then Err EPayloadDigest
  else Ok (LedgerPayload cmd).

(** [slices.Contains(doc.ResourceScope, scope)]; a nil slice contains nothing. *)
Definition scope_covers (d : GrantDoc) (scope : bytes) : bool :=
  bool_decide (scope ∈ default [] (ResourceScope d)).

(** The loop over the two required scopes: the first one missing. *)
Fixpoint first_uncovered (d : GrantDoc) (scopes : list bytes) : option bytes :=
  match scopes with
  | [] => None
  | s :: rest => if scope_covers d s then first_uncovered d rest else Some s
  end.

Section grant.
Context `{Ed25519}.

Definition SignGrant (priv : bytes) (doc : GrantDoc) : res oserr GrantDoc :=
  let doc := set_ServerSignature [] doc in
  let unsigned := grant_Marshal doc in
  match ed25519_Sign priv unsigned with
  | Ok sig => Ok (set_ServerSignature (StdEncode sig) doc)
  | Err e => Err e
  | Panic => Panic
  end.

Definition VerifyGrantSignature {E} (pub : bytes) (doc : GrantDoc) : res E bool :=
  match StdDecode (ServerSignature doc) with
  | None => Ok false
  | Some sig =>
    if (length sig =? 0)%nat then Ok false
    else ed25519_Verify pub (grant_Marshal (set_ServerSignature [] doc)) sig
  end.

(** [cloudKey != nil && !VerifyGrantSignature(cloudKey, doc)] *)
Definition signature_refused (cloudKey : option bytes) (doc : GrantDoc) : res granterr bool :=
  match cloudKey with
  | None => Ok false
  | Some k => match VerifyGrantSignature k doc with Ok b => Ok (negb b) | Err e => Err e | Panic => Panic end
  end.

Definition device_scope (cmd : EdgeCommand) : bytes := str "device:" ++ c_DeviceId cmd.
Definition resource_scope (cmd : EdgeCommand) : bytes := ResourceType cmd ++ str ":" ++ ResourceId cmd.
Definition command_action (cmd : EdgeCommand) (payload : bytes) : bytes :=
  str "sha256:" ++
  ActionDigest (WorkflowRunId cmd) (c_DeviceId cmd) (ResourceType cmd) (ResourceId cmd) payload.

Definition VerifyCommandGrant (cloudKey : option bytes) (cmd : EdgeCommand) (now : time)
    : res granterr GrantDoc :=
  if bool_decide (ApprovalGrant cmd = []) then Err ENoGrant else
  match VerifiedLedgerPayload cmd with
  | Err e => Err e
  | Panic => Panic
  | Ok payload =>
    match Unmarshal (ApprovalGrant cmd) with
    | None => Err ENotJSON
    | Some doc =>
      if negb (bool_decide (Schema doc = GrantSchema)) then Err ESchema
      else if negb (bool_decide (GrantID doc = ApprovalGrantId cmd)) then Err EGrantID
      else match signature_refused cloudKey doc with
      | Err e => Err e
      | Panic => Panic
      | Ok true => Err ESignature
      | Ok false =>
        match ParseRFC3339 (g_ExpiresAt doc) with
        | None => Err EExpiryFormat
        | Some expires =>
          if After now expires then Err EExpired
          else if negb (bool_decide (g_WorkflowRunID doc = WorkflowRunId cmd)) then Err ERun
          else match first_uncovered doc [device_scope cmd; resource_scope cmd] with
          | Some scope => Err (EScope scope)
          | None =>
            if negb (bool_decide (g_ActionDigest doc = command_action cmd payload)) then Err EActionDigest
            else Ok doc
          end
        end
      end
    end
  end.
End grant.

(** ** Lemmas: the grant's JSON determines the grant *)

Lemma json_bool_app_inj a b t u : json_bool a ++ t = json_bool b ++ u -> a = b /\ t = u.
Proof. destruct a, b; cbn; intros H; try discriminate; by injection H. Qed.

Lemma json_list_inj xs ys t u :
  Forall (fun s => utf8_valid s = true) xs -> Forall (fun s => utf8_valid s = true) ys ->
  Join (map json_string xs) (str ",") ++ str "]" ++ t = Join (map json_string ys) (str ",") ++ str "]" ++ u ->
  xs = ys /\ t = u.
Proof.
  intros Hx. revert ys. induction Hx as [|x xs Hvx Hxs IH]; intros ys Hy H.
  - destruct ys as [|y [|y' ys]]; cbn in H; [by injection H|discriminate..].
  - destruct Hy as [|y ys Hvy Hys].
    { destruct xs; cbn in H; discriminate. }
    destruct xs as [|x' xs], ys as [|y' ys]; cbn [map Join] in *; rewrite <- ?app_assoc in H;
      apply json_string_app_inj in H as [-> H]; try done.
    + apply app_inv_head in H. by subst.
    + apply app_inv_head in H.
      destruct (IH (y' :: ys)) as [Heq ->]; [done|by rewrite <- ?app_assoc|by rewrite Heq].
Qed.

Definition scopes_valid (l : option (list bytes)) : Prop :=
  Forall (fun s => utf8_valid s = true) (default [] l).

Lemma json_strings_app_inj l k t u :
  scopes_valid l -> scopes_valid k -> json_strings l ++ t = json_strings k ++ u -> l = k /\ t = u.
Proof.
  unfold json_strings. destruct l as [xs|], k as [ys|]; intros Hx Hy H.
  - rewrite <- !app_assoc in H. apply app_inv_head in H.
    by destruct (json_list_inj xs ys t u) as [-> ->].
  - discriminate.
  - discriminate.
  - by apply app_inv_head in H.
Qed.

(** The document's strings are valid UTF-8, as every string [json.Unmarshal]
    produces is. *)
Definition grant_valid (d : GrantDoc) : Prop :=
  Forall (fun s => utf8_valid s = true)
    [Schema d; GrantID d; RequestID d; ActorID d; ActionType d; g_ActionDigest d;
     g_WorkflowRunID d; IssuedAt d; g_ExpiresAt d] /\ scopes_valid (ResourceScope d).

(** What a grant signature covers. The signature field itself is excluded;
    of everything else, two valid documents have the same signed octets exactly
    when they are the same document: no quoting trick moves text between fields
    or turns one scope into two. *)
Lemma grant_unsigned_injective c d :
  grant_valid c -> grant_valid d ->
  grant_Marshal (set_ServerSignature [] c) = grant_Marshal (set_ServerSignature [] d) <->
  set_ServerSignature [] c = set_ServerSignature [] d.
Proof.
  intros [Hc Hcs] [Hd Hds]. split; [|by intros ->].
  destruct c, d. cbn [set_ServerSignature Schema GrantID RequestID ActorID ActionType g_ActionDigest
    g_WorkflowRunID IssuedAt g_ExpiresAt ResourceScope] in *. intros H.
  rewrite !Forall_cons_iff in Hc, Hd. destruct_and!.
  unfold grant_Marshal, json_fields in H.
  cbn [set_ServerSignature Schema GrantID RequestID ActorID ActionType g_ActionDigest SingleUse
    g_WorkflowRunID IssuedAt g_ExpiresAt ResourceScope ServerSignature] in H.
  rewrite !bool_decide_eq_true_2, !app_nil_r in H by done. cbn [map Join fst snd] in H.
  rewrite <- !app_assoc in H.
  repeat first [apply app_inv_head in H
               |apply json_string_app_inj in H as [? H]; [|done..]
               |apply json_strings_app_inj in H as [? H]; [|done..]
               |apply json_bool_app_inj in H as [? H]].
  by subst.
Qed.

(** ** The document and its JSON *)

#[export] Instance GrantDoc_laws : GoValueLaws GrantDoc.
Proof.
  constructor; [by vm_compute|by vm_compute|by eexists| |].
  - intros [sc gi ri ai ty ad [l|] wr ia ex su sg]; [|done]. cbn. by rewrite mapM_as_string.
  - intros v Hv. cbn [go_type GrantDoc_go] in Hv. typed_cases Hv.
    destruct Ht5 as [(ss & Hs & _)%strings_typed _]. cbn. by rewrite Hs.
Qed.

Lemma Join_tail {A} (f : A -> bytes) close x l :
  Join (map f (x :: l)) (str ",") ++ close = f x ++ print_tail f close l.
Proof.
  revert x. induction l as [|y l IH]; intros x; [done|].
  change (Join (map f (x :: y :: l)) (str ",")) with (f x ++ str "," ++ Join (map f (y :: l)) (str ",")).
  rewrite <- !app_assoc, IH. done.
Qed.

Lemma json_strings_compact l :
  json_strings l = compact (from_option (fun l => JArr (map (fun s => JStr (json_escape s)) l)) JNull l).
Proof.
  destruct l as [[|x l]|]; [done| |done]. unfold json_strings. cbn [from_option map].
  change (str "[" ++ Join (map json_string (x :: l)) (str ",") ++ str "]" =
          x5b :: json_string x ++ print_tail compact (str "]") (map (fun s => JStr (json_escape s)) l)).
  rewrite Join_tail. cbn [app str String.list_byte_of_string]. do 2 f_equal.
  induction l as [|y l IH]; [done|]. cbn [map print_tail]. by rewrite IH.
Qed.

(** An object's text, for keys that need no escaping. *)
Lemma compact_object ms :
  ms <> [] -> Forall (fun k => json_escape k = k) (map fst ms) ->
  compact (JObj ms) =
  str "{" ++ Join (map (fun kv => json_key (fst kv) ++ snd kv) (map (fun '(k, v) => (k, compact v)) ms)) (str ",") ++ str "}".
Proof.
  intros Hne Hk. rewrite map_map.
  assert (map (fun m => json_key (fst (let '(k, v) := m in (k, compact v))) ++ snd (let '(k, v) := m in (k, compact v))) ms =
          map (fun '(k, v) => literal k ++ x3a :: compact v) ms) as ->.
  { apply map_ext_in. intros [k v] Hin. cbn [fst snd]. rewrite Forall_forall in Hk.
    unfold json_key, json_string. rewrite (Hk k) by (by apply (in_map fst) in Hin).
    unfold literal. by rewrite <- app_assoc. }
  destruct ms as [|m ms]; [done|]. rewrite Join_tail. by destruct m.
Qed.

(** The encoder prints exactly the text [grant_Marshal] spells out, and never
    fails. *)
Lemma grant_Marshal_spec d : Marshal d = Some (grant_Marshal d).
Proof.
  unfold Marshal. destruct d as [sc gi ri ai ty ad rs wr ia ex su sg].
  set (scopes := from_option (fun l => JArr (map (fun s => JStr (json_escape s)) l)) JNull rs).
  assert (json_of (TSlice TString) (VSlice ((fun l => (map VString l, [])) <$> rs)) = Some scopes) as Hr.
  { unfold scopes. destruct rs as [l|]; [|done].
    change (JArr <$> mapM (json_of TString) (map VString l) = Some (JArr (map (fun s => JStr (json_escape s)) l))).
    enough (mapM (json_of TString) (map VString l) = Some (map (fun s => JStr (json_escape s)) l)) as -> by done.
    induction l as [|s l IH]; [done|]. cbn [map mapM]. by rewrite IH. }
  unfold grant_Marshal, json_fields. cbn [go_type to_go GrantDoc_go]. rewrite json_of_struct.
  cbn [Schema GrantID RequestID ActorID ActionType g_ActionDigest ResourceScope g_WorkflowRunID IssuedAt
       g_ExpiresAt SingleUse ServerSignature fields_of omitted]. rewrite Hr, json_strings_compact.
  fold scopes. clearbody scopes. clear Hr.
  destruct sg as [|b sg]; cbn [empty_value json_of mbind option_bind fmap option_fmap option_map]; f_equal;
    (rewrite compact_object; [reflexivity|done|repeat constructor]).
Qed.


(** ** The signature *)

Section laws.
Context `{Ed25519Laws}.

Lemma SignGrant_eq priv pub doc :
  key_pair priv pub ->
  SignGrant priv doc = Ok (set_ServerSignature (StdEncode (ed_sign priv (grant_Marshal (set_ServerSignature [] doc)))) doc).
Proof.
  intros Hk. unfold SignGrant, ed25519_Sign. rewrite (proj1 (key_pair_lengths _ _ Hk)). by destruct doc.
Qed.

Lemma signed_verifies {E} priv pub doc doc' :
  key_pair priv pub -> SignGrant priv doc = Ok doc' -> VerifyGrantSignature (E := E) pub doc' = Ok true.
Proof.
  intros Hk. rewrite (SignGrant_eq _ _ _ Hk). intros [= <-].
  set (m := grant_Marshal (set_ServerSignature [] doc)).
  transitivity (verify_nonempty (E := E) pub m (ed_sign priv m)); [|by apply verify_sign].
  unfold VerifyGrantSignature, verify_nonempty.
  replace (ServerSignature _) with (StdEncode (ed_sign priv m)) by (by destruct doc).
  rewrite StdDecode_StdEncode. by destruct doc.
Qed.

(** C16: [SignGrant] fills the signature field and nothing else, replaces any
    signature already there, and the result verifies under the public half; a
    document without a signature never verifies. *)
Theorem SignGrant_verifies priv pub doc :
  key_pair priv pub ->
  exists doc', SignGrant priv doc = Ok doc' /\
    VerifyGrantSignature (E := granterr) pub doc' = Ok true /\
    set_ServerSignature (ServerSignature doc) doc' = doc /\
    SignGrant priv doc' = Ok doc' /\
    VerifyGrantSignature (E := granterr) pub (set_ServerSignature [] doc) = Ok false.
Proof.
  intros Hk. exists (set_ServerSignature (StdEncode (ed_sign priv (grant_Marshal (set_ServerSignature [] doc)))) doc).
  split_and!.
  - by apply (SignGrant_eq _ pub).
  - eapply signed_verifies; [done|by apply (SignGrant_eq _ pub)].
  - by destruct doc.
  - rewrite (SignGrant_eq _ pub) by done. by destruct doc.
  - by destruct doc.
Qed.
End laws.

(** ** The checklist *)

Section checklist.
Context `{Ed25519}.

(** Everything a command must satisfy to spend [doc]. *)
Definition grant_covers (cloudKey : option bytes) (cmd : EdgeCommand) (now : time) (doc : GrantDoc) : Prop :=
  ApprovalGrant cmd <> [] /\ Unmarshal (ApprovalGrant cmd) = Some doc /\
  LedgerPayload cmd <> [] /\ Sum256 (LedgerPayload cmd) = c_PayloadDigest cmd /\
  Schema doc = GrantSchema /\ GrantID doc = ApprovalGrantId cmd /\
  (forall k, cloudKey = Some k -> VerifyGrantSignature (E := granterr) k doc = Ok true) /\
  (exists e, ParseRFC3339 (g_ExpiresAt doc) = Some e /\ now <= e) /\
  g_WorkflowRunID doc = WorkflowRunId cmd /\
  device_scope cmd ∈ default [] (ResourceScope doc) /\
  resource_scope cmd ∈ default [] (ResourceScope doc) /\
  g_ActionDigest doc = command_action cmd (LedgerPayload cmd).

Lemma signature_refused_false k doc :
  signature_refused k doc = Ok false <->
  (forall key, k = Some key -> VerifyGrantSignature (E := granterr) key doc = Ok true).
Proof.
  unfold signature_refused. destruct k as [k|]; [|by split].
  destruct (VerifyGrantSignature k doc) as [[]|e|] eqn:E; split; intros Hv; try discriminate.
  1: by intros ? [= <-].
  1: done.
  all: specialize (Hv k eq_refl); congruence.
Qed.

Lemma first_uncovered_None d scopes :
  first_uncovered d scopes = None <-> Forall (fun s => s ∈ default [] (ResourceScope d)) scopes.
Proof.
  induction scopes as [|s scopes IH]; [done|]. cbn [first_uncovered]. unfold scope_covers at 1.
  rewrite Forall_cons_iff. case_bool_decide; [rewrite IH|]; naive_solver.
Qed.

Lemma first_uncovered_Some d scopes s :
  first_uncovered d scopes = Some s -> s ∈ scopes /\ s ∉ default [] (ResourceScope d).
Proof.
  induction scopes as [|x scopes IH]; [done|]. cbn [first_uncovered]. unfold scope_covers at 1.
  rewrite elem_of_cons. case_bool_decide; naive_solver.
Qed.

Lemma VerifyCommandGrant_iff cloudKey cmd now doc :
  VerifyCommandGrant cloudKey cmd now = Ok doc <-> grant_covers cloudKey cmd now doc.
Proof.
  unfold VerifyCommandGrant, VerifiedLedgerPayload, grant_covers.
  destruct (decide (ApprovalGrant cmd = [])) as [Hg|Hg];
    [rewrite bool_decide_eq_true_2 by done; naive_solver|rewrite bool_decide_eq_false_2 by done].
  destruct (decide (LedgerPayload cmd = [])) as [Hl|Hl];
    [rewrite bool_decide_eq_true_2 by done; naive_solver|rewrite bool_decide_eq_false_2 by done].
  destruct (decide (Sum256 (LedgerPayload cmd) = c_PayloadDigest cmd)) as [Hd|Hd];
    [rewrite bool_decide_eq_true_2 by done|rewrite bool_decide_eq_false_2 by done; naive_solver].
  cbn [negb]. destruct (Unmarshal (ApprovalGrant cmd)) as [d|]; [|naive_solver].
  destruct (decide (Schema d = GrantSchema)) as [Hs|Hs];
    [rewrite bool_decide_eq_true_2 by done|rewrite bool_decide_eq_false_2 by done; naive_solver].
  destruct (decide (GrantID d = ApprovalGrantId cmd)) as [Hi|Hi];
    [rewrite bool_decide_eq_true_2 by done|rewrite bool_decide_eq_false_2 by done; naive_solver].
  cbn [negb]. pose proof (signature_refused_false cloudKey d) as Hsig.
  destruct (signature_refused cloudKey d) as [[]|e|]; [naive_solver| |naive_solver..].
  destruct (ParseRFC3339 (g_ExpiresAt d)) as [e|] eqn:He; [|naive_solver].
  unfold After. destruct (Z.ltb_spec e now).
  { split; [done|]. intros (_ & [= <-] & _ & _ & _ & _ & _ & (e' & He' & ?) & _). simplify_eq. lia. }
  destruct (decide (g_WorkflowRunID d = WorkflowRunId cmd)) as [Hr|Hr];
    [rewrite bool_decide_eq_true_2 by done|rewrite bool_decide_eq_false_2 by done; naive_solver].
  cbn [negb]. pose proof (first_uncovered_None d [device_scope cmd; resource_scope cmd]) as Hu.
  rewrite !Forall_cons_iff in Hu.
  destruct (first_uncovered d _) as [sc|]; [naive_solver|].
  destruct (decide (g_ActionDigest d = command_action cmd (LedgerPayload cmd))) as [Ha|Ha];
    [rewrite bool_decide_eq_true_2 by done|rewrite bool_decide_eq_false_2 by done; naive_solver].
  cbn [negb]. naive_solver.
Qed.

(** C17: the device's checklist is exact. [VerifyCommandGrant] returns a
    document exactly when it is the parsed grant and satisfies every condition
    of [grant_covers]: payload digest, schema, grant id, signature when a cloud
    key is known, expiry, run, both scopes and action digest. *)
Theorem VerifyCommandGrant_exact cloudKey cmd now doc :
  VerifyCommandGrant cloudKey cmd now = Ok doc <-> grant_covers cloudKey cmd now doc.
Proof. apply VerifyCommandGrant_iff. Qed.
End checklist.

(** ** From the cloud's desk to the device's checklist *)

(** Every string [json.Unmarshal] produces is valid UTF-8. *)
Lemma Unmarshal_grant_valid raw d :
  Unmarshal raw = Some d -> grant_valid d /\ utf8_valid (ServerSignature d) = true.
Proof.
  intros (j & v & _ & _ & Hv & Ha)%Unmarshal_Some. cbn [go_type GrantDoc_go] in Hv. typed_cases Hv.
  - destruct Ht5 as [(ss & Hs & Hss)%strings_typed _]. cbn in Ha. rewrite Hs in Ha. injection Ha as <-.
    split; [|done]. split; [by repeat constructor|done].
  - injection Ha as <-. split; [|done]. split; [by repeat constructor|constructor].
Qed.

(** C38: documents that came in as JSON text, however odd, have the same signed
    octets exactly when they agree on every field but the signature: no quoting
    or key trick moves text between fields or turns one scope into two. *)
Theorem parsed_grants_unambiguous raw raw' c d :
  Unmarshal raw = Some c -> Unmarshal raw' = Some d ->
  grant_Marshal (set_ServerSignature [] c) = grant_Marshal (set_ServerSignature [] d) <->
  set_ServerSignature [] c = set_ServerSignature [] d.
Proof.
  intros [Hc _]%Unmarshal_grant_valid [Hd _]%Unmarshal_grant_valid. by apply grant_unsigned_injective.
Qed.

Lemma grant_storable d : grant_valid d -> utf8_valid (ServerSignature d) = true -> storable d.
Proof.
  intros [Hd Hs] Hg. rewrite !Forall_cons_iff in Hd. destruct_and!. destruct d as [sc gi ri ai ty ad rs wr ia ex su sg].
  split; cbn [go_type to_go GrantDoc_go].
  - apply has_type_struct. destruct rs as [l|]; repeat constructor; try done; by apply strings_has_type.
  - destruct rs as [l|]; cbn; split_and!; try done; [apply strings_tidy|by destruct sg|by destruct sg].
Qed.

Section spend.
Context `{Ed25519Laws}.

(** What the cloud puts on a command it approved: a grant of its own making,
    signed and encoded, with any expiry of the years 0 to 9999, that names the
    command, its run, its ledger payload and what the payload touches. *)
Record approved (priv : bytes) (grant doc : GrantDoc) (expiry : time) (cmd : EdgeCommand) : Prop := MkApproved {
  ap_valid : grant_valid grant;
  ap_signed : SignGrant priv grant = Ok doc;
  ap_encoded : Marshal doc = Some (ApprovalGrant cmd);
  ap_schema : Schema grant = GrantSchema;
  ap_expiry : time_Marshal expiry = Some (g_ExpiresAt grant);
  ap_id : ApprovalGrantId cmd = GrantID grant;
  ap_run : WorkflowRunId cmd = g_WorkflowRunID grant;
  ap_ledger : LedgerPayload cmd <> [] /\ c_PayloadDigest cmd = Sum256 (LedgerPayload cmd);
  ap_device : device_scope cmd ∈ default [] (ResourceScope grant);
  ap_resource : resource_scope cmd ∈ default [] (ResourceScope grant);
  ap_action : g_ActionDigest grant = command_action cmd (LedgerPayload cmd) }.

Lemma approved_spendable priv pub grant doc expiry cmd now :
  key_pair priv pub -> approved priv grant doc expiry cmd ->
  VerifyCommandGrant (Some pub) cmd now = (if now <=? expiry then Ok doc else Err EExpired).
Proof.
  intros Hk [Hv Hs Hm Hsc Hex Hid Hrun [Hl Hd] Hs1 Hs2 Ha].
  pose proof (signed_verifies (E := granterr) _ _ _ _ Hk Hs) as Hver.
  rewrite (SignGrant_eq _ _ _ Hk) in Hs. injection Hs as Hdoc.
  set (sig := StdEncode _) in Hdoc.
  assert (storable doc) as Hst.
  { apply grant_storable; [by subst doc; destruct grant|]. subst doc.
    replace (ServerSignature _) with sig by (by destruct grant). apply utf8_valid_base64. }
  pose proof (Unmarshal_Marshal doc _ Hst Hm) as Hun.
  assert (ApprovalGrant cmd <> []) as Hne.
  { intros Hn. rewrite Hn in Hun. by vm_compute in Hun. }
  apply ParseRFC3339_time_Marshal in Hex.
  unfold VerifyCommandGrant, VerifiedLedgerPayload. rewrite bool_decide_eq_false_2 by done.
  rewrite bool_decide_eq_false_2, bool_decide_eq_true_2 by done. cbn [negb]. rewrite Hun.
  assert (Schema doc = Schema grant /\ GrantID doc = GrantID grant /\ g_ExpiresAt doc = g_ExpiresAt grant /\
          g_WorkflowRunID doc = g_WorkflowRunID grant /\ ResourceScope doc = ResourceScope grant /\
          g_ActionDigest doc = g_ActionDigest grant) as (-> & -> & E3 & E4 & E5 & E6)
    by (subst doc; by destruct grant).
  rewrite !bool_decide_eq_true_2 by done. cbn [negb signature_refused]. rewrite Hver. cbn [negb].
  rewrite E3, Hex. unfold After. destruct (Z.ltb_spec expiry now), (Z.leb_spec now expiry); try lia; [done|].
  rewrite bool_decide_eq_true_2 by congruence. cbn [negb].
  rewrite (proj2 (first_uncovered_None doc _)) by (rewrite E5; by repeat constructor).
  by rewrite bool_decide_eq_true_2 by congruence.
Qed.

Lemma approved_signed priv grant doc expiry cmd sig :
  approved priv grant doc expiry cmd -> approved priv grant doc expiry (set_CloudSignature sig cmd).
Proof. by intros []; destruct cmd; split. Qed.

(** C19: an approval reaches the device. A grant the cloud signs and encodes,
    with any expiry of the years 0 to 9999 and names the command agrees with,
    is decoded by the device to that very document and accepted under the
    cloud's key at every instant up to the expiry, and refused as expired at
    every later one; the cloud's signature on the command itself changes
    nothing of that. *)
Theorem signed_grant_is_spendable priv pub grant doc expiry cmd now sig :
  key_pair priv pub -> approved priv grant doc expiry cmd ->
  VerifyCommandGrant (Some pub) cmd now = (if now <=? expiry then Ok doc else Err EExpired) /\
  approved priv grant doc expiry (set_CloudSignature sig cmd).
Proof. intros Hk Ha. split; [by apply (approved_spendable priv pub grant)|]. by apply approved_signed. Qed.
End spend.

(** ** The action digest *)

Definition no_bar (s : bytes) : Prop := x7c ∉ s.

Lemma bar_app_inj x y t u : no_bar x -> no_bar y -> x ++ x7c :: t = y ++ x7c :: u -> x = y /\ t = u.
Proof.
  unfold no_bar. revert y. induction x as [|b x IH]; intros [|c y] Hx Hy H; cbn [app] in H.
  - by injection H.
  - injection H as <- _. destruct Hy. by left.
  - injection H as -> _. destruct Hx. by left.
  - injection H as -> H. rewrite not_elem_of_cons in Hx, Hy.
    destruct (IH y) as [-> ->]; [tauto|tauto|done|done].
Qed.

(** The text [ActionDigest] hashes determines run, device, resource and
    payload as long as the four addressing fields contain no vertical bar; the
    digest is the 64 hexadecimal digits of its SHA-256. *)
Theorem ActionDigest_binds w d t i p w' d' t' i' p' :
  Forall no_bar [w; d; t; i] -> Forall no_bar [w'; d'; t'; i'] ->
  length (ActionDigest w d t i p) = 64%nat /\
  (action_text w d t i p = action_text w' d' t' i' p' <->
   [w; d; t; i; p] = [w'; d'; t'; i'; p']) /\
  (ActionDigest w d t i p = ActionDigest w' d' t' i' p' <->
   Sum256 (action_text w d t i p) = Sum256 (action_text w' d' t' i' p')).
Proof.
  rewrite !Forall_cons_iff. intros (?&?&?&?&_) (?&?&?&?&_). split_and!.
  - unfold ActionDigest. by rewrite length_hex_encode, length_Sum256.
  - unfold action_text. cbn [Join]. split; [|congruence]. intros E.
    repeat (apply bar_app_inj in E as [-> E]; [|done..]). by subst.
  - unfold ActionDigest. split; [apply (inj hex_encode)|by intros ->].
Qed.

(** Without that restriction it does not: the fields are joined without
    escaping, so two different requests, differing in device, resource type and
    resource id, have one digest. *)
Theorem ActionDigest_ambiguous :
  exists d t i d' t' i', d <> d' /\ t <> t' /\ i <> i' /\
    forall w p, ActionDigest w d t i p = ActionDigest w d' t' i' p.
Proof.
  exists (str "dev|worktree"), (str "a"), (str "b|c"), (str "dev"), (str "worktree|a|b"), (str "c").
  do 3 (split; [discriminate|]). intros w p. unfold ActionDigest. by do 2 f_equal.
Qed.

(** ** The golden vectors *)

Definition golden_grant : GrantDoc :=
  MkGrantDoc (str "rook.approval_grant.v1") (str "apr_wfr_g1_cleanup_4") (str "apr_wfr_g1_cleanup_4") (str "usr_g1")
    (str "cleanup_worktree")
    (str "sha256:93f59d2b82d8f8fef705234bebfda489d2fc8c5343716dcb15e366a0cfb78953")
    (Some [(str "device:dev_g1"); (str "worktree:worktree_wfr_g1")]) (str "wfr_g1")
    (str "2026-07-27T11:00:00Z") (str "2026-07-27T12:00:00Z") true [].

Example golden_grant_Marshal : grant_Marshal golden_grant = apos (str
  "{'schema':'rook.approval_grant.v1','grantId':'apr_wfr_g1_cleanup_4','requestId':'apr_wfr_g1_cleanup_4','actorId':'usr_g1','actionType':'cleanup_worktree','actionDigest':'sha256:93f59d2b82d8f8fef705234bebfda489d2fc8c5343716dcb15e366a0cfb78953','resourceScope':['device:dev_g1','worktree:worktree_wfr_g1'],'workflowRunId':'wfr_g1','issuedAt':'2026-07-27T11:00:00Z','expiresAt':'2026-07-27T12:00:00Z','singleUse':true}").
Proof. vm_compute. reflexivity. Qed.

Definition golden_ledger : bytes := apos (str "{'op':'cleanup_worktree','step':'cleanup'}").

Example golden_ActionDigest :
  ActionDigest (str "wfr_g1") (str "dev_g1") (str "worktree") (str "worktree_wfr_g1") golden_ledger =
  str "93f59d2b82d8f8fef705234bebfda489d2fc8c5343716dcb15e366a0cfb78953".
Proof. vm_compute. reflexivity. Qed.

Definition golden_spend : EdgeCommand :=
  MkEdgeCommand (str "rook-edge/1") [] [] 1 (str "dev_g1") [] (str "wfr_g1") (str "worktree")
    (str "worktree_wfr_g1") 0 0 None [] (str "apr_wfr_g1_cleanup_4") [] None (Sum256 golden_ledger) []
    (grant_Marshal golden_grant) golden_ledger.

Lemma VerifyCommandGrant_exact_witness :
  grant_covers None golden_spend (unixTime 1785153600 0) golden_grant /\
  VerifyCommandGrant None golden_spend (unixTime 1785153600 1) = Err EExpired.
Proof.
  split; [|by vm_compute].
  apply (VerifyCommandGrant_exact None golden_spend (unixTime 1785153600 0) golden_grant).
  by vm_compute.
Defined.

(** The command of [golden_spend] with another grant text, and its approval. *)
Definition approved_command (raw : bytes) : EdgeCommand :=
  MkEdgeCommand (str "rook-edge/1") (str "cmd_g1") [] 1 (str "dev_g1") [] (str "wfr_g1") (str "worktree")
    (str "worktree_wfr_g1") 0 0 None [] (str "apr_wfr_g1_cleanup_4") [] None (Sum256 golden_ledger) []
    raw golden_ledger.

Lemma golden_approved `{Ed25519Laws} priv pub :
  key_pair priv pub ->
  exists doc raw, SignGrant priv golden_grant = Ok doc /\ Marshal doc = Some raw /\
    approved priv golden_grant doc (unixTime 1785153600 0) (approved_command raw).
Proof.
  intros Hk. pose proof (SignGrant_eq _ _ golden_grant Hk) as Hs.
  eexists _, _. split; [exact Hs|]. split; [apply grant_Marshal_spec|].
  split; [..|reflexivity|reflexivity|split; [discriminate|reflexivity]| | |].
  - split; repeat apply List.Forall_cons; done.
  - exact Hs.
  - apply grant_Marshal_spec.
  - reflexivity.
  - vm_compute. reflexivity.
  - apply (bool_decide_unpack _). vm_compute. exact I.
  - apply (bool_decide_unpack _). vm_compute. exact I.
  - vm_compute. reflexivity.
Qed.

(** Two texts of one document: another key order and case, escapes, white space
    and a field Go does not know. *)
Definition odd_grant_text : bytes := apos (str
  " {'x':[{}],'singleUse':true , 'ResourceScope':['device:dev_g1','worktree:worktree_wfr_g1'],'SCHEMA':'rook.approval_grant.v1','grantId':'apr_wfr_g1_cleanup_4','requestId':'apr_wfr_g1_cleanup_4','actorId':'usr_g1','actionType':'cleanup_worktree','actionDigest':'sha256:93f59d2b82d8f8fef705234bebfda489d2fc8c5343716dcb15e366a0cfb78953','workflowRunId':'wfr_g1','issuedAt':'2026-07-27T11:00:00Z','expiresAt':null,'expiresAt':'2026-07-27T12:00:00Z'}").

Lemma parsed_grants_unambiguous_witness :
  Unmarshal odd_grant_text = Some golden_grant /\
  grant_Marshal (set_ServerSignature [] golden_grant) <>
  grant_Marshal (set_ServerSignature [] (MkGrantDoc [] [] [] [] [] [] None [] [] [] true [])).
Proof.
  assert (Unmarshal odd_grant_text = Some golden_grant) as Hg by (vm_compute; reflexivity).
  split; [done|]. intros Heq.
  assert (Unmarshal (apos (str "{'singleUse':true}")) = Some (MkGrantDoc [] [] [] [] [] [] None [] [] [] true [])) as Hn
    by (vm_compute; reflexivity).
  apply (parsed_grants_unambiguous _ _ _ _ Hg Hn) in Heq. discriminate.
Defined.

Lemma signed_grant_is_spendable_witness :
  let seed := repeat x11 32 in
  let pub := ed_public seed in
  exists doc raw, SignGrant (seed ++ pub) golden_grant = Ok doc /\ Marshal doc = Some raw /\
    let cmd := approved_command raw in
    VerifyCommandGrant (Some pub) cmd (unixTime 1785153600 0) = Ok doc /\
    VerifyCommandGrant (Some pub) cmd (unixTime 1785153600 1) = Err EExpired.
Proof.
  intros seed pub. assert (key_pair (seed ++ pub) pub) as Hk by (by exists seed).
  destruct (golden_approved _ _ Hk) as (doc & raw & Hs & Hm & Ha). exists doc, raw.
  split; [exact Hs|]. split; [exact Hm|]. intros cmd.
  pose proof (fun now => proj1 (signed_grant_is_spendable (seed ++ pub) pub golden_grant doc (unixTime 1785153600 0)
    cmd now [] Hk Ha)) as Hv.
  split; [exact (Hv (unixTime 1785153600 0))|exact (Hv (unixTime 1785153600 1))].
Defined.

Lemma SignGrant_verifies_witness :
  let pub := ed_public (repeat x11 32) in
  exists d, SignGrant (repeat x11 32 ++ pub) golden_grant = Ok d /\
            VerifyGrantSignature (E := granterr) pub d = Ok true.
Proof.
  intros pub. destruct (SignGrant_verifies (repeat x11 32 ++ pub) pub golden_grant) as (d & ? & ? & _);
    [by exists (repeat x11 32)|by exists d].
Defined.

Lemma ActionDigest_binds_witness :
  action_text (str "w") (str "d") (str "t") (str "i") (str "p|q") <>
  action_text (str "w") (str "d") (str "t") (str "j") (str "p|q").
Proof.
  intros H. assert (Forall no_bar [str "w"; str "d"; str "t"; str "i"]) as H1.
  { repeat apply List.Forall_cons; try apply List.Forall_nil; by apply (bool_decide_eq_true_1 _). }
  assert (Forall no_bar [str "w"; str "d"; str "t"; str "j"]) as H2.
  { repeat apply List.Forall_cons; try apply List.Forall_nil; by apply (bool_decide_eq_true_1 _). }
  apply (proj1 (proj2 (ActionDigest_binds _ _ _ _ (str "p|q") _ _ _ _ (str "p|q") H1 H2))) in H.
  discriminate.
Defined.
