(* ===== verification/Registry.v ===== *)
(** * Package [registry]: the paired-device book and its file

    The methods hold one lock from start to end, so each is one atomic step on
    the book and the world. A method that fails to persist has already changed
    the book in memory: the state threads through the error. *)

From stdpp Require Import sorting.
From S2P Require Import Prelude GoStrings GoTime RFC3339 Json JsonText JsonGo GoOS Crypto.

Definition CapStatusRead : bytes := str "status.read".
Definition CapAgentAnswer : bytes := str "agent.answer".
Definition CapAgentCommand : bytes := str "agent.command".
Definition CapSessionRead : bytes := str "session.read".

Definition DefaultCapabilities : list bytes :=
  [CapStatusRead; CapAgentAnswer; CapAgentCommand; CapSessionRead].

Definition KnownCapability (s : bytes) : bool :=
  bool_decide (s = CapStatusRead) || bool_decide (s = CapAgentAnswer) ||
  bool_decide (s = CapAgentCommand) || bool_decide (s = CapSessionRead).

Record Device := MkDevice {
  d_ID : bytes; d_Name : bytes; d_Model : bytes; d_PublicKey : bytes;
  d_Capabilities : list bytes; d_PairedAt : time; d_LastSeenAt : time;
  d_RevokedAt : option time }.

Definition Revoked (d : Device) : bool := bool_decide (d_RevokedAt d <> None).

Definition set_Capabilities (caps : list bytes) (d : Device) : Device :=
  MkDevice (d_ID d) (d_Name d) (d_Model d) (d_PublicKey d) caps (d_PairedAt d) (d_LastSeenAt d) (d_RevokedAt d).
Definition set_LastSeenAt (t : time) (d : Device) : Device :=
  MkDevice (d_ID d) (d_Name d) (d_Model d) (d_PublicKey d) (d_Capabilities d) (d_PairedAt d) t (d_RevokedAt d).
Definition set_RevokedAt (t : time) (d : Device) : Device :=
  MkDevice (d_ID d) (d_Name d) (d_Model d) (d_PublicKey d) (d_Capabilities d) (d_PairedAt d) (d_LastSeenAt d) (Some t).

Record Registry := MkRegistry { r_path : bytes; r_devices : gmap bytes Device }.
Record registryFile := MkRegistryFile { rf_Version : Z; rf_Devices : list Device }.

Definition set_devices (m : gmap bytes Device) (r : Registry) : Registry := MkRegistry (r_path r) m.

Inductive regerr :=
| ErrNotFound | ErrRevoked | ELacks (id cap : bytes) | EKeyLength (n : nat) | ENoCapabilities
| EFileNotJSON | EMarshal | ERegIO (e : oserr).

(** ** The file's JSON

    The structs' tags. [Device] does not tell a nil slice from an empty one, as
    nothing in the code does: a key and capabilities are printed as the empty
    text and the empty array, an empty list of devices (never appended to) as
    [null]. *)

#[export] Instance Device_go : GoValue Device := {|
  go_type := TStruct
    [(str "id", Always, TString); (str "name", Always, TString); (str "model", OmitEmpty, TString);
     (str "publicKey", Always, TBytes); (str "capabilities", Always, TSlice TString);
     (str "pairedAt", Always, TTime); (str "lastSeenAt", OmitZero, TTime);
     (str "revokedAt", OmitEmpty, TPtr TTime)];
  to_go d := VStruct
    [VString (d_ID d); VString (d_Name d); VString (d_Model d); VBytes (Some (d_PublicKey d, []));
     string_slice (d_Capabilities d); VTime (d_PairedAt d); VTime (d_LastSeenAt d); VPtr (VTime <$> d_RevokedAt d)];
  of_go v :=
    match v with
    | VStruct [VString i; VString n; VString m; VBytes k; VSlice cs; VTime p; VTime l; VPtr r] =>
      caps ← mapM as_string (from_option fst [] cs);
      rev ← match r with None => Some None | Some (VTime t) => Some (Some t) | Some _ => None end;
      Some (MkDevice i n m (from_option fst [] k) caps p l rev)
    | _ => None
    end |}.

#[export] Instance registryFile_go : GoValue registryFile := {|
  go_type := TStruct [(str "version", Always, TInt); (str "devices", Always, TSlice (go_type Device))];
  to_go f := VStruct
    [VInt (rf_Version f);
     VSlice (match rf_Devices f with [] => None | ds => Some (map to_go ds, []) end)];
  of_go v :=
    match v with
    | VStruct [VInt n; VSlice ds] => MkRegistryFile n <$> mapM of_go (from_option fst [] ds)
    | _ => None
    end |}.

Definition reg_Marshal (f : registryFile) : option bytes := MarshalIndent f.
Definition reg_Unmarshal (raw : bytes) : option registryFile := Unmarshal raw.
Arguments reg_Marshal : simpl never.
Arguments reg_Unmarshal : simpl never.

#[export] Instance Device_laws : GoValueLaws Device.
Proof.
  constructor; [by vm_compute|by vm_compute|by eexists| |].
  - intros [i n m k cs p l [r|]]; cbn; by rewrite mapM_as_string.
  - intros v Hv. cbn [go_type Device_go] in Hv.
    typed_cases Hv; destruct Ht3 as [(ss & Hs & _)%strings_typed _]; cbn; by rewrite Hs.
Qed.

#[export] Instance registryFile_laws : GoValueLaws registryFile.
Proof.
  constructor; [by vm_compute|by vm_compute|by eexists| |].
  - intros [n [|d ds]]; [done|]. cbn [to_go registryFile_go rf_Devices rf_Version of_go from_option fst].
    by rewrite mapM_of_to.
  - intros v Hv. cbn [go_type registryFile_go] in Hv. typed_cases Hv.
    destruct Ht0 as [(ds & Hds)%mapM_of_go_total _]. cbn [of_go registryFile_go from_option fst].
    by rewrite Hds.
Qed.

(** The outcome of [range devices] followed by [slices.SortFunc]: both leave the
    order of ties open, so the order may differ from call to call. *)
Class RegistryLib := { by_PairedAt : nat -> gmap bytes Device -> list Device }.

Class RegistryLibLaws `{RegistryLib} : Prop := {
  by_PairedAt_perm n m : by_PairedAt n m ≡ₚ (map_to_list m).*2 }.

(** What JSON carries without loss. *)
Definition device_text_ok (d : Device) : Prop :=
  Forall (fun s => utf8_valid s = true) (d_ID d :: d_Name d :: d_Model d :: d_Capabilities d).

Lemma device_tidy (d : Device) : tidy (go_type Device) (to_go d).
Proof.
  destruct d as [i n m k cs p l [r|]]; cbn; (split_and!; try done; [by destruct m|apply strings_tidy|]);
    by intros ->%Z.eqb_eq.
Qed.

Lemma device_storable d : device_text_ok d -> storable d.
Proof.
  unfold device_text_ok. rewrite !Forall_cons_iff. intros (? & ? & ? & Hc). split; [|apply device_tidy].
  cbn [go_type to_go Device_go]. apply has_type_struct.
  destruct d as [i n m k cs p l [r|]]; repeat constructor; try done; by apply strings_has_type.
Qed.

(** Instants [Time.MarshalJSON] can print. *)
Definition printable (t : time) : Prop := year0 <= t < year10000.
Definition device_printable (d : Device) : Prop :=
  printable (d_PairedAt d) /\ printable (d_LastSeenAt d) /\ from_option printable True (d_RevokedAt d).

Lemma device_times d : device_printable d -> Forall printable (times (to_go d)).
Proof.
  intros (Hp & Hl & Hr). destruct d as [i n m k cs p l r]. cbn in *.
  assert (flat_map times (map VString cs) = []) as -> by (by induction cs).
  destruct r; repeat (apply List.Forall_cons; [done|]); apply List.Forall_nil.
Qed.

Lemma file_storable f :
  - 2 ^ 63 <= rf_Version f < 2 ^ 63 -> Forall device_text_ok (rf_Devices f) -> storable f.
Proof.
  intros Hv Hd.
  assert (Forall storable (rf_Devices f)) as [Ht Htd]%storable_slice
    by (eapply List.Forall_impl; [|exact Hd]; apply device_storable).
  split; cbn [go_type to_go registryFile_go].
  - apply has_type_struct. constructor; [done|]. constructor; [|constructor]. by destruct (rf_Devices f).
  - destruct (rf_Devices f); cbn [tidy]; split_and!; done.
Qed.

(** Devices of printable times are always written. *)
Lemma reg_Marshal_Some f :
  - 2 ^ 63 <= rf_Version f < 2 ^ 63 -> Forall device_text_ok (rf_Devices f) ->
  Forall device_printable (rf_Devices f) -> is_Some (reg_Marshal f).
Proof.
  intros Hv Hd Hp. apply MarshalIndent_Some; [by apply file_storable|].
  destruct f as [n ds]. cbn in *. rewrite app_nil_r.
  assert (Forall printable (flat_map times (map to_go ds))) as Hall.
  { clear Hd. induction Hp as [|d ds Hd _ IH]; [constructor|]. cbn [map flat_map]. apply Forall_app.
    split; [by apply device_times|done]. }
  by destruct ds.
Qed.

(** The file reads back as the devices it was made from. *)
Lemma reg_roundtrip f raw :
  - 2 ^ 63 <= rf_Version f < 2 ^ 63 -> Forall device_text_ok (rf_Devices f) ->
  reg_Marshal f = Some raw -> reg_Unmarshal raw = Some f.
Proof.
  intros Hv Hd. apply Unmarshal_MarshalIndent. by apply file_storable.
Qed.

(** Any device, valid strings or not: it reads back with its strings mended. *)
Definition mend_device (d : Device) : Device :=
  MkDevice (mended (d_ID d)) (mended (d_Name d)) (mended (d_Model d)) (d_PublicKey d)
    (map mended (d_Capabilities d)) (d_PairedAt d) (d_LastSeenAt d) (d_RevokedAt d).

Lemma mend_device_text d : device_text_ok (mend_device d).
Proof.
  repeat (apply List.Forall_cons; [apply unquote_valid|]). cbn [mend_device d_Capabilities].
  induction (d_Capabilities d); constructor; [apply unquote_valid|done].
Qed.

Lemma mend_to_go (d : Device) : mend (to_go d) = to_go (mend_device d).
Proof.
  destruct d as [i n m k cs p l [r|]]; cbn; do 6 f_equal; unfold string_slice; do 3 f_equal; rewrite !map_map; done.
Qed.

Lemma reg_reads_mended n ds raw :
  - 2 ^ 63 <= n < 2 ^ 63 -> reg_Marshal (MkRegistryFile n ds) = Some raw ->
  reg_Unmarshal raw = Some (MkRegistryFile n (map mend_device ds)).
Proof.
  intros Hn (j & Hj & ->)%fmap_Some.
  assert (mend (to_go (MkRegistryFile n ds)) = to_go (MkRegistryFile n (map mend_device ds))) as Hm.
  { assert (forall l, map mend (map to_go l) = map to_go (map mend_device l)) as Hl
      by (intros l; rewrite !map_map; apply map_ext, mend_to_go).
    destruct ds as [|d ds]; [done|].
    change (VStruct [VInt n; VSlice (Some (map mend (map to_go (d :: ds)), []))] =
            VStruct [VInt n; VSlice (Some (map to_go (map mend_device (d :: ds)), []))]). by rewrite Hl. }
  assert (storable (MkRegistryFile n (map mend_device ds))) as [Ht _].
  { apply file_storable; [done|]. cbn. apply List.Forall_map, Forall_true, mend_device_text. }
  unfold reg_Unmarshal, indented. rewrite (Unmarshal_mended _ (MkRegistryFile n ds) j); [|by rewrite Hm| |done].
  - rewrite Hm. apply of_to_go.
  - cbn [go_type to_go registryFile_go rf_Version rf_Devices].
    assert (Forall (tidy (go_type Device)) (map to_go ds)) as Htd
      by apply List.Forall_map, Forall_true, device_tidy.
    destruct ds; cbn [tidy]; split_and!; done.
Qed.

(** The book in its process. *)
Record RState := MkRState { rs_reg : Registry; rs_world : World }.
Definition put_world (w : World) (s : RState) : RState := MkRState (rs_reg s) w.
Definition devices (s : RState) : gmap bytes Device := r_devices (rs_reg s).
Definition put_device (id : bytes) (d : Device) (s : RState) : RState :=
  MkRState (set_devices (<[id := d]> (devices s)) (rs_reg s)) (rs_world s).

Definition empty_registry (path : bytes) : Registry := MkRegistry path ∅.

(** The capability filter of [Add] and [SetCapabilities]: known names, first
    occurrences. *)
Definition filter_caps (caps : list bytes) : list bytes :=
  fold_left (fun kept c =>
    if KnownCapability c && negb (bool_decide (c ∈ kept)) then kept ++ [c] else kept) caps [].

Section registry.
Context `{RegistryLib}.

(** The loop of [Open]: later entries replace earlier ones of the same id. *)
Definition index_devices (ds : list Device) : gmap bytes Device :=
  fold_left (fun m d => <[d_ID d := d]> m) ds ∅.

Definition Open (path : bytes) : SE World regerr Registry := fun w =>
  match ReadFile path w with
  | (Err ENOENT, w') => (Ok (empty_registry path), w')
  | (Err e, w') => (Err (ERegIO e), w')
  | (Panic, w') => (Panic, w')
  | (Ok raw, w') =>
    match reg_Unmarshal raw with
    | None => (Err EFileNotJSON, w')
    | Some f => (Ok (MkRegistry path (index_devices (rf_Devices f))), w')
    end
  end.

Definition persistLocked : SE RState regerr unit :=
  s ← gets (fun s => s);
  let f := MkRegistryFile 1 (by_PairedAt (ops (rs_world s)) (devices s)) in
  raw ← of_res (of_option EMarshal (reg_Marshal f));
  let path := r_path (rs_reg s) in
  zoom rs_world put_world (map_err ERegIO (write_atomically (Dir path) path raw)).

Definition Add (d : Device) : SE RState regerr unit :=
  if negb (length (d_PublicKey d) =? PublicKeySize)%nat then throw (EKeyLength (length (d_PublicKey d)))
  else
    let caps := filter_caps (d_Capabilities d) in
    if bool_decide (caps = []) then throw ENoCapabilities
    else
      _ ← modify (put_device (d_ID d) (set_Capabilities caps d));
      persistLocked.

Definition Get (id : bytes) (r : Registry) : option Device := r_devices r !! id.
Definition List (r : Registry) : list Device := (map_to_list (r_devices r)).*2.

Definition Allowed (id capability : bytes) (r : Registry) : res regerr unit :=
  match r_devices r !! id with
  | None => Err ErrNotFound
  | Some d =>
    if Revoked d then Err ErrRevoked
    else if negb (bool_decide (capability ∈ d_Capabilities d)) then Err (ELacks id capability)
    else Ok ()
  end.

(** [d, ok := r.devices[id]; if !ok { return ErrNotFound }]; the pointer is
    into the map, so an assignment to [*d] is a map update. *)
Definition with_device (id : bytes) (k : Device -> SE RState regerr unit) : SE RState regerr unit :=
  s ← gets (fun s => s);
  match devices s !! id with None => throw ErrNotFound | Some d => k d end.

Definition SetCapabilities (id : bytes) (caps : list bytes) : SE RState regerr unit :=
  with_device id (fun d =>
    _ ← modify (put_device id (set_Capabilities (filter_caps caps) d));
    persistLocked).

(** The error of persisting is discarded. *)
Definition Touch (id : bytes) (at_ : time) : RState -> RState := fun s =>
  match devices s !! id with
  | None => s
  | Some d => snd (persistLocked (put_device id (set_LastSeenAt at_ d) s))
  end.

Definition Revoke (id : bytes) (at_ : time) : SE RState regerr unit :=
  with_device id (fun d =>
    _ ← modify (if Revoked d then fun s => s else put_device id (set_RevokedAt at_ d));
    persistLocked).
End registry.

(** ** Lemmas: what each operation does *)

(** Only the disk and the operation counter move when the book is saved. *)
Section saves.
Context `{RegistryLib}.

Lemma persistLocked_reg s : rs_reg (snd (persistLocked s)) = rs_reg s.
Proof.
  unfold persistLocked, zoom, map_err, gets, of_res, of_option, mbind, SE_bind.
  destruct (reg_Marshal _); cbn; [|done]. by destruct (write_atomically _ _ _ _) as [[]].
Qed.

Lemma persistLocked_cases s :
  let '(r, s') := persistLocked s in
  match r with
  | Ok _ => exists n raw, reg_Marshal (MkRegistryFile 1 (by_PairedAt n (devices s))) = Some raw /\
                          disk (rs_world s') !! r_path (rs_reg s) = Some raw
  | Err _ => disk (rs_world s') !! r_path (rs_reg s) = disk (rs_world s) !! r_path (rs_reg s)
  | Panic => False
  end.
Proof.
  unfold persistLocked, zoom, map_err, gets, of_res, of_option, mbind, SE_bind.
  destruct (reg_Marshal _) as [raw|] eqn:Hm; cbn; [|done].
  pose proof (write_atomically_spec (Dir (r_path (rs_reg s))) (r_path (rs_reg s)) raw (rs_world s)) as Hw.
  destruct (write_atomically _ _ _ _) as [[[]|e|] w']; cbn; destruct Hw as (_ & _ & ?); eauto.
Qed.

End saves.

(** ** The abstract book

    What an operation means: it is refused for a reason, or it changes one entry
    of a finite map. *)

Inductive regop :=
| OAdd (d : Device)
| OSetCapabilities (id : bytes) (caps : list bytes)
| OTouch (id : bytes) (at_ : time)
| ORevoke (id : bytes) (at_ : time).

Definition op_id (op : regop) : bytes :=
  match op with OAdd d => d_ID d | OSetCapabilities id _ | OTouch id _ | ORevoke id _ => id end.

Definition op_refusal (op : regop) (m : gmap bytes Device) : option regerr :=
  match op with
  | OAdd d =>
    if negb (length (d_PublicKey d) =? PublicKeySize)%nat then Some (EKeyLength (length (d_PublicKey d)))
    else if bool_decide (filter_caps (d_Capabilities d) = []) then Some ENoCapabilities else None
  | OSetCapabilities id _ | OTouch id _ | ORevoke id _ =>
    match m !! id with None => Some ErrNotFound | Some _ => None end
  end.

Definition op_effect (op : regop) (m : gmap bytes Device) : gmap bytes Device :=
  match op with
  | OAdd d => <[d_ID d := set_Capabilities (filter_caps (d_Capabilities d)) d]> m
  | OSetCapabilities id caps => alter (set_Capabilities (filter_caps caps)) id m
  | OTouch id t => alter (set_LastSeenAt t) id m
  | ORevoke id t => alter (fun d => if Revoked d then d else set_RevokedAt t d) id m
  end.

Definition op_book (op : regop) (m : gmap bytes Device) : gmap bytes Device :=
  if op_refusal op m is Some _ then m else op_effect op m.

Definition set_book (m : gmap bytes Device) (s : RState) : RState :=
  MkRState (set_devices m (rs_reg s)) (rs_world s).

Section operations.
Context `{RegistryLib}.

(** The methods as one family; [Touch] has no result to report. *)
Definition run_op (op : regop) : SE RState regerr unit :=
  match op with
  | OAdd d => Add d
  | OSetCapabilities id caps => SetCapabilities id caps
  | OTouch id t => fun s => (Ok (), Touch id t s)
  | ORevoke id t => Revoke id t
  end.

Definition forgiving (op : regop) : bool := if op is OTouch _ _ then true else false.

Lemma put_device_alter (f : Device -> Device) id d s :
  devices s !! id = Some d -> put_device id (f d) s = set_book (alter f id (devices s)) s.
Proof.
  intros Hd. unfold put_device, set_book. do 2 f_equal. apply map_eq. intros k.
  destruct (decide (k = id)) as [->|]; by simplify_map_eq.
Qed.

Lemma set_book_id (s : RState) : set_book (devices s) s = s.
Proof. by destruct s as [[]]. Qed.

(** Every method is: refuse, or change the book and save it. *)
Lemma run_op_eq op s :
  run_op op s =
  match op_refusal op (devices s) with
  | Some e => (if forgiving op then Ok () else Err e, s)
  | None =>
    let '(r, s') := persistLocked (set_book (op_effect op (devices s)) s) in
    (if forgiving op then Ok () else r, s')
  end.
Proof.
  destruct op as [d|id caps|id t|id t]; cbn [run_op op_refusal op_effect forgiving].
  - unfold Add. destruct (negb _); [done|]. destruct (bool_decide _); [done|].
    unfold modify, mbind, SE_bind. change (put_device _ _ s) with
      (set_book (<[d_ID d := set_Capabilities (filter_caps (d_Capabilities d)) d]> (devices s)) s).
    by destruct (persistLocked _) as [[[]|e|] s'].
  - unfold SetCapabilities, with_device, gets, modify, mbind, SE_bind.
    destruct (devices s !! id) as [d|] eqn:Hd; [|done].
    rewrite (put_device_alter (set_Capabilities (filter_caps caps)) id d s) by done.
    by destruct (persistLocked _) as [[[]|e|] s'].
  - unfold Touch. destruct (devices s !! id) as [d|] eqn:Hd; [|done].
    rewrite (put_device_alter (set_LastSeenAt t) id d s) by done. by destruct (persistLocked _).
  - unfold Revoke, with_device, gets, modify, mbind, SE_bind.
    destruct (devices s !! id) as [d|] eqn:Hd; [|done].
    assert ((if Revoked d then fun s => s else put_device id (set_RevokedAt t d)) s =
            set_book (alter (fun d => if Revoked d then d else set_RevokedAt t d) id (devices s)) s) as ->.
    { rewrite <- (put_device_alter _ id d s) by done. destruct (Revoked d); [|done].
      unfold put_device. rewrite insert_id by done. by destruct s as [[]]. }
    by destruct (persistLocked _) as [[[]|e|] s'].
Qed.

Lemma run_op_devices op s :
  devices (snd (run_op op s)) = op_book op (devices s) /\
  r_path (rs_reg (snd (run_op op s))) = r_path (rs_reg s).
Proof.
  rewrite run_op_eq. unfold op_book. destruct (op_refusal op (devices s)); [done|].
  pose proof (persistLocked_reg (set_book (op_effect op (devices s)) s)) as Hr.
  destruct (persistLocked _) as [r s']; cbn in *. unfold devices. by rewrite Hr.
Qed.
End operations.

(** ** Lemmas: capabilities, and reading the file back *)

Lemma KnownCapability_spec c : KnownCapability c = true <-> c ∈ DefaultCapabilities.
Proof.
  unfold KnownCapability, DefaultCapabilities.
  rewrite !orb_true_iff, !bool_decide_eq_true, !elem_of_cons, elem_of_nil. tauto.
Qed.

Lemma filter_caps_spec caps :
  NoDup (filter_caps caps) /\
  forall c, c ∈ filter_caps caps <-> c ∈ caps /\ KnownCapability c = true.
Proof.
  unfold filter_caps.
  assert (forall kept, NoDup kept -> let r := fold_left (fun kept c =>
      if KnownCapability c && negb (bool_decide (c ∈ kept)) then kept ++ [c] else kept) caps kept in
    NoDup r /\ forall c, c ∈ r <-> c ∈ kept \/ (c ∈ caps /\ KnownCapability c = true)) as Hg.
  { induction caps as [|x caps IH]; intros kept Hk; cbn [fold_left].
    - split; [done|]. intros c. rewrite elem_of_nil. tauto.
    - destruct (KnownCapability x) eqn:Hx; cbn [andb]; [case_bool_decide as Hin; cbn [negb]|].
      + destruct (IH kept Hk) as [? Hr]. split; [done|]. intros c. rewrite Hr, elem_of_cons.
        split; [tauto|]. intros [?|[[->|?] ?]]; tauto.
      + destruct (IH (kept ++ [x])) as [? Hr].
        { apply list.NoDup_app. split; [done|]. split; [|apply list.NoDup_singleton].
          intros y Hy ->%list_elem_of_singleton. done. }
        split; [done|]. intros c. rewrite Hr, elem_of_cons, elem_of_app, list_elem_of_singleton.
        split; [intros [[?| ->]|[]]; tauto|]. intros [?|[[->|?] ?]]; tauto.
      + destruct (IH kept Hk) as [? Hr]. split; [done|]. intros c. rewrite Hr, elem_of_cons.
        split; [tauto|]. intros [?|[[->|?] ?]]; [tauto|congruence|tauto]. }
  destruct (Hg []) as [? Hr]; [constructor|]. split; [done|]. intros c. rewrite Hr, elem_of_nil. tauto.
Qed.

Lemma Known_utf8 c : KnownCapability c = true -> utf8_valid c = true.
Proof.
  rewrite KnownCapability_spec. unfold DefaultCapabilities. rewrite !elem_of_cons, elem_of_nil.
  by intros [->|[->|[->|[->|[]]]]].
Qed.

(** A book keyed by its devices' ids. *)
Definition keyed (m : gmap bytes Device) : Prop := map_Forall (fun id d => d_ID d = id) m.

Lemma index_devices_list (ds : list Device) (m : gmap bytes Device) :
  fold_left (fun m d => <[d_ID d := d]> m) ds m =
  list_to_map (rev ((fun d => (d_ID d, d)) <$> ds)) ∪ m.
Proof.
  revert m. induction ds as [|d ds IH]; intros m; cbn [fold_left fmap list_fmap rev].
  - by rewrite list_to_map_nil, (left_id_L ∅ (∪)).
  - rewrite IH, list_to_map_app, <- (assoc_L (∪)). f_equal.
    by rewrite list_to_map_cons, list_to_map_nil, insert_empty, <- insert_union_singleton_l.
Qed.

(** The file's order does not matter to [Open]. *)
Lemma index_devices_perm (m : gmap bytes Device) (ds : list Device) : keyed m -> ds ≡ₚ (map_to_list m).*2 -> index_devices ds = m.
Proof.
  intros Hk Hp. unfold index_devices. rewrite index_devices_list, (right_id_L ∅ (∪)).
  symmetry. apply list_to_map_flip.
  assert (map_to_list m ≡ₚ (fun d => (d_ID d, d)) <$> ds) as ->; [|apply Permutation_rev].
  rewrite Hp, <- list_fmap_compose. apply reflexive_eq.
  rewrite <- (list_fmap_id (map_to_list m)) at 1. apply list_fmap_ext. intros i [k d] Hi. cbn.
  f_equal. symmetry. apply (Hk k d). apply elem_of_map_to_list. by eapply list_elem_of_lookup_2.
Qed.

(** ** Well-formed books *)

Definition device_wf (id : bytes) (d : Device) : Prop :=
  d_ID d = id /\ length (d_PublicKey d) = PublicKeySize /\ NoDup (d_Capabilities d) /\
  Forall (fun c => KnownCapability c = true) (d_Capabilities d) /\ device_text_ok d.
Definition book_wf (m : gmap bytes Device) : Prop := map_Forall device_wf m.

(** Names reach the book as protocol strings, which are valid UTF-8. *)
Definition op_text_ok (op : regop) : Prop :=
  match op with
  | OAdd d => Forall (fun s => utf8_valid s = true) [d_ID d; d_Name d; d_Model d]
  | _ => True
  end.

Lemma book_wf_keyed m : book_wf m -> keyed m.
Proof. intros Hm id d Hd. apply (Hm id d Hd). Qed.

Lemma filter_caps_wf caps :
  NoDup (filter_caps caps) /\ Forall (fun c => KnownCapability c = true) (filter_caps caps) /\
  Forall (fun s => utf8_valid s = true) (filter_caps caps).
Proof.
  destruct (filter_caps_spec caps) as [Hn Hs].
  assert (Forall (fun c => KnownCapability c = true) (filter_caps caps)) as Hk.
  { apply Forall_forall. intros c Hc%list_elem_of_In. by apply Hs in Hc as []. }
  split_and!; [done|done|]. eapply Forall_impl; [|done]. apply Known_utf8.
Qed.

Lemma op_book_wf op m : op_text_ok op -> book_wf m -> book_wf (op_book op m).
Proof.
  intros Ho Hm. unfold op_book. destruct (op_refusal op m) eqn:Hr; [done|].
  destruct op as [d|id caps|id t|id t]; cbn [op_effect op_refusal op_text_ok] in *.
  - destruct (Nat.eqb_spec (length (d_PublicKey d)) PublicKeySize) as [Hl|]; [|done].
    apply map_Forall_insert_2; [|done]. destruct (filter_caps_wf (d_Capabilities d)) as (? & ? & ?).
    split_and!; try done. unfold device_text_ok. cbn. rewrite !Forall_cons_iff in Ho |- *. tauto.
  - intros k d Hd. apply lookup_alter_Some in Hd as [(<- & d' & Hd' & ->)|[_ Hd]]; [|by apply Hm].
    apply Hm in Hd' as (? & ? & ? & ? & Ht). destruct (filter_caps_wf caps) as (? & ? & ?).
    split_and!; try done. unfold device_text_ok in *. cbn. rewrite !Forall_cons_iff in *. tauto.
  - intros k d Hd. apply lookup_alter_Some in Hd as [(<- & d' & Hd' & ->)|[_ Hd]]; [|by apply Hm].
    by apply Hm in Hd'.
  - intros k d Hd. apply lookup_alter_Some in Hd as [(<- & d' & Hd' & ->)|[_ Hd]]; [|by apply Hm].
    apply Hm in Hd'. by destruct (Revoked d').
Qed.

Section reload.
Context `{RegistryLibLaws}.

(** The file a save leaves is read back as the book that was saved. *)
Lemma saved_reads n m raw :
  book_wf m -> reg_Marshal (MkRegistryFile 1 (by_PairedAt n m)) = Some raw ->
  reg_Unmarshal raw = Some (MkRegistryFile 1 (by_PairedAt n m)) /\ index_devices (by_PairedAt n m) = m.
Proof.
  intros Hm Hr. split.
  - apply reg_roundtrip; [done| |done]. cbn. rewrite by_PairedAt_perm. apply Forall_forall.
    intros d ([k d'] & <- & Hd)%in_map_iff. apply list_elem_of_In, elem_of_map_to_list in Hd.
    by apply Hm in Hd as (_ & _ & _ & _ & ?).
  - apply index_devices_perm; [by apply book_wf_keyed|apply by_PairedAt_perm].
Qed.

Lemma Open_reads path w raw f :
  faults w (ops w) = None -> disk w !! path = Some raw -> reg_Unmarshal raw = Some f ->
  fst (Open path w) = Ok (MkRegistry path (index_devices (rf_Devices f))).
Proof. intros Hf Hd Hu. unfold Open, ReadFile, file_op. rewrite Hf. cbn. by rewrite Hd, Hu. Qed.
(** Without I/O faults, saving devices of printable times succeeds. *)
Lemma persistLocked_Ok s :
  (forall i, faults (rs_world s) i = None) -> book_wf (devices s) ->
  map_Forall (fun _ d => device_printable d) (devices s) -> fst (persistLocked s) = Ok ().
Proof.
  intros Hf Hb Hp. unfold persistLocked, zoom, map_err, gets, of_res, of_option, mbind, SE_bind.
  set (ds := by_PairedAt _ _). assert (ds ≡ₚ (map_to_list (devices s)).*2) as Hds by apply by_PairedAt_perm.
  assert (forall P : Device -> Prop, map_Forall (fun _ d => P d) (devices s) -> Forall P ds) as Hall.
  { intros P HP. rewrite Hds. apply Forall_forall. intros d ([k d'] & <- & Hd)%in_map_iff.
    apply list_elem_of_In, elem_of_map_to_list in Hd. by apply (HP k). }
  destruct (reg_Marshal_Some (MkRegistryFile 1 ds)) as [raw ->]; [done| |by apply Hall|].
  - apply Hall. intros k d Hd. apply (Hb k d Hd).
  - cbn. pose proof (write_atomically_ok (Dir (r_path (rs_reg s))) (r_path (rs_reg s)) raw (rs_world s) Hf) as Hw.
    destruct (write_atomically _ _ _ _) as [r w']. cbn in *. by subst r.
Qed.

End reload.

(** ** Lives of a registry file

    The file starts out absent. Methods run; the world around the file moves on
    (clock, random source, pattern of faults, other files); the process dies at
    any point and a new one opens the file. *)

Section life.
Context `{RegistryLib}.

Inductive life (path : bytes) : RState -> Prop :=
| life_first w r w' :
    disk w !! path = None -> Open path w = (Ok r, w') -> life path (MkRState r w')
| life_op s op : life path s -> op_text_ok op -> life path (snd (run_op op s))
| life_env s w :
    life path s -> disk w !! path = disk (rs_world s) !! path -> life path (MkRState (rs_reg s) w)
| life_restart s r w' :
    life path s -> Open path (rs_world s) = (Ok r, w') -> life path (MkRState r w').

(** How a state may go on, with or without restarts, when no [Add] pairs [id]
    anew. *)
Inductive later (path id : bytes) (restarts : bool) : RState -> RState -> Prop :=
| later_refl s : later path id restarts s s
| later_op s s' op :
    later path id restarts s s' -> op_text_ok op -> (forall d, op = OAdd d -> d_ID d <> id) ->
    later path id restarts s (snd (run_op op s'))
| later_env s s' w :
    later path id restarts s s' -> disk w !! path = disk (rs_world s') !! path ->
    later path id restarts s (MkRState (rs_reg s') w)
| later_restart s s' r w' :
    restarts = true -> later path id restarts s s' -> Open path (rs_world s') = (Ok r, w') ->
    later path id restarts s (MkRState r w').

(** A file that opens as a book with the property [I]. *)
Definition stored_in (I : gmap bytes Device -> Prop) (o : option bytes) : Prop :=
  match o with
  | None => I ∅
  | Some raw => exists f, reg_Unmarshal raw = Some f /\ I (index_devices (rf_Devices f))
  end.

Definition life_inv (path : bytes) (s : RState) : Prop :=
  r_path (rs_reg s) = path /\ book_wf (devices s) /\ stored_in book_wf (disk (rs_world s) !! path).

Definition run_ops (ops : list regop) (s : RState) : RState :=
  fold_left (fun s op => snd (run_op op s)) ops s.

Lemma Open_world path w : disk (snd (Open path w)) = disk w.
Proof.
  unfold Open, ReadFile, file_op. destruct (faults w (ops w)); cbn; [done|].
  destruct (disk w !! path); cbn; [by destruct (reg_Unmarshal _)|done].
Qed.

Lemma Open_inv I path w r w' :
  stored_in I (disk w !! path) -> Open path w = (Ok r, w') ->
  r_path r = path /\ I (r_devices r) /\ disk w' = disk w.
Proof.
  intros Hs Ho. pose proof (Open_world path w) as Hw. rewrite Ho in Hw. cbn in Hw.
  revert Ho. unfold Open, ReadFile, file_op. destruct (faults w (ops w)); cbn; [done|].
  destruct (disk w !! path) as [raw|]; cbn.
  - destruct Hs as (f & -> & Hf). intros. by simplify_eq.
  - intros. by simplify_eq.
Qed.
End life.

Section safety.
Context `{RegistryLibLaws}.

(** After a method the file opens as the new book, when it was saved, or as
    before. *)
Lemma run_op_saves I op s :
  op_text_ok op -> book_wf (devices s) -> I (op_book op (devices s)) ->
  let '(r, s') := run_op op s in
  (stored_in I (disk (rs_world s) !! r_path (rs_reg s)) ->
   stored_in I (disk (rs_world s') !! r_path (rs_reg s))) /\
  (r = Ok () -> forgiving op = false -> op_refusal op (devices s) = None ->
   stored_in I (disk (rs_world s') !! r_path (rs_reg s))).
Proof.
  intros Ho Hb HI. rewrite run_op_eq. pose proof (op_book_wf op _ Ho Hb) as Hb'. unfold op_book in *.
  destruct (op_refusal op (devices s)); [by destruct (forgiving op)|].
  pose proof (persistLocked_cases (set_book (op_effect op (devices s)) s)) as Hc.
  destruct (persistLocked _) as [[[]|e|] s']; cbn in *; [|by rewrite Hc; destruct (forgiving op)|done].
  assert (stored_in I (disk (rs_world s') !! r_path (rs_reg s))) as Hs; [|by destruct (forgiving op)].
  destruct Hc as (n & raw & Hm & ->). apply saved_reads in Hm as [Hu Hi]; [|done].
  eexists. split; [exact Hu|]. cbn [rf_Devices]. by rewrite Hi.
Qed.

Lemma run_op_stored I op s :
  op_text_ok op -> book_wf (devices s) -> I (op_book op (devices s)) ->
  stored_in I (disk (rs_world s) !! r_path (rs_reg s)) ->
  stored_in I (disk (rs_world (snd (run_op op s))) !! r_path (rs_reg s)).
Proof.
  intros Ho Hb HI. pose proof (run_op_saves I op s Ho Hb HI) as Hs. destruct (run_op op s) as [r s']. apply Hs.
Qed.

Lemma life_inv_op path op s : op_text_ok op -> life_inv path s -> life_inv path (snd (run_op op s)).
Proof.
  intros Hop (<- & Hb & Hs). pose proof (run_op_devices op s) as [Hd Hp'].
  pose proof (op_book_wf op _ Hop Hb) as Hb'. split_and!; [done|by rewrite Hd|by apply run_op_stored].
Qed.

Lemma life_inv_restart path s r w' :
  life_inv path s -> Open path (rs_world s) = (Ok r, w') -> life_inv path (MkRState r w').
Proof.
  intros (_ & _ & Hs) Ho. apply (Open_inv book_wf) in Ho as (? & ? & Hw); [|done].
  split_and!; [done..|]. cbn. by rewrite Hw.
Qed.

Lemma life_inv_holds path s : life path s -> life_inv path s.
Proof.
  induction 1 as [w r w' Hd Ho|s op Hl Hi Hop|s w Hl (Hp & Hb & Hs) Hd|s r w' Hl Hi Ho].
  - apply (Open_inv book_wf) in Ho as (? & ? & Hw); [|rewrite Hd; apply map_Forall_empty].
    split_and!; [done..|]. cbn. rewrite Hw, Hd. apply map_Forall_empty.
  - by apply life_inv_op.
  - split_and!; [done..|]. cbn. by rewrite Hd.
  - by eapply life_inv_restart.
Qed.

(** What holds of every entry, in memory and in the file as it would open. *)
Definition everywhere (P : bytes -> Device -> Prop) (b : RState) : Prop :=
  map_Forall P (devices b) /\
  forall raw f, disk (rs_world b) !! r_path (rs_reg b) = Some raw -> reg_Unmarshal raw = Some f ->
    map_Forall P (index_devices (rf_Devices f)).

Lemma everywhere_impl (P Q : bytes -> Device -> Prop) b :
  everywhere P b -> (forall id d, P id d -> Q id d) -> everywhere Q b.
Proof.
  intros [Hb Hf] HPQ. split; [by eapply map_Forall_impl|]. intros raw f Hr Hu.
  eapply map_Forall_impl; [by eapply Hf|done].
Qed.

(** Such a property goes through the file. *)
Record carried (P : bytes -> Device -> Prop) : Prop := MkCarried {
  ca_keyed : forall id d, P id d -> d_ID d = id;
  ca_mended : forall id d, P id d -> P (mended id) (mend_device d) }.

Lemma index_devices_Forall (P : bytes -> Device -> Prop) ds :
  Forall (fun d => P (d_ID d) d) ds -> map_Forall P (index_devices ds).
Proof.
  unfold index_devices. generalize (map_Forall_empty (M := gmap bytes) P). generalize (∅ : gmap bytes Device).
  intros m Hm Hds. revert m Hm. induction Hds as [|d ds Hd _ IH]; intros m Hm; [done|].
  apply IH. by apply map_Forall_insert_2.
Qed.

(** A saved book is in the file. *)
Lemma saved_everywhere P b b' :
  carried P -> persistLocked b = (Ok (), b') -> map_Forall P (devices b) -> everywhere P b'.
Proof.
  intros [Hk Hm] Hb Hd. pose proof (persistLocked_cases b) as Hc. pose proof (persistLocked_reg b) as Hr.
  rewrite Hb in Hc, Hr. cbn [snd] in Hr. destruct Hc as (n & raw & Hraw & Hdisk). split; [unfold devices; by rewrite Hr|].
  intros raw' f. rewrite Hr, Hdisk. intros [= <-] Hu.
  rewrite (reg_reads_mended 1 _ _ ltac:(lia) Hraw) in Hu. injection Hu as <-. cbn [rf_Devices].
  apply index_devices_Forall, List.Forall_map. rewrite by_PairedAt_perm. apply Forall_forall.
  intros d ([k d'] & <- & Hin)%in_map_iff. apply list_elem_of_In, elem_of_map_to_list in Hin.
  pose proof (Hd _ _ Hin) as HP. cbn [snd mend_device d_ID]. rewrite (Hk _ _ HP). by apply Hm.
Qed.

Lemma run_op_saved P op b :
  carried P -> fst (run_op op b) = Ok () -> forgiving op = false -> map_Forall P (op_book op (devices b)) ->
  everywhere P (snd (run_op op b)).
Proof.
  intros Hc. rewrite run_op_eq. unfold op_book. intros Hok Hf Hop. rewrite Hf in *.
  destruct (op_refusal op (devices b)); [done|]. set (b1 := set_book _ b) in *.
  destruct (persistLocked b1) as [r b'] eqn:Hb. cbn [fst snd] in *. subst r. by eapply saved_everywhere.
Qed.

Lemma run_op_everywhere P op b :
  carried P -> everywhere P b -> map_Forall P (op_book op (devices b)) -> everywhere P (snd (run_op op b)).
Proof.
  intros Hc [Hb Hf] Hop. rewrite run_op_eq. unfold op_book in Hop.
  destruct (op_refusal op (devices b)); [done|]. set (b1 := set_book _ b).
  pose proof (persistLocked_cases b1) as Hcs. pose proof (persistLocked_reg b1) as Hr.
  pose proof (saved_everywhere P b1) as Hs.
  destruct (persistLocked b1) as [[[]|e|] b']; cbn [snd] in *; [by apply Hs| |done].
  split; [unfold devices; by rewrite Hr|]. rewrite Hr, Hcs. exact Hf.
Qed.

Lemma Open_everywhere P path w r w' :
  (forall raw f, disk w !! path = Some raw -> reg_Unmarshal raw = Some f ->
                 map_Forall P (index_devices (rf_Devices f))) ->
  Open path w = (Ok r, w') -> everywhere P (MkRState r w').
Proof.
  intros Hf Ho. pose proof (Open_world path w) as Hw. rewrite Ho in Hw. cbn in Hw.
  revert Ho. unfold Open, ReadFile, file_op. destruct (faults w (ops w)); cbn; [done|].
  destruct (disk w !! path) as [raw|] eqn:Hd; cbn.
  - destruct (reg_Unmarshal raw) as [f|] eqn:Hu; [|done]. intros [= <- <-]. split; [by apply (Hf raw)|].
    cbn in *. rewrite Hd. intros ? ? [= <-] ?. by apply (Hf raw).
  - intros [= <- <-]. split; [apply map_Forall_empty|]. cbn in *. by rewrite Hd.
Qed.

(** ** What the file opens as *)

(** A property of whole books, of the one in memory and of the one in the file. *)
Definition opens (I : gmap bytes Device -> Prop) (b : RState) : Prop :=
  I (devices b) /\ stored_in I (disk (rs_world b) !! r_path (rs_reg b)).

(** Such a property goes through the file: the ids are text, and what JSON does
    to the other strings does not matter to it. *)
Definition portable (I : gmap bytes Device -> Prop) : Prop :=
  forall m, I m -> map_Forall (fun id d => d_ID d = id /\ mended id = id) m /\ I (mend_device <$> m).

(** A book saved under textual ids reads back with its devices mended. *)
Lemma index_mended (n : nat) (m : gmap bytes Device) :
  map_Forall (fun id d => d_ID d = id /\ mended id = id) m ->
  index_devices (map mend_device (by_PairedAt n m)) = mend_device <$> m.
Proof.
  intros Hm. apply index_devices_perm.
  - intros id d (d0 & <- & Hd)%lookup_fmap_Some. destruct (Hm _ _ Hd) as [Hi Ht]. cbn. by rewrite Hi.
  - rewrite by_PairedAt_perm, map_to_list_fmap. apply reflexive_eq.
    change (map mend_device (map_to_list m).*2) with (mend_device <$> (map_to_list m).*2).
    rewrite <- !list_fmap_compose. apply list_fmap_ext. by intros _ [k d] _.
Qed.

Lemma saved_opens I b b' : portable I -> persistLocked b = (Ok (), b') -> I (devices b) -> opens I b'.
Proof.
  intros Hp Hb HI. pose proof (persistLocked_cases b) as Hc. pose proof (persistLocked_reg b) as Hr.
  rewrite Hb in Hc, Hr. cbn [snd] in Hr. destruct Hc as (n & raw & Hraw & Hdisk). destruct (Hp _ HI) as [Hk Hm].
  split; [unfold devices; by rewrite Hr|]. rewrite Hr, Hdisk. eexists.
  split; [by apply (reg_reads_mended 1); [lia|]|]. cbn [rf_Devices]. by rewrite index_mended.
Qed.

Lemma run_op_opened I op b :
  portable I -> fst (run_op op b) = Ok () -> forgiving op = false -> I (op_book op (devices b)) ->
  opens I (snd (run_op op b)).
Proof.
  intros Hp. rewrite run_op_eq. unfold op_book. intros Hok Hf Hop. rewrite Hf in *.
  destruct (op_refusal op (devices b)); [done|]. set (b1 := set_book _ b) in *.
  destruct (persistLocked b1) as [r b'] eqn:Hb. cbn [fst snd] in *. subst r. by eapply saved_opens.
Qed.

Lemma run_op_opens I op b :
  portable I -> opens I b -> I (op_book op (devices b)) -> opens I (snd (run_op op b)).
Proof.
  intros Hp [Hb Hf] Hop. rewrite run_op_eq. unfold op_book in Hop.
  destruct (op_refusal op (devices b)); [done|]. set (b1 := set_book _ b).
  pose proof (persistLocked_cases b1) as Hcs. pose proof (persistLocked_reg b1) as Hr.
  pose proof (saved_opens I b1) as Hs.
  destruct (persistLocked b1) as [[[]|e|] b']; cbn [snd] in *; [by apply Hs| |done].
  split; [unfold devices; by rewrite Hr|]. rewrite Hr, Hcs. exact Hf.
Qed.

(** ** Runs of the methods in one process, while the rest of the world moves *)

Inductive evolves (ok : regop -> Prop) (b : RState) : RState -> Prop :=
| ev_refl : evolves ok b b
| ev_world b' w : evolves ok b b' -> disk w = disk (rs_world b') -> evolves ok b (put_world w b')
| ev_op b' op : evolves ok b b' -> ok op -> evolves ok b (snd (run_op op b')).

#[export] Instance evolves_preorder ok : PreOrder (evolves ok).
Proof.
  split; [intros b; constructor|]. intros b1 b2 b3 H12. induction 1; [done| |]; by econstructor.
Qed.

Lemma evolves_op (ok : regop -> Prop) op b : ok op -> evolves ok b (snd (run_op op b)).
Proof. by constructor; [constructor|]. Qed.
Lemma evolves_world ok w b : disk w = disk (rs_world b) -> evolves ok b (put_world w b).
Proof. by constructor; [constructor|]. Qed.

Lemma evolves_mono (ok ok' : regop -> Prop) b b' :
  (forall op, ok op -> ok' op) -> evolves ok b b' -> evolves ok' b b'.
Proof. intros Hok. induction 1; econstructor; eauto. Qed.

Lemma evolves_opens I (ok : regop -> Prop) b b' :
  portable I -> (forall op m, ok op -> I m -> I (op_book op m)) -> evolves ok b b' -> opens I b -> opens I b'.
Proof.
  intros Hp Hok He Hb. induction He as [|b' w _ [Hd Hf] Hw|b' op _ IH Hop]; [done|split; [done|]|].
  - cbn. by rewrite Hw.
  - apply run_op_opens; [done..|]. by apply Hok, IH.
Qed.

(** Through any sequence of method calls, I/O failures, crashes and
    restarts, every device in the book is filed under its own id, has a 32-octet
    key and a duplicate-free set of known capabilities; and the file always
    loads again, into such a book. *)
Theorem registry_life_wf path s :
  life path s ->
  book_wf (devices s) /\
  forall w, disk w !! path = disk (rs_world s) !! path -> faults w (ops w) = None ->
  exists r, fst (Open path w) = Ok r /\ book_wf (r_devices r).
Proof.
  intros (_ & Hb & Hs)%life_inv_holds. split; [done|]. intros w Hd Hf. rewrite <- Hd in Hs.
  destruct (disk w !! path) as [raw|] eqn:Hr.
  - destruct Hs as (f & Hu & Hw). exists (MkRegistry path (index_devices (rf_Devices f))).
    split; [by eapply Open_reads|done].
  - exists (empty_registry path). split; [|apply map_Forall_empty].
    unfold Open, ReadFile, file_op. rewrite Hf. cbn. by rewrite Hr.
Qed.

(** C11: each method implements its meaning on the abstract book. A refusal
    changes nothing. Otherwise the book changes in memory as [op_effect] says
    even when saving fails; success means that opening the file gives this very
    book, failure that the file is what it was; and without I/O faults saving
    fails only for an instant outside the years 0 to 9999. *)
Theorem registry_refines op s :
  book_wf (devices s) -> op_text_ok op ->
  let '(r, s') := run_op op s in
  devices s' = op_book op (devices s) /\
  match op_refusal op (devices s) with
  | Some e => s' = s /\ r = (if forgiving op then Ok () else Err e)
  | None =>
    r <> Panic /\
    (r = Ok () -> forgiving op = false ->
     forall w, disk w = disk (rs_world s') -> faults w (ops w) = None ->
     fst (Open (r_path (rs_reg s)) w) = Ok (rs_reg s')) /\
    (forall e, r = Err e ->
     disk (rs_world s') !! r_path (rs_reg s) = disk (rs_world s) !! r_path (rs_reg s)) /\
    ((forall i, faults (rs_world s) i = None) ->
     map_Forall (fun _ d => device_printable d) (op_effect op (devices s)) -> r = Ok ())
  end.
Proof.
  intros Hb Ho. pose proof (run_op_devices op s) as [Hd Hp]. pose proof (op_book_wf op _ Ho Hb) as Hb'.
  rewrite run_op_eq in *. unfold op_book in *.
  destruct (op_refusal op (devices s)) as [e|]; [done|].
  set (s1 := set_book (op_effect op (devices s)) s) in *.
  pose proof (persistLocked_cases s1) as Hc. pose proof (persistLocked_reg s1) as Hr.
  pose proof (fun Hf Hpr => persistLocked_Ok s1 Hf Hb' Hpr) as Hlive.
  destruct (persistLocked s1) as [r s']; cbn in Hd, Hp, Hr, Hlive. split; [done|].
  destruct r as [[]|e|]; [| |done].
  2: { split_and!; [by destruct (forgiving op)..|]. intros Hf Hpr. by specialize (Hlive Hf Hpr). }
  split_and!; [by destruct (forgiving op)| |by destruct (forgiving op)|by destruct (forgiving op)].
  intros _ _ w Hw Hf. destruct Hc as (n & raw & Hm & Hdisk).
  apply saved_reads in Hm as [Hu Hi]; [|done].
  rewrite (Open_reads (r_path (rs_reg s)) w raw _ Hf ltac:(rewrite Hw; exact Hdisk) Hu).
  cbn [rf_Devices]. by rewrite Hi, Hr.
Qed.

(** C20: a damaged file is refused. Whatever part of a saved file is left after
    its end was cut off, opening it is an error, never an empty or a smaller
    book. *)
Theorem Open_refuses_truncated n m raw path k w :
  book_wf m -> reg_Marshal (MkRegistryFile 1 (by_PairedAt n m)) = Some raw ->
  disk w !! path = Some (take k raw) -> faults w (ops w) = None ->
  fst (Open path w) = if (k <? length raw)%nat then Err EFileNotJSON else Ok (MkRegistry path m).
Proof.
  intros Hm Hr Hd Hf. destruct (Nat.ltb_spec k (length raw)) as [Hk|Hk].
  - unfold Open, ReadFile, file_op. rewrite Hf. cbn. rewrite Hd.
    unfold reg_Unmarshal. by rewrite (Unmarshal_truncated _ _ _ Hr Hk).
  - rewrite take_ge in Hd by done. apply saved_reads in Hr as [Hu Hi]; [|done].
    rewrite (Open_reads path w raw _ Hf Hd Hu). cbn [rf_Devices]. by rewrite Hi.
Qed.
End safety.

(** What parses is not checked further: these documents open as an empty book,
    and an entry without an id or a key becomes a device. *)
Definition empty_documents : list bytes :=
  map apos [str "null"; str "{}"; str "{'version': 9}"; str "{'devices': null}"; str " {'Devices': []} "].
Definition keyless_document : bytes := apos (str "{'version': 1, 'devices': [{'id': 'phone'}]}").

Theorem Open_checks_nothing_else path w raw :
  disk w !! path = Some raw -> faults w (ops w) = None ->
  (raw ∈ empty_documents -> fst (Open path w) = Ok (empty_registry path)) /\
  (raw = keyless_document ->
   fst (Open path w) =
   Ok (MkRegistry path {[str "phone" := MkDevice (str "phone") [] [] [] [] zeroTime zeroTime None]})).
Proof.
  intros Hd Hf.
  assert (forall f, reg_Unmarshal raw = Some f ->
                    fst (Open path w) = Ok (MkRegistry path (index_devices (rf_Devices f)))) as Hopen.
  { intros f Hu. unfold Open, ReadFile, file_op. rewrite Hf. cbn. by rewrite Hd, Hu. }
  split; [|intros ->; by rewrite (Hopen (MkRegistryFile 1 [MkDevice (str "phone") [] [] [] [] zeroTime zeroTime None])) by by vm_compute].
  unfold empty_documents. cbn [map]. rewrite !elem_of_cons, elem_of_nil.
  assert (forall v, reg_Unmarshal raw = Some (MkRegistryFile v []) -> fst (Open path w) = Ok (empty_registry path)) as He
    by (intros v Hu; by rewrite (Hopen _ Hu)).
  intros [->|[->|[->|[->|[->|[]]]]]]; [apply (He 0)|apply (He 0)|apply (He 9)|apply (He 0)|apply (He 0)]; by vm_compute.
Qed.

Section authority.
Context `{RegistryLib}.

(** The authorization check. A device may use a capability exactly when it
    is in the book, carries no tombstone and was granted it; each refusal has
    its own reason. *)
Theorem Allowed_spec id cap r :
  match Allowed id cap r with
  | Ok _ => exists d, Get id r = Some d /\ d_RevokedAt d = None /\ cap ∈ d_Capabilities d
  | Err ErrNotFound => Get id r = None
  | Err ErrRevoked => exists d t, Get id r = Some d /\ d_RevokedAt d = Some t
  | Err (ELacks i c) =>
    i = id /\ c = cap /\
    exists d, Get id r = Some d /\ d_RevokedAt d = None /\ cap ∉ d_Capabilities d
  | _ => False
  end.
Proof.
  unfold Allowed, Get, Revoked. destruct (r_devices r !! id) as [d|]; [|done].
  destruct (d_RevokedAt d) as [t|] eqn:Hr.
  - rewrite bool_decide_eq_true_2 by done. eauto.
  - rewrite bool_decide_eq_false_2 by naive_solver. case_bool_decide; cbn; naive_solver.
Qed.

Lemma Allowed_revoked id cap r d :
  r_devices r !! id = Some d -> Revoked d = true -> Allowed id cap r = Err ErrRevoked.
Proof. unfold Allowed. by intros -> ->. Qed.

Lemma op_book_revoked op id d m :
  (forall d', op = OAdd d' -> d_ID d' <> id) -> m !! id = Some d -> Revoked d = true ->
  exists d', op_book op m !! id = Some d' /\ d_RevokedAt d' = d_RevokedAt d.
Proof.
  intros Ha Hd Hr. unfold op_book. destruct (op_refusal op m); [eauto|].
  destruct op as [d'|i caps|i t|i t]; cbn [op_effect].
  - exists d. by rewrite lookup_insert_ne by eauto.
  - destruct (decide (i = id)) as [->|]; [|rewrite lookup_alter_ne by done; eauto].
    rewrite lookup_alter_eq, Hd. cbn. eauto.
  - destruct (decide (i = id)) as [->|]; [|rewrite lookup_alter_ne by done; eauto].
    rewrite lookup_alter_eq, Hd. cbn. eauto.
  - destruct (decide (i = id)) as [->|]; [|rewrite lookup_alter_ne by done; eauto].
    rewrite lookup_alter_eq, Hd. cbn. rewrite Hr. eauto.
Qed.

Lemma Revoked_spec d : Revoked d = true <-> exists t, d_RevokedAt d = Some t.
Proof. unfold Revoked. rewrite bool_decide_eq_true. destruct (d_RevokedAt d); naive_solver. Qed.

(** [id] is filed with a tombstone of that time. *)
Definition tombstoned (id : bytes) (t : time) (m : gmap bytes Device) : Prop :=
  exists d, m !! id = Some d /\ d_RevokedAt d = Some t.

Lemma op_book_tombstoned op id t m :
  (forall d, op = OAdd d -> d_ID d <> id) -> tombstoned id t m -> tombstoned id t (op_book op m).
Proof.
  intros Ha (d & Hd & Ht). destruct (op_book_revoked op id d m) as (d' & ? & ?); [done..|apply Revoked_spec; eauto|].
  exists d'. split; congruence.
Qed.

Lemma op_book_Revoke id t d m :
  m !! id = Some d -> tombstoned id (default t (d_RevokedAt d)) (op_book (ORevoke id t) m).
Proof.
  intros Hd. unfold op_book, tombstoned. cbn [op_refusal op_effect]. rewrite Hd, lookup_alter_eq, Hd. cbn.
  eexists. split; [done|]. unfold Revoked. by destruct (d_RevokedAt d) eqn:E.
Qed.
End authority.

Section finality.
Context `{RegistryLibLaws}.

(** What stays true after a revocation: of the book, and of the file if the
    process may restart. *)
Definition revoked_inv (path id : bytes) (t : time) (restarts : bool) (s : RState) : Prop :=
  life_inv path s /\ tombstoned id t (devices s) /\
  (restarts = true -> stored_in (tombstoned id t) (disk (rs_world s) !! path)).

Lemma later_revoked path id t restarts s s' :
  later path id restarts s s' -> revoked_inv path id t restarts s -> revoked_inv path id t restarts s'.
Proof.
  induction 1 as [s|s s' op Hl IH Ho Ha|s s' w Hl IH Hd|s s' r w' Hr Hl IH Ho]; intros Hs; [done|..];
    destruct (IH Hs) as (Hi & Ht & Hf).
  - pose proof (op_book_tombstoned op id t _ Ha Ht) as Ht'. split_and!.
    + by apply life_inv_op.
    + by rewrite (proj1 (run_op_devices op s')).
    + intros Hr. destruct Hi as (<- & Hb & _). apply run_op_stored; [done..|]. by apply Hf.
  - destruct Hi as (? & ? & ?). split_and!; [|done|cbn; by rewrite Hd].
    split_and!; [done..|]. cbn. by rewrite Hd.
  - split; [by eapply life_inv_restart|]. specialize (Hf Hr). apply (Open_inv _ _ _ _ _ Hf) in Ho as (_ & ? & Hw).
    split; [done|]. intros _. cbn. by rewrite Hw.
Qed.

(** C12: revocation is final until the key pairs again. Once [Revoke] has run on
    a known device, no sequence of other methods, whatever I/O failures they
    meet, makes any capability of it allowed, and its tombstone keeps the time
    of the first revocation, even when saving the tombstone failed; and when
    [Revoke] reported success this stays so across crashes and restarts of the
    process. Only [Add] of the same id lifts it. *)
Theorem revocation_is_final path id d t s r s1 restarts s' :
  life path s -> devices s !! id = Some d -> Revoke id t s = (r, s1) ->
  (restarts = true -> r = Ok ()) -> later path id restarts s1 s' ->
  (forall cap, Allowed id cap (rs_reg s') = Err ErrRevoked) /\
  exists d', Get id (rs_reg s') = Some d' /\ d_RevokedAt d' = Some (default t (d_RevokedAt d)).
Proof.
  intros Hl%life_inv_holds Hd Hr Hok Hlater. change (Revoke id t s) with (run_op (ORevoke id t) s) in Hr.
  pose proof (op_book_Revoke id t d _ Hd) as Ht. set (t' := default t (d_RevokedAt d)) in *.
  assert (revoked_inv path id t' restarts s1) as Hinv.
  { pose proof (life_inv_op path (ORevoke id t) s I Hl) as Hi.
    pose proof (proj1 (run_op_devices (ORevoke id t) s)) as Hb.
    destruct Hl as (<- & Hwf & _). pose proof (run_op_saves (tombstoned id t') (ORevoke id t) s I Hwf Ht) as Hs.
    rewrite Hr in Hi, Hb, Hs. cbn [snd] in *. split_and!; [done|by rewrite Hb|].
    intros Hre. apply Hs; [by apply Hok|done|]. cbn [op_refusal]. by rewrite Hd. }
  destruct (later_revoked _ _ _ _ _ _ Hlater Hinv) as (_ & (d' & Hd' & Ht') & _). split; [|by exists d'].
  intros cap. eapply Allowed_revoked; [done|]. apply Revoked_spec. eauto.
Qed.
End finality.

Section grants.
Context `{RegistryLib}.

(** What a pairing grants. When [Add] is not refused, the device is in the
    book with exactly the known capabilities it asked for, without duplicates,
    allowed to use those and no others, and it replaces whatever was filed
    under its id, tombstone included. *)
Theorem Add_grants d s :
  op_refusal (OAdd d) (devices s) = None -> d_RevokedAt d = None ->
  let r := rs_reg (snd (Add d s)) in
  (exists d', Get (d_ID d) r = Some d' /\ NoDup (d_Capabilities d') /\ d_PublicKey d' = d_PublicKey d) /\
  (forall cap, Allowed (d_ID d) cap r = Ok () <-> cap ∈ d_Capabilities d /\ KnownCapability cap = true) /\
  (forall id, id <> d_ID d -> Get id r = Get id (rs_reg s)).
Proof.
  intros Hn Hr. pose proof (proj1 (run_op_devices (OAdd d) s)) as Hd. unfold op_book in Hd.
  rewrite Hn in Hd. cbn [run_op op_effect] in Hd. unfold devices in Hd. cbv zeta. unfold Get, Allowed.
  rewrite Hd, lookup_insert_eq. destruct (filter_caps_spec (d_Capabilities d)) as [Hnd Hin].
  split_and!; [by eexists| |intros id ?; by rewrite lookup_insert_ne].
  intros cap. unfold Revoked. cbn [set_Capabilities d_RevokedAt d_Capabilities].
  rewrite Hr, bool_decide_eq_false_2 by naive_solver. rewrite <- Hin.
  case_bool_decide; cbn; naive_solver.
Qed.
End grants.

(** ** An instance, for evaluating examples *)

Definition paired_before (a b : Device) : Prop := d_PairedAt a <= d_PairedAt b.
#[export] Instance paired_before_dec : RelDecision paired_before.
Proof. intros a b. unfold paired_before. apply _. Defined.

#[export] Instance toy_registry_lib : RegistryLib := {|
  by_PairedAt _ m := merge_sort paired_before ((map_to_list m).*2) |}.

#[export] Instance toy_registry_laws : RegistryLibLaws.
Proof. constructor. intros n m. apply merge_sort_Permutation. Qed.

(** ** Witnesses *)

Definition phone : Device :=
  MkDevice (str "phone") (str "Phone") [] (repeat x2a 32)
    [CapAgentAnswer; str "root"; CapStatusRead; CapAgentAnswer] 5 0 None.
Definition fresh_book : RState := MkRState (empty_registry (str "/reg.json")) (calm 5 x01).

Lemma fresh_book_wf : book_wf (devices fresh_book).
Proof. apply map_Forall_empty. Qed.

Lemma phone_effect_printable : map_Forall (fun _ d => device_printable d) (op_effect (OAdd phone) (devices fresh_book)).
Proof.
  cbn [op_effect]. apply map_Forall_insert_2; [|apply map_Forall_empty].
  repeat split; by apply (bool_decide_unpack _).
Qed.

Lemma phone_text : op_text_ok (OAdd phone).
Proof. repeat apply List.Forall_cons; done. Qed.

Lemma registry_refines_witness :
  let s' := snd (Add phone fresh_book) in
  fst (Add phone fresh_book) = Ok () /\
  fst (Open (str "/reg.json") (rs_world s')) = Ok (rs_reg s').
Proof.
  intros s'. pose proof (registry_refines (OAdd phone) fresh_book fresh_book_wf phone_text) as H.
  assert (op_refusal (OAdd phone) (devices fresh_book) = None) as Hn by (vm_compute; reflexivity).
  unfold s'. change (Add phone fresh_book) with (run_op (OAdd phone) fresh_book).
  assert (faults (rs_world (snd (run_op (OAdd phone) fresh_book)))
            (ops (rs_world (snd (run_op (OAdd phone) fresh_book)))) = None) as Hf by (vm_compute; reflexivity).
  destruct (run_op _ _) as [r s1]. cbn [fst snd] in *. destruct H as [_ H]. rewrite Hn in H.
  destruct H as (_ & H & _ & Hok). specialize (Hok (fun _ => eq_refl) phone_effect_printable).
  split; [exact Hok|]. by apply (H Hok eq_refl (rs_world s1) eq_refl).
Defined.

(** The file of one phone, and what is left of it after 100 octets. *)
Definition phone_file : registryFile := MkRegistryFile 1 [set_Capabilities [CapStatusRead] phone].
Definition phone_book : gmap bytes Device := {[str "phone" := set_Capabilities [CapStatusRead] phone]}.

Example phone_file_text :
  reg_Marshal phone_file = Some (apos (Join (map str
    ["{"; "  'version': 1,"; "  'devices': ["; "    {"; "      'id': 'phone',"; "      'name': 'Phone',";
     "      'publicKey': 'KioqKioqKioqKioqKioqKioqKioqKioqKioqKioqKio=',"; "      'capabilities': [";
     "        'status.read'"; "      ],"; "      'pairedAt': '0001-01-01T00:00:00.000000005Z'"; "    }"; "  ]"; "}"])
    [x0a])).
Proof. vm_compute. reflexivity. Qed.

Lemma Open_refuses_truncated_witness :
  let raw := default [] (reg_Marshal phone_file) in
  fst (Open (str "/reg.json") (set_disk {[str "/reg.json" := take 100 raw]} (calm 5 x01))) = Err EFileNotJSON /\
  fst (Open (str "/reg.json") (set_disk {[str "/reg.json" := take 1000 raw]} (calm 5 x01))) =
    Ok (MkRegistry (str "/reg.json") phone_book).
Proof.
  intros raw.
  assert (book_wf phone_book) as Hwf.
  { apply map_Forall_singleton. split; [done|]. split; [done|]. split; [apply list.NoDup_singleton|].
    split; repeat apply List.Forall_cons; done. }
  assert (reg_Marshal (MkRegistryFile 1 (by_PairedAt 0 phone_book)) = Some raw) as Hr by (vm_compute; reflexivity).
  split.
  - rewrite (Open_refuses_truncated 0 phone_book raw (str "/reg.json") 100); [done|exact Hwf|exact Hr| |done].
    cbn [disk set_disk]. by rewrite lookup_singleton_eq.
  - rewrite (Open_refuses_truncated 0 phone_book raw (str "/reg.json") 1000); [done|exact Hwf|exact Hr| |done].
    cbn [disk set_disk]. by rewrite lookup_singleton_eq.
Defined.

Lemma Open_checks_nothing_else_witness :
  fst (Open (str "/reg.json") (set_disk {[str "/reg.json" := str "null"]} (calm 5 x01))) =
  Ok (empty_registry (str "/reg.json")).
Proof.
  apply (Open_checks_nothing_else (str "/reg.json") _ (str "null")); [|done|].
  - cbn [disk set_disk]. by rewrite lookup_singleton_eq.
  - by left.
Defined.

Lemma phone_book_life : life (str "/reg.json") (snd (run_op (OAdd phone) fresh_book)).
Proof.
  apply life_op; [|repeat apply List.Forall_cons; done].
  apply (life_env _ (MkRState (empty_registry (str "/reg.json")) (next_op (calm 5 x01)))); [|done].
  by apply (life_first _ (calm 5 x01)).
Qed.

Lemma registry_life_wf_witness :
  let s := snd (run_op (OAdd phone) fresh_book) in
  life (str "/reg.json") s /\ devices s <> ∅ /\ book_wf (devices s).
Proof.
  intros s.
  assert (life (str "/reg.json") s) as Hl by exact phone_book_life.
  split; [done|]. split; [by intros H%(f_equal size); vm_compute in H|].
  by apply (registry_life_wf (str "/reg.json") s).
Defined.

(** Revoked, touched, and read back by a new process. *)
Lemma revocation_is_final_witness :
  let s := snd (Add phone fresh_book) in
  let s1 := snd (Revoke (str "phone") 8 s) in
  let s2 := snd (run_op (OTouch (str "phone") 9) s1) in
  Allowed (str "phone") CapStatusRead (rs_reg s) = Ok () /\
  exists r w, Open (str "/reg.json") (rs_world s2) = (Ok r, w) /\
    Allowed (str "phone") CapStatusRead r = Err ErrRevoked.
Proof.
  intros s s1 s2. split; [by vm_compute|].
  destruct (Open (str "/reg.json") (rs_world s2)) as [[r|e|] w] eqn:Ho; [|by vm_compute in Ho..].
  exists r, w. split; [done|].
  apply (revocation_is_final (str "/reg.json") (str "phone") (set_Capabilities [CapAgentAnswer; CapStatusRead] phone) 8
           s (Ok ()) s1 true (MkRState r w)).
  - exact phone_book_life.
  - by vm_compute.
  - by vm_compute.
  - done.
  - apply (later_restart _ _ _ _ s2); [done| |exact Ho]. apply later_op; [apply later_refl|done|done].
Defined.

Lemma Add_grants_witness :
  Allowed (str "phone") (str "root") (rs_reg (snd (Add phone fresh_book))) <> Ok () /\
  Allowed (str "phone") CapStatusRead (rs_reg (snd (Add phone fresh_book))) = Ok ().
Proof.
  destruct (Add_grants phone fresh_book) as (_ & H & _); [by vm_compute|done|].
  split; [rewrite (H (str "root")); intros [_ Hk]; by vm_compute in Hk|].
  apply H. split; [apply (bool_decide_eq_true_1 _); by vm_compute|by vm_compute].
Defined.

(** A pairing whose save fails is reported as an error and yet is live: the
    device may use its capabilities until the process ends, and is unknown
    after a restart. *)
Theorem failed_Add_is_live :
  exists w, let s := MkRState (empty_registry (str "/reg.json")) w in
    fst (Add phone s) = Err (ERegIO EIO) /\
    Allowed (str "phone") CapStatusRead (rs_reg (snd (Add phone s))) = Ok () /\
    exists r, fst (Open (str "/reg.json") (rs_world (snd (Add phone s)))) = Ok r /\
              Allowed (str "phone") CapStatusRead r = Err ErrNotFound.
Proof.
  exists (MkWorld (fun _ => 5) 0 (fun _ => None) 0 ∅
            (fun i => if (i =? 1)%nat then Some (FailAfter 7) else None) 0).
  cbv zeta. split; [by vm_compute|]. split; [by vm_compute|].
  exists (empty_registry (str "/reg.json")). split; by vm_compute.
Qed.
