(* ===== verification/Tokens.v ===== *)
(** * Session tokens and challenge nonces (link/tokens.go)

    Two maps, each under its own lock, so every method is an atomic step. The
    random octets are drawn before the lock is taken. *)

From S2P Require Import Prelude BaseN GoTime GoOS.

Definition tokenTTL : Z := 24 * Hour.
Definition nonceTTL : Z := 60 * Second.

(** The entries of both maps: whose it is and until when. *)
Record session := MkSession { s_deviceID : bytes; s_expires : time }.
Record nonce := MkNonce { n_deviceID : bytes; n_expires : time }.

Record tokens := MkTokens { sessions : gmap bytes session }.
Record nonces := MkNonces { issued : gmap bytes nonce }.

Definition newTokens : tokens := MkTokens ∅.
Definition newNonces : nonces := MkNonces ∅.

(** ** Tokens *)

(** What [tokens.mint] does once the octets are drawn. *)
Definition token_insert (tok deviceID : bytes) (now : time) (t : tokens) : tokens :=
  MkTokens (<[tok := MkSession deviceID (Add now tokenTTL)]> (sessions t)).

Definition token_mint (deviceID : bytes) (now : time) (t : tokens)
    : SE World oserr (bytes * time * tokens) :=
  raw ← rand_Read 32;
  let tok := RawURLEncode raw in
  let exp := Add now tokenTTL in
  mret (tok, exp, token_insert tok deviceID now t).

(** The empty device id stands for "unknown or expired". *)
Definition token_resolve (tok : bytes) (now : time) (t : tokens) : bytes * tokens :=
  match sessions t !! tok with
  | None => ([], t)
  | Some s =>
    if negb (Before now (s_expires s)) then ([], MkTokens (delete tok (sessions t)))
    else (s_deviceID s, t)
  end.

Definition token_dropDevice (deviceID : bytes) (t : tokens) : tokens :=
  MkTokens (filter (fun kv => s_deviceID (snd kv) <> deviceID) (sessions t)).

(** ** Nonces *)

Definition nonce_insert (raw deviceID : bytes) (now : time) (n : nonces) : nonces :=
  let swept := filter (fun kv => Before now (n_expires (snd kv)) = true) (issued n) in
  MkNonces (<[RawURLEncode raw := MkNonce deviceID (Add now nonceTTL)]> swept).

Definition nonce_mint (deviceID : bytes) (now : time) (n : nonces)
    : SE World oserr (bytes * time * nonces) :=
  raw ← rand_Read 32;
  let exp := Add now nonceTTL in
  mret (raw, exp, nonce_insert raw deviceID now n).

Definition nonce_consume (raw deviceID : bytes) (now : time) (n : nonces) : bool * nonces :=
  let key := RawURLEncode raw in
  match issued n !! key with
  | None => (false, n)
  | Some v =>
    (Before now (n_expires v) && bool_decide (n_deviceID v = deviceID), MkNonces (delete key (issued n)))
  end.

(** ** Histories *)

Inductive token_event :=
| TMint (tok deviceID : bytes) (now : time)
| TResolve (tok : bytes) (now : time)
| TDrop (deviceID : bytes).

Definition token_step (t : tokens) (e : token_event) : tokens :=
  match e with
  | TMint tok d now => token_insert tok d now t
  | TResolve tok now => snd (token_resolve tok now t)
  | TDrop d => token_dropDevice d t
  end.
Definition token_run (h : list token_event) : tokens := fold_left token_step h newTokens.

Inductive nonce_event :=
| NMint (raw deviceID : bytes) (now : time)
| NConsume (raw deviceID : bytes) (now : time).

Definition nonce_step (n : nonces) (e : nonce_event) : nonces :=
  match e with
  | NMint raw d now => nonce_insert raw d now n
  | NConsume raw d now => snd (nonce_consume raw d now n)
  end.
Definition nonce_run (h : list nonce_event) : nonces := fold_left nonce_step h newNonces.

(** An event that leaves a live token, or a live nonce, as it is. *)
Definition token_undisturbed (tok deviceID : bytes) (expires : time) (e : token_event) : Prop :=
  match e with
  | TMint tok' _ _ => tok' <> tok
  | TResolve tok' now => tok' <> tok \/ now < expires
  | TDrop d => d <> deviceID
  end.

Definition nonce_undisturbed (raw : bytes) (expires : time) (e : nonce_event) : Prop :=
  match e with
  | NMint raw' _ now => raw' <> raw /\ now < expires
  | NConsume raw' _ _ => raw' <> raw
  end.

(** ** Lemmas: one entry along a history *)

Definition token_sets (tok : bytes) (e : token_event) : option session :=
  match e with
  | TMint tok' d now => if bool_decide (tok' = tok) then Some (MkSession d (Add now tokenTTL)) else None
  | _ => None
  end.
Definition token_keeps (tok : bytes) (e : token_event) (s : session) : bool :=
  match e with
  | TMint _ _ _ => true
  | TResolve tok' now => negb (bool_decide (tok' = tok)) || Before now (s_expires s)
  | TDrop d => negb (bool_decide (s_deviceID s = d))
  end.

Definition nonce_sets (raw : bytes) (e : nonce_event) : option nonce :=
  match e with
  | NMint raw' d now => if bool_decide (raw' = raw) then Some (MkNonce d (Add now nonceTTL)) else None
  | _ => None
  end.
Definition nonce_keeps (raw : bytes) (e : nonce_event) (n : nonce) : bool :=
  match e with
  | NMint _ _ now => Before now (n_expires n)
  | NConsume raw' _ _ => negb (bool_decide (raw' = raw))
  end.

Lemma token_step_lookup tok t e :
  sessions (token_step t e) !! tok =
  match token_sets tok e with
  | Some s => Some s
  | None => match sessions t !! tok with
            | Some s => if token_keeps tok e s then Some s else None
            | None => None
            end
  end.
Proof.
  destruct e as [tok' d now|tok' now|d]; cbn [token_step token_sets token_keeps].
  - unfold token_insert. cbn [sessions]. case_bool_decide as Hne.
    + subst. by rewrite lookup_insert_eq.
    + rewrite lookup_insert_ne by done. by destruct (sessions t !! tok).
  - unfold token_resolve. case_bool_decide as Hne; cbn [negb orb].
    + subst. destruct (sessions t !! tok) as [s|] eqn:Hs; cbn; [|by rewrite Hs].
      destruct (Before now (s_expires s)); cbn; [by rewrite Hs|by rewrite lookup_delete_eq].
    + destruct (sessions t !! tok') as [s'|]; [destruct (negb _)|]; cbn;
        rewrite ?lookup_delete_ne by done; by destruct (sessions t !! tok).
  - unfold token_dropDevice. cbn [sessions]. rewrite map_lookup_filter.
    destruct (sessions t !! tok) as [s|]; cbn; [|done]. case_guard; case_bool_decide; done.
Qed.

Lemma nonce_step_lookup raw n e :
  issued (nonce_step n e) !! RawURLEncode raw =
  match nonce_sets raw e with
  | Some s => Some s
  | None => match issued n !! RawURLEncode raw with
            | Some s => if nonce_keeps raw e s then Some s else None
            | None => None
            end
  end.
Proof.
  destruct e as [raw' d now|raw' d now]; cbn [nonce_step nonce_sets nonce_keeps].
  - unfold nonce_insert. cbn [issued]. case_bool_decide as Hne.
    + subst. by rewrite lookup_insert_eq.
    + rewrite lookup_insert_ne by (intros ?%(inj RawURLEncode); done). rewrite map_lookup_filter.
      destruct (issued n !! RawURLEncode raw) as [s|]; cbn; [|done].
      case_guard as Hg; cbn in Hg; destruct (Before now (n_expires s)); done.
  - unfold nonce_consume. case_bool_decide as Hne; cbn [negb].
    + subst. destruct (issued n !! RawURLEncode raw) as [s|] eqn:Hs; cbn;
        [by rewrite lookup_delete_eq|by rewrite Hs].
    + assert (RawURLEncode raw' <> RawURLEncode raw) by (intros ?%(inj RawURLEncode); done).
      destruct (issued n !! RawURLEncode raw') as [s|]; cbn; [rewrite lookup_delete_ne by done|];
        by destruct (issued n !! RawURLEncode raw).
Qed.

Lemma token_run_lookup tok h s :
  sessions (token_run h) !! tok = Some s <->
  exists h1 e h2, h = h1 ++ e :: h2 /\ token_sets tok e = Some s /\
    Forall (fun e' => token_sets tok e' = None /\ token_keeps tok e' s = true) h2.
Proof.
  apply (cell_history (fun h => sessions (token_run h) !! tok)); [done|].
  intros h' e. unfold token_run. rewrite fold_left_app. apply token_step_lookup.
Qed.

Lemma nonce_run_lookup raw h n :
  issued (nonce_run h) !! RawURLEncode raw = Some n <->
  exists h1 e h2, h = h1 ++ e :: h2 /\ nonce_sets raw e = Some n /\
    Forall (fun e' => nonce_sets raw e' = None /\ nonce_keeps raw e' n = true) h2.
Proof.
  apply (cell_history (fun h => issued (nonce_run h) !! RawURLEncode raw)); [done|].
  intros h' e. unfold nonce_run. rewrite fold_left_app. apply nonce_step_lookup.
Qed.

Lemma token_undisturbed_iff tok d exp e :
  token_undisturbed tok d exp e <->
  token_sets tok e = None /\ token_keeps tok e (MkSession d exp) = true.
Proof.
  destruct e as [tok' d' now|tok' now|d']; cbn.
  - case_bool_decide; naive_solver.
  - unfold Before. case_bool_decide; cbn; [rewrite Z.ltb_lt|]; naive_solver.
  - case_bool_decide; naive_solver.
Qed.

Lemma nonce_undisturbed_iff raw d exp e :
  nonce_undisturbed raw exp e <->
  nonce_sets raw e = None /\ nonce_keeps raw e (MkNonce d exp) = true.
Proof.
  destruct e as [raw' d' now|raw' d' now]; cbn.
  - unfold Before. rewrite Z.ltb_lt. case_bool_decide; naive_solver.
  - case_bool_decide; naive_solver.
Qed.

(** The entries, in terms of the mint that made them. *)
Lemma token_run_minted tok d exp h :
  sessions (token_run h) !! tok = Some (MkSession d exp) <->
  exists h1 t h2, h = h1 ++ TMint tok d t :: h2 /\ exp = t + 24 * Hour /\
                  Forall (token_undisturbed tok d exp) h2.
Proof.
  rewrite token_run_lookup. split.
  - intros (h1 & e & h2 & -> & Hs & Hf). destruct e as [tok' d' t| |]; [|done..]. cbn in Hs.
    case_bool_decide; simplify_eq. exists h1, t, h2. split_and!; [done|done|].
    eapply Forall_impl; [|done]. intros e. by rewrite <- token_undisturbed_iff.
  - intros (h1 & t & h2 & -> & -> & Hf). exists h1, (TMint tok d t), h2.
    split_and!; [done|cbn; by rewrite bool_decide_eq_true_2|].
    eapply Forall_impl; [|done]. intros e. by apply token_undisturbed_iff.
Qed.

Lemma nonce_run_minted raw d exp h :
  issued (nonce_run h) !! RawURLEncode raw = Some (MkNonce d exp) <->
  exists h1 t h2, h = h1 ++ NMint raw d t :: h2 /\ exp = t + 60 * Second /\
                  Forall (nonce_undisturbed raw exp) h2.
Proof.
  rewrite nonce_run_lookup. split.
  - intros (h1 & e & h2 & -> & Hs & Hf). destruct e as [raw' d' t|]; [|done]. cbn in Hs.
    case_bool_decide; simplify_eq. exists h1, t, h2. split_and!; [done|done|].
    eapply Forall_impl; [|done]. intros e. by rewrite <- nonce_undisturbed_iff.
  - intros (h1 & t & h2 & -> & -> & Hf). exists h1, (NMint raw d t), h2.
    split_and!; [done|cbn; by rewrite bool_decide_eq_true_2|].
    eapply Forall_impl; [|done]. intros e. by apply nonce_undisturbed_iff.
Qed.

(** A fresh entry is accepted until it expires. *)
Lemma consume_fresh raw d t now n :
  now < Add t nonceTTL ->
  fst (nonce_consume raw d now (nonce_insert raw d t n)) = true.
Proof.
  intros Hlt. unfold nonce_consume, nonce_insert. cbn [issued]. rewrite lookup_insert_eq.
  cbn [fst n_expires n_deviceID]. by rewrite (proj2 (Before_spec _ _) Hlt), bool_decide_eq_true_2.
Qed.

Lemma resolve_fresh tok d t now ts :
  now < Add t tokenTTL -> token_resolve tok now (token_insert tok d t ts) = (d, token_insert tok d t ts).
Proof.
  intros Hlt. unfold token_resolve, token_insert. cbn [sessions]. rewrite lookup_insert_eq.
  cbn [s_expires s_deviceID]. by rewrite (proj2 (Before_spec _ _) Hlt).
Qed.

(** ** Properties *)

(** C28: challenges are single-use, short-lived and bound. [consume] accepts
    octets exactly when they were minted for that very device less than sixty
    seconds ago and nothing has presented them since, for whatever device and
    with whatever outcome (nor has another mint swept them as expired). *)
Theorem nonce_single_use h raw d now :
  fst (nonce_consume raw d now (nonce_run h)) = true <->
  exists h1 t h2, h = h1 ++ NMint raw d t :: h2 /\ now < t + 60 * Second /\
    Forall (nonce_undisturbed raw (t + 60 * Second)) h2.
Proof.
  unfold nonce_consume. split.
  - destruct (issued (nonce_run h) !! RawURLEncode raw) as [[d' exp]|] eqn:Hn; [|done].
    cbn [fst n_expires n_deviceID]. rewrite andb_true_iff, Before_spec, bool_decide_eq_true.
    intros [Hlt ->]. apply nonce_run_minted in Hn as (h1 & t & h2 & -> & -> & Hf). eauto 10.
  - intros (h1 & t & h2 & Hh & Hlt & Hf).
    rewrite (proj2 (nonce_run_minted raw d (t + 60 * Second) h)) by eauto 10.
    cbn [fst n_expires n_deviceID]. by rewrite (proj2 (Before_spec _ _) Hlt), bool_decide_eq_true_2.
Qed.

(** C29: a token is a handle for one device for twenty-four hours. [resolve]
    answers a device exactly when the token was last minted for it less than
    that ago, its sessions have not been dropped since, and no late [resolve]
    has evicted it. *)
Theorem token_resolve_spec h tok d now :
  d <> [] ->
  fst (token_resolve tok now (token_run h)) = d <->
  exists h1 t h2, h = h1 ++ TMint tok d t :: h2 /\ now < t + 24 * Hour /\
    Forall (token_undisturbed tok d (t + 24 * Hour)) h2.
Proof.
  intros Hd. unfold token_resolve. split.
  - destruct (sessions (token_run h) !! tok) as [[d' exp]|] eqn:Hs; [|by intros <-].
    cbn [s_expires]. destruct (Before now exp) eqn:Hb; cbn [negb fst s_deviceID]; [|by intros <-].
    intros ->. apply Before_spec in Hb.
    apply token_run_minted in Hs as (h1 & t & h2 & -> & -> & Hf). eauto 10.
  - intros (h1 & t & h2 & Hh & Hlt & Hf).
    rewrite (proj2 (token_run_minted tok d (t + 24 * Hour) h)) by eauto 10.
    cbn [s_expires]. by rewrite (proj2 (Before_spec _ _) Hlt).
Qed.

(** The token map is not bounded by the live sessions: an expired entry
    leaves only when that very token is presented or its device dropped. However
    many other tokens are minted or resolved, and however late, it stays. *)
Theorem expired_tokens_stay tok d t h :
  Forall (fun e => match e with
                   | TMint tok' _ _ | TResolve tok' _ => tok' <> tok
                   | TDrop d' => d' <> d
                   end) h ->
  sessions (token_run (TMint tok d t :: h)) !! tok = Some (MkSession d (t + 24 * Hour)).
Proof.
  intros Hf. apply token_run_minted. exists [], t, h. split_and!; [done|done|].
  eapply Forall_impl; [|done]. intros []; cbn; auto.
Qed.

(** ** Witnesses *)

Lemma token_resolve_spec_witness :
  let h := [TMint (str "tok") (str "phone") 0; TResolve (str "tok") (24 * Hour - 1)] in
  fst (token_resolve (str "tok") (24 * Hour - 1) (token_run h)) = str "phone" /\
  fst (token_resolve (str "tok") (24 * Hour) (token_run h)) <> str "phone".
Proof.
  intros h. split; [|by vm_compute].
  apply (token_resolve_spec h (str "tok") (str "phone") (24 * Hour - 1)); [done|].
  exists [], 0, [TResolve (str "tok") (24 * Hour - 1)]. split_and!; [done|done|].
  constructor; [by right|constructor].
Defined.

Lemma expired_tokens_stay_witness :
  sessions (token_run [TMint (str "a") (str "phone") 0; TMint (str "b") (str "phone") (99 * Hour)])
    !! str "a" = Some (MkSession (str "phone") (24 * Hour)).
Proof. apply (expired_tokens_stay (str "a") (str "phone") 0). by repeat constructor. Defined.
