(* ===== verification/Chan.v ===== *)
(** * A watcher: a one-slot channel and a close signal

    Both hubs give every watcher a channel of capacity one and a channel that is
    only ever closed. A publisher sends while it holds the hub's lock and is the
    only sender; the watcher receives without the lock, so its receives fall
    between any two of the publisher's channel operations. The frames a watcher
    has received are kept as a log. *)

From Stdlib Require Import Sorting.Sorted.
From S2P Require Import Prelude.

Section chan.
Context {A : Type}.

Record chan := MkChan { ch_buf : option A; ch_got : list A }.
Definition newChan : chan := MkChan None [].

(** [select { case ch <- f: ... default: ... }]: whether it was sent. *)
Definition try_send (f : A) (ch : chan) : bool * chan :=
  match ch_buf ch with
  | None => (true, MkChan (Some f) (ch_got ch))
  | Some _ => (false, ch)
  end.

(** [select { case <-ch: default: }] by the publisher. *)
Definition drain (ch : chan) : chan := MkChan None (ch_got ch).

(** The watcher's receive, when there is something to receive. *)
Definition receive (ch : chan) : chan :=
  match ch_buf ch with
  | Some f => MkChan None (ch_got ch ++ [f])
  | None => ch
  end.

(** The publisher's offer: send, or else drain the stale frame and send again.
    [race] says whether the watcher receives before the drain and before the
    second send. The failure of the last send has no effect. *)
Definition offer (race : bool * bool) (f : A) (ch : chan) : chan :=
  let '(sent, ch) := try_send f ch in
  if sent then ch
  else
    let ch := if fst race then receive ch else ch in
    let ch := drain ch in
    let ch := if snd race then receive ch else ch in
    snd (try_send f ch).

Record subscriber := MkSub {
  sub_deviceID : bytes; updates : chan; once : bool; gone_closes : nat }.

Definition newSub (deviceID : bytes) : subscriber := MkSub deviceID newChan false 0.

Definition on_chan (g : chan -> chan) (s : subscriber) : subscriber :=
  MkSub (sub_deviceID s) (g (updates s)) (once s) (gone_closes s).

(** [s.once.Do(func() { close(s.gone) })] *)
Definition sub_close (s : subscriber) : subscriber :=
  if once s then s else MkSub (sub_deviceID s) (updates s) true (S (gone_closes s)).

(** The second close of a channel would panic. *)
Definition closed_once (s : subscriber) : Prop := gone_closes s = (if once s then 1 else 0)%nat.

Lemma closed_once_new d : closed_once (newSub d).
Proof. done. Qed.
Lemma closed_once_chan g s : closed_once s -> closed_once (on_chan g s).
Proof. done. Qed.
Lemma closed_once_close s : closed_once s -> closed_once (sub_close s).
Proof. unfold closed_once, sub_close. by destruct (once s) eqn:E; intros; rewrite ?E; cbn; [|lia]. Qed.

(** Whatever the watcher does meanwhile, an offer leaves the new frame in the
    slot, and the watcher has at most received the frame that was there. *)
Lemma offer_spec race f ch :
  ch_buf (offer race f ch) = Some f /\
  (ch_got (offer race f ch) = ch_got ch \/
   exists x, ch_buf ch = Some x /\ ch_got (offer race f ch) = ch_got ch ++ [x]).
Proof.
  unfold offer, try_send, receive, drain. destruct ch as [[x|] got], race as [[] []]; cbn; eauto.
Qed.

(** ** What a watcher sees

    [sq] numbers the frames; the opening frame had number [start] and [top] is
    the number of the last one offered. *)
Context (sq : A -> Z).

Definition stream (ch : chan) : list A := ch_got ch ++ option_list (ch_buf ch).

Record stream_ok (start top : Z) (ch : chan) : Prop := MkStreamOk {
  so_sorted : StronglySorted Z.lt (start :: map sq (stream ch));
  so_top : Forall (fun z => z <= top) (start :: map sq (stream ch)) }.

(** The newest frame the watcher has or can fetch at once. *)
Definition last_seen (opening : A) (ch : chan) : A := List.last (stream ch) opening.

Lemma sorted_snoc l z : StronglySorted Z.lt l -> Forall (fun y => y < z) l -> StronglySorted Z.lt (l ++ [z]).
Proof.
  induction 1 as [|x l Hs IH Hx]; intros Hz; cbn; [by repeat constructor|].
  apply Forall_cons_iff in Hz as [??]. constructor; [by apply IH|].
  apply Forall_app. split; [done|]. by repeat constructor.
Qed.

Lemma sorted_prefix l k : StronglySorted Z.lt (l ++ k) -> StronglySorted Z.lt l.
Proof.
  induction l as [|x l IH]; intros Hs; cbn in *; [constructor|].
  apply StronglySorted_inv in Hs as [Hs Hx]. apply Forall_app in Hx as [Hx _]. constructor; auto.
Qed.

Lemma stream_ok_new start : stream_ok start start newChan.
Proof. split; repeat constructor. lia. Qed.

Lemma stream_ok_top start top top' ch : stream_ok start top ch -> top <= top' -> stream_ok start top' ch.
Proof. intros [Hs Ht] Hle. split; [done|]. eapply Forall_impl; [|exact Ht]. cbn. lia. Qed.

Lemma stream_receive ch : stream (receive ch) = stream ch.
Proof. unfold stream, receive. destruct (ch_buf ch) as [f|] eqn:E; cbn; rewrite ?E; by rewrite ?app_nil_r. Qed.

Lemma stream_ok_receive start top ch : stream_ok start top ch -> stream_ok start top (receive ch).
Proof. intros [??]. split; by rewrite stream_receive. Qed.

Lemma stream_ok_offer start top race f ch :
  stream_ok start top ch -> top < sq f -> stream_ok start (sq f) (offer race f ch).
Proof.
  intros [Hs Ht] Hf. destruct (offer_spec race f ch) as [Hb Hg].
  assert (exists l, start :: map sq (stream (offer race f ch)) = l ++ [sq f] /\
                    exists k, start :: map sq (stream ch) = l ++ k) as (l & Hl & k & Hk).
  { unfold stream. rewrite Hb. cbn [option_list]. rewrite map_app. cbn [map].
    destruct Hg as [->|(x & Hx & ->)].
    - exists (start :: map sq (ch_got ch)). split; [done|]. rewrite map_app. eauto.
    - exists (start :: map sq (ch_got ch ++ [x])). split; [done|]. rewrite Hx. cbn [option_list].
      exists []. by rewrite app_nil_r. }
  rewrite Hk in Hs, Ht. apply sorted_prefix in Hs. apply Forall_app in Ht as [Ht _].
  split; rewrite Hl.
  - apply sorted_snoc; [done|]. eapply Forall_impl; [|exact Ht]. cbn. lia.
  - apply Forall_app. split; [|repeat constructor; lia]. eapply Forall_impl; [|exact Ht]. cbn. lia.
Qed.

Lemma last_seen_offer o race f ch : last_seen o (offer race f ch) = f.
Proof.
  unfold last_seen, stream. rewrite (proj1 (offer_spec race f ch)). cbn [option_list]. apply last_last.
Qed.

Lemma last_seen_receive o ch : last_seen o (receive ch) = last_seen o ch.
Proof. unfold last_seen. by rewrite stream_receive. Qed.
End chan.

Arguments chan : clear implicits.
Arguments subscriber : clear implicits.
