(* ===== verification/Hub.v ===== *)
(** * The status hub (link/hub.go)

    Watchers are pointers in the source: here numbers into a heap, which the
    hub's set and the stream that owns the watcher share. A method that unlocks
    before it closes a watcher is two atomic steps. *)

From Stdlib Require Import Sorting.Sorted.
From stdpp Require Import gmap sets.
From S2P Require Import Prelude GoTime Chan.
From S2P Require Projection.

Record frame := MkFrame { fr_status : Projection.Status; fr_at : time; fr_seq : Z }.

Record hub := MkHub {
  current : Projection.Status; at_ : time; seq : Z; subs : gset nat;
  heap : gmap nat (subscriber frame); next_sub : nat }.

Definition newHub : hub := MkHub Projection.zeroStatus zeroTime 0 ∅ ∅ 0.

Definition set_heap (m : gmap nat (subscriber frame)) (h : hub) : hub :=
  MkHub (current h) (at_ h) (seq h) (subs h) m (next_sub h).
Definition set_subs (s : gset nat) (h : hub) : hub :=
  MkHub (current h) (at_ h) (seq h) s (heap h) (next_sub h).

(** Apply a step to the watchers of a set. *)
Definition on_subs (who : gset nat) (g : nat -> subscriber frame -> subscriber frame) (h : hub) : hub :=
  set_heap (map_imap (fun i s => Some (if bool_decide (i ∈ who) then g i s else s)) (heap h)) h.

(** [publish]: clamp, number, retain, and offer to every watcher. [races] is
    what each watcher receives between the channel operations of its offer. *)
Definition publish (races : nat -> bool * bool) (s : Projection.Status) (now : time) (h : hub) : Z * hub :=
  let s := Projection.Status_Clamp s in
  let h := MkHub s now (w64 (seq h + 1)) (subs h) (heap h) (next_sub h) in
  let f := MkFrame s now (seq h) in
  (seq h, on_subs (subs h) (fun i => on_chan (offer (races i) f)) h).

Definition snapshot (h : hub) : Projection.Status * time * Z := (current h, at_ h, seq h).

Definition subscribe (deviceID : bytes) (h : hub) : nat * frame * hub :=
  let sub := next_sub h in
  (sub, MkFrame (current h) (at_ h) (seq h),
   MkHub (current h) (at_ h) (seq h) ({[sub]} ∪ subs h) (<[sub := newSub deviceID]> (heap h)) (S sub)).

(** The halves of [unsubscribe] and [dropDevice]: under the lock, after it. *)
Definition delete_sub (sub : nat) (h : hub) : hub := set_subs (subs h ∖ {[sub]}) h.
Definition close_sub (sub : nat) (h : hub) : hub := set_heap (alter sub_close sub (heap h)) h.
Definition unsubscribe (sub : nat) (h : hub) : hub := close_sub sub (delete_sub sub h).

Definition held_by (deviceID : bytes) (h : hub) (sub : nat) : Prop :=
  sub_deviceID <$> heap h !! sub = Some deviceID.
#[export] Instance held_by_dec deviceID h sub : Decision (held_by deviceID h sub).
Proof. unfold held_by. apply _. Defined.

Definition remove_device (deviceID : bytes) (h : hub) : gset nat * hub :=
  let doomed := filter (held_by deviceID h) (subs h) in
  (doomed, set_subs (subs h ∖ doomed) h).
Definition close_all (doomed : gset nat) (h : hub) : hub := on_subs doomed (fun _ => sub_close) h.
Definition dropDevice (deviceID : bytes) (h : hub) : hub :=
  let '(doomed, h) := remove_device deviceID h in close_all doomed h.

(** ** Histories: any interleaving of atomic steps *)

Inductive event :=
| EPublish (races : nat -> bool * bool) (s : Projection.Status) (now : time)
| ESubscribe (deviceID : bytes)
| EDelete (sub : nat)
| ERemoveDevice (deviceID : bytes)
| EClose (sub : nat)
| EReceive (sub : nat).

Definition step (h : hub) (e : event) : hub :=
  match e with
  | EPublish races s now => snd (publish races s now h)
  | ESubscribe d => snd (subscribe d h)
  | EDelete sub => delete_sub sub h
  | ERemoveDevice d => snd (remove_device d h)
  | EClose sub => close_sub sub h
  | EReceive sub => set_heap (alter (on_chan receive) sub (heap h)) h
  end.

Definition run (es : list event) : hub := fold_left step es newHub.

(** The opening frames the subscriptions of a history returned, by watcher. *)
Definition opening_step (st : hub * gmap nat frame) (e : event) : hub * gmap nat frame :=
  (step (fst st) e,
   match e with
   | ESubscribe d => let '(sub, o, _) := subscribe d (fst st) in <[sub := o]> (snd st)
   | _ => snd st
   end).
Definition openings (es : list event) : gmap nat frame :=
  snd (fold_left opening_step es (newHub, ∅)).

(** ** The invariant *)

Definition watcher_ok (top : Z) (latest : frame) (listed : bool) (o : frame) (s : subscriber frame) : Prop :=
  stream_ok fr_seq (fr_seq o) top (updates s) /\ closed_once s /\
  (listed = true -> last_seen o (updates s) = latest).

Record hub_inv (h : hub) (os : gmap nat frame) (n : Z) : Prop := MkHubInv {
  hi_seq : seq h = n;
  hi_fresh : forall i, (next_sub h <= i)%nat -> heap h !! i = None /\ os !! i = None;
  hi_dom : forall i, is_Some (heap h !! i) <-> is_Some (os !! i);
  hi_subs : forall i, i ∈ subs h -> is_Some (heap h !! i);
  hi_ok : forall i s o, heap h !! i = Some s -> os !! i = Some o ->
    watcher_ok n (MkFrame (current h) (at_ h) n) (bool_decide (i ∈ subs h)) o s }.

Definition is_publish (e : event) : bool := if e is EPublish _ _ _ then true else false.
Definition publishes (es : list event) : Z := Z.of_nat (length (List.filter is_publish es)).

Lemma lookup_on_subs who g h i :
  heap (on_subs who g h) !! i = (fun s => if bool_decide (i ∈ who) then g i s else s) <$> heap h !! i.
Proof. cbn. rewrite map_lookup_imap. by destruct (heap h !! i). Qed.

Lemma watcher_ok_unlisted top latest listed o s :
  watcher_ok top latest listed o s -> watcher_ok top latest false o s.
Proof. unfold watcher_ok. intros (? & ? & _). by split_and!. Qed.

(** Steps that only shrink the list of watchers. *)
Lemma hub_inv_unlist X h os n : hub_inv h os n -> hub_inv (set_subs (subs h ∖ X) h) os n.
Proof.
  intros [H1 H2 H3 H4 H5]. split; try done.
  - intros i [Hi _]%elem_of_difference. by apply H4.
  - intros i s o Hs Ho. pose proof (H5 i s o Hs Ho) as Hw. cbn [set_subs current at_ subs].
    destruct (decide (i ∈ subs h ∖ X)) as [Hi|Hi].
    + rewrite (bool_decide_eq_true_2 _ Hi). rewrite bool_decide_eq_true_2 in Hw; [exact Hw|set_solver].
    + rewrite (bool_decide_eq_false_2 _ Hi). eapply watcher_ok_unlisted. exact Hw.
Qed.

(** Steps that change single watchers. *)
Lemma hub_inv_alter (g : subscriber frame -> subscriber frame) i h os n :
  (forall l latest o s, watcher_ok n latest l o s -> watcher_ok n latest l o (g s)) ->
  hub_inv h os n -> hub_inv (set_heap (alter g i (heap h)) h) os n.
Proof.
  intros Hg [H1 H2 H3 H4 H5]. split; try done; cbn.
  - intros j Hj. destruct (H2 j Hj) as [Hh ?]. split; [|done].
    destruct (decide (i = j)) as [->|]; [by rewrite lookup_alter_eq, Hh|by rewrite lookup_alter_ne].
  - intros j. rewrite lookup_alter_is_Some. apply H3.
  - intros j Hj. rewrite lookup_alter_is_Some. by apply H4.
  - intros j s o [(-> & s' & Hs & ->)|[_ Hs]]%lookup_alter_Some Ho; [apply Hg|]; by apply H5.
Qed.

Lemma watcher_ok_close n latest l o s : watcher_ok n latest l o s -> watcher_ok n latest l o (sub_close s).
Proof.
  unfold watcher_ok. intros (? & ? & ?). split_and!; [|by apply closed_once_close|]; unfold sub_close; by destruct (once s).
Qed.

Lemma watcher_ok_receive n latest l o s :
  watcher_ok n latest l o s -> watcher_ok n latest l o (on_chan receive s).
Proof.
  unfold watcher_ok. intros (? & ? & ?). split_and!; [by apply stream_ok_receive|by apply closed_once_chan|].
  cbn. by rewrite last_seen_receive.
Qed.

Lemma hub_inv_publish races s now h os n :
  0 <= n < 2 ^ 64 - 1 -> hub_inv h os n -> hub_inv (snd (publish races s now h)) os (n + 1).
Proof.
  intros Hn [H1 H2 H3 H4 H5]. unfold publish. cbn [snd].
  assert (w64 (seq h + 1) = n + 1) as Hw by (rewrite H1; apply w64_id; lia). rewrite Hw.
  set (f := MkFrame (Projection.Status_Clamp s) now (n + 1)).
  split; try done; cbn [subs].
  - intros i Hi. rewrite lookup_on_subs. cbn [heap next_sub on_subs set_heap] in *.
    destruct (H2 i Hi) as [-> ?]. done.
  - intros i. rewrite lookup_on_subs, fmap_is_Some. apply H3.
  - intros i Hi. rewrite lookup_on_subs, fmap_is_Some. by apply H4.
  - intros i w o Hs Ho. rewrite lookup_on_subs in Hs. cbn [heap] in Hs.
    apply fmap_Some in Hs as (w' & Hw' & ->). destruct (H5 i w' o Hw' Ho) as (Hst & Hc & _).
    cbn [on_subs set_heap subs]. unfold watcher_ok. case_bool_decide.
    + split_and!; [|by apply closed_once_chan|intros _; apply last_seen_offer].
      apply (stream_ok_offer fr_seq (fr_seq o) n (races i) f); [done|cbn; lia].
    + split_and!; [|done|done]. eapply stream_ok_top; [done|lia].
Qed.

Lemma hub_inv_subscribe d h os n :
  hub_inv h os n ->
  let '(sub, o, h') := subscribe d h in hub_inv h' (<[sub := o]> os) n.
Proof.
  intros [H1 H2 H3 H4 H5]. cbn. split; cbn; [done| | | |].
  - intros i Hi. rewrite !lookup_insert_ne by lia. apply H2. lia.
  - intros i. destruct (decide (next_sub h = i)) as [->|]; [by rewrite !lookup_insert_eq|].
    by rewrite !lookup_insert_ne.
  - intros i [->%elem_of_singleton|Hi]%elem_of_union; [by rewrite lookup_insert_eq|].
    destruct (decide (next_sub h = i)) as [->|]; [by rewrite lookup_insert_eq|].
    rewrite lookup_insert_ne by done. by apply H4.
  - intros i s o. destruct (decide (next_sub h = i)) as [->|].
    + rewrite !lookup_insert_eq. intros [= <-] [= <-]. unfold watcher_ok. cbn. rewrite H1.
      split_and!; [apply stream_ok_new|done|done].
    + rewrite !lookup_insert_ne by done. intros Hs Ho. pose proof (H5 i s o Hs Ho) as Hw.
      rewrite (bool_decide_ext (i ∈ {[next_sub h]} ∪ subs h) (i ∈ subs h)) by set_solver. done.
Qed.

Lemma hub_inv_new : hub_inv newHub ∅ 0.
Proof.
  split; cbn; [done|done| |set_solver|].
  - intros i. by rewrite !lookup_empty.
  - intros i s o Hs. by rewrite lookup_empty in Hs.
Qed.

Lemma hub_inv_run es :
  publishes es < 2 ^ 64 -> hub_inv (run es) (openings es) (publishes es).
Proof.
  intros Hn.
  assert (forall es, fst (fold_left opening_step es (newHub, ∅)) = run es) as Hrun.
  { clear. induction es as [|e es IH] using rev_ind; [done|]. unfold run in *.
    rewrite !fold_left_app. cbn. by rewrite IH. }
  induction es as [|e es IH] using rev_ind; [apply hub_inv_new|].
  unfold publishes in *. rewrite List.filter_app, length_app in *.
  assert (hub_inv (run es) (openings es) (Z.of_nat (length (List.filter is_publish es)))) as Hi.
  { apply IH. lia. }
  clear IH. unfold openings, run in *. rewrite !fold_left_app. cbn [fold_left opening_step snd].
  pose proof (Hrun es) as Hr. unfold run in Hr. rewrite Hr.
  destruct e as [races s now|d|i|d|i|i]; cbn [List.filter is_publish length] in *;
    rewrite ?Z.add_0_r, ?Nat.add_0_r; cbn [step].
  - replace (Z.of_nat (length (List.filter is_publish es) + 1))
      with (Z.of_nat (length (List.filter is_publish es)) + 1) by lia.
    apply hub_inv_publish; [lia|done].
  - by apply (hub_inv_subscribe d) in Hi.
  - by apply hub_inv_unlist.
  - by apply hub_inv_unlist.
  - apply hub_inv_alter; [intros; by apply watcher_ok_close|done].
  - apply hub_inv_alter; [intros; by apply watcher_ok_receive|done].
Qed.

(** The snapshot is the zero status until the first publication, clamped after. *)
Lemma current_bounded es : Projection.Status_bounded (current (run es)).
Proof.
  induction es as [|e es IH] using rev_ind.
  - change (current (run [])) with (Projection.Status_Clamp Projection.zeroStatus).
    apply Projection.Status_Clamp_is_bounded.
  - unfold run in *. rewrite fold_left_app. cbn [fold_left].
    destruct e; cbn; try done. apply Projection.Status_Clamp_is_bounded.
Qed.

(** ** Properties *)

(** C26: latest wins, nothing stale, nothing lost. Along any interleaving of
    publications (below the 64-bit wrap of the counter), subscriptions,
    departures, revocations and receives: the counter is the number of
    publications and the snapshot is within bounds; each watcher sees strictly
    increasing numbers starting from its opening frame; a watcher still listed
    has, or can fetch at once, the current snapshot; and its close signal is
    given at most once. *)
Theorem hub_latest_wins es i s o :
  publishes es < 2 ^ 64 -> heap (run es) !! i = Some s -> openings es !! i = Some o ->
  seq (run es) = publishes es /\ Projection.Status_bounded (current (run es)) /\
  StronglySorted Z.lt (fr_seq o :: map fr_seq (stream (updates s))) /\
  (i ∈ subs (run es) ->
   last_seen o (updates s) = MkFrame (current (run es)) (at_ (run es)) (publishes es)) /\
  (gone_closes s <= 1)%nat.
Proof.
  intros Hn Hs Ho. pose proof (hub_inv_run es Hn) as Hi.
  destruct (hi_ok _ _ _ Hi i s o Hs Ho) as ([Hsort _] & Hc & Hl).
  split_and!; [apply Hi|apply current_bounded|done| |].
  - intros Hin. apply Hl. by apply bool_decide_eq_true_2.
  - unfold closed_once in Hc. rewrite Hc. by destruct (once s); lia.
Qed.

Lemma drop_lookup d h i :
  heap (dropDevice d h) !! i =
  (fun s => if bool_decide (i ∈ subs h /\ held_by d h i) then sub_close s else s) <$> heap h !! i.
Proof.
  unfold dropDevice, remove_device, close_all. rewrite lookup_on_subs. cbn [set_subs heap].
  destruct (heap h !! i) as [s|]; cbn; [|done]. f_equal.
  rewrite (bool_decide_ext (i ∈ filter (held_by d h) (subs h)) (i ∈ subs h /\ held_by d h i)); [done|].
  rewrite elem_of_filter. tauto.
Qed.

(** Revoking a device ends its streams and only its streams. After
    [dropDevice] no listed watcher belongs to the device, each that did has had
    its close signal given, and every other watcher, listed or not, is exactly
    as before. *)
Theorem hub_dropDevice_exact d es :
  publishes es < 2 ^ 64 ->
  let h := run es in let h' := dropDevice d h in
  (forall i, i ∈ subs h' <-> i ∈ subs h /\ sub_deviceID <$> heap h !! i <> Some d) /\
  (forall i s, i ∈ subs h -> heap h !! i = Some s -> sub_deviceID s = d ->
     exists s', heap h' !! i = Some s' /\ once s' = true /\ gone_closes s' = 1%nat) /\
  (forall i s, heap h !! i = Some s -> sub_deviceID s <> d -> heap h' !! i = Some s) /\
  snapshot h' = snapshot h.
Proof.
  intros Hn h h'. pose proof (hub_inv_run es Hn) as Hinv. fold h in Hinv. split_and!; [| | |done].
  - intros i. unfold h', dropDevice, remove_device, close_all. cbn [subs on_subs set_heap set_subs].
    rewrite elem_of_difference, elem_of_filter. unfold held_by. tauto.
  - intros i s Hi Hs Hd. unfold h'. rewrite drop_lookup, Hs. cbn [fmap option_fmap option_map].
    rewrite bool_decide_eq_true_2; [|split; [done|]; unfold held_by; rewrite Hs; cbn; by rewrite Hd].
    eexists. split; [done|].
    destruct (proj1 (hi_dom _ _ _ Hinv i) ltac:(by rewrite Hs)) as [o Ho].
    destruct (hi_ok _ _ _ Hinv i s o Hs Ho) as (_ & Hc & _). unfold closed_once, sub_close in *.
    by destruct (once s) eqn:E; cbn; [|rewrite Hc].
  - intros i s Hs Hd. unfold h'. rewrite drop_lookup, Hs. cbn [fmap option_fmap option_map].
    rewrite bool_decide_eq_false_2; [done|]. unfold held_by. rewrite Hs. cbn. intros [_ [=]]. done.
Qed.

(** ** Witnesses *)

Definition demo : list event :=
  [ESubscribe (str "phone"); EPublish (fun _ => (false, false)) Projection.zeroStatus 7;
   EPublish (fun _ => (true, false)) Projection.zeroStatus 8; ESubscribe (str "tablet");
   EPublish (fun _ => (false, false)) Projection.zeroStatus 9].

Lemma hub_latest_wins_witness :
  seq (run demo) = 3 /\
  exists s, heap (run demo) !! 0%nat = Some s /\
    last_seen (MkFrame Projection.zeroStatus zeroTime 0) (updates s) = MkFrame (current (run demo)) 9 3.
Proof.
  assert (exists s, heap (run demo) !! 0%nat = Some s) as [s Hs] by (eexists; vm_compute; reflexivity).
  assert (openings demo !! 0%nat = Some (MkFrame Projection.zeroStatus zeroTime 0)) as Ho by (by vm_compute).
  destruct (hub_latest_wins demo 0 s _ ltac:(by vm_compute) Hs Ho) as (Hq & _ & _ & Hl & _).
  split; [by rewrite Hq|]. exists s. split; [done|]. apply Hl.
  apply (bool_decide_eq_true_1 _). by vm_compute.
Defined.

Lemma hub_dropDevice_exact_witness :
  0%nat ∈ subs (run demo) /\ 0%nat ∉ subs (dropDevice (str "phone") (run demo)) /\
  1%nat ∈ subs (dropDevice (str "phone") (run demo)).
Proof.
  destruct (hub_dropDevice_exact (str "phone") demo) as (H & _); [by vm_compute|].
  split; [apply (bool_decide_eq_true_1 _); by vm_compute|]. split.
  - rewrite (H 0%nat). intros [_ Hd]. apply Hd. by vm_compute.
  - apply H. split; [apply (bool_decide_eq_true_1 _); by vm_compute|]. by vm_compute.
Defined.
