(* ===== verification/PaneHub.v ===== *)
(** * The pane hub (link/panehub.go)

    Fan-out keyed by session, driving the [PaneSource] on the edges of each
    session's watcher count. The source is a parameter: its [Open] may fail as
    it likes, depending on every call made to it so far; the calls are logged. *)

From Stdlib Require Import Sorting.Sorted.
From stdpp Require Import gmap sets.
From S2P Require Import Prelude Chan.
From S2P Require Projection.

Record paneFrameMsg := MkMsg { m_frame : Projection.PaneFrame; m_seq : Z }.

Record paneSession := MkSession {
  ps_current : option paneFrameMsg; ps_seq : Z; ps_subs : gset nat; ps_open : bool }.

Inductive source_call := COpen (sessionID : bytes) (ok : bool) | CClose (sessionID : bytes).
Definition PaneSource : Type := list source_call -> bytes -> bool.

Record paneHub := MkPaneHub {
  source : option PaneSource; sessions : gmap bytes paneSession;
  p_heap : gmap nat (subscriber paneFrameMsg); p_next : nat; calls : list source_call }.

Definition newPaneHub (source : option PaneSource) : paneHub := MkPaneHub source ∅ ∅ 0 [].

Definition put_session (sid : bytes) (ss : paneSession) (h : paneHub) : paneHub :=
  MkPaneHub (source h) (<[sid := ss]> (sessions h)) (p_heap h) (p_next h) (calls h).
Definition put_heap (m : gmap nat (subscriber paneFrameMsg)) (h : paneHub) : paneHub :=
  MkPaneHub (source h) (sessions h) m (p_next h) (calls h).
Definition log_call (c : source_call) (h : paneHub) : paneHub :=
  MkPaneHub (source h) (sessions h) (p_heap h) (p_next h) (calls h ++ [c]).

Definition with_subs (s : gset nat) (ss : paneSession) : paneSession :=
  MkSession (ps_current ss) (ps_seq ss) s (ps_open ss).
Definition opened (ss : paneSession) : paneSession :=
  MkSession (ps_current ss) (ps_seq ss) (ps_subs ss) true.

(** Apply a step to the watchers of a set. *)
Definition on_watchers (who : gset nat) (g : nat -> subscriber paneFrameMsg -> subscriber paneFrameMsg)
    (h : paneHub) : paneHub :=
  put_heap (map_imap (fun i s => Some (if bool_decide (i ∈ who) then g i s else s)) (p_heap h)) h.

Definition publish (races : nat -> bool * bool) (sid : bytes) (f : Projection.PaneFrame) (h : paneHub)
    : paneHub :=
  let f := Projection.PaneFrame_Clamp f in
  match sessions h !! sid with
  | None => h
  | Some ss =>
    if bool_decide (ps_subs ss = ∅) then h
    else
      let msg := MkMsg f (w64 (ps_seq ss + 1)) in
      let h := put_session sid (MkSession (Some msg) (m_seq msg) (ps_subs ss) (ps_open ss)) h in
      on_watchers (ps_subs ss) (fun i => on_chan (offer (races i) msg)) h
  end.

(** [subscribe]: a failing [Open] leaves the (empty) session behind. *)
Definition subscribe (deviceID sid : bytes) : SE paneHub unit (nat * option paneFrameMsg) := fun h =>
  let ss := default (MkSession None 0 ∅ false) (sessions h !! sid) in
  let h := put_session sid ss h in
  let register ss h :=
    let sub := p_next h in
    let h := put_session sid (with_subs ({[sub]} ∪ ps_subs ss) ss) h in
    (Ok (sub, ps_current ss),
     MkPaneHub (source h) (sessions h) (<[sub := newSub deviceID]> (p_heap h)) (S sub) (calls h)) in
  match source h with
  | Some open_ok =>
    if ps_open ss then register ss h
    else
      let ok := open_ok (calls h) sid in
      let h := log_call (COpen sid ok) h in
      if ok then register (opened ss) (put_session sid (opened ss) h) else (Err (), h)
  | None => register ss h
  end.

Definition closeIfUnwatchedLocked (sid : bytes) (ss : paneSession) (h : paneHub) : paneHub :=
  if negb (bool_decide (ps_subs ss = ∅)) || negb (ps_open ss) then h
  else
    let h := put_session sid (MkSession None (ps_seq ss) (ps_subs ss) false) h in
    match source h with Some _ => log_call (CClose sid) h | None => h end.

(** Remove watchers from one session and handle the last-watcher edge. *)
Definition shrink (sid : bytes) (doomed : gset nat) (h : paneHub) : paneHub :=
  match sessions h !! sid with
  | None => h
  | Some ss =>
    let ss := with_subs (ps_subs ss ∖ doomed) ss in
    closeIfUnwatchedLocked sid ss (put_session sid ss h)
  end.

Definition delete_sub (sid : bytes) (sub : nat) (h : paneHub) : paneHub := shrink sid {[sub]} h.
Definition close_sub (sub : nat) (h : paneHub) : paneHub := put_heap (alter sub_close sub (p_heap h)) h.
Definition unsubscribe (sid : bytes) (sub : nat) (h : paneHub) : paneHub :=
  close_sub sub (delete_sub sid sub h).

Definition held_by (deviceID : bytes) (h : paneHub) (sub : nat) : Prop :=
  sub_deviceID <$> p_heap h !! sub = Some deviceID.
#[export] Instance pane_held_by_dec deviceID h sub : Decision (held_by deviceID h sub).
Proof. unfold held_by. apply _. Defined.

Definition session_subs (sid : bytes) (h : paneHub) : gset nat :=
  from_option ps_subs ∅ (sessions h !! sid).

(** One round of [dropDevice]'s loop over the sessions, and the loop: [order] is
    the order in which the map is ranged over. *)
Definition drop_session (deviceID : bytes) (st : gset nat * paneHub) (sid : bytes) : gset nat * paneHub :=
  let '(doomed, h) := st in
  let gone := filter (held_by deviceID h) (session_subs sid h) in
  (doomed ∪ gone, shrink sid gone h).
Definition remove_device (order : list bytes) (deviceID : bytes) (h : paneHub) : gset nat * paneHub :=
  fold_left (drop_session deviceID) order (∅, h).
Definition close_all (doomed : gset nat) (h : paneHub) : paneHub := on_watchers doomed (fun _ => sub_close) h.
Definition dropDevice (order : list bytes) (deviceID : bytes) (h : paneHub) : paneHub :=
  let '(doomed, h) := remove_device order deviceID h in close_all doomed h.

(** ** Histories *)

(** For each watcher: its session, its opening frame, and the session's count
    when it joined. *)
Definition joined : Type := bytes * option paneFrameMsg * Z.

Definition session_seq (sid : bytes) (h : paneHub) : Z := from_option ps_seq 0 (sessions h !! sid).

(** The states of a hub with a source, with the number of publications so far,
    under any interleaving of atomic steps. *)
Inductive reach (src : PaneSource) : Z -> paneHub -> gmap nat joined -> Prop :=
| r_new : reach src 0 (newPaneHub (Some src)) ∅
| r_publish n h os races sid f :
    reach src n h os -> reach src (n + 1) (publish races sid f h) os
| r_subscribe n h os d sid i o h' :
    reach src n h os -> subscribe d sid h = (Ok (i, o), h') ->
    reach src n h' (<[i := (sid, o, session_seq sid h)]> os)
| r_refused n h os d sid h' :
    reach src n h os -> subscribe d sid h = (Err (), h') -> reach src n h' os
| r_delete n h os sid sub : reach src n h os -> reach src n (delete_sub sid sub h) os
| r_remove n h os order d :
    reach src n h os -> order ≡ₚ elements (dom (sessions h)) ->
    reach src n (snd (remove_device order d h)) os
| r_close n h os sub : reach src n h os -> reach src n (close_sub sub h) os
| r_receive n h os sub :
    reach src n h os -> reach src n (put_heap (alter (on_chan receive) sub (p_heap h)) h) os.

(** A source's view of one session: closed, open, or [None] once it has been
    told to open while open or to close while closed. *)
Definition source_step (sid : bytes) (st : option bool) (c : source_call) : option bool :=
  match c, st with
  | COpen s ok, Some open => if bool_decide (s = sid) then (if open then None else Some ok) else st
  | CClose s, Some open => if bool_decide (s = sid) then (if open then Some false else None) else st
  | _, None => None
  end.
Definition source_view (sid : bytes) (cs : list source_call) : option bool :=
  fold_left (source_step sid) cs (Some false).

(** ** The invariant *)

Record session_ok (n : Z) (ss : paneSession) : Prop := MkSessionOk {
  so_open : ps_open ss = true <-> ps_subs ss <> ∅;
  so_closed : ps_open ss = false -> ps_current ss = None;
  so_seq : 0 <= ps_seq ss <= n;
  so_current : forall m, ps_current ss = Some m ->
    m_seq m = ps_seq ss /\ Projection.PaneFrame_bounded (m_frame m) }.

Record pane_watcher_ok (i : nat) (s : subscriber paneFrameMsg) (j : joined) (ss : paneSession) : Prop :=
  MkWatcherOk {
  wo_stream : stream_ok m_seq (snd j) (ps_seq ss) (updates s);
  wo_once : closed_once s;
  wo_latest : i ∈ ps_subs ss ->
    List.last (map Some (stream (updates s))) (snd (fst j)) = ps_current ss }.

Record pane_inv (n : Z) (h : paneHub) (os : gmap nat joined) : Prop := MkPaneInv {
  pi_source : exists src, source h = Some src;
  pi_fresh : forall i, (p_next h <= i)%nat -> p_heap h !! i = None;
  pi_session : forall sid ss, sessions h !! sid = Some ss -> session_ok n ss;
  pi_view : forall sid, source_view sid (calls h) = Some (from_option ps_open false (sessions h !! sid));
  pi_member : forall sid ss i, sessions h !! sid = Some ss -> i ∈ ps_subs ss ->
    is_Some (p_heap h !! i) /\ exists j, os !! i = Some j /\ fst (fst j) = sid;
  pi_watcher : forall i s, p_heap h !! i = Some s ->
    exists j ss, os !! i = Some j /\ sessions h !! fst (fst j) = Some ss /\ pane_watcher_ok i s j ss }.

Lemma source_view_snoc sid cs c : source_view sid (cs ++ [c]) = source_step sid (source_view sid cs) c.
Proof. unfold source_view. by rewrite fold_left_app. Qed.

Lemma lookup_on_watchers who g h i :
  p_heap (on_watchers who g h) !! i = (fun s => if bool_decide (i ∈ who) then g i s else s) <$> p_heap h !! i.
Proof. cbn. rewrite map_lookup_imap. by destruct (p_heap h !! i). Qed.

Lemma pane_inv_new src : pane_inv 0 (newPaneHub (Some src)) ∅.
Proof. split; cbn; eauto; intros *; rewrite ?lookup_empty; done. Qed.

(** Steps on single watchers that keep their obligations. *)
Lemma pane_inv_alter (g : subscriber paneFrameMsg -> subscriber paneFrameMsg) sub n h os :
  (forall i s j ss, pane_watcher_ok i s j ss -> pane_watcher_ok i (g s) j ss) ->
  pane_inv n h os -> pane_inv n (put_heap (alter g sub (p_heap h)) h) os.
Proof.
  intros Hg [H1 H2 H3 H4 H5 H6]. split; try done; cbn.
  - intros i Hi. destruct (decide (sub = i)) as [->|]; [by rewrite lookup_alter_eq, H2|].
    rewrite lookup_alter_ne by done. by apply H2.
  - intros sid ss i Hs Hi. rewrite lookup_alter_is_Some. by eapply H5.
  - intros i s [(-> & s' & Hs & ->)|[_ Hs]]%lookup_alter_Some.
    + destruct (H6 i s' Hs) as (j & ss & ? & ? & ?). exists j, ss. eauto.
    + by apply H6.
Qed.

Lemma pane_watcher_close i s j ss : pane_watcher_ok i s j ss -> pane_watcher_ok i (sub_close s) j ss.
Proof.
  intros [? ? ?]. split; [|by apply closed_once_close|]; unfold sub_close; by destruct (once s).
Qed.

Lemma pane_watcher_receive i s j ss : pane_watcher_ok i s j ss -> pane_watcher_ok i (on_chan receive s) j ss.
Proof.
  intros [? ? ?]. split; [by apply stream_ok_receive|by apply closed_once_chan|].
  cbn. by rewrite stream_receive.
Qed.

Lemma pane_inv_close_all X n h os : pane_inv n h os -> pane_inv n (close_all X h) os.
Proof.
  intros [H1 H2 H3 H4 H5 H6]. unfold close_all. split; try done.
  - intros i Hi. rewrite lookup_on_watchers. by rewrite H2.
  - intros sid ss i Hs Hi. rewrite lookup_on_watchers, fmap_is_Some. by eapply H5.
  - intros i s Hs. rewrite lookup_on_watchers in Hs. apply fmap_Some in Hs as (s' & Hs' & ->).
    destruct (H6 i s' Hs') as (j & ss & ? & ? & ?). exists j, ss. split_and!; [done|done|].
    case_bool_decide; [by apply pane_watcher_close|done].
Qed.

(** Publishing to a watched session. *)
Lemma pane_inv_publish races sid f n h os :
  0 <= n < 2 ^ 64 - 1 -> pane_inv n h os -> pane_inv (n + 1) (publish races sid f h) os.
Proof.
  intros Hn [H1 H2 H3 H4 H5 H6].
  assert (forall ss, session_ok n ss -> session_ok (n + 1) ss) as Hup.
  { intros ? []. split; try done. lia. }
  unfold publish. destruct (sessions h !! sid) as [ss|] eqn:Hss; [|split; eauto].
  case_bool_decide as He; [split; eauto|].
  destruct (H3 sid ss Hss) as [Ho Hc Hq Hm].
  assert (w64 (ps_seq ss + 1) = ps_seq ss + 1) as -> by (apply w64_id; lia). cbn [m_seq].
  set (msg := MkMsg (Projection.PaneFrame_Clamp f) (ps_seq ss + 1)).
  set (ss' := MkSession (Some msg) (ps_seq ss + 1) (ps_subs ss) (ps_open ss)).
  assert (forall sid' x, <[sid := ss']> (sessions h) !! sid' = Some x ->
    (sid' = sid /\ x = ss') \/ (sid' <> sid /\ sessions h !! sid' = Some x)) as Hlk.
  { intros sid' x Hx. apply lookup_insert_Some in Hx as [[<- <-]|[? ?]]; auto. }
  split; [done| | | | |].
  - intros i Hi. rewrite lookup_on_watchers. cbn in *. by rewrite H2.
  - intros sid' x [[-> ->]|[_ Hx]]%Hlk; [|apply Hup; by eapply H3]. split; cbn; [done|by intros Hf; apply Ho in He; congruence|lia|].
    intros m [= <-]. split; [done|]. apply Projection.PaneFrame_Clamp_bounded.
  - intros sid'. cbn [calls sessions on_watchers put_heap put_session]. rewrite H4. destruct (decide (sid' = sid)) as [->|].
    + by rewrite lookup_insert_eq, Hss.
    + by rewrite lookup_insert_ne.
  - intros sid' x i Hx Hi. rewrite lookup_on_watchers, fmap_is_Some.
    apply Hlk in Hx as [[-> ->]|[_ Hx]]; by eapply H5.
  - intros i s Hs. rewrite lookup_on_watchers in Hs. apply fmap_Some in Hs as (s0 & Hs0 & ->).
    cbn [put_session p_heap] in Hs0. destruct (H6 i s0 Hs0) as (j & x & Hj & Hx & [Hst Hon Hla]).
    exists j. cbn [on_watchers put_heap put_session sessions].
    destruct (decide (fst (fst j) = sid)) as [Hsid|Hsid].
    + rewrite Hsid in Hx |- *. rewrite Hss in Hx. injection Hx as <-. exists ss'. rewrite lookup_insert_eq.
      split_and!; [done|done|]. case_bool_decide as Hin.
      * split; [|by apply closed_once_chan|].
        -- apply (stream_ok_offer m_seq (snd j) (ps_seq ss) (races i) msg); [done|cbn; lia].
        -- intros _. cbn [on_chan updates ps_current ss']. unfold stream.
           rewrite (proj1 (offer_spec _ _ _)), map_app. cbn [option_list map]. apply last_last.
      * split; [|done|done]. eapply stream_ok_top; [done|cbn; lia].
    + exists x. rewrite lookup_insert_ne by done. split_and!; [done|done|].
      case_bool_decide as Hin; [|done].
      destruct (H5 sid ss i Hss Hin) as (_ & j' & Hj' & ?). congruence.
Qed.

(** Removing watchers from a session. *)
Lemma pane_inv_shrink sid X n h os : pane_inv n h os -> pane_inv n (shrink sid X h) os.
Proof.
  intros [H1 H2 H3 H4 H5 H6]. unfold shrink.
  destruct (sessions h !! sid) as [ss|] eqn:Hss; [|by split].
  destruct (H3 sid ss Hss) as [Ho Hc Hq Hm]. destruct H1 as [src Hsrc].
  (* what becomes of the session, and of the log *)
  assert (exists ss', ps_seq ss' = ps_seq ss /\ ps_subs ss' = ps_subs ss ∖ X /\
    (ps_current ss' = ps_current ss \/ ps_subs ss' = ∅) /\ session_ok n ss' /\
    exists cs, shrink sid X h = MkPaneHub (source h) (<[sid := ss']> (sessions h)) (p_heap h) (p_next h) cs /\
      source_view sid cs = Some (ps_open ss') /\
      forall sid', sid' <> sid -> source_view sid' cs = source_view sid' (calls h)) as
    (ss' & Hq' & Hs' & Hcur & Hok & cs & Heq & Hv & Hv').
  { unfold shrink. rewrite Hss. unfold closeIfUnwatchedLocked. cbn [with_subs ps_subs ps_open].
    pose proof (H4 sid) as Hv. rewrite Hss in Hv. cbn in Hv.
    destruct (decide (ps_subs ss ∖ X = ∅)) as [He|He].
    - rewrite (bool_decide_eq_true_2 _ He). cbn [negb orb]. destruct (ps_open ss) eqn:Hop; cbn [negb].
      + exists (MkSession None (ps_seq ss) (ps_subs ss ∖ X) false). cbn. split_and!; auto.
        { by split; cbn; rewrite ?He. }
        rewrite Hsrc. exists (calls h ++ [CClose sid]). split_and!.
        * unfold log_call, put_session. cbn. by rewrite insert_insert_eq, Hsrc.
        * rewrite source_view_snoc, Hv. cbn. by rewrite bool_decide_eq_true_2.
        * intros sid' Hne. rewrite source_view_snoc. cbn.
          destruct (source_view sid' (calls h)); [|done]. by rewrite bool_decide_eq_false_2.
      + exists (with_subs (ps_subs ss ∖ X) ss). cbn. split_and!; auto.
        { by split; cbn; rewrite ?Hop, ?He; auto. }
        exists (calls h). rewrite Hop. by split_and!.
    - rewrite (bool_decide_eq_false_2 _ He). cbn [negb orb].
      assert (ps_open ss = true) as Hop by (apply Ho; set_solver).
      exists (with_subs (ps_subs ss ∖ X) ss). cbn. split_and!; auto.
      { split; cbn; rewrite ?Hop; [by split|done..]. }
      exists (calls h). rewrite Hop in Hv |- *. by split_and!. }
  unfold shrink in Heq. rewrite Hss in Heq. rewrite Heq.
  assert (forall sid' x, <[sid := ss']> (sessions h) !! sid' = Some x ->
    (sid' = sid /\ x = ss') \/ (sid' <> sid /\ sessions h !! sid' = Some x)) as Hlk.
  { intros sid' x Hx. apply lookup_insert_Some in Hx as [[<- <-]|[? ?]]; auto. }
  split; cbn [source sessions p_heap p_next calls]; [by eauto|done| | | |].
  - intros sid' x [[-> ->]|[_ Hx]]%Hlk; [done|by eapply H3].
  - intros sid'. destruct (decide (sid' = sid)) as [->|]; [by rewrite lookup_insert_eq|].
    rewrite lookup_insert_ne, Hv' by done. apply H4.
  - intros sid' x i [[-> ->]|[_ Hx]]%Hlk Hi; [|by eapply H5].
    eapply H5; [done|]. rewrite Hs' in Hi. set_solver.
  - intros i s Hs. destruct (H6 i s Hs) as (j & x & Hj & Hx & [Hst Hon Hla]). exists j.
    destruct (decide (fst (fst j) = sid)) as [Hsid|Hsid].
    + rewrite Hsid in Hx |- *. rewrite Hss in Hx. injection Hx as <-. exists ss'. rewrite lookup_insert_eq.
      split_and!; [done|done|]. split; [by rewrite Hq'|done|].
      intros Hi. destruct Hcur as [->|Hem]; [apply Hla; rewrite Hs' in Hi; set_solver|].
      rewrite Hem in Hi. set_solver.
    + exists x. by rewrite lookup_insert_ne.
Qed.

Definition the_session (sid : bytes) (h : paneHub) : paneSession :=
  default (MkSession None 0 ∅ false) (sessions h !! sid).

Lemma the_session_ok sid n h os : 0 <= n -> pane_inv n h os -> session_ok n (the_session sid h).
Proof.
  intros Hn Hi. unfold the_session. destruct (sessions h !! sid) as [ss|] eqn:Hs; [by eapply pi_session|].
  by split.
Qed.

Lemma source_view_open sid cs ok :
  source_view sid cs = Some false -> source_view sid (cs ++ [COpen sid ok]) = Some ok.
Proof. intros H. rewrite source_view_snoc, H. cbn. by rewrite bool_decide_eq_true_2. Qed.

Lemma source_view_other sid sid' cs ok :
  sid' <> sid -> source_view sid' (cs ++ [COpen sid ok]) = source_view sid' cs.
Proof.
  intros H. rewrite source_view_snoc. cbn. destruct (source_view sid' cs); [|done].
  by rewrite bool_decide_eq_false_2.
Qed.

(** The two outcomes of [subscribe] on a hub with a source. *)
Lemma subscribe_shape d sid n h os :
  0 <= n -> pane_inv n h os ->
  let ss := the_session sid h in
  exists cs, (forall sid', sid' <> sid -> source_view sid' cs = source_view sid' (calls h)) /\
  ((subscribe d sid h =
     (Ok (p_next h, ps_current ss),
      MkPaneHub (source h)
        (<[sid := MkSession (ps_current ss) (ps_seq ss) ({[p_next h]} ∪ ps_subs ss) true]> (sessions h))
        (<[p_next h := newSub d]> (p_heap h)) (S (p_next h)) cs) /\
    source_view sid cs = Some true) \/
   (subscribe d sid h = (Err (), MkPaneHub (source h) (<[sid := ss]> (sessions h)) (p_heap h) (p_next h) cs) /\
    source_view sid cs = Some false /\ ps_open ss = false)).
Proof.
  intros Hn Hi ss. destruct (pi_source _ _ _ Hi) as [src Hsrc].
  assert (source_view sid (calls h) = Some (ps_open ss)) as Hv.
  { rewrite (pi_view _ _ _ Hi). unfold ss, the_session. by destruct (sessions h !! sid). }
  unfold subscribe. fold (the_session sid h). fold ss. cbn [put_session source calls log_call].
  rewrite Hsrc. destruct (ps_open ss) eqn:Hop.
  - exists (calls h). split; [done|]. left. split; [|done]. unfold put_session, with_subs. cbn.
    by rewrite insert_insert_eq, Hop.
  - exists (calls h ++ [COpen sid (src (calls h) sid)]). split; [intros; by apply source_view_other|].
    pose proof (source_view_open sid _ (src (calls h) sid) Hv) as Hv'.
    destruct (src (calls h) sid); [left|right].
    + split; [|done]. unfold put_session, with_subs, opened. cbn. by rewrite !insert_insert_eq.
    + split; [|done]. unfold log_call, put_session. cbn. by rewrite Hsrc.
Qed.

Lemma pane_inv_subscribe d sid n h os i o h' :
  0 <= n -> pane_inv n h os -> subscribe d sid h = (Ok (i, o), h') ->
  pane_inv n h' (<[i := (sid, o, session_seq sid h)]> os).
Proof.
  intros Hn Hi Hs. destruct (subscribe_shape d sid n h os Hn Hi) as (cs & Hoth & [[Heq Hv]|[Heq _]]);
    rewrite Heq in Hs; [|done]. injection Hs as <- <- <-.
  pose proof (the_session_ok sid n h os Hn Hi) as [Ho Hc Hq Hm]. destruct Hi as [H1 H2 H3 H4 H5 H6].
  set (ss := the_session sid h) in *.
  set (ss' := MkSession (ps_current ss) (ps_seq ss) ({[p_next h]} ∪ ps_subs ss) true).
  assert (forall i, i ∈ ps_subs ss -> exists x, sessions h !! sid = Some x /\ i ∈ ps_subs x) as Hin.
  { intros i. unfold ss, the_session. destruct (sessions h !! sid); cbn; [eauto|set_solver]. }
  assert (forall sid' x, <[sid := ss']> (sessions h) !! sid' = Some x ->
    (sid' = sid /\ x = ss') \/ (sid' <> sid /\ sessions h !! sid' = Some x)) as Hlk.
  { intros sid' x Hx. apply lookup_insert_Some in Hx as [[<- <-]|[? ?]]; auto. }
  assert (p_heap h !! p_next h = None) as Hfr by (apply H2; lia).
  split; cbn [source sessions p_heap p_next calls]; [done| | | | |].
  - intros j Hj. rewrite lookup_insert_ne by lia. apply H2. lia.
  - intros sid' x [[-> ->]|[_ Hx]]%Hlk; [|by eapply H3].
    split; cbn; [split; [set_solver|done]|done|done|done].
  - intros sid'. destruct (decide (sid' = sid)) as [->|]; [by rewrite lookup_insert_eq|].
    rewrite lookup_insert_ne, Hoth by done. apply H4.
  - intros sid' x j Hx Hj.
    assert (j = p_next h /\ sid' = sid \/ exists y, sessions h !! sid' = Some y /\ j ∈ ps_subs y) as Hor.
    { apply Hlk in Hx as [[-> ->]|[_ Hx]]; [|eauto].
      cbn in Hj. apply elem_of_union in Hj as [->%elem_of_singleton|Hj]; eauto. }
    destruct Hor as [[-> ->]|(y & Hy & Hj')].
    + rewrite !lookup_insert_eq. split; [done|]. by eexists.
    + destruct (H5 sid' y j Hy Hj') as [[w Hw] (jn & Hjn & ?)].
      assert (p_next h <> j) by congruence. rewrite !lookup_insert_ne by done. eauto.
  - intros j w Hw. destruct (decide (p_next h = j)) as [<-|Hne].
    + rewrite lookup_insert_eq in Hw. injection Hw as <-. rewrite lookup_insert_eq.
      eexists _, ss'. split; [done|].
      cbn [fst snd]. rewrite lookup_insert_eq. split; [done|].
      assert (session_seq sid h = ps_seq ss) as ->.
      { unfold session_seq, ss, the_session. by destruct (sessions h !! sid). }
      split; cbn; [apply stream_ok_new|apply closed_once_new|done].
    + rewrite lookup_insert_ne in Hw by done. rewrite lookup_insert_ne by done.
      destruct (H6 j w Hw) as (jn & x & Hj & Hx & Hok). exists jn.
      destruct (decide (fst (fst jn) = sid)) as [Hsid|Hsid].
      * exists ss'. rewrite Hsid, lookup_insert_eq. split_and!; [done|done|].
        rewrite Hsid in Hx. assert (x = ss) as -> by (unfold ss, the_session; by rewrite Hx).
        destruct Hok as [? ? Hl]. split; [done|done|]. cbn. intros Hj'. apply Hl. set_solver.
      * exists x. by rewrite lookup_insert_ne.
Qed.

Lemma pane_inv_refused d sid n h os h' :
  0 <= n -> pane_inv n h os -> subscribe d sid h = (Err (), h') -> pane_inv n h' os.
Proof.
  intros Hn Hi Hs. destruct (subscribe_shape d sid n h os Hn Hi) as (cs & Hoth & [[Heq Hv]|(Heq & Hv & Hop)]);
    rewrite Heq in Hs; [done|]. injection Hs as <-.
  pose proof (the_session_ok sid n h os Hn Hi) as Hok. destruct Hi as [H1 H2 H3 H4 H5 H6].
  set (ss := the_session sid h) in *.
  assert (forall sid' x, <[sid := ss]> (sessions h) !! sid' = Some x ->
    (sid' = sid /\ x = ss) \/ (sid' <> sid /\ sessions h !! sid' = Some x)) as Hlk.
  { intros sid' x Hx. apply lookup_insert_Some in Hx as [[<- <-]|[? ?]]; auto. }
  assert (ps_subs ss = ∅) as Hem.
  { destruct Hok as [Ho _ _ _]. destruct (decide (ps_subs ss = ∅)) as [|Hne]; [done|].
    apply Ho in Hne. congruence. }
  split; cbn [source sessions p_heap p_next calls]; [done|done| | | |].
  - intros sid' x [[-> ->]|[_ Hx]]%Hlk; [done|by eapply H3].
  - intros sid'. destruct (decide (sid' = sid)) as [->|].
    + rewrite lookup_insert_eq. cbn. by rewrite Hop.
    + rewrite lookup_insert_ne, Hoth by done. apply H4.
  - intros sid' x j [[-> ->]|[_ Hx]]%Hlk Hj; [set_solver|by eapply H5].
  - intros j w Hw. destruct (H6 j w Hw) as (jn & x & Hj & Hx & Hwo). exists jn, x.
    destruct (decide (fst (fst jn) = sid)) as [Hsid|Hsid]; [|by rewrite lookup_insert_ne].
    rewrite Hsid in Hx |- *. rewrite lookup_insert_eq. split_and!; [done| |done].
    unfold ss, the_session. by rewrite Hx.
Qed.

Lemma pane_inv_remove order d n h os : pane_inv n h os -> pane_inv n (snd (remove_device order d h)) os.
Proof.
  unfold remove_device. generalize (∅ : gset nat). revert h.
  induction order as [|sid order IH]; intros h D Hi; [done|]. cbn [fold_left drop_session].
  apply IH. by apply pane_inv_shrink.
Qed.

Lemma reach_inv src n h os : reach src n h os -> n < 2 ^ 64 -> 0 <= n /\ pane_inv n h os.
Proof.
  induction 1 as [|n h os races sid f _ IH|n h os d sid i o h' _ IH Hs|n h os d sid h' _ IH Hs
                  |n h os sid sub _ IH|n h os order d _ IH _|n h os sub _ IH|n h os sub _ IH]; intros Hn.
  - split; [lia|apply pane_inv_new].
  - destruct IH as [? Hi]; [lia|]. split; [lia|]. apply pane_inv_publish; [lia|done].
  - destruct IH as [? Hi]; [done|]. split; [done|]. by eapply pane_inv_subscribe.
  - destruct IH as [? Hi]; [done|]. split; [done|]. by eapply pane_inv_refused.
  - destruct IH as [? Hi]; [done|]. split; [done|]. by apply pane_inv_shrink.
  - destruct IH as [? Hi]; [done|]. split; [done|]. by apply pane_inv_remove.
  - destruct IH as [? Hi]; [done|]. split; [done|].
    apply pane_inv_alter; [intros; by apply pane_watcher_close|done].
  - destruct IH as [? Hi]; [done|]. split; [done|].
    apply pane_inv_alter; [intros; by apply pane_watcher_receive|done].
Qed.

(** ** Lemmas: who is listed after a removal *)

Lemma shrink_heap sid X h : p_heap (shrink sid X h) = p_heap h.
Proof.
  unfold shrink, closeIfUnwatchedLocked. destruct (sessions h !! sid); [|done].
  destruct (_ || _); [done|]. cbn. by destruct (source h).
Qed.

Lemma session_subs_shrink sid X h sid' :
  session_subs sid' (shrink sid X h) =
  if decide (sid' = sid) then session_subs sid h ∖ X else session_subs sid' h.
Proof.
  unfold shrink, closeIfUnwatchedLocked, session_subs.
  destruct (sessions h !! sid) as [ss|] eqn:Hs.
  - destruct (_ || _); [|destruct (source _)]; cbn; case_decide as Hd; subst;
      by rewrite ?lookup_insert_eq, ?Hs, ?(lookup_insert_ne _ sid sid') by done.
  - case_decide; [subst; rewrite Hs; cbn; set_solver|done].
Qed.

Lemma held_by_heap d h h' i : p_heap h' = p_heap h -> held_by d h' i <-> held_by d h i.
Proof. unfold held_by. by intros ->. Qed.

Lemma remove_device_spec order d h D :
  NoDup order ->
  let '(doomed, h') := fold_left (drop_session d) order (D, h) in
  p_heap h' = p_heap h /\
  (forall sid i, i ∈ session_subs sid h' <->
     i ∈ session_subs sid h /\ ~ (sid ∈ order /\ held_by d h i)) /\
  (forall i, i ∈ doomed <-> i ∈ D \/ exists sid, sid ∈ order /\ i ∈ session_subs sid h /\ held_by d h i).
Proof.
  revert D h. induction order as [|sid order IH]; intros D h Hnd; cbn [fold_left].
  - split_and!; [done| |].
    + intros. rewrite elem_of_nil. tauto.
    + intros i. split; [auto|]. intros [?|(? & Hin & _)]; [done|]. by apply elem_of_nil in Hin.
  - apply list.NoDup_cons in Hnd as [Hni Hnd]. cbn [drop_session].
    set (gone := filter (held_by d h) (session_subs sid h)).
    specialize (IH (D ∪ gone) (shrink sid gone h) Hnd).
    destruct (fold_left (drop_session d) order (D ∪ gone, shrink sid gone h)) as [doomed h'].
    destruct IH as (Hh & Hs & Hd). rewrite shrink_heap in Hh.
    assert (forall i, held_by d (shrink sid gone h) i <-> held_by d h i) as Hhb.
    { intros i. apply held_by_heap, shrink_heap. }
    split_and!; [done| |].
    + intros sid' i. rewrite Hs, Hhb, session_subs_shrink, elem_of_cons. case_decide as Hc.
      * subst sid'. unfold gone. rewrite elem_of_difference, elem_of_filter. tauto.
      * tauto.
    + intros i. rewrite Hd. setoid_rewrite Hhb. setoid_rewrite session_subs_shrink.
      setoid_rewrite elem_of_cons. unfold gone. rewrite elem_of_union, elem_of_filter. split.
      * intros [[?|[? ?]]|(sid' & Hin & Hi & ?)]; [by left|right; by exists sid; auto|right; exists sid'].
        rewrite decide_False in Hi by (intros ->; done). auto.
      * intros [?|(sid' & [->|Hin] & Hi & ?)]; [auto|auto|]. right. exists sid'.
        rewrite decide_False by (intros ->; done). auto.
Qed.

(** ** Properties *)

(** C27: the source is driven exactly on the edges. At every moment, for every
    session, the source has been told to open and to close strictly in turn,
    never twice in a row, starting closed, and it is open exactly while the
    session has a watcher; a frame is retained only then. *)
Theorem pane_source_alternates src n h os sid :
  reach src n h os -> n < 2 ^ 64 ->
  source_view sid (calls h) = Some (bool_decide (session_subs sid h <> ∅)) /\
  (session_subs sid h = ∅ -> from_option ps_current None (sessions h !! sid) = None).
Proof.
  intros Hr Hn. destruct (reach_inv _ _ _ _ Hr Hn) as [_ Hi]. rewrite (pi_view _ _ _ Hi).
  unfold session_subs. destruct (sessions h !! sid) as [ss|] eqn:Hs; cbn.
  - destruct (pi_session _ _ _ Hi sid ss Hs) as [Ho Hc _ _]. split.
    + f_equal. apply eq_true_iff_eq. by rewrite bool_decide_eq_true.
    + intros He. apply Hc. destruct (ps_open ss); [|done]. by apply Ho in He.
  - split; [by vm_compute|done].
Qed.

(** Each watcher of a pane sees strictly increasing numbers, all above the
    session's count when it joined; while listed, the newest frame it has
    received, can fetch, or opened on is the session's retained frame, which is
    within bounds; its close signal is given at most once. *)
Theorem pane_latest_wins src n h os i s sid o start :
  reach src n h os -> n < 2 ^ 64 -> p_heap h !! i = Some s -> os !! i = Some (sid, o, start) ->
  StronglySorted Z.lt (start :: map m_seq (stream (updates s))) /\
  (i ∈ session_subs sid h ->
   exists ss, sessions h !! sid = Some ss /\
     List.last (map Some (stream (updates s))) o = ps_current ss /\
     forall m, ps_current ss = Some m -> m_seq m = ps_seq ss /\ Projection.PaneFrame_bounded (m_frame m)) /\
  (gone_closes s <= 1)%nat.
Proof.
  intros Hr Hn Hs Ho. destruct (reach_inv _ _ _ _ Hr Hn) as [_ Hi].
  destruct (pi_watcher _ _ _ Hi i s Hs) as (j & ss & Hj & Hss & [[Hst _] Hon Hl]).
  rewrite Ho in Hj. injection Hj as <-. cbn [fst snd] in *. split_and!; [done| |].
  - unfold session_subs. rewrite Hss. intros Hin. exists ss. split_and!; [done|by apply Hl|].
    apply (so_current _ _ (pi_session _ _ _ Hi sid ss Hss)).
  - unfold closed_once in Hon. rewrite Hon. by destruct (once s); lia.
Qed.

(** Revoking a device ends its pane streams, in every session and in
    whatever order the sessions are visited, and nobody else's. *)
Theorem pane_dropDevice_exact src n h os order d :
  reach src n h os -> n < 2 ^ 64 -> order ≡ₚ elements (dom (sessions h)) ->
  let h' := dropDevice order d h in
  (forall sid i, i ∈ session_subs sid h' <->
     i ∈ session_subs sid h /\ sub_deviceID <$> p_heap h !! i <> Some d) /\
  (forall sid i s, i ∈ session_subs sid h -> p_heap h !! i = Some s -> sub_deviceID s = d ->
     exists s', p_heap h' !! i = Some s' /\ once s' = true /\ gone_closes s' = 1%nat) /\
  (forall i s, p_heap h !! i = Some s -> sub_deviceID s <> d -> p_heap h' !! i = Some s).
Proof.
  intros Hr Hn Hp. destruct (reach_inv _ _ _ _ Hr Hn) as [_ Hi].
  assert (NoDup order) as Hnd by (rewrite Hp; apply NoDup_elements).
  assert (forall sid i, i ∈ session_subs sid h -> sid ∈ order) as Hord.
  { intros sid i. unfold session_subs. destruct (sessions h !! sid) eqn:Hs; cbn; [|set_solver].
    intros _. rewrite Hp, elem_of_elements, elem_of_dom. by rewrite Hs. }
  unfold dropDevice, remove_device. pose proof (remove_device_spec order d h ∅ Hnd) as Hrem.
  destruct (fold_left (drop_session d) order (∅, h)) as [doomed h1]. destruct Hrem as (Hh & Hs & Hd).
  cbv zeta. split_and!.
  - intros sid i. unfold close_all. change (session_subs sid (on_watchers _ _ h1)) with (session_subs sid h1).
    rewrite Hs. unfold held_by. split; [|tauto]. intros [Hin Hno]. split; [done|]. intros Hdev.
    apply Hno. eauto.
  - intros sid i s Hin Hsub Hdev. unfold close_all. rewrite lookup_on_watchers, Hh, Hsub. cbn.
    rewrite bool_decide_eq_true_2.
    + eexists. split; [done|]. destruct (pi_watcher _ _ _ Hi i s Hsub) as (j & ss & _ & _ & [_ Hon _]).
      unfold closed_once, sub_close in *. by destruct (once s) eqn:E; cbn; [|rewrite Hon].
    + apply Hd. right. exists sid. split_and!; [by eapply Hord|done|]. unfold held_by.
      rewrite Hsub. cbn. by rewrite Hdev.
  - intros i s Hsub Hdev. unfold close_all. rewrite lookup_on_watchers, Hh, Hsub. cbn.
    rewrite bool_decide_eq_false_2; [done|]. rewrite Hd, elem_of_empty.
    intros [[]|(sid & _ & _ & Hb)]. unfold held_by in Hb. rewrite Hsub in Hb. cbn in Hb. congruence.
Qed.

(** ** Witnesses *)

Definition willing : PaneSource := fun _ _ => true.
Definition blank : Projection.PaneFrame := Projection.MkPaneFrame 0 0 0 0 false [].
Definition watched1 : paneHub := snd (subscribe (str "phone") (str "s") (newPaneHub (Some willing))).
Definition shown : paneHub := publish (fun _ => (false, false)) (str "s") blank watched1.

Lemma shown_reach : reach willing 1 shown {[0%nat := (str "s", None, 0)]}.
Proof.
  apply (r_publish _ 0). change {[0%nat := (str "s", None, 0)]} with
    (<[0%nat := (str "s", @None paneFrameMsg, session_seq (str "s") (newPaneHub (Some willing)))]>
      (∅ : gmap nat joined)).
  eapply (r_subscribe _ 0 (newPaneHub (Some willing)) ∅ (str "phone")); [apply r_new|reflexivity].
Qed.

Lemma pane_source_alternates_witness :
  source_view (str "s") (calls shown) = Some true /\
  source_view (str "s") (calls (delete_sub (str "s") 0 shown)) = Some false.
Proof.
  destruct (pane_source_alternates willing 1 shown _ (str "s") shown_reach ltac:(lia)) as [H _].
  split; [rewrite H; by vm_compute|].
  destruct (pane_source_alternates willing 1 (delete_sub (str "s") 0 shown) _ (str "s")
    (r_delete _ _ _ _ _ _ shown_reach) ltac:(lia)) as [H' _].
  rewrite H'. by vm_compute.
Defined.

Lemma pane_latest_wins_witness :
  exists s ss, p_heap shown !! 0%nat = Some s /\ sessions shown !! str "s" = Some ss /\
    List.last (map Some (stream (updates s))) None = ps_current ss.
Proof.
  assert (exists s, p_heap shown !! 0%nat = Some s) as [s Hs] by (eexists; vm_compute; reflexivity).
  destruct (pane_latest_wins willing 1 shown _ 0 s (str "s") None 0 shown_reach ltac:(lia) Hs eq_refl)
    as (_ & Hl & _).
  destruct Hl as (ss & Hss & Hl & _); [apply (bool_decide_eq_true_1 _); by vm_compute|].
  by exists s, ss.
Defined.

Lemma pane_dropDevice_exact_witness :
  0%nat ∈ session_subs (str "s") shown /\
  0%nat ∉ session_subs (str "s") (dropDevice [str "s"] (str "phone") shown).
Proof.
  split; [apply (bool_decide_eq_true_1 _); by vm_compute|].
  destruct (pane_dropDevice_exact willing 1 shown _ [str "s"] (str "phone") shown_reach ltac:(lia))
    as (H & _); [by vm_compute|].
  rewrite H. intros [_ Hd]. apply Hd. by vm_compute.
Defined.

(** Numbering survives a session's last watcher. After two frames, the last
    watcher leaving and a new one joining, there is no retained frame and the
    next frame is number three, not one. *)
Theorem rewatch_continues :
  let h := publish (fun _ => (false, false)) (str "s") blank shown in
  let h := unsubscribe (str "s") 0 h in
  let '(r, h) := subscribe (str "phone") (str "s") h in
  r = Ok (1%nat, None) /\
  session_seq (str "s") (publish (fun _ => (false, false)) (str "s") blank h) = 3 /\
  source_view (str "s") (calls h) = Some true /\ length (calls h) = 3%nat.
Proof. by vm_compute. Qed.
