(* ===== verification/Convert.v ===== *)
(** * Between the projection and the wire shape (link/convert.go)

    Module [Pb] holds the messages of gen/rook/link/v1 the converters build:
    integers narrow to 32 bits, instants become optional timestamps, agent
    states become enum numbers. A nil message is [None]. *)

From S2P Require Import Prelude GoTime EdgeProto.
From S2P Require Projection.

Module Pb.
(** Enumerations are 32-bit numbers on the wire; any number may arrive. *)
Definition CommandKind : Type := Z.
Definition COMMAND_KIND_COMPACT : CommandKind := 1.
Definition COMMAND_KIND_RESUME : CommandKind := 2.
Definition COMMAND_KIND_SPAWN : CommandKind := 3.
Definition COMMAND_KIND_SAY : CommandKind := 4.
Definition Disposition : Type := Z.
Definition DISPOSITION_UNSPECIFIED : Disposition := 0.
Definition DISPOSITION_DELIVERED : Disposition := 1.
Definition DISPOSITION_DUPLICATE : Disposition := 2.
Definition DISPOSITION_DROPPED : Disposition := 3.
Definition AgentState : Type := Z.
Definition AGENT_STATE_UNSPECIFIED : AgentState := 0.
Definition AGENT_STATE_WORKING : AgentState := 1.
Definition AGENT_STATE_NEEDS_INPUT : AgentState := 2.
Definition AGENT_STATE_QUIET : AgentState := 3.
Record StyleRun := MkStyleRun { Start : Z; Len : Z; Fg : Z; Bg : Z; Attrs : Z }.
Record PaneRow := MkPaneRow { Text : bytes; Runs : list StyleRun }.
Record PaneFrame := MkPaneFrame {
  Cols : Z; Rows : Z; CursorX : Z; CursorY : Z; CursorVisible : bool; Lines : list PaneRow }.
Record AgentDigest := MkAgentDigest { ad_Headline : bytes; ad_Bullets : list bytes; ad_At : option Timestamp }.
Record Agent := MkAgent {
  Id : bytes; State : AgentState; Title : bytes; Ask : bytes; AskId : bytes; Model : bytes; CostUsd : Z;
  CtxPct : Z; ag_Digest : option AgentDigest; Attached : bool; Now : bytes;
  NowAt : option Timestamp; LastEvent : option Timestamp }.
Record Workspace := MkWorkspace { Name : bytes; Branch : bytes; Attention : Z; Agents : list Agent }.
Record Usage := MkUsage {
  Mode : bytes; SessionPct : Z; SessionResets : bytes; WeekAllPct : Z; WeekAllResets : bytes;
  WeekModelName : bytes; WeekModelPct : Z; WeekModelResets : bytes; us_At : option Timestamp;
  AgentTodayUsd : Z; AgentWeekUsd : Z }.
Record Status := MkStatus {
  Hostname : bytes; RookVersion : bytes; HostId : bytes; Workspaces : list Workspace;
  st_At : option Timestamp; st_Usage : option Usage }.
Record Digest := MkDigest {
  dg_Id : bytes; SessionId : bytes; dg_Headline : bytes; dg_Bullets : list bytes; FullText : bytes;
  Prompt : bytes; Reply : bytes; ReplyState : bytes; dg_At : option Timestamp; dg_Model : bytes;
  dg_CostUsd : Z }.
End Pb.

(** ** Enumerations *)

Definition stateToProto (s : bytes) : Pb.AgentState :=
  if bool_decide (s = str "working") then Pb.AGENT_STATE_WORKING
  else if bool_decide (s = str "needs_input") then Pb.AGENT_STATE_NEEDS_INPUT
  else if bool_decide (s = str "quiet") then Pb.AGENT_STATE_QUIET
  else Pb.AGENT_STATE_UNSPECIFIED.
Definition stateFromProto (s : Pb.AgentState) : bytes :=
  if s =? Pb.AGENT_STATE_WORKING then str "working"
  else if s =? Pb.AGENT_STATE_NEEDS_INPUT then str "needs_input"
  else if s =? Pb.AGENT_STATE_QUIET then str "quiet" else [].

Definition kindFromProto (k : Pb.CommandKind) : bytes :=
  if k =? Pb.COMMAND_KIND_COMPACT then str "compact" else if k =? Pb.COMMAND_KIND_RESUME then str "resume"
  else if k =? Pb.COMMAND_KIND_SPAWN then str "spawn" else if k =? Pb.COMMAND_KIND_SAY then str "say" else [].

(** ** Instants: [if !t.IsZero() { p = timestamppb.New(t) }] and back *)

Definition timeToProto (t : time) : option Timestamp :=
  if negb (IsZero t) then Some (timestamp_New t) else None.
Definition timeFromProto (p : option Timestamp) : time :=
  match p with Some p => AsTime p | None => zeroTime end.

(** ** Status *)

Definition agentDigestToProto (d : Projection.AgentDigest) : Pb.AgentDigest :=
  Pb.MkAgentDigest (Projection.d_Headline d) (Projection.d_Bullets d) (timeToProto (Projection.d_At d)).
Definition agentDigestFromProto (p : Pb.AgentDigest) : Projection.AgentDigest :=
  Projection.MkAgentDigest (Pb.ad_Headline p) (Pb.ad_Bullets p) (timeFromProto (Pb.ad_At p)).

Definition agentToProto (a : Projection.Agent) : Pb.Agent :=
  Pb.MkAgent (Projection.a_ID a) (stateToProto (Projection.a_State a)) (Projection.a_Title a)
    (Projection.a_Ask a) (Projection.a_AskID a) (Projection.a_Model a) (Projection.a_CostUSD a)
    (i32 (Projection.a_CtxPct a)) (agentDigestToProto <$> Projection.a_Digest a)
    (Projection.a_Attached a) (Projection.a_Now a) (timeToProto (Projection.a_NowAt a))
    (timeToProto (Projection.a_LastEvent a)).
Definition agentFromProto (p : Pb.Agent) : Projection.Agent :=
  Projection.MkAgent (Pb.Id p) (stateFromProto (Pb.State p)) (Pb.Title p) (Pb.Ask p) (Pb.AskId p)
    (Pb.Model p) (Pb.CostUsd p) (Pb.CtxPct p) (agentDigestFromProto <$> Pb.ag_Digest p)
    (Pb.Attached p) (Pb.Now p) (timeFromProto (Pb.NowAt p)) (timeFromProto (Pb.LastEvent p)).

Definition workspaceToProto (w : Projection.Workspace) : Pb.Workspace :=
  Pb.MkWorkspace (Projection.w_Name w) (Projection.w_Branch w) (i32 (Projection.w_Attention w))
    (map agentToProto (Projection.w_Agents w)).
Definition workspaceFromProto (p : Pb.Workspace) : Projection.Workspace :=
  Projection.MkWorkspace (Pb.Name p) (Pb.Branch p) (Pb.Attention p) (map agentFromProto (Pb.Agents p)).

Definition usageToProto (u : option Projection.Usage) : option Pb.Usage :=
  match u with
  | None => None
  | Some u => Some (Pb.MkUsage (Projection.u_Mode u) (i32 (Projection.u_SessionPct u))
      (Projection.u_SessionResets u) (i32 (Projection.u_WeekAllPct u)) (Projection.u_WeekAllResets u)
      (Projection.u_WeekModelName u) (i32 (Projection.u_WeekModelPct u)) (Projection.u_WeekModelResets u)
      (timeToProto (Projection.u_At u)) (Projection.u_AgentTodayUSD u) (Projection.u_AgentWeekUSD u))
  end.
Definition usageFromProto (p : option Pb.Usage) : option Projection.Usage :=
  match p with
  | None => None
  | Some p => Some (Projection.MkUsage (Pb.Mode p) (Pb.SessionPct p) (Pb.SessionResets p) (Pb.WeekAllPct p)
      (Pb.WeekAllResets p) (Pb.WeekModelName p) (Pb.WeekModelPct p) (Pb.WeekModelResets p)
      (timeFromProto (Pb.us_At p)) (Pb.AgentTodayUsd p) (Pb.AgentWeekUsd p))
  end.

Definition statusToProto (s : Projection.Status) (at_ : time) : Pb.Status :=
  Pb.MkStatus (Projection.s_Hostname s) (Projection.s_RookVersion s) (Projection.s_HostID s)
    (map workspaceToProto (Projection.s_Workspaces s)) (timeToProto at_)
    (usageToProto (Projection.s_Usage s)).
Definition statusFromProto (p : option Pb.Status) : Projection.Status :=
  match p with
  | None => Projection.zeroStatus
  | Some p => Projection.MkStatus (Pb.Hostname p) (Pb.RookVersion p) (Pb.HostId p)
      (map workspaceFromProto (Pb.Workspaces p)) (usageFromProto (Pb.st_Usage p))
  end.

(** ** Pane frames *)

Definition runToProto (r : Projection.StyleRun) : Pb.StyleRun :=
  Pb.MkStyleRun (Projection.sr_Start r) (Projection.sr_Len r) (Projection.sr_FG r)
    (Projection.sr_BG r) (Projection.sr_Attrs r).
Definition runFromProto (r : Pb.StyleRun) : Projection.StyleRun :=
  Projection.MkStyleRun (Pb.Start r) (Pb.Len r) (Pb.Fg r) (Pb.Bg r) (Pb.Attrs r).

Definition rowToProto (r : Projection.PaneRow) : Pb.PaneRow :=
  Pb.MkPaneRow (Projection.r_Text r) (map runToProto (Projection.r_Runs r)).
Definition rowFromProto (r : Pb.PaneRow) : Projection.PaneRow :=
  Projection.MkPaneRow (Pb.Text r) (map runFromProto (Pb.Runs r)).

Definition paneToProto (f : Projection.PaneFrame) : Pb.PaneFrame :=
  Pb.MkPaneFrame (w32 (Projection.f_Cols f)) (w32 (Projection.f_Rows f)) (w32 (Projection.f_CursorX f))
    (w32 (Projection.f_CursorY f)) (Projection.f_CursorVisible f) (map rowToProto (Projection.f_Lines f)).
Definition paneFromProto (p : option Pb.PaneFrame) : Projection.PaneFrame :=
  match p with
  | None => Projection.MkPaneFrame 0 0 0 0 false []
  | Some p => Projection.MkPaneFrame (Pb.Cols p) (Pb.Rows p) (Pb.CursorX p) (Pb.CursorY p)
      (Pb.CursorVisible p) (map rowFromProto (Pb.Lines p))
  end.

(** ** Digests *)

Definition digestToProto (d : Projection.Digest) : Pb.Digest :=
  Pb.MkDigest (Projection.g_ID d) (Projection.g_SessionID d) (Projection.g_Headline d)
    (Projection.g_Bullets d) (Projection.g_FullText d) (Projection.g_Prompt d) (Projection.g_Reply d)
    (Projection.g_ReplyState d) (timeToProto (Projection.g_At d)) (Projection.g_Model d)
    (Projection.g_CostUSD d).
Definition digestFromProto (p : option Pb.Digest) : Projection.Digest :=
  match p with
  | None => Projection.MkDigest [] [] [] [] [] [] [] [] zeroTime [] 0
  | Some p => Projection.MkDigest (Pb.dg_Id p) (Pb.SessionId p) (Pb.dg_Headline p) (Pb.dg_Bullets p)
      (Pb.FullText p) (Pb.Prompt p) (Pb.Reply p) (Pb.ReplyState p) (timeFromProto (Pb.dg_At p))
      (Pb.dg_Model p) (Pb.dg_CostUsd p)
  end.

(** ** What the wire can carry *)

Definition int32 (z : Z) : Prop := - 2 ^ 31 <= z < 2 ^ 31.
Definition known_state (s : bytes) : Prop := s ∈ [str "working"; str "needs_input"; str "quiet"; []].

Definition wire_agent (a : Projection.Agent) : Prop :=
  known_state (Projection.a_State a) /\ int32 (Projection.a_CtxPct a).
Definition wire_workspace (w : Projection.Workspace) : Prop :=
  int32 (Projection.w_Attention w) /\ Forall wire_agent (Projection.w_Agents w).
Definition wire_usage (u : Projection.Usage) : Prop :=
  int32 (Projection.u_SessionPct u) /\ int32 (Projection.u_WeekAllPct u) /\ int32 (Projection.u_WeekModelPct u).
Definition wire_status (s : Projection.Status) : Prop :=
  Forall wire_workspace (Projection.s_Workspaces s) /\
  (forall u, Projection.s_Usage s = Some u -> wire_usage u).
Definition wire_pane (f : Projection.PaneFrame) : Prop :=
  uint32 (Projection.f_Cols f) /\ uint32 (Projection.f_Rows f) /\ uint32 (Projection.f_CursorX f) /\
  uint32 (Projection.f_CursorY f).

(** ** Lemmas *)

Lemma time_roundtrip t : timeFromProto (timeToProto t) = t.
Proof.
  unfold timeFromProto, timeToProto, IsZero. destruct (Z.eqb_spec t 0) as [->|]; cbn [negb]; [done|].
  apply AsTime_New.
Qed.

Lemma i32_id_iff z : i32 z = z <-> int32 z.
Proof. unfold int32. split; [intros <-; apply i32_range|apply i32_id]. Qed.

Lemma w32_id_iff z : w32 z = z <-> uint32 z.
Proof. unfold uint32. split; [intros <-; unfold w32; apply Z.mod_pos_bound; lia|apply w32_id]. Qed.

Lemma state_roundtrip_iff s : stateFromProto (stateToProto s) = s <-> known_state s.
Proof.
  unfold known_state, stateToProto. rewrite !elem_of_cons, elem_of_nil.
  do 3 (case_bool_decide; [subst; vm_compute; tauto|]).
  change (stateFromProto Pb.AGENT_STATE_UNSPECIFIED) with (@nil byte). split; [intros <-; tauto|].
  intros [?|[?|[?|[?|[]]]]]; congruence.
Qed.

Lemma map_roundtrip_iff {A B} (to : A -> B) (from : B -> A) (P : A -> Prop) l :
  (forall x, from (to x) = x <-> P x) -> map from (map to l) = l <-> Forall P l.
Proof.
  intros H. induction l as [|x l IH]; cbn; [by split|]. rewrite Forall_cons_iff, <- IH, <- H.
  split; [intros E; by injection E|intros [-> ->]; done].
Qed.

Lemma agentDigest_roundtrip d : agentDigestFromProto (agentDigestToProto d) = d.
Proof. destruct d. unfold agentDigestFromProto, agentDigestToProto. cbn. by rewrite time_roundtrip. Qed.

Lemma agent_roundtrip_iff a : agentFromProto (agentToProto a) = a <-> wire_agent a.
Proof.
  destruct a as [i st ti as_ ai mo co cx dg at_ no na le]. unfold wire_agent. cbn.
  rewrite <- state_roundtrip_iff, <- i32_id_iff. unfold agentFromProto, agentToProto. cbn.
  rewrite !time_roundtrip.
  assert (agentDigestFromProto <$> (agentDigestToProto <$> dg) = dg) as ->.
  { destruct dg; cbn; [by rewrite agentDigest_roundtrip|done]. }
  split; [intros E; by injection E|intros [-> ->]; done].
Qed.

Lemma workspace_roundtrip_iff w : workspaceFromProto (workspaceToProto w) = w <-> wire_workspace w.
Proof.
  destruct w as [n b a l]. unfold wire_workspace. cbn.
  rewrite <- i32_id_iff, <- (map_roundtrip_iff agentToProto agentFromProto) by apply agent_roundtrip_iff.
  unfold workspaceFromProto, workspaceToProto. cbn.
  split; [intros E; by injection E|intros [-> ->]; done].
Qed.

Lemma usage_roundtrip_iff u :
  usageFromProto (usageToProto u) = u <-> (forall u', u = Some u' -> wire_usage u').
Proof.
  destruct u as [[m sp sr wp wr mn mp mr ut td wk]|]; cbn; [|by split].
  rewrite time_roundtrip. split.
  - intros E u' [= <-]. unfold wire_usage. cbn. rewrite <- !i32_id_iff. by injection E.
  - intros H. destruct (H _ eq_refl) as (?%i32_id_iff & ?%i32_id_iff & ?%i32_id_iff). cbn in *. congruence.
Qed.

Lemma row_roundtrip r : rowFromProto (rowToProto r) = r.
Proof.
  destruct r as [t rs]. unfold rowFromProto, rowToProto. cbn. f_equal.
  induction rs as [|[] rs IH]; [done|]. cbn. by rewrite IH.
Qed.

(** ** Properties *)

(** C35: a status survives the wire unchanged exactly when its agents are in a
    known state (or none) and its counters fit 32 bits; the instant it travels
    with does not matter. *)
Theorem status_roundtrip s at_ :
  statusFromProto (Some (statusToProto s at_)) = s <-> wire_status s.
Proof.
  destruct s as [h v i w u]. unfold wire_status. cbn.
  rewrite <- usage_roundtrip_iff,
    <- (map_roundtrip_iff workspaceToProto workspaceFromProto) by apply workspace_roundtrip_iff.
  split; [intros E; by injection E|intros [-> ->]; done].
Qed.

(** Digests survive the wire unconditionally; of a clamped pane frame
    everything does but a cursor coordinate of 2^32 or more, which wraps. *)
Theorem pane_and_digest_roundtrip f d :
  digestFromProto (Some (digestToProto d)) = d /\
  let c := Projection.PaneFrame_Clamp f in
  (paneFromProto (Some (paneToProto c)) = c <->
   Projection.f_CursorX c < 2 ^ 32 /\ Projection.f_CursorY c < 2 ^ 32).
Proof.
  split; [destruct d; cbn; by rewrite time_roundtrip|]. intros c.
  destruct (Projection.PaneFrame_Clamp_bounded f) as [Hc Hr Hx Hy _ _]. fold c in Hc, Hr, Hx, Hy.
  clearbody c. destruct c as [co ro cx cy cv ls]. cbn in *.
  assert (map rowFromProto (map rowToProto ls) = ls) as ->.
  { apply (map_roundtrip_iff rowToProto rowFromProto (fun _ => True)); [|by apply Forall_true].
    intros r. split; [done|]. intros _. apply row_roundtrip. }
  rewrite (w32_id co), (w32_id ro) by lia. split.
  - intros E. injection E as Ex%w32_id_iff Ey%w32_id_iff. unfold uint32 in *. lia.
  - intros [??]. by rewrite !w32_id by lia.
Qed.

(** What the clamps let through is not always what the wire can carry: a
    clamped frame whose cursor moves, and a clamped status whose agent state is
    lost. *)
Theorem clamped_but_not_representable :
  (exists f, Projection.PaneFrame_bounded f /\ paneFromProto (Some (paneToProto f)) <> f) /\
  (exists s, Projection.Status_bounded s /\ statusFromProto (Some (statusToProto s zeroTime)) <> s).
Proof.
  split.
  - exists (Projection.PaneFrame_Clamp (Projection.MkPaneFrame 80 24 (2 ^ 32) 0 true [])).
    split; [apply Projection.PaneFrame_Clamp_bounded|]. intros E.
    apply (f_equal Projection.f_CursorX) in E. vm_compute in E. discriminate.
  - exists (Projection.Status_Clamp (Projection.MkStatus [] [] []
      [Projection.MkWorkspace (str "w") [] 0
        [Projection.MkAgent (str "a") (str "meditating") [] [] [] [] 0 0 None false [] 0 0]] None)).
    split; [apply Projection.Status_Clamp_is_bounded|]. intros E. vm_compute in E. discriminate.
Qed.
