(* ===== verification/Pairing.v ===== *)
(** * Package [pairing]: the enrollment window and its QR code *)

From S2P Require Import Prelude GoStrings BaseN GoTime GoOS GoURL.

(** ** The window: [Manager] *)

Definition TTL : Z := 2 * Minute.
Definition secretLen : nat := 16.

Record Manager := MkManager { m_secret : bytes; m_expires : time }.
Definition zeroManager : Manager := MkManager [] zeroTime.

(** [Manager.Open]: the secret is drawn before the lock is taken. *)
Definition Open (now : time) (m : Manager) : SE World oserr (bytes * Manager) :=
  b ← rand_Read secretLen;
  let s := RawURLEncode b in
  mret (s, MkManager s (Add now TTL)).

Definition Close (m : Manager) : Manager := MkManager [] (m_expires m).

Definition OpenNow (now : time) (m : Manager) : bool :=
  negb (bool_decide (m_secret m = [])) && Before now (m_expires m).

(** [subtle.ConstantTimeCompare]: [1] for equal slices, [0] otherwise; the xor
    of all octet pairs is accumulated so that the time is data-independent. *)
Definition ConstantTimeCompare (x y : bytes) : Z :=
  if negb (length x =? length y)%nat then 0
  else if fold_left (fun v p => Z.lor v (Z.lxor (Zb (fst p)) (Zb (snd p)))) (combine x y) 0 =? 0
       then 1 else 0.

Definition Redeem (secret : bytes) (now : time) (m : Manager) : bool * Manager :=
  if bool_decide (m_secret m = []) || negb (Before now (m_expires m)) then (false, m)
  else
    let ok := ConstantTimeCompare (m_secret m) secret =? 1 in
    (ok, if ok then MkManager [] (m_expires m) else m).

(** ** The QR code *)

Record QR := MkQR {
  HostID : bytes; TrustDomainID : bytes; HostName : bytes; SPKIPin : bytes; Secret : bytes;
  Port : Z; Addrs : list bytes }.

Definition is_nil (s : bytes) : bool := bool_decide (s = []).

(** The values [QR.URL] sets before encoding them. *)
Definition QR_values (q : QR) : Values :=
  let v := Values_Set (str "v") (str "1") ∅ in
  let v := Values_Set (str "hid") (HostID q) v in
  let v := if is_nil (TrustDomainID q) then v else Values_Set (str "td") (TrustDomainID q) v in
  let v := if is_nil (HostName q) then v else Values_Set (str "n") (HostName q) v in
  let v := Values_Set (str "spki") (SPKIPin q) v in
  let v := Values_Set (str "s") (Secret q) v in
  let v := Values_Set (str "p") (itoa (Port q)) v in
  if (0 <? length (Addrs q))%nat then Values_Set (str "a") (Join (Addrs q) (str ",")) v else v.

Definition URL (q : QR) : bytes := str "rook-link://pair?" ++ Values_Encode (QR_values q).

(** [ErrForeign] covers both a [url.Parse] error and a URL that is not
    [rook-link://pair]. *)
Inductive qrerr := ErrForeign | ErrVersion (v : bytes) | ErrPort (p : bytes) | ErrMissing.

Definition ParseURL (s : bytes) : res qrerr QR :=
  match url_Parse s with
  | None => Err ErrForeign
  | Some u =>
    if negb (bool_decide (url_Scheme u = str "rook-link")) || negb (bool_decide (url_Host u = str "pair"))
    then Err ErrForeign else
    let v := ParseQuery (url_RawQuery u) in
    if negb (bool_decide (Values_Get v (str "v") = str "1")) then Err (ErrVersion (Values_Get v (str "v")))
    else match Atoi (Values_Get v (str "p")) with
    | None => Err (ErrPort (Values_Get v (str "p")))
    | Some port =>
      if (port <=? 0) || (65535 <? port) then Err (ErrPort (Values_Get v (str "p"))) else
      let a := Values_Get v (str "a") in
      let q := MkQR (Values_Get v (str "hid")) (Values_Get v (str "td")) (Values_Get v (str "n"))
                 (Values_Get v (str "spki")) (Values_Get v (str "s")) port
                 (if is_nil a then [] else Split a x2c) in
      if is_nil (HostID q) || is_nil (SPKIPin q) || is_nil (Secret q) then Err ErrMissing else Ok q
    end
  end.

(** ** Histories of a window

    What happened to one [Manager], oldest event first: each method is atomic
    under the manager's lock, so every concurrent use is such a history. *)

Inductive mevent :=
| EvOpen (now : time) (secret : bytes)
| EvClose
| EvRedeem (secret : bytes) (now : time) (ok : bool).

Inductive history : list mevent -> Manager -> Prop :=
| h_zero : history [] zeroManager
| h_open h m now w s m' w' :
    history h m -> Open now m w = (Ok (s, m'), w') -> history (h ++ [EvOpen now s]) m'
| h_close h m : history h m -> history (h ++ [EvClose]) (Close m)
| h_redeem h m s now :
    history h m ->
    history (h ++ [EvRedeem s now (fst (Redeem s now m))]) (snd (Redeem s now m)).

(** An event that leaves a standing window standing. *)
Definition keeps_window (e : mevent) : Prop :=
  match e with EvRedeem _ _ false => True | _ => False end.

(** ** Lemmas on the window *)

Lemma lxor_accumulate l v :
  0 <= v -> fold_left (fun v p => Z.lor v (Z.lxor (Zb (fst p)) (Zb (snd p)))) l v = 0 ->
  v = 0 /\ Forall (fun p : byte * byte => fst p = snd p) l.
Proof.
  revert v. induction l as [|[b c] l IH]; intros v Hv H; [done|]. cbn [fold_left fst snd] in H.
  apply IH in H as [H HF].
  - apply Z.lor_eq_0_iff in H as [-> H]. split; [done|]. constructor; [|done].
    apply Z.lxor_eq in H. by apply (inj Zb).
  - apply Z.lor_nonneg. split; [done|]. apply Z.lxor_nonneg.
    pose proof (Zb_range b). pose proof (Zb_range c). lia.
Qed.

Lemma ConstantTimeCompare_spec x y : ConstantTimeCompare x y = if decide (x = y) then 1 else 0.
Proof.
  unfold ConstantTimeCompare. destruct (Nat.eqb_spec (length x) (length y)) as [Hl|Hl]; cbn [negb].
  - case_decide as E.
    + subst y. assert (forall l : bytes, fold_left (fun v p => Z.lor v (Z.lxor (Zb (fst p)) (Zb (snd p))))
                             (combine l l) 0 = 0) as ->; [|done].
      clear. induction l as [|b l IH]; [done|]. cbn [combine fold_left fst snd].
      by rewrite Z.lxor_nilpotent.
    + destruct (Z.eqb_spec (fold_left (fun v p => Z.lor v (Z.lxor (Zb (fst p)) (Zb (snd p))))
                              (combine x y) 0) 0) as [H|]; [|done].
      exfalso. apply E. apply lxor_accumulate in H as [_ HF]; [|done]. clear E.
      revert y Hl HF. induction x as [|b x IH]; intros [|c y] Hl HF; simplify_eq/=; [done|].
      inversion HF; simplify_eq/=. f_equal. by apply IH.
  - rewrite decide_False by (intros ->; done). done.
Qed.

Lemma Redeem_spec s now m :
  Redeem s now m =
  if decide (OpenNow now m = true /\ s = m_secret m)
  then (true, MkManager [] (m_expires m)) else (false, m).
Proof.
  unfold Redeem, OpenNow. rewrite ConstantTimeCompare_spec.
  destruct (bool_decide (m_secret m = [])) eqn:E1, (Before now (m_expires m)) eqn:E2; cbn;
    repeat case_decide; naive_solver.
Qed.

Lemma Open_secret now m w s m' w' :
  Open now m w = (Ok (s, m'), w') -> m' = MkManager s (Add now TTL) /\ s <> [].
Proof.
  unfold Open, rand_Read, mbind, SE_bind. destruct (entropy w (draws w)) as [f|]; [|done].
  cbv [mret SE_ret]. intros H. injection H as <- <- <-. split; [done|].
  intros E%RawURLEncode_nil. done.
Qed.

(** The window standing after a history was opened by its last [Open], with
    nothing but failed redemptions since. *)
Lemma history_window h m :
  history h m -> m_secret m <> [] ->
  exists h1 h2 t, h = h1 ++ EvOpen t (m_secret m) :: h2 /\ m_expires m = Add t TTL /\
                  Forall keeps_window h2.
Proof.
  induction 1 as [|h m now w s m' w' Hh IH Ho|h m Hh IH|h m s now Hh IH]; intros Hs; [done|..].
  - apply Open_secret in Ho as [-> _]. exists h, [], now. repeat split. constructor.
  - done.
  - rewrite Redeem_spec in *. case_decide; cbn [snd fst] in *; [done|].
    destruct (IH Hs) as (h1 & h2 & t & -> & He & HF).
    exists h1, (h2 ++ [EvRedeem s now false]), t. split; [by rewrite <- app_assoc|].
    split; [done|]. apply Forall_app. by repeat constructor.
Qed.

(** Conversely a window stands as long as only failed redemptions follow. *)
Lemma history_open_stands h1 t s h2 m :
  history (h1 ++ EvOpen t s :: h2) m -> Forall keeps_window h2 ->
  m = MkManager s (Add t TTL) /\ s <> [].
Proof.
  remember (h1 ++ EvOpen t s :: h2) as h eqn:Eh. intros Hh HF. revert h2 HF Eh.
  assert (forall h e h2, h ++ [e] = h1 ++ EvOpen t s :: h2 -> Forall keeps_window h2 ->
            (h2 = [] /\ h = h1 /\ e = EvOpen t s) \/
            (exists h2', h = h1 ++ EvOpen t s :: h2' /\ Forall keeps_window h2' /\ keeps_window e))
    as Hlast.
  { intros h' e h2. destruct h2 as [|e' h2 _] using rev_ind; intros E HF.
    - left. by apply app_inj_tail in E as [-> ->].
    - right. rewrite app_comm_cons, app_assoc in E. apply app_inj_tail in E as [-> ->].
      apply Forall_app in HF as [? HF].
      inversion HF. by exists h2. }
  induction Hh as [|h m now w s' m' w' Hh IH Ho|h m Hh IH|h m s' now Hh IH]; intros h2 HF Eh.
  - by destruct h1.
  - destruct (Hlast _ _ _ Eh HF) as [(-> & -> & [= -> ->])|(h2' & -> & _ & [])].
    by apply Open_secret in Ho as [-> ?].
  - by destruct (Hlast _ _ _ Eh HF) as [(_ & _ & ?)|(h2' & -> & _ & [])].
  - destruct (Hlast _ _ _ Eh HF) as [(_ & _ & ?)|(h2' & -> & HF' & Hk)]; [done|].
    cbn in Hk. rewrite Redeem_spec in Hk |- *. case_decide; [done|]. by apply (IH h2').
Qed.

(** ** Properties of the window *)

(** C13: a redemption succeeds exactly when the presented secret is the one of
    the most recent [Open], nothing but failed redemptions happened since (no
    [Close], no successful redemption, no newer window), and the window's two
    minutes have not passed. So a secret is spent at most once and a replaced
    or dismissed QR code is dead. *)
Theorem Redeem_only_fresh_window (h : list mevent) (m : Manager) (s : bytes) (now : time) :
  history h m ->
  fst (Redeem s now m) = true <->
  exists h1 h2 t, h = h1 ++ EvOpen t s :: h2 /\ Forall keeps_window h2 /\ now < Add t TTL.
Proof.
  intros Hh. rewrite Redeem_spec. split.
  - case_decide as Hd; cbn; [|done]. destruct Hd as [Ho ->]. intros _.
    unfold OpenNow in Ho. apply andb_true_iff in Ho as [Hne Hb].
    rewrite negb_true_iff, bool_decide_eq_false in Hne.
    destruct (history_window h m Hh Hne) as (h1 & h2 & t & -> & He & HF).
    exists h1, h2, t. rewrite <- He. by apply Before_spec in Hb.
  - intros (h1 & h2 & t & -> & HF & Hnow).
    destruct (history_open_stands _ _ _ _ _ Hh HF) as [-> Hs].
    rewrite decide_True; [done|]. split; [|done]. unfold OpenNow. cbn.
    rewrite bool_decide_eq_false_2 by done. by apply Before_spec.
Qed.

Lemma Redeem_only_fresh_window_witness :
  exists h m s, history h m /\ m_secret m = s /\ fst (Redeem s 1000 m) = true.
Proof.
  destruct (Open 7 zeroManager (calm 0 x61)) as [[[s m]|e|] w] eqn:E;
    [|vm_compute in E; discriminate E..].
  pose proof (h_open [] zeroManager 7 (calm 0 x61) s m w h_zero E) as Hh. cbn [app] in Hh.
  exists [EvOpen 7 s], m, s. split; [exact Hh|]. split.
  - by apply Open_secret in E as [-> _].
  - apply (Redeem_only_fresh_window [EvOpen 7 s] m s 1000 Hh).
    exists [], [], 7. split; [reflexivity|]. split; [constructor|reflexivity].
Defined.

(** ** The QR code round trip *)

Definition qr_ok (q : QR) : Prop :=
  HostID q <> [] /\ SPKIPin q <> [] /\ Secret q <> [] /\ 0 < Port q <= 65535 /\
  Addrs q <> [[]] /\ Forall (fun a => x2c ∉ a) (Addrs q).

Lemma Values_Get_Set_eq k v m : Values_Get (Values_Set k v m) k = v.
Proof. unfold Values_Get, Values_Set. by rewrite lookup_insert_eq. Qed.

Lemma Values_Get_Set_ne k k' v m : k <> k' -> Values_Get (Values_Set k v m) k' = Values_Get m k'.
Proof. intros. unfold Values_Get, Values_Set. by rewrite lookup_insert_ne. Qed.

(** Read one key of a nest of [Values_Set] on literal keys. *)
Ltac get_set :=
  repeat first [rewrite Values_Get_Set_eq | rewrite Values_Get_Set_ne by (vm_compute; discriminate)].

Lemma is_nil_true s : is_nil s = true <-> s = [].
Proof. apply bool_decide_eq_true. Qed.
Lemma is_nil_false s : is_nil s = false <-> s <> [].
Proof. apply bool_decide_eq_false. Qed.

Lemma Values_Get_opt k v m :
  Values_Get m k = [] -> Values_Get (if is_nil v then m else Values_Set k v m) k = v.
Proof.
  intros Hm. destruct (is_nil v) eqn:E; [|apply Values_Get_Set_eq].
  apply is_nil_true in E as ->. done.
Qed.

Lemma Values_Get_opt_ne (c : bool) k k' v m :
  k <> k' -> Values_Get (if c then m else Values_Set k v m) k' = Values_Get m k'.
Proof. intros. destruct c; [done|by apply Values_Get_Set_ne]. Qed.

Lemma Values_Get_opt_ne' (c : bool) k k' v m :
  k <> k' -> Values_Get (if c then Values_Set k v m else m) k' = Values_Get m k'.
Proof. intros. destruct c; [by apply Values_Get_Set_ne|done]. Qed.

Ltac get_values :=
  unfold QR_values; cbv zeta;
  repeat first
    [ rewrite Values_Get_Set_eq
    | rewrite Values_Get_Set_ne by (vm_compute; discriminate)
    | rewrite Values_Get_opt_ne by (vm_compute; discriminate)
    | rewrite Values_Get_opt_ne' by (vm_compute; discriminate) ].

Lemma QR_values_v q : Values_Get (QR_values q) (str "v") = str "1".
Proof. by get_values. Qed.
Lemma QR_values_hid q : Values_Get (QR_values q) (str "hid") = HostID q.
Proof. by get_values. Qed.
Lemma QR_values_spki q : Values_Get (QR_values q) (str "spki") = SPKIPin q.
Proof. by get_values. Qed.
Lemma QR_values_s q : Values_Get (QR_values q) (str "s") = Secret q.
Proof. by get_values. Qed.
Lemma QR_values_p q : Values_Get (QR_values q) (str "p") = itoa (Port q).
Proof. by get_values. Qed.
Lemma QR_values_td q : Values_Get (QR_values q) (str "td") = TrustDomainID q.
Proof. get_values. apply Values_Get_opt. by get_values. Qed.
Lemma QR_values_n q : Values_Get (QR_values q) (str "n") = HostName q.
Proof. get_values. apply Values_Get_opt. by get_values. Qed.
Lemma QR_values_a q : Values_Get (QR_values q) (str "a") = Join (Addrs q) (str ",").
Proof.
  get_values. destruct (Nat.ltb_spec 0 (length (Addrs q))) as [H|H]; get_values; [done|].
  destruct (Addrs q); [done|simpl in H; lia].
Qed.
Create Rewrite HintDb qr.
#[export] Hint Rewrite QR_values_v QR_values_hid QR_values_spki QR_values_s QR_values_p
  QR_values_td QR_values_n QR_values_a : qr.

Definition values_nonempty (m : Values) : Prop := forall k vs, m !! k = Some vs -> vs <> [].

Lemma Values_Set_nonempty k v m : values_nonempty m -> values_nonempty (Values_Set k v m).
Proof.
  intros Hm q vs. unfold Values_Set.
  intros [[_ <-]|[_ ?]]%lookup_insert_Some; [done|by eapply Hm].
Qed.

Lemma QR_values_nonempty q : values_nonempty (QR_values q).
Proof.
  unfold QR_values. cbv zeta. repeat case_match; repeat apply Values_Set_nonempty; done.
Qed.

(** A URL of the form the host prints splits into its three parts. *)
Lemma url_Parse_rook enc :
  forallb query_byte enc = true -> enc <> [] ->
  url_Parse (str "rook-link://pair?" ++ enc) =
  Some (MkURL (str "rook-link") (str "pair") [] enc).
Proof.
  intros Hq Hne.
  assert (forall c, query_byte c = false -> c ∉ enc) as Hno.
  { intros c Hc Hin. rewrite forallb_forall in Hq. apply list_elem_of_In, Hq in Hin. congruence. }
  unfold url_Parse. rewrite Cut_absent.
  2: { intros [Hin|Hin]%elem_of_app; [|by apply (Hno x23)].
       by apply (bool_decide_eq_false_1 (x23 ∈ str "rook-link://pair?")) in Hin. }
  assert (url_parse_nofrag (str "rook-link://pair?" ++ enc) =
          Some (MkURL (str "rook-link") (str "pair") [] enc)) as ->; [|done].
  unfold url_parse_nofrag.
  assert (contains_ctl (str "rook-link://pair?" ++ enc) = false) as ->.
  { unfold contains_ctl. rewrite existsb_app. cbn [existsb orb]. apply orb_false_iff. split; [done|].
    apply not_true_is_false. intros (b & Hb & Hc)%existsb_exists.
    rewrite forallb_forall in Hq. apply Hq in Hb. by destruct b. }
  rewrite bool_decide_eq_false_2 by discriminate.
  change (getScheme (str "rook-link://pair?" ++ enc))
    with (Some (str "rook-link", str "//pair?" ++ enc)).
  cbn [mbind option_bind]. change (to_lower (str "rook-link")) with (str "rook-link").
  rewrite bool_decide_eq_false_2.
  2: { rewrite rev_app_distr. destruct enc as [|b e _] using rev_ind; [done|].
       rewrite rev_unit. cbn. intros [= ->]. apply (Hno x3f); [done|]. set_solver. }
  cbn [andb]. change (str "//pair?" ++ enc) with (str "//pair" ++ x3f :: enc).
  rewrite Cut_found; [reflexivity|].
  by apply (bool_decide_eq_false_1 (x3f ∈ str "//pair")).
Qed.

Lemma Values_Encode_nonempty q : Values_Encode (QR_values q) <> [].
Proof.
  intros H. pose proof (ParseQuery_Encode (QR_values q) (QR_values_nonempty q)) as Hp.
  rewrite H in Hp. pose proof (QR_values_v q) as Hv. rewrite <- Hp in Hv. done.
Qed.

Lemma ParseURL_URL_values q :
  url_Parse (URL q) = Some (MkURL (str "rook-link") (str "pair") [] (Values_Encode (QR_values q))) /\
  ParseQuery (Values_Encode (QR_values q)) = QR_values q.
Proof.
  split.
  - apply url_Parse_rook; [apply Encode_bytes|apply Values_Encode_nonempty].
  - apply ParseQuery_Encode, QR_values_nonempty.
Qed.

Lemma Join_nil_inv xs sep : Join xs [sep] = [] -> xs = [] \/ xs = [[]].
Proof.
  destruct xs as [|x [|y ys]]; [by left|simpl; intros ->; by right|].
  intros H%(f_equal length). change (Join (x :: y :: ys) [sep]) with (x ++ [sep] ++ Join (y :: ys) [sep]) in H.
  rewrite !length_app in H. simpl in H. lia.
Qed.

Lemma Split_pieces s sep : Forall (fun x => sep ∉ x) (Split s sep).
Proof.
  induction s as [|b s IH]; cbn [Split]; [repeat constructor; set_solver|].
  case_decide; [constructor; [set_solver|done]|].
  destruct (Split s sep) as [|x xs]; [repeat constructor; set_solver|].
  inversion IH; subst. constructor; [set_solver|done].
Qed.

(** What [ParseURL] reads back from the URL of [q]. *)
Lemma ParseURL_URL q :
  ParseURL (URL q) =
  match Atoi (itoa (Port q)) with
  | None => Err (ErrPort (itoa (Port q)))
  | Some port =>
    if (port <=? 0) || (65535 <? port) then Err (ErrPort (itoa (Port q))) else
    if is_nil (HostID q) || is_nil (SPKIPin q) || is_nil (Secret q) then Err ErrMissing else
    Ok (MkQR (HostID q) (TrustDomainID q) (HostName q) (SPKIPin q) (Secret q) port
          (if is_nil (Join (Addrs q) (str ",")) then [] else Split (Join (Addrs q) (str ",")) x2c))
  end.
Proof.
  unfold ParseURL. destruct (ParseURL_URL_values q) as [-> Hq]. cbn [url_Scheme url_Host url_RawQuery].
  rewrite Hq. rewrite !(bool_decide_eq_true_2 (_ = _)) by reflexivity. cbn [negb orb].
  autorewrite with qr. rewrite (bool_decide_eq_true_2 (_ = _)) by reflexivity.
  reflexivity.
Qed.

(** C31: the QR code round-trips exactly. Parsing the URL composed from [q]
    yields [q] again if and only if [q] has a host id, a pin, a secret, a port
    in 1..65535 and addresses without commas (and not the single empty
    address); the field values may be arbitrary octets. *)
Theorem ParseURL_URL_roundtrip (q : QR) : ParseURL (URL q) = Ok q <-> qr_ok q.
Proof.
  rewrite ParseURL_URL. unfold qr_ok. destruct q as [hid td n spki s p a]. cbn. split.
  - destruct (Atoi (itoa p)) as [port|] eqn:Ep; [|done].
    destruct (_ || _) eqn:Er; [done|]. destruct (_ || _ || _) eqn:Em; [done|].
    intros [= -> Ha]. rewrite !orb_false_iff, !is_nil_false in Em.
    apply orb_false_iff in Er. split_and!; try tauto; try lia.
    + intros ->. done.
    + rewrite <- Ha. case_match; [constructor|apply Split_pieces].
  - intros (Hh & Hs & Hsec & Hp & Ha & HF).
    rewrite Atoi_itoa by lia. destruct (Z.leb_spec p 0); [lia|].
    destruct (Z.ltb_spec 65535 p); [lia|]. cbn [orb].
    rewrite !(proj2 (is_nil_false _)) by done. cbn [orb]. do 2 f_equal.
    change (str ",") with [x2c]. destruct (is_nil (Join a [x2c])) eqn:E.
    + apply is_nil_true, Join_nil_inv in E as [->| ->]; done.
    + apply is_nil_false in E. apply Split_Join; [by intros ->|done].
Qed.

(** The composed URL consists of unreserved URL characters, the escapes'
    [%] and [+], and the delimiters of its fixed shape; so it contains no
    quote, semicolon, pipe, space or dollar sign. But it always contains [&],
    which a shell does interpret. *)
Theorem URL_alphabet (q : QR) :
  exists enc, URL q = str "rook-link://pair?" ++ enc /\ forallb query_byte enc = true /\
              x26 ∈ URL q.
Proof.
  exists (Values_Encode (QR_values q)). split; [done|]. split; [apply Encode_bytes|].
  destruct (decide (x26 ∈ URL q)) as [|Hno]; [done|exfalso].
  destruct (ParseURL_URL_values q) as [_ Hq].
  assert (x26 ∉ Values_Encode (QR_values q)) as Hn.
  { intros Hin. apply Hno, elem_of_app. by right. }
  unfold ParseQuery in Hq. rewrite Split_no_sep in Hq by done. cbn [fold_left] in Hq.
  pose proof (query_part_size (Values_Encode (QR_values q)) ∅) as Hs. rewrite Hq in Hs.
  pose proof (QR_values_v q) as Hv. pose proof (QR_values_p q) as Hp.
  unfold Values_Get in Hv, Hp.
  destruct (QR_values q !! str "v") as [vs|] eqn:Ev; [|done].
  destruct (QR_values q !! str "p") as [vs'|] eqn:Ep.
  2: { symmetry in Hp. by apply itoa_nonempty in Hp. }
  assert (size ({[str "v"; str "p"]} : gset bytes) <= size (dom (QR_values q)))%nat as Hle.
  { apply subseteq_size. intros k [->%elem_of_singleton| ->%elem_of_singleton]%elem_of_union;
      apply elem_of_dom; eauto. }
  rewrite size_dom in Hle. rewrite map_size_empty in Hs.
  change (size ({[str "v"; str "p"]} : gset bytes)) with 2%nat in Hle. lia.
Qed.
