(* ===== verification/Server.v ===== *)
(** * The link server (link/server.go, link/executor.go)

    One record holds what the server's fields point at; a handler is a
    computation over it that returns a response or a connect error. The clock
    and the random source are the world's, read as often as the code reads them.
    Where other calls may slip in between the critical sections of a handler,
    the sections are definitions of their own. *)

From stdpp Require Import gmap sets.
From S2P Require Import Prelude GoStrings Sha256 BaseN GoTime GoOS Crypto EdgeProto Convert Chan.
From S2P Require Projection Identity Registry Pairing Tokens Hub PaneHub.

Definition ProtocolVersion : bytes := str "rook-link/1".
Definition bearerPrefix : bytes := str "Bearer link-".

(** ** The executor seam *)

Inductive Disposition := Delivered | Duplicate | Dropped | OtherDisposition (n : Z).
Record Outcome := MkOutcome { o_Disposition : Disposition; o_Note : bytes }.

Definition dispositionToProto (d : Disposition) : Pb.Disposition :=
  match d with
  | Delivered => Pb.DISPOSITION_DELIVERED
  | Duplicate => Pb.DISPOSITION_DUPLICATE
  | Dropped => Pb.DISPOSITION_DROPPED
  | OtherDisposition _ => Pb.DISPOSITION_UNSPECIFIED
  end.

(** An effect the server asked the executor for. *)
Inductive effect := EAnswer (a : Projection.Answer) | ECommand (c : Projection.Command).

(** What the embedding host supplies, each answer a function of everything
    asked so far; and the order in which the pane sessions are ranged over. *)
Class Host := {
  exec_Answer : list effect -> Projection.Answer -> Outcome;
  exec_Execute : list effect -> Projection.Command -> Outcome;
  range_sessions : gmap bytes PaneHub.paneSession -> list bytes }.

(** [range] visits every session once. *)
Class HostLaws `{Host} : Prop := {
  range_sessions_perm m : range_sessions m ≡ₚ elements (dom m) }.

Definition DigestSource : Type := bytes -> option Projection.Digest.

(** ** Errors *)

Inductive code :=
| FailedPrecondition | InvalidArgument | PermissionDenied | Unauthenticated | Internal
| Unimplemented | NotFound | Unavailable.

Inductive reason :=
| RVersion (sent : bytes) | RDeviceKey | RProof | RNoWindow | RRegistry (e : Registry.regerr)
| RUnknownDevice | RRandom (e : oserr) | RChallenge | RAuthSignature | RNoToken | RBadToken
| RNoDigests | RSessionID | RNoDigest | RNoPanes | RWatchID | RSource | RBadAnswer | RBadCommand | RRevoked.

Record rpcerr := RPCError { e_code : code; e_reason : reason }.

(** ** Messages *)

Record PairRequest := MkPairRequest {
  pr_ProtocolVersion : bytes; PairingSecret : bytes; DevicePublicKey : bytes; DeviceName : bytes;
  DeviceModel : bytes; RequestedCapabilities : list bytes; Proof_ : bytes }.
Record PairResponse := MkPairResponse {
  pp_DeviceId : bytes; pp_HostId : bytes; pp_TrustDomainId : bytes; pp_HostPublicKey : bytes;
  GrantedCapabilities : list bytes }.
Record GetHostInfoResponse := MkGetHostInfoResponse {
  hi_HostId : bytes; hi_HostName : bytes; hi_TrustDomainId : bytes; ProtocolVersions : list bytes;
  PairingOpen : bool; hi_HostPublicKey : bytes }.
Record ChallengeResponse := MkChallengeResponse { cr_Nonce : bytes; cr_ExpiresAt : Timestamp }.
Record AuthenticateRequest := MkAuthenticateRequest {
  ar_ProtocolVersion : bytes; ar_DeviceId : bytes; ar_Nonce : bytes; ar_Signature : bytes }.
Record AuthenticateResponse := MkAuthenticateResponse {
  SessionToken : bytes; at_ExpiresAt : Timestamp; at_Capabilities : list bytes; at_TrustDomainId : bytes }.
Record GetStatusResponse := MkGetStatusResponse { gs_Status : Pb.Status; gs_Seq : Z }.
Record ChallengeRequest := MkChallengeRequest { cq_DeviceId : bytes }.
Record GetDigestRequest := MkGetDigestRequest { gd_SessionId : bytes }.
Record WatchPaneRequest := MkWatchPaneRequest { wq_SessionId : bytes }.
Record SubmitAnswerRequest := MkSubmitAnswerRequest { sa_AskId : bytes; Text : bytes }.
Record SubmitAnswerResponse := MkSubmitAnswerResponse { sa_Disposition : Pb.Disposition; sa_Note : bytes }.
Record SubmitCommandRequest := MkSubmitCommandRequest {
  Kind : Pb.CommandKind; sc_SessionId : bytes; Workspace : bytes; Prompt : bytes }.
Record SubmitCommandResponse := MkSubmitCommandResponse {
  CommandId : bytes; sr_Disposition : Pb.Disposition; Note : bytes }.

(** ** The server *)

Record server := MkServer {
  id : Identity.Identity; book : Registry.RState; pairs : Pairing.Manager; hostName : bytes;
  heartbeat : Z; hub : Hub.hub; panes : PaneHub.paneHub; digests : option DigestSource;
  tokens : Tokens.tokens; nonces : Tokens.nonces; effects : list effect }.

Definition set_book (x : Registry.RState) (s : server) : server :=
  MkServer (id s) x (pairs s) (hostName s) (heartbeat s) (hub s) (panes s) (digests s) (tokens s) (nonces s) (effects s).
Definition set_pairs (x : Pairing.Manager) (s : server) : server :=
  MkServer (id s) (book s) x (hostName s) (heartbeat s) (hub s) (panes s) (digests s) (tokens s) (nonces s) (effects s).
Definition set_hub (x : Hub.hub) (s : server) : server :=
  MkServer (id s) (book s) (pairs s) (hostName s) (heartbeat s) x (panes s) (digests s) (tokens s) (nonces s) (effects s).
Definition set_panes (x : PaneHub.paneHub) (s : server) : server :=
  MkServer (id s) (book s) (pairs s) (hostName s) (heartbeat s) (hub s) x (digests s) (tokens s) (nonces s) (effects s).
Definition set_tokens (x : Tokens.tokens) (s : server) : server :=
  MkServer (id s) (book s) (pairs s) (hostName s) (heartbeat s) (hub s) (panes s) (digests s) x (nonces s) (effects s).
Definition set_nonces (x : Tokens.nonces) (s : server) : server :=
  MkServer (id s) (book s) (pairs s) (hostName s) (heartbeat s) (hub s) (panes s) (digests s) (tokens s) x (effects s).
Definition add_effect (e : effect) (s : server) : server :=
  MkServer (id s) (book s) (pairs s) (hostName s) (heartbeat s) (hub s) (panes s) (digests s) (tokens s) (nonces s)
    (effects s ++ [e]).

Definition world (s : server) : World := Registry.rs_world (book s).
Definition registry (s : server) : Registry.Registry := Registry.rs_reg (book s).
Definition set_world (w : World) (s : server) : server := set_book (Registry.put_world w (book s)) s.

(** A reading of the clock, and the state after it. *)
Definition tnow (s : server) : time := clock (world s) (ticks (world s)).
Definition tick (s : server) : server := set_world (set_ticks (S (ticks (world s))) (world s)) s.

(** [Options], with the pointers that may be nil; the executor's own presence
    is a flag, since it is the [Host]. *)
Record Options := MkOptions {
  op_Identity : option Identity.Identity; op_Registry : option Registry.RState;
  op_Pairing : option Pairing.Manager; op_Executor : bool; op_HostName : bytes;
  op_Panes : option PaneHub.PaneSource; op_Digests : option DigestSource; op_Heartbeat : Z }.

Definition NewServer (o : Options) : res rpcerr server :=
  match op_Identity o, op_Registry o, op_Executor o with
  | Some i, Some r, true =>
    Ok (MkServer i r (default Pairing.zeroManager (op_Pairing o)) (op_HostName o)
          (if op_Heartbeat o <=? 0 then 25 * Second else op_Heartbeat o)
          Hub.newHub (PaneHub.newPaneHub (op_Panes o)) (op_Digests o)
          Tokens.newTokens Tokens.newNonces [])
  | _, _, _ => Panic
  end.

(** [clipDisplay] *)
Fixpoint clipDisplay_loop (s : bytes) (i : nat) : bytes :=
  match i with
  | O => []
  | S i' =>
    match s !! i with
    | Some b => if negb (Z.land (Zb b) 0xC0 =? 0x80) then take i s else clipDisplay_loop s i'
    | None => []
    end
  end.
Definition clipDisplay (s : bytes) : bytes :=
  if (length s <=? 200)%nat then s else clipDisplay_loop s 200.

Section server.
Context `{Ed25519, Registry.RegistryLib, Host}.

Definition fail {A} (c : code) (r : reason) : SE server rpcerr A := throw (RPCError c r).

(** [s.now()] *)
Definition now : SE server rpcerr time := zoom world set_world Now.

(** A step of a component that returns a value, as a step of the server. *)
Definition locked {A} (f : server -> A * server) : SE server rpcerr A :=
  fun s => let '(a, s') := f s in (Ok a, s').

Definition drop_tokens (deviceID : bytes) (s : server) : server :=
  set_tokens (Tokens.token_dropDevice deviceID (tokens s)) s.
Definition drop_hub (deviceID : bytes) (s : server) : server :=
  set_hub (Hub.dropDevice deviceID (hub s)) s.
Definition drop_panes (deviceID : bytes) (s : server) : server :=
  set_panes (PaneHub.dropDevice (range_sessions (PaneHub.sessions (panes s))) deviceID (panes s)) s.
Definition drop_device (deviceID : bytes) (s : server) : server :=
  drop_panes deviceID (drop_hub deviceID (drop_tokens deviceID s)).

Definition set_HostID (h : bytes) (st : Projection.Status) : Projection.Status :=
  Projection.MkStatus (Projection.s_Hostname st) (Projection.s_RookVersion st) h
    (Projection.s_Workspaces st) (Projection.s_Usage st).

Definition Publish (races : nat -> bool * bool) (status : Projection.Status) : SE server rpcerr Z :=
  host ← gets id;
  hostID ← of_res (or_panic (Identity.HostID host));
  t ← now;
  locked (fun s =>
    let status := set_HostID hostID status in
    let '(n, h) := Hub.publish races status t (hub s) in (n, set_hub h s)).

Definition PublishPane (races : nat -> bool * bool) (sessionID : bytes) (f : Projection.PaneFrame)
    (s : server) : server :=
  set_panes (PaneHub.publish races sessionID f (panes s)) s.

(** [RevokeDevice] *)
Definition reg_err (e : Registry.regerr) : rpcerr := RPCError Internal (RRegistry e).
Definition RevokeDevice (deviceID : bytes) : SE server rpcerr unit :=
  t ← now;
  _ ← map_err reg_err (zoom book set_book (Registry.Revoke deviceID t));
  modify (drop_device deviceID).

Definition GetHostInfo : SE server rpcerr GetHostInfoResponse :=
  host ← gets id;
  hostID ← of_res (or_panic (Identity.HostID host));
  name ← gets hostName;
  t ← now;
  isOpen ← gets (fun s => Pairing.OpenNow t (pairs s));
  pub ← of_res (or_panic (Identity.PublicKey host));
  mret (MkGetHostInfoResponse hostID name (Identity.TrustDomainID host) [ProtocolVersion] isOpen pub).

Definition Redeem (secret : bytes) (t : time) : SE server rpcerr bool :=
  locked (fun s => let '(ok, m) := Pairing.Redeem secret t (pairs s) in (ok, set_pairs m s)).

Definition Pair (m : PairRequest) : SE server rpcerr PairResponse :=
  if negb (bool_decide (pr_ProtocolVersion m = ProtocolVersion))
  then fail FailedPrecondition (RVersion (pr_ProtocolVersion m))
  else if negb (length (DevicePublicKey m) =? PublicKeySize)%nat then fail InvalidArgument RDeviceKey
  else
    let devPub := DevicePublicKey m in
    host ← gets id;
    hostID ← of_res (or_panic (Identity.HostID host));
    ok ← of_res (Identity.VerifyPairProof devPub hostID (PairingSecret m) (Proof_ m));
    _ ← throw_if (negb ok) (RPCError PermissionDenied RProof);
    t ← now;
    redeemed ← Redeem (PairingSecret m) t;
    _ ← throw_if (negb redeemed) (RPCError PermissionDenied RNoWindow);
    let deviceID := Identity.DeviceIDFor devPub in
    let caps := match RequestedCapabilities m with [] => Registry.DefaultCapabilities | cs => cs end in
    paired ← now;
    let d := Registry.MkDevice deviceID (clipDisplay (DeviceName m)) (clipDisplay (DeviceModel m))
               (DevicePublicKey m) caps paired zeroTime None in
    _ ← map_err (fun e => RPCError InvalidArgument (RRegistry e))
          (zoom book set_book (Registry.Add d));
    _ ← modify (drop_device deviceID);
    granted ← gets (fun s => from_option Registry.d_Capabilities [] (Registry.Get deviceID (registry s)));
    hostID' ← of_res (or_panic (Identity.HostID host));
    pub ← of_res (or_panic (Identity.PublicKey host));
    mret (MkPairResponse deviceID hostID' (Identity.TrustDomainID host) pub granted).

(** [d, ok := s.reg.Get(id); if !ok || d.Revoked() { ... }] *)
Definition known_device (deviceID : bytes) : SE server rpcerr Registry.Device :=
  d ← gets (fun s => Registry.Get deviceID (registry s));
  match d with
  | Some d => if Registry.Revoked d then fail PermissionDenied RUnknownDevice else mret d
  | None => fail PermissionDenied RUnknownDevice
  end.

(** [nonces.mint] and [tokens.mint]: random octets from the world, then the
    store's critical section. *)
Definition mint_nonce (deviceID : bytes) (t : time) : SE server rpcerr (bytes * time) :=
  fun s => match Tokens.nonce_mint deviceID t (nonces s) (world s) with
           | (Ok (n, exp, ns), w) => (Ok (n, exp), set_nonces ns (set_world w s))
           | (Err e, w) => (Err (RPCError Internal (RRandom e)), set_world w s)
           | (Panic, w) => (Panic, set_world w s)
           end.
Definition mint_token (deviceID : bytes) (t : time) : SE server rpcerr (bytes * time) :=
  fun s => match Tokens.token_mint deviceID t (tokens s) (world s) with
           | (Ok (tok, exp, ts), w) => (Ok (tok, exp), set_tokens ts (set_world w s))
           | (Err e, w) => (Err (RPCError Internal (RRandom e)), set_world w s)
           | (Panic, w) => (Panic, set_world w s)
           end.

Definition Challenge (m : ChallengeRequest) : SE server rpcerr ChallengeResponse :=
  d ← known_device (cq_DeviceId m);
  t ← now;
  '(n, exp) ← mint_nonce (Registry.d_ID d) t;
  mret (MkChallengeResponse n (timestamp_New exp)).

Definition consume_nonce (raw deviceID : bytes) (t : time) : SE server rpcerr bool :=
  locked (fun s => let '(ok, ns) := Tokens.nonce_consume raw deviceID t (nonces s) in (ok, set_nonces ns s)).

Definition touch (deviceID : bytes) : SE server rpcerr unit :=
  t ← now; modify (fun s => set_book (Registry.Touch deviceID t (book s)) s).

Definition Authenticate (m : AuthenticateRequest) : SE server rpcerr AuthenticateResponse :=
  d ← known_device (ar_DeviceId m);
  t ← now;
  live ← consume_nonce (ar_Nonce m) (Registry.d_ID d) t;
  _ ← throw_if (negb live) (RPCError PermissionDenied RChallenge);
  host ← gets id;
  hostID ← of_res (or_panic (Identity.HostID host));
  ok ← of_res (Identity.VerifyAuth (Registry.d_PublicKey d) hostID (Registry.d_ID d)
                 (ar_Nonce m) (ar_Signature m));
  _ ← throw_if (negb ok) (RPCError PermissionDenied RAuthSignature);
  t' ← now;
  '(tok, exp) ← mint_token (Registry.d_ID d) t';
  _ ← touch (Registry.d_ID d);
  gets (fun s => MkAuthenticateResponse tok (timestamp_New exp) (Registry.d_Capabilities d)
                   (Identity.TrustDomainID (id s))).

(** [authorize]; [auth] is the request's Authorization header. *)
Definition resolve_token (tok : bytes) (t : time) : SE server rpcerr bytes :=
  locked (fun s => let '(d, ts) := Tokens.token_resolve tok t (tokens s) in (d, set_tokens ts s)).

Definition authorize (auth capability : bytes) : SE server rpcerr bytes :=
  if negb (HasPrefix auth bearerPrefix) then fail Unauthenticated RNoToken
  else
    t ← now;
    deviceID ← resolve_token (TrimPrefix auth bearerPrefix) t;
    _ ← throw_if (bool_decide (deviceID = [])) (RPCError Unauthenticated RBadToken);
    s ← gets (fun s => s);
    _ ← of_res (res_map_err (fun e => RPCError PermissionDenied (RRegistry e))
                  (Registry.Allowed deviceID capability (registry s)));
    mret deviceID.

Definition GetStatus (auth : bytes) : SE server rpcerr GetStatusResponse :=
  _ ← authorize auth Registry.CapStatusRead;
  gets (fun s => let '(cur, t, n) := Hub.snapshot (hub s) in MkGetStatusResponse (statusToProto cur t) n).

Definition GetDigest (auth : bytes) (m : GetDigestRequest) : SE server rpcerr Pb.Digest :=
  _ ← authorize auth Registry.CapSessionRead;
  src ← gets digests;
  match src with
  | None => fail Unimplemented RNoDigests
  | Some lookup =>
    let sessionID := gd_SessionId m in
    if bool_decide (sessionID = []) || (Projection.MaxAskIDLen <? length sessionID)%nat
    then fail InvalidArgument RSessionID
    else match lookup sessionID with
    | None => fail NotFound RNoDigest
    | Some d => mret (digestToProto (Projection.Digest_Clamp d))
    end
  end.

(** [ValidAnswer] reads the clock when it accepts. *)
Definition valid_answer (m : SubmitAnswerRequest) : SE server rpcerr Projection.Answer := fun s =>
  match Projection.ValidAnswer (sa_AskId m) (Text m) (tnow s) with
  | Ok a => (Ok a, tick s)
  | Err _ => (Err (RPCError InvalidArgument RBadAnswer), s)
  | Panic => (Panic, s)
  end.

Definition SubmitAnswer (auth : bytes) (m : SubmitAnswerRequest) : SE server rpcerr SubmitAnswerResponse :=
  deviceID ← authorize auth Registry.CapAgentAnswer;
  a ← valid_answer m;
  out ← locked (fun s => (exec_Answer (effects s) a, add_effect (EAnswer a) s));
  _ ← touch deviceID;
  mret (MkSubmitAnswerResponse (dispositionToProto (o_Disposition out)) (o_Note out)).

Definition SubmitCommand (auth : bytes) (m : SubmitCommandRequest)
    : SE server rpcerr SubmitCommandResponse :=
  deviceID ← authorize auth Registry.CapAgentCommand;
  t ← now;
  c ← of_res (res_map_err (fun _ => RPCError InvalidArgument RBadCommand)
                (Projection.ValidCommand (kindFromProto (Kind m)) (sc_SessionId m) (Workspace m) (Prompt m) t));
  out ← locked (fun s => (exec_Execute (effects s) c, add_effect (ECommand c) s));
  _ ← touch deviceID;
  mret (MkSubmitCommandResponse (Projection.c_ID c) (dispositionToProto (o_Disposition out)) (o_Note out)).

(** The head of [WatchStatus]: authorize, then subscribe under the hub's lock. *)
Definition watch_open (deviceID : bytes) : SE server rpcerr (nat * Hub.frame) :=
  locked (fun s => let '(sub, o, h) := Hub.subscribe deviceID (hub s) in ((sub, o), set_hub h s)).
Definition WatchStatus_start (auth : bytes) : SE server rpcerr (nat * Hub.frame) :=
  deviceID ← authorize auth Registry.CapStatusRead;
  watch_open deviceID.

(** The head of [WatchPane]. *)
Definition pane_open (deviceID sessionID : bytes) : SE server rpcerr (nat * option PaneHub.paneFrameMsg) :=
  fun s => match PaneHub.subscribe deviceID sessionID (panes s) with
           | (Ok r, h) => (Ok r, set_panes h s)
           | (Err _, h) => (Err (RPCError Unavailable RSource), set_panes h s)
           | (Panic, h) => (Panic, set_panes h s)
           end.
Definition WatchPane_start (auth : bytes) (m : WatchPaneRequest) : SE server rpcerr (nat * option PaneHub.paneFrameMsg) :=
  deviceID ← authorize auth Registry.CapSessionRead;
  source ← gets (fun s => PaneHub.source (panes s));
  match source with
  | None => fail Unimplemented RNoPanes
  | Some _ =>
    let sessionID := TrimSpace (wq_SessionId m) in
    if bool_decide (sessionID = []) || (Projection.MaxAskIDLen <? length sessionID)%nat
    then fail InvalidArgument RWatchID
    else pane_open deviceID sessionID
  end.
End server.

(** ** Lemmas: the clock, and what each step leaves alone *)

Section lemmas.
Context `{Ed25519, Registry.RegistryLib, Host}.

Lemma now_bind {A} (k : time -> SE server rpcerr A) s : (now ≫= k) s = k (tnow s) (tick s).
Proof. reflexivity. Qed.

Lemma valid_answer_bind {A} m (k : Projection.Answer -> SE server rpcerr A) s :
  (valid_answer m ≫= k) s =
  match Projection.ValidAnswer (sa_AskId m) (Text m) (tnow s) with
  | Ok a => k a (tick s)
  | Err _ => (Err (RPCError InvalidArgument RBadAnswer), s)
  | Panic => (Panic, s)
  end.
Proof. unfold valid_answer. rewrite bind_eq. by destruct (Projection.ValidAnswer _ _ _). Qed.

Lemma locked_bind {A B} (f : server -> A * server) (k : A -> SE server rpcerr B) s :
  (locked f ≫= k) s = k (fst (f s)) (snd (f s)).
Proof. unfold locked, mbind, SE_bind. by destruct (f s). Qed.

Definition touched (deviceID : bytes) (s : server) : server :=
  set_book (Registry.Touch deviceID (tnow s) (book (tick s))) (tick s).

Lemma touch_bind {A} d (k : unit -> SE server rpcerr A) s : (touch d ≫= k) s = k () (touched d s).
Proof. reflexivity. Qed.

(** [authorize] in one equation. *)
Definition authorized (auth capability : bytes) (s : server) : res rpcerr bytes :=
  if negb (HasPrefix auth bearerPrefix) then Err (RPCError Unauthenticated RNoToken)
  else
    let d := fst (Tokens.token_resolve (TrimPrefix auth bearerPrefix) (tnow s) (tokens s)) in
    if bool_decide (d = []) then Err (RPCError Unauthenticated RBadToken)
    else match Registry.Allowed d capability (registry s) with
         | Ok _ => Ok d
         | Err e => Err (RPCError PermissionDenied (RRegistry e))
         | Panic => Panic
         end.
Definition after_authorize (auth : bytes) (s : server) : server :=
  if negb (HasPrefix auth bearerPrefix) then s
  else set_tokens (snd (Tokens.token_resolve (TrimPrefix auth bearerPrefix) (tnow s) (tokens s))) (tick s).

#[local] Arguments after_authorize auth s : simpl never.

Lemma authorize_eq auth cap s : authorize auth cap s = (authorized auth cap s, after_authorize auth s).
Proof.
  unfold authorize, authorized, after_authorize. destruct (negb (HasPrefix auth bearerPrefix)); [done|].
  rewrite now_bind. unfold resolve_token. rewrite locked_bind. change (tokens (tick s)) with (tokens s).
  destruct (Tokens.token_resolve _ _ _) as [d ts]. cbn [fst snd]. rewrite throw_if_bind.
  destruct (bool_decide (d = [])); [done|]. rewrite gets_bind, of_res_bind.
  change (registry (set_tokens ts (tick s))) with (registry s).
  by destruct (Registry.Allowed d cap (registry s)).
Qed.

Lemma authorize_bind {A} auth cap (k : bytes -> SE server rpcerr A) s :
  (authorize auth cap ≫= k) s =
  match authorized auth cap s with
  | Ok d => k d (after_authorize auth s)
  | Err e => (Err e, after_authorize auth s)
  | Panic => (Panic, after_authorize auth s)
  end.
Proof. rewrite bind_eq, authorize_eq. by destruct (authorized auth cap s). Qed.

(** Everything authorization reads or leaves, but the clock and the tokens. *)
Lemma after_authorize_fields auth s :
  let s' := after_authorize auth s in
  id s' = id s /\ registry s' = registry s /\ pairs s' = pairs s /\ hub s' = hub s /\
  panes s' = panes s /\ digests s' = digests s /\ nonces s' = nonces s /\ effects s' = effects s /\
  disk (world s') = disk (world s).
Proof. cbv zeta. unfold after_authorize. by destruct (negb _). Qed.

(** ** Properties *)

(** C5: authorization is live and exact. A call is let through, as device [d],
    exactly when its header is the bearer prefix and a token the store resolves
    to [d] at this moment, and the registry at this moment allows [d] the
    capability; nothing else about past calls matters. *)
Theorem authorize_exact auth cap s d :
  fst (authorize auth cap s) = Ok d <->
  d <> [] /\ (exists tok, auth = bearerPrefix ++ tok /\
                          fst (Tokens.token_resolve tok (tnow s) (tokens s)) = d) /\
  Registry.Allowed d cap (registry s) = Ok ().
Proof.
  rewrite authorize_eq. cbn [fst]. unfold authorized. split.
  - destruct (HasPrefix auth bearerPrefix) eqn:Hp; cbn [negb]; [|done].
    apply HasPrefix_spec in Hp. case_bool_decide as Hd; [done|].
    destruct (Registry.Allowed _ cap _) as [[]|e|] eqn:Ha; [|done..]. intros [= <-]. eauto.
  - intros (Hd & (tok & -> & Ht) & Ha). rewrite HasPrefix_app, TrimPrefix_app, Ht. cbn [negb].
    rewrite bool_decide_eq_false_2 by done. by rewrite Ha.
Qed.

(** The effects a submission causes. *)
Definition effect_if {A B} (authority : res rpcerr A) (valid : res Projection.perror B) (mk : B -> effect)
    : list effect :=
  match authority, valid with Ok _, Ok b => [mk b] | _, _ => [] end.

(** C6: the keyboard is reached only with authority, and exactly once. A
    submitted command (or answer) causes precisely one effect, the validated
    one, when the caller is allowed the capability and the request is valid,
    and none otherwise; the response then echoes the natural key and the
    executor's verdict, and the other handlers cause none at all. *)
Theorem effects_need_authority auth cm am gm s :
  let t := tnow (after_authorize auth s) in
  let c := Projection.ValidCommand (kindFromProto (Kind cm)) (sc_SessionId cm) (Workspace cm) (Prompt cm) t in
  let a := Projection.ValidAnswer (sa_AskId am) (Text am) t in
  effects (snd (SubmitCommand auth cm s)) =
    effects s ++ effect_if (fst (authorize auth Registry.CapAgentCommand s)) c ECommand /\
  effects (snd (SubmitAnswer auth am s)) =
    effects s ++ effect_if (fst (authorize auth Registry.CapAgentAnswer s)) a EAnswer /\
  (forall r, fst (SubmitCommand auth cm s) = Ok r ->
     exists cmd, c = Ok cmd /\ CommandId r = Projection.c_ID cmd /\
       sr_Disposition r = dispositionToProto (o_Disposition (exec_Execute (effects s) cmd)) /\
       Note r = o_Note (exec_Execute (effects s) cmd)) /\
  effects (snd (GetStatus auth s)) = effects s /\ effects (snd (GetDigest auth gm s)) = effects s /\
  effects (snd (WatchStatus_start auth s)) = effects s.
Proof.
  cbv zeta.
  pose proof (after_authorize_fields auth s) as (_ & _ & _ & _ & _ & _ & _ & He & _).
  split_and!.
  - unfold SubmitCommand. rewrite authorize_bind, authorize_eq. cbn [fst].
    destruct (authorized auth Registry.CapAgentCommand s); cbn [effect_if];
      [|by rewrite app_nil_r..]. rewrite now_bind, of_res_bind.
    destruct (Projection.ValidCommand _ _ _ _ _) as [cmd|e|]; cbn [res_map_err]; [|by rewrite app_nil_r..].
    rewrite locked_bind, touch_bind, mret_eq. cbn. by rewrite He.
  - unfold SubmitAnswer. rewrite authorize_bind, authorize_eq. cbn [fst].
    destruct (authorized auth Registry.CapAgentAnswer s); cbn [effect_if];
      [|by rewrite app_nil_r..]. rewrite valid_answer_bind.
    destruct (Projection.ValidAnswer _ _ _) as [ans|e|]; [|by rewrite app_nil_r..].
    rewrite locked_bind, touch_bind, mret_eq. cbn. by rewrite He.
  - intros r. unfold SubmitCommand. rewrite authorize_bind.
    destruct (authorized auth Registry.CapAgentCommand s); [|done..].
    rewrite now_bind, of_res_bind.
    destruct (Projection.ValidCommand _ _ _ _ _) as [cmd|e|]; [|done..]. cbn [res_map_err].
    rewrite locked_bind, touch_bind, mret_eq. cbn. rewrite He. intros [= <-]. by exists cmd.
  - unfold GetStatus. rewrite authorize_bind. by destruct (authorized _ _ _).
  - unfold GetDigest. rewrite authorize_bind. destruct (authorized _ _ _); [|done..].
    rewrite gets_bind. destruct (digests _) as [look|]; [|done]. destruct (_ || _); [done|].
    by destruct (look (gd_SessionId gm)).
  - unfold WatchStatus_start. rewrite authorize_bind. by destruct (authorized _ _ _).
Qed.
End lemmas.

Section handlers.
Context `{Ed25519, Registry.RegistryLib, Host}.

Lemma book_bind {A B} (f : Registry.regerr -> rpcerr) (m : SE Registry.RState Registry.regerr A)
    (k : A -> SE server rpcerr B) s :
  (map_err f (zoom book set_book m) ≫= k) s =
  match m (book s) with
  | (Ok a, b) => k a (set_book b s)
  | (Err e, b) => (Err (f e), set_book b s)
  | (Panic, b) => (Panic, set_book b s)
  end.
Proof. unfold map_err, zoom, mbind, SE_bind. by destruct (m (book s)) as [[]]. Qed.

(** The registry's methods as steps of the server. *)
Lemma Add_result d b :
  match Registry.Add d b with
  | (Ok _, b') =>
    Registry.op_refusal (Registry.OAdd d) (Registry.devices b) = None /\
    Registry.devices b' = Registry.op_effect (Registry.OAdd d) (Registry.devices b)
  | (Err e, b') =>
    (Registry.op_refusal (Registry.OAdd d) (Registry.devices b) = Some e /\ b' = b) \/
    (Registry.op_refusal (Registry.OAdd d) (Registry.devices b) = None /\
     Registry.devices b' = Registry.op_effect (Registry.OAdd d) (Registry.devices b))
  | (Panic, _) => False
  end.
Proof.
  pose proof (Registry.run_op_devices (Registry.OAdd d) b) as [Hd _].
  pose proof (Registry.run_op_eq (Registry.OAdd d) b) as He. cbn [Registry.run_op Registry.forgiving] in *.
  unfold Registry.op_book in Hd. destruct (Registry.op_refusal _ _) as [e|] eqn:Hr.
  - rewrite He. auto.
  - pose proof (Registry.persistLocked_cases
      (Registry.set_book (Registry.op_effect (Registry.OAdd d) (Registry.devices b)) b)) as Hc.
    rewrite He in Hd |- *. destruct (Registry.persistLocked _) as [[[]|e|] b']; cbn in Hd; auto.
Qed.

Lemma Redeem_false secret t m : fst (Pairing.Redeem secret t m) = false -> snd (Pairing.Redeem secret t m) = m.
Proof.
  unfold Pairing.Redeem. destruct (_ || _); [done|]. cbn. by intros ->.
Qed.

(** The device a pairing request asks to register. *)
Definition requested_caps (m : PairRequest) : list bytes :=
  match RequestedCapabilities m with [] => Registry.DefaultCapabilities | cs => cs end.

(** A pairing proof that checks out. *)
Definition proof_verifies (m : PairRequest) (s : server) : Prop :=
  exists hostID, Identity.HostID (id s) = Some hostID /\
    Identity.VerifyPairProof (E := rpcerr) (DevicePublicKey m) hostID (PairingSecret m) (Proof_ m) = Ok true.

(** C22: pairing, branch by branch. It succeeds only for the right protocol
    version, a 32-octet key, a proof that verifies for this host and secret, and
    an open window for that secret; then the window is spent, the device is on
    the book under its derived id with exactly the known capabilities asked for
    (all, when none were named), and every older session and stream of that id
    is dropped. Before the secret is looked at, a refusal changes nothing, so a
    bad proof cannot burn the window; it panics only on a malformed key of the
    host's own, before anything has changed. *)
Theorem Pair_exact m s :
  let '(r, s') := Pair m s in
  let dev := Identity.DeviceIDFor (DevicePublicKey m) in
  let redeemed := Pairing.Redeem (PairingSecret m) (tnow s) (pairs s) in
  match r with
  | Ok resp =>
    pr_ProtocolVersion m = ProtocolVersion /\ length (DevicePublicKey m) = PublicKeySize /\
    proof_verifies m s /\
    fst redeemed = true /\ pairs s' = snd redeemed /\
    (exists d, Registry.Get dev (registry s') = Some d /\ Registry.d_PublicKey d = DevicePublicKey m /\
       Registry.d_RevokedAt d = None /\
       Registry.d_Capabilities d = Registry.filter_caps (requested_caps m) /\
       GrantedCapabilities resp = Registry.d_Capabilities d) /\
    tokens s' = Tokens.token_dropDevice dev (tokens s) /\ hub s' = Hub.dropDevice dev (hub s) /\
    panes s' = PaneHub.dropDevice (range_sessions (PaneHub.sessions (panes s))) dev (panes s)
  | Err (RPCError _ (RRegistry e)) =>
    fst redeemed = true /\ pairs s' = snd redeemed /\
    tokens s' = tokens s /\ hub s' = hub s /\ panes s' = panes s
  | Err (RPCError _ RNoWindow) => fst redeemed = false /\ s' = tick s
  | Err _ => s' = s
  | Panic => Identity.HostID (id s) = None /\ s' = s
  end.
Proof.
  unfold Pair. case_bool_decide as Hv; cbn [negb]; [|done].
  destruct (Nat.eqb_spec (length (DevicePublicKey m)) PublicKeySize) as [Hl|]; cbn [negb]; [|done].
  rewrite gets_bind, or_panic_bind. destruct (Identity.HostID (id s)) as [hid|] eqn:Hh; [|done].
  destruct (proj1 (fmap_Some _ _ _) Hh) as (pub & Hpub & _). rewrite of_res_bind.
  destruct (Identity.VerifyPairProof (E := rpcerr) (DevicePublicKey m) hid (PairingSecret m) (Proof_ m))
    as [ok|e|] eqn:Hp.
  2,3: exfalso; unfold Identity.VerifyPairProof in Hp;
    match type of Hp with verify_nonempty ?p ?x ?y = _ =>
      destruct (verify_nonempty_total (E := rpcerr) p x y Hl) as [b Hb] end; congruence.
  rewrite throw_if_bind. destruct ok; cbn [negb]; [|done].
  rewrite now_bind. unfold Redeem. rewrite locked_bind. change (pairs (tick s)) with (pairs s).
  pose proof (Redeem_false (PairingSecret m) (tnow s) (pairs s)) as Hrf.
  destruct (Pairing.Redeem (PairingSecret m) (tnow s) (pairs s)) as [ok m'] eqn:Hr.
  cbn [fst snd] in *. rewrite throw_if_bind. destruct ok; cbn [negb].
  2:{ rewrite (Hrf eq_refl). by destruct s. }
  rewrite now_bind, book_bind. fold (requested_caps m).
  set (s1 := tick (set_pairs m' (tick s))).
  set (d := Registry.MkDevice _ _ _ _ _ _ _ _).
  pose proof (Add_result d (book s1)) as Ha.
  destruct (Registry.Add d (book s1)) as [[[]|e|] b']; [|done|done].
  destruct Ha as [_ Hd]. rewrite modify_bind, gets_bind, !or_panic_bind, Hpub, mret_eq.
  assert (Registry.Get (Identity.DeviceIDFor (DevicePublicKey m)) (registry (set_book b' s1)) =
          Some (Registry.set_Capabilities (Registry.filter_caps (requested_caps m)) d)) as Hg.
  { unfold Registry.Get, registry. cbn [set_book book]. fold (Registry.devices b'). rewrite Hd.
    cbn [Registry.op_effect]. apply lookup_insert_eq. }
  split_and!; try done; [by exists hid|]. eexists. split_and!; [exact Hg|done..|]. cbn [GrantedCapabilities].
  change (registry (drop_device _ (set_book b' s1))) with (registry (set_book b' s1)). by rewrite Hg.
Qed.

(** A device the pre-session handlers know: on the book, not revoked. *)
Definition known (deviceID : bytes) (s : server) : option Registry.Device :=
  match Registry.Get deviceID (registry s) with
  | Some d => if Registry.Revoked d then None else Some d
  | None => None
  end.

Lemma known_device_bind {A} deviceID (k : Registry.Device -> SE server rpcerr A) s :
  (known_device deviceID ≫= k) s =
  match known deviceID s with
  | Some d => k d s
  | None => (Err (RPCError PermissionDenied RUnknownDevice), s)
  end.
Proof.
  unfold known_device, known, mbind, SE_bind, gets.
  destruct (Registry.Get deviceID (registry s)) as [d|]; [|done]. by destruct (Registry.Revoked d).
Qed.

Lemma known_wf deviceID s d :
  Registry.book_wf (Registry.devices (book s)) -> known deviceID s = Some d ->
  Registry.d_ID d = deviceID /\ length (Registry.d_PublicKey d) = PublicKeySize.
Proof.
  unfold known, Registry.Get. intros Hw. destruct (Registry.r_devices _ !! deviceID) as [x|] eqn:Hx; [|done].
  destruct (Registry.Revoked x); [done|]. intros [= <-]. apply (Hw deviceID x) in Hx as (? & ? & _). done.
Qed.

(** A challenge answer that checks out. *)
Definition answer_verifies (d : Registry.Device) (m : AuthenticateRequest) (s : server) : Prop :=
  exists hostID, Identity.HostID (id s) = Some hostID /\
    Identity.VerifyAuth (E := rpcerr) (Registry.d_PublicKey d) hostID (ar_DeviceId m) (ar_Nonce m)
      (ar_Signature m) = Ok true.

(** C23: authentication, branch by branch. A session is granted only to a device
    on the book and not revoked, for a live nonce minted for it, with a
    signature by its key over this host, this device and this nonce. Presenting
    a nonce burns it whether or not the signature verifies. Success mints
    exactly one token, for that device; failure mints none. On a well-formed
    book it panics only on a malformed key of the host's own. *)
Theorem Authenticate_exact m s :
  Registry.book_wf (Registry.devices (book s)) ->
  let '(r, s') := Authenticate m s in
  let consumed := Tokens.nonce_consume (ar_Nonce m) (ar_DeviceId m) (tnow s) (nonces s) in
  nonces s' = match known (ar_DeviceId m) s with Some _ => snd consumed | None => nonces s end /\
  match r with
  | Ok resp =>
    exists d t, known (ar_DeviceId m) s = Some d /\ fst consumed = true /\ answer_verifies d m s /\
      tokens s' = Tokens.token_insert (SessionToken resp) (ar_DeviceId m) t (tokens s) /\
      at_Capabilities resp = Registry.d_Capabilities d
  | Err _ => tokens s' = tokens s
  | Panic => Identity.HostID (id s) = None /\ tokens s' = tokens s
  end.
Proof.
  intros Hw. unfold Authenticate. rewrite known_device_bind.
  destruct (known (ar_DeviceId m) s) as [d|] eqn:Hk; [|done].
  destruct (known_wf _ _ _ Hw Hk) as [Hid Hlen]. rewrite now_bind. unfold consume_nonce.
  rewrite locked_bind. change (nonces (tick s)) with (nonces s). rewrite Hid.
  destruct (Tokens.nonce_consume (ar_Nonce m) (ar_DeviceId m) (tnow s) (nonces s)) as [live ns].
  cbn [fst snd]. rewrite throw_if_bind. destruct live; cbn [negb]; [|done].
  rewrite gets_bind, or_panic_bind. change (id (set_nonces ns (tick s))) with (id s).
  destruct (Identity.HostID (id s)) as [hid|] eqn:Hh; [|done]. rewrite of_res_bind.
  destruct (verify_nonempty_total (E := rpcerr) (Registry.d_PublicKey d)
    (Identity.authBytes hid (ar_DeviceId m) (ar_Nonce m)) (ar_Signature m) Hlen)
    as [ok Hok].
  unfold Identity.VerifyAuth at 1. rewrite Hok, throw_if_bind. destruct ok; cbn [negb]; [|done].
  rewrite now_bind, bind_eq. unfold mint_token, Tokens.token_mint, rand_Read.
  set (s1 := tick (set_nonces ns (tick s))). rewrite bind_eq.
  destruct (entropy (world s1) (draws (world s1))) as [f|]; [|done].
  cbn [mret SE_ret]. rewrite touch_bind. split; [done|].
  eexists d, _. split_and!; [done|done|by exists hid| |done]. cbn. reflexivity.
Qed.

Lemma held_exclusive d (h : Hub.hub) i :
  i ∈ Hub.subs (Hub.dropDevice d h) -> sub_deviceID <$> Hub.heap h !! i <> Some d.
Proof.
  unfold Hub.dropDevice, Hub.remove_device, Hub.close_all. cbn [Hub.subs Hub.on_subs Hub.set_heap Hub.set_subs].
  rewrite elem_of_difference, elem_of_filter. unfold Hub.held_by. tauto.
Qed.

Lemma dropped_closed d (h : Hub.hub) i w :
  i ∈ Hub.subs h -> Hub.heap h !! i = Some w -> sub_deviceID w = d ->
  exists w', Hub.heap (Hub.dropDevice d h) !! i = Some w' /\ once w' = true.
Proof.
  intros Hi Hw Hd. rewrite Hub.drop_lookup, Hw. cbn. eexists. split; [done|].
  rewrite bool_decide_eq_true_2.
  - unfold sub_close. by destruct (once w) eqn:E.
  - split; [done|]. unfold Hub.held_by. rewrite Hw. cbn. by rewrite Hd.
Qed.

Lemma panes_exclusive order d (h : PaneHub.paneHub) sid i :
  order ≡ₚ elements (dom (PaneHub.sessions h)) ->
  i ∈ PaneHub.session_subs sid (PaneHub.dropDevice order d h) ->
  sub_deviceID <$> PaneHub.p_heap h !! i <> Some d.
Proof.
  intros Hp. unfold PaneHub.dropDevice, PaneHub.remove_device.
  assert (NoDup order) as Hnd by (rewrite Hp; apply NoDup_elements).
  pose proof (PaneHub.remove_device_spec order d h ∅ Hnd) as Hr.
  destruct (fold_left (PaneHub.drop_session d) order (∅, h)) as [X h']. destruct Hr as (_ & Hs & _).
  change (PaneHub.session_subs sid (PaneHub.close_all X h')) with (PaneHub.session_subs sid h').
  rewrite Hs. intros [Hin Hno] Hd. apply Hno. split; [|done].
  rewrite Hp, elem_of_elements, elem_of_dom. unfold PaneHub.session_subs in Hin.
  destruct (PaneHub.sessions h !! sid); [done|]. cbn in Hin. set_solver.
Qed.

Lemma Revoke_result d t b :
  match Registry.Revoke d t b with
  | (Ok _, b') => Registry.devices b' = Registry.op_book (Registry.ORevoke d t) (Registry.devices b)
  | (Err e, b') => Registry.devices b' = Registry.op_book (Registry.ORevoke d t) (Registry.devices b)
  | (Panic, _) => False
  end.
Proof.
  pose proof (Registry.run_op_devices (Registry.ORevoke d t) b) as [Hd _].
  pose proof (Registry.run_op_eq (Registry.ORevoke d t) b) as He. cbn [Registry.run_op Registry.forgiving] in *.
  destruct (Registry.op_refusal _ _) as [e|] eqn:Hr.
  - rewrite He in Hd |- *. done.
  - pose proof (Registry.persistLocked_cases
      (Registry.set_book (Registry.op_effect (Registry.ORevoke d t) (Registry.devices b)) b)) as Hc.
    rewrite He in Hd |- *. destruct (Registry.persistLocked _) as [[[]|e|] b']; cbn in Hd; auto.
Qed.

Lemma revoked_book (d : bytes) (t : time) (m : gmap bytes Registry.Device) (x : Registry.Device) cap path :
  m !! d = Some x ->
  Registry.Allowed d cap (Registry.MkRegistry path (Registry.op_book (Registry.ORevoke d t) m)) =
  Err Registry.ErrRevoked.
Proof.
  intros Hx. unfold Registry.op_book. cbn [Registry.op_refusal Registry.op_effect]. rewrite Hx.
  unfold Registry.Allowed. cbn [Registry.r_devices]. rewrite lookup_alter_eq, Hx. cbn.
  destruct (Registry.Revoked x) eqn:E; [by rewrite E|done].
Qed.

(** C21: revocation, both ways it can end. The registry refuses the device every
    capability from then on, so no token of its passes [authorize], even if
    saving the tombstone failed. When [RevokeDevice] succeeds, no token
    resolves to the device any more, no listed status or pane watcher is its,
    and each of its status watchers has been told to go. When it fails, tokens
    and streams are left exactly as they were. *)
Theorem RevokeDevice_complete `{!HostLaws} d s x :
  d <> [] -> Registry.Get d (registry s) = Some x ->
  let '(r, s') := RevokeDevice d s in
  (forall cap, Registry.Allowed d cap (registry s') = Err Registry.ErrRevoked) /\
  (forall auth cap, fst (authorize auth cap s') <> Ok d) /\
  match r with
  | Ok _ =>
    (forall tok t, fst (Tokens.token_resolve tok t (tokens s')) <> d) /\
    (forall i, i ∈ Hub.subs (hub s') -> sub_deviceID <$> Hub.heap (hub s) !! i <> Some d) /\
    (forall i w, i ∈ Hub.subs (hub s) -> Hub.heap (hub s) !! i = Some w -> sub_deviceID w = d ->
       exists w', Hub.heap (hub s') !! i = Some w' /\ once w' = true) /\
    (forall sid i, i ∈ PaneHub.session_subs sid (panes s') ->
       sub_deviceID <$> PaneHub.p_heap (panes s) !! i <> Some d)
  | Err _ => tokens s' = tokens s /\ hub s' = hub s /\ panes s' = panes s
  | Panic => False
  end.
Proof.
  intros Hd Hx. unfold RevokeDevice. rewrite now_bind, book_bind.
  pose proof (Revoke_result d (tnow s) (book (tick s))) as Hr.
  change (Registry.devices (book (tick s))) with (Registry.r_devices (registry s)) in Hr.
  assert (forall b' cap, Registry.devices b' =
      Registry.op_book (Registry.ORevoke d (tnow s)) (Registry.r_devices (registry s)) ->
      Registry.Allowed d cap (Registry.rs_reg b') = Err Registry.ErrRevoked) as Hall.
  { intros b' cap Hb. destruct (Registry.rs_reg b') as [path m] eqn:E.
    unfold Registry.devices in Hb. rewrite E in Hb. cbn in Hb. subst m. by apply revoked_book with x. }
  assert (forall s' auth cap, Registry.Allowed d cap (registry s') = Err Registry.ErrRevoked ->
    fst (authorize auth cap s') <> Ok d) as Hauth.
  { intros s' auth cap Ha. rewrite authorize_eq. cbn [fst]. unfold authorized.
    destruct (negb _); [done|]. cbv zeta. case_bool_decide; [done|]. intros E.
    set (d' := fst _) in E. destruct (decide (d' = d)) as [Heq|Hne].
    - rewrite Heq, Ha in E. discriminate.
    - destruct (Registry.Allowed d' cap (registry s')) as [[]|e|]; [|done..]. congruence. }
  destruct (Registry.Revoke d (tnow s) (book (tick s))) as [[[]|e|] b']; [| |done].
  - cbn [modify]. split_and!.
    + intros cap. by apply (Hall b' cap).
    + intros auth cap. apply Hauth. by apply (Hall b' cap).
    + intros tok t. cbn. unfold Tokens.token_resolve, Tokens.token_dropDevice. cbn [Tokens.sessions].
      rewrite map_lookup_filter. destruct (Tokens.sessions (tokens s) !! tok) as [y|]; cbn; [|congruence].
      case_guard; cbn; [|congruence]. destruct (negb _); cbn; congruence.
    + intros i. apply held_exclusive.
    + intros i w. apply dropped_closed.
    + intros sid i. apply panes_exclusive, range_sessions_perm.
  - split_and!; try done; intros; [by apply (Hall b' cap)|]. apply Hauth. by apply (Hall b' cap).
Qed.

(** A stream can outlive the revocation that should end it. Authorizing and
    subscribing are separate critical sections. When a revocation runs between
    them, it reports success, and the stream is then opened all the same: its
    watcher is listed, has not been told to go, and receives the next
    publication, although the registry refuses the device everything. *)
Theorem stream_opened_after_revocation `{!HostLaws} auth s d x races st :
  fst (authorize auth Registry.CapStatusRead s) = Ok d ->
  Registry.Get d (registry s) = Some x -> d <> [] -> is_Some (Identity.HostID (id s)) ->
  fst (RevokeDevice d (snd (authorize auth Registry.CapStatusRead s))) = Ok () ->
  let s1 := snd (RevokeDevice d (snd (authorize auth Registry.CapStatusRead s))) in
  let '(r, s2) := watch_open d s1 in
  exists sub o, r = Ok (sub, o) /\
    Registry.Allowed d Registry.CapStatusRead (registry s2) = Err Registry.ErrRevoked /\
    (exists w, Hub.heap (hub s2) !! sub = Some w /\ sub_deviceID w = d /\ once w = false) /\
    let s3 := snd (Publish races st s2) in
    exists w f, Hub.heap (hub s3) !! sub = Some w /\ ch_buf (updates w) = Some f /\
      Hub.fr_seq f = Hub.seq (hub s3).
Proof.
  intros _ Hx Hd [hid Hid] Hok s1. unfold watch_open, locked. cbn [Hub.subscribe].
  eexists _, _. split; [reflexivity|].
  assert (Registry.Allowed d Registry.CapStatusRead (registry s1) = Err Registry.ErrRevoked) as Hall.
  { unfold s1. revert Hok. rewrite authorize_eq. cbn [snd].
    assert (Registry.Get d (registry (after_authorize auth s)) = Some x) as Hx'.
    { by rewrite (proj1 (proj2 (after_authorize_fields auth s))). }
    unfold RevokeDevice. rewrite now_bind, book_bind.
    pose proof (Revoke_result d (tnow (after_authorize auth s)) (book (tick (after_authorize auth s)))) as Hr.
    destruct (Registry.Revoke _ _ _) as [[[]|e|] b']; [|done..]. intros _. cbn.
    change (registry (drop_device d (set_book b' (tick (after_authorize auth s)))))
      with (Registry.rs_reg b').
    destruct (Registry.rs_reg b') as [path m] eqn:E. unfold Registry.devices in Hr at 1.
    rewrite E in Hr. cbn in Hr. subst m. by apply revoked_book with x. }
  split_and!; [exact Hall| |].
  - eexists. cbn. rewrite lookup_insert_eq. by split_and!.
  - unfold Publish. rewrite gets_bind, or_panic_bind. 
    assert (id s1 = id s) as Hids.
    { unfold s1, RevokeDevice. rewrite now_bind, book_bind, authorize_eq. cbn [snd].
      rewrite <- (proj1 (after_authorize_fields auth s)). by destruct (Registry.Revoke _ _ _) as [[[]|e|] b']. }
    cbn [snd set_hub id]. rewrite Hids, Hid.
    rewrite now_bind. unfold locked. cbv zeta. eexists _, _. cbn [snd Hub.publish set_hub hub]. rewrite Hub.lookup_on_subs.
    cbn [Hub.subs Hub.heap tick set_world set_book hub set_hub]. rewrite lookup_insert_eq. cbn [fmap option_fmap option_map].
    rewrite bool_decide_eq_true_2 by set_solver. split_and!; [done| |].
    + cbn. reflexivity.
    + done.
Qed.
End handlers.

Section handshake.
Context `{Ed25519Laws, Registry.RegistryLib, Host}.

Lemma Touch_get d t b x :
  Registry.devices b !! d = Some x ->
  Registry.r_devices (Registry.rs_reg (Registry.Touch d t b)) !! d = Some (Registry.set_LastSeenAt t x).
Proof.
  intros Hx. pose proof (proj1 (Registry.run_op_devices (Registry.OTouch d t) b)) as Hd.
  cbn [Registry.run_op snd] in Hd. unfold Registry.devices in Hd at 1. rewrite Hd.
  unfold Registry.op_book. cbn [Registry.op_refusal Registry.op_effect]. rewrite Hx.
  by rewrite lookup_alter_eq, Hx.
Qed.

Lemma DeviceIDFor_nonempty pub : Identity.DeviceIDFor pub <> [].
Proof.
  intros E. destruct (length_Base32Lower (take 16 (Sum256 pub))) as (k & _ & Hl).
  unfold Identity.DeviceIDFor, Identity.fingerprint in E. rewrite E, length_take, length_Sum256 in Hl.
  cbn in Hl. lia.
Qed.

(** The readings of one conversation, the next five, lie within a minute of each
    other; and its two draws of random octets succeed. *)
Definition prompt_clock (w : World) : Prop :=
  forall i j, (ticks w <= i < ticks w + 5)%nat -> (ticks w <= j < ticks w + 5)%nat ->
    clock w i < clock w j + 60 * Second.
Definition octets_ready (w : World) : Prop :=
  forall i, (draws w <= i < draws w + 2)%nat -> entropy w i <> None.

(** The state after a random draw, and the octets drawn. *)
Definition drew (s : server) : server := set_world (set_draws (S (draws (world s))) (world s)) s.
Definition octets (f : nat -> byte) : bytes := map f (List.seq 0 32).

Lemma Challenge_Ok dev d s f :
  known dev s = Some d -> Registry.d_ID d = dev -> entropy (world s) (draws (world s)) = Some f ->
  Challenge (MkChallengeRequest dev) s =
  (Ok (MkChallengeResponse (octets f) (timestamp_New (Add (tnow s) Tokens.nonceTTL))),
   set_nonces (Tokens.nonce_insert (octets f) dev (tnow s) (nonces s)) (drew (tick s))).
Proof.
  intros Hk Hid Hf. unfold Challenge. rewrite known_device_bind. cbn [cq_DeviceId].
  rewrite Hk, now_bind, bind_eq, Hid.
  unfold mint_nonce, Tokens.nonce_mint, rand_Read. rewrite bind_eq.
  change (entropy (world (tick s)) (draws (world (tick s)))) with (entropy (world s) (draws (world s))).
  by rewrite Hf.
Qed.

Lemma Authenticate_Ok m d s g :
  let s1 := set_nonces (snd (Tokens.nonce_consume (ar_Nonce m) (ar_DeviceId m) (tnow s) (nonces s))) (tick s) in
  known (ar_DeviceId m) s = Some d -> Registry.d_ID d = ar_DeviceId m ->
  fst (Tokens.nonce_consume (ar_Nonce m) (ar_DeviceId m) (tnow s) (nonces s)) = true ->
  answer_verifies d m s -> entropy (world s) (draws (world s)) = Some g ->
  Authenticate m s =
  (Ok (MkAuthenticateResponse (RawURLEncode (octets g)) (timestamp_New (Add (tnow s1) Tokens.tokenTTL))
         (Registry.d_Capabilities d) (Identity.TrustDomainID (id s))),
   touched (ar_DeviceId m)
     (set_tokens (Tokens.token_insert (RawURLEncode (octets g)) (ar_DeviceId m) (tnow s1) (tokens s))
        (drew (tick s1)))).
Proof.
  intros s1 Hk Hid Hc Hv Hg. unfold Authenticate. rewrite known_device_bind, Hk, now_bind, Hid.
  unfold consume_nonce. rewrite locked_bind. change (nonces (tick s)) with (nonces s).
  subst s1. destruct (Tokens.nonce_consume _ _ _ _) as [live ns]. cbn [fst snd] in *. subst live.
  rewrite throw_if_bind. cbn [negb]. rewrite gets_bind, or_panic_bind.
  change (id (set_nonces ns (tick s))) with (id s). destruct Hv as (hid & -> & Hv). rewrite of_res_bind, Hv.
  rewrite throw_if_bind. cbn [negb]. rewrite now_bind, bind_eq.
  unfold mint_token, Tokens.token_mint, rand_Read. rewrite bind_eq.
  change (entropy (world (tick (set_nonces ns (tick s)))) (draws (world (tick (set_nonces ns (tick s))))))
    with (entropy (world s) (draws (world s))).
  by rewrite Hg.
Qed.

Lemma persist_clock b :
  clock (Registry.rs_world (snd (Registry.persistLocked b))) = clock (Registry.rs_world b) /\
  ticks (Registry.rs_world (snd (Registry.persistLocked b))) = ticks (Registry.rs_world b).
Proof.
  unfold Registry.persistLocked, zoom, map_err, gets, of_res, of_option. rewrite !bind_eq.
  destruct (Registry.reg_Marshal _) as [raw|]; cbn [fst snd]; [|done].
  pose proof (write_atomically_spec (Dir (Registry.r_path (Registry.rs_reg b)))
    (Registry.r_path (Registry.rs_reg b)) raw (Registry.rs_world b)) as Hw.
  destruct (write_atomically _ _ _ _) as [r w]. destruct Hw as [(Hc & Ht & _) _]. cbn. by rewrite Hc, Ht.
Qed.

Lemma touched_clock dev s :
  clock (world (touched dev s)) = clock (world s) /\ ticks (world (touched dev s)) = S (ticks (world s)).
Proof.
  unfold touched, world. cbn [set_book book]. unfold Registry.Touch.
  destruct (Registry.devices _ !! dev); [|done]. set (b := Registry.put_device _ _ _).
  by destruct (persist_clock b) as [-> ->].
Qed.

Lemma Allowed_touched dev cap s x :
  Registry.Get dev (registry s) = Some x -> Registry.d_RevokedAt x = None ->
  cap ∈ Registry.d_Capabilities x -> Registry.Allowed dev cap (registry (touched dev s)) = Ok ().
Proof.
  intros Hx Hr Hc. unfold Registry.Allowed.
  change (registry (touched dev s)) with (Registry.rs_reg (Registry.Touch dev (tnow s) (book (tick s)))).
  rewrite (Touch_get dev (tnow s) (book (tick s)) x Hx). unfold Registry.Revoked. cbn.
  rewrite Hr. by rewrite (bool_decide_eq_true_2 (cap ∈ _)).
Qed.

Lemma session_outlives_minute w i j :
  clock w i < clock w j + 60 * Second -> clock w i < Add (clock w j) Tokens.tokenTTL.
Proof.
  intros Hclk. unfold Add, Tokens.tokenTTL, Hour, Minute, Second in *. lia.
Qed.

(** A call on a session just granted. *)
Lemma GetStatus_fresh dev tok t ts s :
  dev <> [] -> tokens s = Tokens.token_insert tok dev t ts -> tnow s < Add t Tokens.tokenTTL ->
  Registry.Allowed dev Registry.CapStatusRead (registry s) = Ok () ->
  fst (GetStatus (bearerPrefix ++ tok) s) =
    Ok (MkGetStatusResponse (statusToProto (Hub.current (hub s)) (Hub.at_ (hub s))) (Hub.seq (hub s))).
Proof.
  intros Hd Ht Hlt Ha. unfold GetStatus. rewrite authorize_bind. unfold authorized.
  rewrite HasPrefix_app, TrimPrefix_app, Ht, Tokens.resolve_fresh by done. cbn [negb fst].
  rewrite bool_decide_eq_false_2 by done. rewrite Ha.
  destruct (after_authorize_fields (bearerPrefix ++ tok) s) as (_ & _ & _ & Hh & _).
  unfold gets. by rewrite Hh.
Qed.

Lemma known_Get dev s d :
  known dev s = Some d <-> Registry.Get dev (registry s) = Some d /\ Registry.d_RevokedAt d = None.
Proof.
  unfold known. destruct (Registry.Get dev (registry s)) as [x|]; [|naive_solver]. unfold Registry.Revoked.
  case_bool_decide as Hr; split; [done|by intros [[= ->] ?]| |by intros [[= ->] ?]].
  intros [= ->]. split; [done|]. destruct (Registry.d_RevokedAt d); [by destruct Hr|done].
Qed.

(** From a challenge to a read, for a device that is known. *)
Lemma known_handshake priv pub hostID d s :
  let dev := Identity.DeviceIDFor pub in
  key_pair priv pub -> known dev s = Some d -> Registry.d_ID d = dev ->
  Registry.d_PublicKey d = pub -> Registry.CapStatusRead ∈ Registry.d_Capabilities d ->
  Identity.HostID (id s) = Some hostID -> prompt_clock (world s) -> octets_ready (world s) ->
  exists ch s1 sig resp s2,
    Challenge (MkChallengeRequest dev) s = (Ok ch, s1) /\
    Identity.SignAuth (E := rpcerr) priv hostID dev (cr_Nonce ch) = Ok sig /\
    Authenticate (MkAuthenticateRequest ProtocolVersion dev (cr_Nonce ch) sig) s1 = (Ok resp, s2) /\
    fst (GetStatus (bearerPrefix ++ SessionToken resp) s2) =
      Ok (MkGetStatusResponse (statusToProto (Hub.current (hub s)) (Hub.at_ (hub s))) (Hub.seq (hub s))).
Proof.
  intros dev Hk Hkn Hid Hpk Hcap Hhost Hclk Hent.
  destruct (proj1 (known_Get dev s d) Hkn) as [Hg Hrev].
  destruct (entropy (world s) (draws (world s))) as [f|] eqn:Hf; [|by destruct (Hent (draws (world s)) ltac:(lia))].
  rewrite (Challenge_Ok dev d s f Hkn Hid Hf). set (s1 := set_nonces _ _). eexists _, s1.
  set (msg := Identity.authBytes hostID dev (octets f)).
  exists (ed_sign priv msg). set (m := MkAuthenticateRequest ProtocolVersion dev (octets f) (ed_sign priv msg)).
  destruct (entropy (world s) (draws (world s1))) as [g|] eqn:Hg2; [|by destruct (Hent (S (draws (world s))) ltac:(lia))].
  assert (fst (Tokens.nonce_consume (octets f) dev (tnow s1) (nonces s1)) = true) as Hcons.
  { apply Tokens.consume_fresh. apply (Hclk (S (ticks (world s))) (ticks (world s))); lia. }
  assert (answer_verifies d m s1) as Hv.
  { unfold answer_verifies. cbn [m ar_DeviceId ar_Nonce ar_Signature]. rewrite Hpk. exists hostID. split; [exact Hhost|by apply verify_sign]. }
  pose proof (Authenticate_Ok m d s1 g Hkn Hid Hcons Hv Hg2) as Ha. clear Hcons Hv.
  set (s1' := set_nonces _ (tick s1)) in Ha. set (s2 := touched _ _) in Ha.
  eexists _, s2. split; [done|]. cbn [cr_Nonce]. split.
  { unfold Identity.SignAuth, ed25519_Sign. by rewrite (proj1 (key_pair_lengths _ _ Hk)). }
  split; [exact Ha|]. cbn [SessionToken].
  rewrite (GetStatus_fresh dev (RawURLEncode (octets g)) (tnow s1') (tokens s1)); [done..| |].
  - unfold tnow at 1. rewrite (proj1 (touched_clock _ _) : clock (world s2) = _), (proj2 (touched_clock _ _) : ticks (world s2) = _).
    set (t := ticks (world s)) in Hclk. apply (session_outlives_minute (world s) (S (S (S (S t)))) (S (S t))).
    apply Hclk; lia.
  - eapply Allowed_touched; [exact Hg|done|done].
Qed.

(** C9: the handshake completes. A paired device that holds its key and answers
    within the minute gets a challenge, signs it, is granted a session, and with
    that session reads the current status, whatever file operations fail
    meanwhile and whatever else the stores contain, provided the next two draws
    of random octets succeed and the host's key is whole. *)
Theorem handshake_completes priv pub hostID d s :
  let dev := Identity.DeviceIDFor pub in
  key_pair priv pub -> Registry.Get dev (registry s) = Some d -> Registry.d_ID d = dev ->
  Registry.d_PublicKey d = pub -> Registry.d_RevokedAt d = None ->
  Registry.CapStatusRead ∈ Registry.d_Capabilities d ->
  Identity.HostID (id s) = Some hostID -> prompt_clock (world s) -> octets_ready (world s) ->
  exists ch s1 sig resp s2,
    Challenge (MkChallengeRequest dev) s = (Ok ch, s1) /\
    Identity.SignAuth (E := rpcerr) priv hostID dev (cr_Nonce ch) = Ok sig /\
    Authenticate (MkAuthenticateRequest ProtocolVersion dev (cr_Nonce ch) sig) s1 = (Ok resp, s2) /\
    fst (GetStatus (bearerPrefix ++ SessionToken resp) s2) =
      Ok (MkGetStatusResponse (statusToProto (Hub.current (hub s)) (Hub.at_ (hub s))) (Hub.seq (hub s))).
Proof. intros dev Hk Hg Hid Hpk Hrev. apply (known_handshake priv pub hostID d); [done|by apply known_Get|done..]. Qed.

(** What [Open] does not check, [Authenticate] trips over: for a device whose
    entry in the file has a key of another length than 32, the challenge is
    handed out and any answer to it panics. *)
Theorem unchecked_key_panics dev d s :
  Registry.Get dev (registry s) = Some d -> Registry.d_ID d = dev -> Registry.d_RevokedAt d = None ->
  length (Registry.d_PublicKey d) <> PublicKeySize -> is_Some (Identity.HostID (id s)) ->
  prompt_clock (world s) -> octets_ready (world s) ->
  exists ch s1,
    Challenge (MkChallengeRequest dev) s = (Ok ch, s1) /\
    forall sig, sig <> [] ->
    fst (Authenticate (MkAuthenticateRequest ProtocolVersion dev (cr_Nonce ch) sig) s1) = Panic.
Proof.
  intros Hg Hid Hrev Hlen [hid Hhost] Hclk Hent.
  assert (known dev s = Some d) as Hkn.
  { by apply known_Get. }
  destruct (entropy (world s) (draws (world s))) as [f|] eqn:Hf; [|by destruct (Hent (draws (world s)) ltac:(lia))].
  rewrite (Challenge_Ok dev d s f Hkn Hid Hf). set (s1 := set_nonces _ _). eexists _, s1.
  split; [done|]. intros sig Hsig. cbn [cr_Nonce].
  assert (fst (Tokens.nonce_consume (octets f) dev (tnow s1) (nonces s1)) = true) as Hcons.
  { apply Tokens.consume_fresh. apply (Hclk (S (ticks (world s))) (ticks (world s))); lia. }
  assert (known dev s1 = Some d) as Hkn1 by exact Hkn.
  unfold Authenticate. rewrite known_device_bind. cbn [ar_DeviceId ar_Nonce ar_Signature].
  rewrite Hkn1, now_bind, Hid. unfold consume_nonce. rewrite locked_bind.
  change (nonces (tick s1)) with (nonces s1).
  destruct (Tokens.nonce_consume _ _ _ _) as [live ns]. cbn [fst snd] in Hcons. subst live.
  rewrite throw_if_bind. cbn [negb]. rewrite gets_bind, or_panic_bind.
  match goal with |- context [Identity.HostID ?i] => change (Identity.HostID i) with (Identity.HostID (id s)) end.
  rewrite Hhost, of_res_bind.
  unfold Identity.VerifyAuth, verify_nonempty, ed25519_Verify.
  destruct sig as [|b sig]; [done|]. cbn [length Nat.eqb].
  by rewrite (proj2 (Nat.eqb_neq _ _) Hlen).
Qed.
End handshake.

(** ** Witnesses *)

(** A host whose executor delivers everything, once. *)
#[export] Instance toy_host : Host := {|
  exec_Answer past a := MkOutcome (if bool_decide (past = []) then Delivered else Duplicate) [];
  exec_Execute past c := MkOutcome (if bool_decide (past = []) then Delivered else Duplicate) [];
  range_sessions m := elements (dom m) |}.
#[export] Instance toy_host_laws : HostLaws.
Proof. split. by intros. Qed.

#[local] Existing Instance Registry.toy_registry_lib.

Definition seed : bytes := repeat x2a 32.
Definition phone_pub : bytes := ed_public seed.
Definition phone_priv : bytes := seed ++ phone_pub.
Definition phone_id : bytes := Identity.DeviceIDFor phone_pub.
Definition phone : Registry.Device :=
  Registry.MkDevice phone_id (str "Phone") [] phone_pub [Registry.CapStatusRead] 5 0 None.
Definition host_priv : bytes := repeat x07 32 ++ ed_public (repeat x07 32).

Definition paired_host : bytes := Identity.HostIDFor (ed_public (repeat x07 32)).

(** A server with one paired device that has a session and is watching. *)
Definition paired : server :=
  MkServer (Identity.MkIdentity host_priv (Identity.MkTLSCertificate [] host_priv) (str "domain"))
    (snd (Registry.Add phone Registry.fresh_book)) Pairing.zeroManager (str "host") (25 * Second)
    Hub.newHub (PaneHub.newPaneHub None) None Tokens.newTokens Tokens.newNonces [].
Definition session_of : server :=
  snd (watch_open phone_id (set_tokens (Tokens.token_insert (str "t") phone_id 5 Tokens.newTokens) paired)).

Lemma paired_book_wf : Registry.book_wf (Registry.devices (book paired)).
Proof.
  change (book paired) with (snd (Registry.run_op (Registry.OAdd phone) Registry.fresh_book)).
  rewrite (proj1 (Registry.run_op_devices (Registry.OAdd phone) Registry.fresh_book)).
  apply Registry.op_book_wf; [|apply Registry.fresh_book_wf].
  repeat apply List.Forall_cons; done.
Qed.

Lemma paired_phone : Registry.Get phone_id (registry paired) = Some phone.
Proof. vm_compute. reflexivity. Qed.

Lemma phone_key : key_pair phone_priv phone_pub.
Proof. exists seed. done. Qed.

Lemma paired_hostID : Identity.HostID (id paired) = Some paired_host.
Proof. by vm_compute. Qed.

Lemma phone_id_nonempty : phone_id <> [].
Proof. by vm_compute. Qed.

Lemma Authenticate_exact_witness :
  let s := set_nonces (Tokens.nonce_insert (str "nonce") phone_id 5 Tokens.newNonces) paired in
  let sig := ed_sign phone_priv (Identity.authBytes paired_host phone_id (str "nonce")) in
  let m := MkAuthenticateRequest ProtocolVersion phone_id (str "nonce") sig in
  exists resp, fst (Authenticate m s) = Ok resp /\
    at_Capabilities resp = [Registry.CapStatusRead] /\
    nonces (snd (Authenticate m s)) = snd (Tokens.nonce_consume (str "nonce") phone_id 5 (nonces s)).
Proof.
  intros s sig m. pose proof (Authenticate_exact m s paired_book_wf) as H.
  assert (exists resp, fst (Authenticate m s) = Ok resp) as [resp Hr] by (eexists; vm_compute; reflexivity).
  exists resp. split; [done|]. destruct (Authenticate m s) as [r s']. cbn [fst snd] in *. subst r.
  destruct H as (Hn & d & t & Hk & _ & _ & _ & Hc).
  assert (known phone_id s = Some phone) as Hp by (vm_compute; reflexivity).
  cbn [m ar_DeviceId] in Hk, Hn. rewrite Hp in Hk, Hn. injection Hk as <-. split; [by rewrite Hc|].
  rewrite Hn. by vm_compute.
Defined.

Lemma RevokeDevice_complete_witness :
  fst (authorize (bearerPrefix ++ str "t") Registry.CapStatusRead session_of) = Ok phone_id /\
  fst (authorize (bearerPrefix ++ str "t") Registry.CapStatusRead (snd (RevokeDevice phone_id session_of)))
    <> Ok phone_id /\
  0%nat ∈ Hub.subs (hub session_of) /\
  0%nat ∉ Hub.subs (hub (snd (RevokeDevice phone_id session_of))).
Proof.
  pose proof (RevokeDevice_complete phone_id session_of phone phone_id_nonempty paired_phone) as H.
  assert (fst (RevokeDevice phone_id session_of) = Ok ()) as Hok by (vm_compute; reflexivity).
  assert (0%nat ∈ Hub.subs (hub session_of)) as Hin by (apply (bool_decide_eq_true_1 _); by vm_compute).
  assert (sub_deviceID <$> Hub.heap (hub session_of) !! 0%nat = Some phone_id) as Hd by (by vm_compute).
  split; [by vm_compute|]. destruct (RevokeDevice phone_id session_of) as [r s']. cbn [fst snd] in *. subst r.
  destruct H as (_ & Ha & _ & Hs & _). split; [apply Ha|]. split; [done|]. intros Hi. by apply (Hs _ Hi).
Defined.

Lemma stream_opened_after_revocation_witness :
  let auth := bearerPrefix ++ str "t" in
  let s1 := snd (RevokeDevice phone_id (snd (authorize auth Registry.CapStatusRead session_of))) in
  let s2 := snd (watch_open phone_id s1) in
  Registry.Allowed phone_id Registry.CapStatusRead (registry s2) = Err Registry.ErrRevoked /\
  Hub.subs (hub s2) = {[1%nat]}.
Proof.
  intros auth s1 s2.
  pose proof (stream_opened_after_revocation auth session_of phone_id phone (fun _ => (false, false))
    Projection.zeroStatus) as H.
  assert (fst (authorize auth Registry.CapStatusRead session_of) = Ok phone_id) as Ha by (vm_compute; reflexivity).
  assert (fst (RevokeDevice phone_id (snd (authorize auth Registry.CapStatusRead session_of))) = Ok ()) as Hok
    by (vm_compute; reflexivity).
  specialize (H Ha paired_phone phone_id_nonempty (ex_intro _ _ paired_hostID) Hok). cbv zeta in H. fold s1 in H. unfold s2.
  destruct (watch_open phone_id s1) as [r s2'] eqn:E. destruct H as (sub & o & Hr & Hall & _). cbn [snd].
  split; [exact Hall|]. replace s2' with (snd (watch_open phone_id s1)) by (by rewrite E). by vm_compute.
Defined.

(** A host booted on a devices file whose one entry has no key. *)
Definition keyless : server :=
  let w := set_disk {[str "/reg.json" := Registry.keyless_document]} (calm 5 x01) in
  match Registry.Open (str "/reg.json") w with
  | (Ok r, w') => set_book (Registry.MkRState r w') paired
  | _ => paired
  end.

Lemma unchecked_key_panics_witness :
  exists ch s1, Challenge (MkChallengeRequest (str "phone")) keyless = (Ok ch, s1) /\
    fst (Authenticate (MkAuthenticateRequest ProtocolVersion (str "phone") (cr_Nonce ch) [x00]) s1) = Panic.
Proof.
  assert (Registry.Get (str "phone") (registry keyless) =
          Some (Registry.MkDevice (str "phone") [] [] [] [] zeroTime zeroTime None)) as Hg by (vm_compute; reflexivity).
  destruct (unchecked_key_panics (str "phone") _ keyless Hg) as (ch & s1 & Hc & Ha); [done|done|done| | | |].
  - by exists paired_host; vm_compute.
  - assert (forall i, clock (world keyless) i = 5) as Hclk by (intros i; vm_compute; reflexivity).
    intros i j _ _. by rewrite !Hclk.
  - unfold octets_ready. assert (entropy (world keyless) = entropy (calm 5 x01)) as -> by (vm_compute; reflexivity). done.
  - exists ch, s1. split; [exact Hc|]. by apply Ha.
Defined.

Lemma handshake_completes_witness :
  exists ch s1 sig resp s2,
    Challenge (MkChallengeRequest phone_id) paired = (Ok ch, s1) /\
    Authenticate (MkAuthenticateRequest ProtocolVersion phone_id (cr_Nonce ch) sig) s1 = (Ok resp, s2) /\
    exists r, fst (GetStatus (bearerPrefix ++ SessionToken resp) s2) = Ok r.
Proof.
  destruct (handshake_completes phone_priv phone_pub paired_host phone paired phone_key paired_phone)
    as (ch & s1 & sig & resp & s2 & Hc & _ & Ha & Hg); [done|done|done| |exact paired_hostID| | |].
  - apply (bool_decide_eq_true_1 _). by vm_compute.
  - assert (forall i, clock (world paired) i = 5) as Hc by (intros i; vm_compute; reflexivity).
    intros i j _ _. by rewrite !Hc.
  - unfold octets_ready. assert (entropy (world paired) = entropy (calm 5 x01)) as -> by (vm_compute; reflexivity). done.
  - exists ch, s1, sig, resp, s2. split_and!; [exact Hc|exact Ha|]. eexists. exact Hg.
Defined.
