(* ===== verification/Streams.v ===== *)
(** * The watch streams (link/server.go, WatchStatus and WatchPane)

    A stream's goroutine and its hub are two parties: the goroutine's turns (the
    cases of its [select], and the sends they lead to) interleave with whatever
    the hub does for others. The loop is written once, against what both hubs
    promise their watchers. *)

From Stdlib Require Import Sorting.Sorted.
From stdpp Require Import gmap sets.
From S2P Require Import Prelude GoStrings GoTime Chan Convert Server.
From S2P Require Projection Registry Hub PaneHub.

(** ** What a hub promises a watcher's stream *)

(** [K] names a watcher, [E] is what may happen to the hub. *)
Class WatchHub (K H E A : Type) := {
  hub_step : H -> E -> H;
  watcher : H -> K -> option (subscriber A);
  listed : H -> K -> Prop;
  put_watcher : K -> subscriber A -> H -> H;
  leave : K -> H -> H;
  foreign : K -> E -> Prop }.

(** Events that are not the stream's own only ever hand the watcher more
    frames, and none once it is delisted; a close signal stays. *)
Class WatchHubLaws {K H E A} `{WatchHub K H E A} (hub_ok : H -> Prop) : Prop := {
  step_ok h e : hub_ok h -> hub_ok (hub_step h e);
  put_ok k w h : hub_ok h -> is_Some (watcher h k) -> hub_ok (put_watcher k w h);
  leave_ok k h : hub_ok h -> hub_ok (leave k h);
  watcher_put k w h : is_Some (watcher h k) -> watcher (put_watcher k w h) k = Some w;
  listed_put k w h : listed (put_watcher k w h) k <-> listed h k;
  watcher_leave k h w : watcher h k = Some w ->
    exists w', watcher (leave k h) k = Some w' /\ updates w' = updates w /\
      (once w = true -> once w' = true) /\ (~ listed h k -> ~ listed (leave k h) k);
  watcher_step k h e w :
    hub_ok h -> foreign k e -> watcher h k = Some w ->
    exists w', watcher (hub_step h e) k = Some w' /\
      ch_got (updates w) `prefix_of` ch_got (updates w') /\ (once w = true -> once w' = true) /\
      (~ listed h k -> ~ listed (hub_step h e) k /\ updates w' = updates w) }.

(** ** The loop *)

Inductive branch := BDone | BGone | BUpdate | BTick.
Inductive ending := EndNil | EndError (e : rpcerr) | EndSend.

(** The messages sent, how many of the received frames they account for, and
    how the call ended, if it has. *)
Record stream R := MkStream { sent : list R; taken : nat; over : option ending }.
Arguments MkStream {R}. Arguments sent {R}. Arguments taken {R}. Arguments over {R}.

Section loop.
Context {K H E A : Type} `{WatchHub K H E A} {R : Type} (frame_msg : A -> R) (heartbeat : R).

Definition newStream : stream R := MkStream [] 0 None.

(** [if err := stream.Send(m); err != nil { return err }] *)
Definition send (ok : bool) (m : R) (st : stream R) : stream R :=
  if ok then MkStream (sent st ++ [m]) (taken st) (over st)
  else MkStream (sent st) (taken st) (Some EndSend).
Definition finish (e : ending) (st : stream R) : stream R := MkStream (sent st) (taken st) (Some e).

(** Nothing received is still to be sent: the goroutine is at its [select]. *)
Definition at_select (w : subscriber A) (st : stream R) : bool :=
  (taken st =? length (ch_got (updates w)))%nat.

(** One turn; [None] when the branch is not ready. A frame the watcher received
    while a publication was under way is sent before anything else. *)
Definition select (b : branch) (ok : bool) (w : subscriber A) (st : stream R)
    : option (subscriber A * stream R) :=
  match b with
  | BUpdate =>
    let w := if at_select w st then on_chan receive w else w in
    f ← ch_got (updates w) !! taken st;
    Some (w, send ok (frame_msg f) (MkStream (sent st) (S (taken st)) (over st)))
  | _ =>
    if negb (at_select w st) then None
    else match b with
         | BDone => Some (w, finish EndNil st)
         | BGone => if once w then Some (w, finish (EndError (RPCError PermissionDenied RRevoked)) st) else None
         | _ => Some (w, send ok heartbeat st)
         end
  end.

(** The deferred [unsubscribe] runs when the call ends. *)
Definition turn (k : K) (b : branch) (ok : bool) (c : H * stream R) : option (H * stream R) :=
  match over (snd c) with
  | Some _ => None
  | None =>
    w ← watcher (fst c) k;
    '(w, st) ← select b ok w (snd c);
    let h := put_watcher k w (fst c) in
    Some (match over st with Some _ => leave k h | None => h end, st)
  end.

(** From the subscription on: the opening frame, when there is one. *)
Definition begin (k : K) (ok : bool) (opening : option A) (h : H) : H * stream R :=
  match opening with
  | None => (h, newStream)
  | Some o =>
    let st := send ok (frame_msg o) newStream in
    (match over st with Some _ => leave k h | None => h end, st)
  end.

(** A schedule of the stream's turns and of everything else. *)
Inductive sched := Turn (b : branch) (ok : bool) | Env (e : E).

Definition sched_step (k : K) (c : H * stream R) (t : sched) : H * stream R :=
  match t with
  | Turn b ok => default c (turn k b ok c)
  | Env e => (hub_step (fst c) e, snd c)
  end.
Definition run_stream (k : K) (c : H * stream R) (ts : list sched) : H * stream R :=
  fold_left (sched_step k) ts c.

Definition others_only (k : K) (ts : list sched) : Prop :=
  Forall (fun t => match t with Env e => foreign k e | Turn _ _ => True end) ts.
End loop.

(** ** Lemmas: what is sent, whatever the schedule *)

Section loop_lemmas.
Context {K H E A : Type} `{WatchHub K H E A} (hub_ok : H -> Prop) `{!WatchHubLaws hub_ok}.
Context {R : Type} (frame_msg : A -> R) (heartbeat : R) (is_snap : R -> bool).
Hypothesis snap_frame : forall f, is_snap (frame_msg f) = true.
Hypothesis snap_heartbeat : is_snap heartbeat = false.

Definition snaps (st : stream R) : list R := List.filter is_snap (sent st).

(** The snapshots sent are the opening and then the received frames, in order:
    all that are accounted for while the stream runs, a prefix once it is over. *)
Definition accounted (o : option A) (w : subscriber A) (st : stream R) : Prop :=
  snaps st `prefix_of` map frame_msg (option_list o ++ ch_got (updates w)) /\
  (over st = None ->
   (taken st <= length (ch_got (updates w)))%nat /\
   snaps st = map frame_msg (option_list o ++ take (taken st) (ch_got (updates w)))).

Definition stream_inv (k : K) (o : option A) (c : H * stream R) : Prop :=
  hub_ok (fst c) /\ exists w, watcher (fst c) k = Some w /\ accounted o w (snd c).

Lemma snaps_send_heartbeat ok st : snaps (send ok heartbeat st) = snaps st.
Proof.
  unfold snaps, send. destruct ok; [|done]. cbn. rewrite List.filter_app. cbn.
  by rewrite snap_heartbeat, app_nil_r.
Qed.

Lemma snaps_send_frame ok f st :
  snaps (send ok (frame_msg f) st) = if ok then snaps st ++ [frame_msg f] else snaps st.
Proof.
  unfold snaps, send. destruct ok; [|done]. cbn. rewrite List.filter_app. cbn. by rewrite snap_frame.
Qed.

Lemma over_send ok (m : R) st : over (send ok m st) = if ok then over st else Some EndSend.
Proof. by destruct ok. Qed.

Lemma receive_got (ch : chan A) : ch_got (receive ch) = ch_got ch ++ option_list (ch_buf ch).
Proof. unfold receive. by destruct (ch_buf ch); cbn; rewrite ?app_nil_r. Qed.

(** A turn sends no snapshot and leaves the watcher, or sends the next frame. *)
Lemma select_cases b ok w st w' st' :
  select frame_msg heartbeat b ok w st = Some (w', st') ->
  (w' = w /\ snaps st' = snaps st /\ taken st' = taken st) \/
  ((w' = w \/ w' = on_chan receive w) /\
   exists f, ch_got (updates w') !! taken st = Some f /\
     st' = send ok (frame_msg f) (MkStream (sent st) (S (taken st)) (over st))).
Proof.
  intros Hs. destruct b; cbn in Hs.
  - left. destruct (at_select w st); cbn in Hs; by simplify_eq.
  - left. destruct (at_select w st); cbn in Hs; [|done]. destruct (once w); by simplify_eq.
  - right. destruct (ch_got _ !! taken st) as [f|] eqn:Hf; cbn in Hs; [|done]. simplify_eq.
    split; [destruct (at_select w st); auto|]. eauto.
  - left. destruct (at_select w st); cbn in Hs; [|done]. simplify_eq.
    split_and!; [done|apply snaps_send_heartbeat|by destruct ok].
Qed.

Lemma select_watcher b ok w st w' st' :
  select frame_msg heartbeat b ok w st = Some (w', st') ->
  once w' = once w /\ ch_got (updates w) `prefix_of` ch_got (updates w') /\
  Chan.stream (updates w') = Chan.stream (updates w).
Proof.
  intros [(-> & _)|([->| ->] & _)]%select_cases; [done..|]. cbn. rewrite receive_got, stream_receive.
  split_and!; [done|by apply prefix_app_r|done].
Qed.

Lemma prefix_map (f : A -> R) l k : l `prefix_of` k -> map f l `prefix_of` map f k.
Proof. intros [m ->]. rewrite map_app. by apply prefix_app_r. Qed.

Lemma accounted_more o w w' st :
  ch_got (updates w) `prefix_of` ch_got (updates w') -> accounted o w st -> accounted o w' st.
Proof.
  intros Hpre [Hp Ha]. split.
  - etrans; [exact Hp|]. by apply prefix_map, prefix_app.
  - intros Hov. destruct (Ha Hov) as [Hle ->]. destruct Hpre as [l Hl].
    rewrite Hl, length_app, take_app_le by done. split; [lia|done].
Qed.

Lemma select_accounted b ok o w st w' st' :
  over st = None -> accounted o w st -> select frame_msg heartbeat b ok w st = Some (w', st') ->
  accounted o w' st'.
Proof.
  intros Hov Hacc Hs. destruct (select_watcher _ _ _ _ _ _ Hs) as (_ & Hpre & _).
  apply (accounted_more o w w' st Hpre) in Hacc as [Hp Ha]. destruct (Ha Hov) as [Hle Hsn].
  destruct (select_cases _ _ _ _ _ _ Hs) as [(-> & Hs' & Ht)|(_ & f & Hf & ->)].
  - split; rewrite Hs'; [done|]. intros _. by rewrite Ht.
  - assert (option_list o ++ take (S (taken st)) (ch_got (updates w')) =
      (option_list o ++ take (taken st) (ch_got (updates w'))) ++ [f]) as Htk.
    { by rewrite (take_S_r _ _ f), app_assoc. }
    split; rewrite snaps_send_frame; unfold snaps at 1; cbn [sent]; fold (snaps st).
    + destruct ok; [|done]. rewrite Hsn.
      change [frame_msg f] with (map frame_msg [f]). rewrite <- map_app, <- Htk.
      apply prefix_map, prefix_app, prefix_take.
    + rewrite over_send. destruct ok; [|done]. cbn [over taken send sent]. intros _. split.
      { apply lookup_lt_Some in Hf. lia. }
      rewrite Htk, map_app, Hsn. done.
Qed.

Lemma put_back (k : K) (h : H) (w w' : subscriber A) (st : stream R) :
  watcher h k = Some w ->
  let h' := put_watcher k w' h in
  exists w1, watcher (match over st with Some _ => leave k h' | None => h' end) k = Some w1 /\
    updates w1 = updates w' /\ (once w' = true -> once w1 = true) /\
    (~ listed h k -> ~ listed (match over st with Some _ => leave k h' | None => h' end) k).
Proof.
  intros Hw h'. assert (watcher h' k = Some w') as Hput by (apply watcher_put; by rewrite Hw).
  assert (~ listed h k -> ~ listed h' k) as Hl by (unfold h'; by rewrite listed_put).
  destruct (over st); [|by exists w'].
  destruct (watcher_leave k h' w' Hput) as (w1 & ? & ? & ? & ?). exists w1. split_and!; auto.
Qed.

Lemma turn_shape k b ok c c' :
  turn frame_msg heartbeat k b ok c = Some c' ->
  exists w w' st', over (snd c) = None /\ watcher (fst c) k = Some w /\
    select frame_msg heartbeat b ok w (snd c) = Some (w', st') /\
    c' = (let h := put_watcher k w' (fst c) in (match over st' with Some _ => leave k h | None => h end, st')).
Proof.
  unfold turn. destruct (over (snd c)); [done|]. intros (w & Hw & Hs)%bind_Some.
  apply bind_Some in Hs as ([w' st'] & Hs & Hc). simplify_eq. eauto 10.
Qed.

Lemma turn_inv k b ok o c c' :
  stream_inv k o c -> turn frame_msg heartbeat k b ok c = Some c' -> stream_inv k o c'.
Proof.
  intros (Hok & w0 & Hw0 & Hacc) (w & w' & st' & Hov & Hw & Hs & ->)%turn_shape.
  assert (w0 = w) as -> by congruence.
  destruct (put_back k (fst c) w w' st' Hw) as (w1 & Hw1 & Hu & _). split; cbn [fst snd].
  - assert (hub_ok (put_watcher k w' (fst c))) by (apply put_ok; [done|by rewrite Hw]).
    destruct (over st'); [by apply leave_ok|done].
  - exists w1. split; [done|]. unfold accounted. rewrite Hu.
    exact (select_accounted b ok o w (snd c) w' st' Hov Hacc Hs).
Qed.

Lemma run_inv k o c ts :
  others_only k ts -> stream_inv k o c -> stream_inv k o (run_stream frame_msg heartbeat k c ts).
Proof.
  intros Hts. revert c. induction Hts as [|t ts Ht _ IH]; intros c Hi; [done|]. apply IH.
  destruct t as [b ok|e]; cbn [sched_step].
  - destruct (turn _ _ _ _ _ _) as [c'|] eqn:Htn; [|done]. by apply (turn_inv k b ok o c).
  - destruct Hi as (Hok & w & Hw & Hacc). destruct (watcher_step k (fst c) e w Hok Ht Hw) as (w' & Hw' & Hg & _).
    split; [by apply step_ok|]. exists w'. split; [done|]. by apply (accounted_more o w).
Qed.

Lemma begin_inv k ok o h w :
  hub_ok h -> watcher h k = Some w -> ch_got (updates w) = [] ->
  stream_inv k o (begin frame_msg k ok o h).
Proof.
  intros Hok Hw Hg. destruct o as [o|]; cbn [begin fst snd].
  2:{ split; [done|]. exists w. split; [done|]. split; [by eexists|]. intros _. cbn. by rewrite Hg. }
  destruct ok; cbn [send over fst snd newStream].
  - split; [done|]. exists w. split; [done|]. unfold accounted, snaps. rewrite Hg. cbn. rewrite snap_frame.
    split; [done|]. intros _. split; [lia|done].
  - split; [by apply leave_ok|]. destruct (watcher_leave k h w Hw) as (w' & ? & _).
    exists w'. split; [done|]. split; [by eexists|done].
Qed.

(** A watcher that is off the list and told to go: nothing is added to what it
    has or can fetch. *)
Definition doomed (k : K) (seen : list A) (c : H * stream R) : Prop :=
  exists w, watcher (fst c) k = Some w /\ ~ listed (fst c) k /\ once w = true /\
            Chan.stream (updates w) = seen.

Lemma run_doomed k o seen c ts :
  others_only k ts -> stream_inv k o c -> doomed k seen c ->
  doomed k seen (run_stream frame_msg heartbeat k c ts).
Proof.
  intros Hts. revert c. induction Hts as [|t ts Ht Hts IH]; intros c Hi Hd; [done|].
  apply IH; [by apply (run_inv k o c [t]); [constructor|]|].
  destruct Hd as (w & Hw & Hl & Ho & Hs). destruct t as [b ok|e]; cbn [sched_step].
  - destruct (turn _ _ _ _ _ _) as [c'|] eqn:Htn; [|by exists w].
    apply turn_shape in Htn as (w0 & w' & st' & _ & Hw0 & Hsel & ->).
    assert (w0 = w) as -> by congruence.
    destruct (select_watcher _ _ _ _ _ _ Hsel) as (Ho' & _ & Hs').
    destruct (put_back k (fst c) w w' st' Hw0) as (w1 & ? & Hu & ? & ?).
    exists w1. rewrite Hu, Hs'. split_and!; [done|auto|rewrite Ho' in *; auto|done].
  - destruct (watcher_step k (fst c) e w (proj1 Hi) Ht Hw) as (w' & Hw' & _ & Ho' & Hd').
    destruct (Hd' Hl) as [? Hu]. exists w'. rewrite Hu. split_and!; auto.
Qed.

(** Once the frames in hand are sent, the [gone] branch ends the call. *)
Lemma gone_ends k c w n :
  watcher (fst c) k = Some w -> once w = true -> over (snd c) = None ->
  length (ch_got (updates w)) = (taken (snd c) + n)%nat ->
  over (snd (run_stream frame_msg heartbeat k c (repeat (Turn BUpdate true) n ++ [Turn BGone true]))) =
    Some (EndError (RPCError PermissionDenied RRevoked)).
Proof.
  revert c w. induction n as [|n IH]; intros [h st] w Hw Ho Hov Hn; cbn [fst snd] in *; cbn [repeat app].
  - cbn. unfold turn. cbn [fst snd]. rewrite Hov, Hw. cbn. unfold at_select.
    rewrite (proj2 (Nat.eqb_eq _ _)) by lia. cbn. by rewrite Ho.
  - destruct (lookup_lt_is_Some_2 (ch_got (updates w)) (taken st)) as [f Hf]; [lia|].
    assert (turn frame_msg heartbeat k BUpdate true (h, st) =
      Some (put_watcher k w h, MkStream (sent st ++ [frame_msg f]) (S (taken st)) None)) as Ht.
    { unfold turn. cbn [fst snd]. rewrite Hov, Hw. cbn. unfold at_select.
      rewrite (proj2 (Nat.eqb_neq _ _)) by lia. cbn. rewrite Hf. cbn. by rewrite Hov. }
    change (over (snd (run_stream frame_msg heartbeat k (default (h, st) (turn frame_msg heartbeat k BUpdate true (h, st)))
      (repeat (Turn BUpdate true) n ++ [Turn BGone true]))) = Some (EndError (RPCError PermissionDenied RRevoked))).
    rewrite Ht. apply (IH _ w); cbn; [apply watcher_put; by rewrite Hw|done|done|lia].
Qed.

(** The end of a doomed stream: it sends at most what it had been handed, and
    from wherever it is, so many sends and the [gone] branch end the call with
    the revocation error. *)
Lemma doomed_stream_ends k o seen c ts :
  others_only k ts -> stream_inv k o c -> doomed k seen c ->
  let c' := run_stream frame_msg heartbeat k c ts in
  snaps (snd c') `prefix_of` map frame_msg (option_list o ++ seen) /\
  (over (snd c') = None -> exists n, (n <= length seen)%nat /\
     over (snd (run_stream frame_msg heartbeat k c' (repeat (Turn BUpdate true) n ++ [Turn BGone true]))) =
       Some (EndError (RPCError PermissionDenied RRevoked))).
Proof.
  intros Hts Hi Hd c'. pose proof (run_doomed k o seen c ts Hts Hi Hd) as (w & Hw & _ & Ho & Hs).
  destruct (run_inv k o c ts Hts Hi) as (_ & w' & Hw' & [Hp Ha]). fold c' in Hw, Hw', Hp, Ha.
  assert (w' = w) as -> by congruence. subst seen. unfold Chan.stream. split.
  - etrans; [exact Hp|]. apply prefix_map, prefix_app, prefix_app_r. done.
  - intros Hov. destruct (Ha Hov) as [Hle _]. exists (length (ch_got (updates w)) - taken (snd c'))%nat.
    split; [rewrite length_app; lia|]. apply (gone_ends k c' w); [done..|lia].
Qed.
End loop_lemmas.

(** ** The status stream *)

Record WatchStatusResponse := MkWatchStatusResponse {
  ws_Kind : Z; ws_Status : option Pb.Status; ws_Seq : Z }.

Definition KIND_SNAPSHOT : Z := 1.
Definition KIND_HEARTBEAT : Z := 2.

Definition status_msg (f : Hub.frame) : WatchStatusResponse :=
  MkWatchStatusResponse KIND_SNAPSHOT (Some (statusToProto (Hub.fr_status f) (Hub.fr_at f))) (Hub.fr_seq f).
Definition status_heartbeat : WatchStatusResponse := MkWatchStatusResponse KIND_HEARTBEAT None 0.
Definition status_snap (m : WatchStatusResponse) : bool := ws_Kind m =? KIND_SNAPSHOT.

#[export] Instance status_watch : WatchHub nat Hub.hub Hub.event Hub.frame := {|
  hub_step := Hub.step;
  watcher h i := Hub.heap h !! i;
  listed h i := i ∈ Hub.subs h;
  put_watcher i w h := Hub.set_heap (<[i := w]> (Hub.heap h)) h;
  leave := Hub.unsubscribe;
  foreign i e := match e with Hub.EReceive j | Hub.EDelete j => j <> i | _ => True end |}.

(** The loop of [WatchStatus], on a hub shared with everybody else. *)
Definition WatchStatus_loop (sub : nat) (c : Hub.hub * stream WatchStatusResponse)
    (ts : list (sched (E := Hub.event))) : Hub.hub * stream WatchStatusResponse :=
  run_stream status_msg status_heartbeat sub c ts.

Definition status_ok (h : Hub.hub) : Prop := forall i, (Hub.next_sub h <= i)%nat -> Hub.heap h !! i = None.

Lemma offer_got {A} race (f : A) ch : ch_got ch `prefix_of` ch_got (offer race f ch).
Proof. destruct (offer_spec race f ch) as [_ [->|(x & _ & ->)]]; [done|by apply prefix_app_r]. Qed.

Lemma once_close {A} (w : subscriber A) : once w = true -> once (sub_close w) = true.
Proof. unfold sub_close. intros E. by rewrite E. Qed.

Lemma updates_close {A} (w : subscriber A) : updates (sub_close w) = updates w.
Proof. unfold sub_close. by destruct (once w). Qed.

#[export] Instance status_watch_laws : WatchHubLaws status_ok.
Proof.
  split; unfold status_ok; cbn [hub_step watcher listed put_watcher leave foreign status_watch].
  - intros h e Hok i. destruct e as [races s now|d|j|d|j|j]; cbn [Hub.step].
    + cbn [snd Hub.publish]. rewrite Hub.lookup_on_subs. cbn. intros Hi. by rewrite Hok.
    + cbn. intros Hi. rewrite lookup_insert_ne by lia. apply Hok. lia.
    + apply Hok.
    + apply Hok.
    + cbn. intros Hi. apply lookup_alter_None. by apply Hok.
    + cbn. intros Hi. apply lookup_alter_None. by apply Hok.
  - intros k w h Hok [w0 Hw] i Hi. cbn in *. rewrite lookup_insert_ne; [by apply Hok|].
    intros ->. by rewrite Hok in Hw.
  - intros k h Hok i Hi. cbn in *. apply lookup_alter_None. by apply Hok.
  - intros k w h _. cbn. by rewrite lookup_insert_eq.
  - done.
  - intros k h w Hw. exists (sub_close w). cbn. rewrite lookup_alter_eq, Hw, updates_close.
    split_and!; [done|done|apply once_close|set_solver].
  - intros k h e w Hok Hf Hw. destruct e as [races s now|d|j|d|j|j]; cbn [Hub.step foreign] in *.
    + cbn [snd Hub.publish]. rewrite Hub.lookup_on_subs. cbn [Hub.heap]. rewrite Hw. cbn.
      eexists. split; [done|]. case_bool_decide; [|done]. split_and!; [apply offer_got|done|done].
    + cbn. assert (Hub.next_sub h <> k) as Hne by (intros <-; by rewrite Hok in Hw).
      rewrite lookup_insert_ne by done. exists w. split_and!; [done..|]. intros Hl. split; [set_solver|done].
    + exists w. split_and!; [done..|]. cbn. intros Hl. split; [set_solver|done].
    + exists w. split_and!; [done..|]. cbn. intros Hl. split; [set_solver|done].
    + cbn. destruct (decide (j = k)) as [->|].
      * rewrite lookup_alter_eq, Hw. exists (sub_close w). rewrite updates_close.
        split_and!; [done|done|apply once_close|done].
      * rewrite lookup_alter_ne by done. by exists w.
    + cbn. rewrite lookup_alter_ne by done. by exists w.
Qed.

(** The hub's own invariant along a schedule. *)
Definition hub_state (sub : nat) (o : Hub.frame) (n : Z) (h : Hub.hub) : Prop :=
  0 <= n /\ exists os, Hub.hub_inv h os n /\ os !! sub = Some o.

Lemma hub_state_step sub o n h e :
  n + Hub.publishes [e] < 2 ^ 64 -> hub_state sub o n h ->
  hub_state sub o (n + Hub.publishes [e]) (Hub.step h e).
Proof.
  intros Hn (H0 & os & Hi & Ho). assert (os !! sub = Some o -> (sub < Hub.next_sub h)%nat) as Hlt.
  { intros Hs. destruct (decide (sub < Hub.next_sub h)%nat) as [|Hge]; [done|].
    destruct (Hub.hi_fresh _ _ _ Hi sub) as [_ Hnone]; [lia|]. congruence. }
  split; [unfold Hub.publishes in *; lia|].
  destruct e as [races s now|d|i|d|i|i]; cbn [Hub.publishes Hub.is_publish List.filter length Z.of_nat] in Hn |- *;
    rewrite ?Z.add_0_r; cbn [Hub.step].
  - exists os. split; [|done]. apply Hub.hub_inv_publish; [|done]. unfold Hub.publishes in Hn. cbn in Hn. lia.
  - apply (Hub.hub_inv_subscribe d) in Hi. cbn in Hi. eexists. split; [exact Hi|].
    specialize (Hlt Ho). by rewrite lookup_insert_ne by lia.
  - exists os. split; [|done]. by apply Hub.hub_inv_unlist.
  - exists os. split; [|done]. by apply Hub.hub_inv_unlist.
  - exists os. split; [|done].
    apply Hub.hub_inv_alter; [intros; by apply Hub.watcher_ok_close|done].
  - exists os. split; [|done].
    apply Hub.hub_inv_alter; [intros; by apply Hub.watcher_ok_receive|done].
Qed.

Lemma hub_state_quiet sub o n h e :
  n < 2 ^ 64 -> Hub.is_publish e = false -> hub_state sub o n h -> hub_state sub o n (Hub.step h e).
Proof.
  intros Hn He Hs. assert (Hub.publishes [e] = 0) as E by (unfold Hub.publishes; cbn; by rewrite He).
  apply (hub_state_step sub o n h e) in Hs; rewrite E, Z.add_0_r in *; done.
Qed.

Lemma hub_state_leave sub o n h : n < 2 ^ 64 -> hub_state sub o n h -> hub_state sub o n (Hub.unsubscribe sub h).
Proof.
  intros Hn Hs. apply (hub_state_quiet sub o n _ (Hub.EClose sub)); [done..|].
  by apply (hub_state_quiet sub o n _ (Hub.EDelete sub)).
Qed.

Lemma set_heap_id h : Hub.set_heap (Hub.heap h) h = h.
Proof. by destruct h. Qed.

Lemma put_status sub w w' h :
  Hub.heap h !! sub = Some w -> w' = w \/ w' = on_chan receive w ->
  Hub.set_heap (<[sub := w']> (Hub.heap h)) h = h \/
  Hub.set_heap (<[sub := w']> (Hub.heap h)) h = Hub.step h (Hub.EReceive sub).
Proof.
  intros Hw [->| ->]; [left; by rewrite insert_id, set_heap_id|right]. cbn. f_equal.
  apply map_eq. intros i. destruct (decide (sub = i)) as [<-|].
  - by rewrite lookup_insert_eq, lookup_alter_eq, Hw.
  - by rewrite lookup_insert_ne, lookup_alter_ne.
Qed.

Lemma status_turn_state sub o n b ok c :
  n < 2 ^ 64 -> hub_state sub o n (fst c) ->
  hub_state sub o n (fst (default c (turn status_msg status_heartbeat sub b ok c))).
Proof.
  intros Hn Hs. destruct (turn _ _ _ _ _ _) as [c'|] eqn:Ht; cbn [default]; [|done].
  apply turn_shape in Ht as (w & w' & st' & _ & Hw & Hsel & ->). cbn [fst].
  assert (w' = w \/ w' = on_chan receive w) as Hcase.
  { apply (select_cases status_msg status_heartbeat status_snap eq_refl) in Hsel as [(-> & _)|(? & _)]; auto. }
  assert (hub_state sub o n (put_watcher sub w' (fst c))) as Hp.
  { destruct (put_status sub w w' (fst c) Hw Hcase) as [E|E];
      change (put_watcher sub w' (fst c)) with (Hub.set_heap (<[sub := w']> (Hub.heap (fst c))) (fst c)); rewrite E; [done|].
    by apply hub_state_quiet. }
  destruct (over st'); [by apply hub_state_leave|done].
Qed.

Definition sched_publishes (ts : list (sched (E := Hub.event))) : Z :=
  Hub.publishes (omap (fun t => match t with Env e => Some e | Turn _ _ => None end) ts).

Lemma run_hub_state sub o n c ts :
  n + sched_publishes ts < 2 ^ 64 -> hub_state sub o n (fst c) ->
  hub_state sub o (n + sched_publishes ts) (fst (run_stream status_msg status_heartbeat sub c ts)).
Proof.
  revert n c. induction ts as [|t ts IH]; intros n c Hn Hs; [cbn; by rewrite Z.add_0_r|].
  destruct t as [b ok|e].
  - change (sched_publishes (Turn b ok :: ts)) with (sched_publishes ts) in *. apply IH; [done|].
    apply status_turn_state; [unfold sched_publishes, Hub.publishes in Hn; lia|done].
  - assert (sched_publishes (Env e :: ts) = Hub.publishes [e] + sched_publishes ts) as E.
    { unfold sched_publishes, Hub.publishes. cbn. destruct (Hub.is_publish e); cbn; lia. }
    rewrite E, Z.add_assoc in *. apply (IH _ (Hub.step (fst c) e, snd c)); [done|].
    apply hub_state_step; [unfold sched_publishes, Hub.publishes in *; lia|done].
Qed.

(** A stream freshly begun on a reachable hub. *)
Lemma begin_status es d ok :
  Hub.publishes es < 2 ^ 64 ->
  let '(sub, o, h) := Hub.subscribe d (Hub.run es) in
  let c := begin status_msg sub ok (Some o) h in
  hub_state sub o (Hub.publishes es) (fst c) /\ stream_inv status_ok status_msg status_snap sub (Some o) c.
Proof.
  intros Hn. pose proof (Hub.hub_inv_run es Hn) as Hi. apply (Hub.hub_inv_subscribe d) in Hi.
  destruct (Hub.subscribe d (Hub.run es)) as [[sub o] h] eqn:Hsub.
  assert (Hub.heap h !! sub = Some (newSub d)) as Hw by (injection Hsub as <- <- <-; apply lookup_insert_eq).
  assert (hub_state sub o (Hub.publishes es) h) as Hs0.
  { split; [unfold Hub.publishes; lia|]. eexists. split; [exact Hi|]. apply lookup_insert_eq. }
  split.
  - cbn [begin fst]. destruct ok; [done|]. by apply hub_state_leave.
  - apply (begin_inv status_ok status_msg status_snap (fun _ => eq_refl) sub ok (Some o) h (newSub d)); [|done|done].
    intros i Hlt. by apply (Hub.hi_fresh _ _ _ Hi i).
Qed.

Lemma last_map_cons {X Y} (f : X -> Y) x l z : List.last (map f (x :: l)) z = f (List.last l x).
Proof.
  induction l as [|y l _] using rev_ind; [done|].
  rewrite app_comm_cons, map_app. change (map f [y]) with [f y]. by rewrite !List.last_last.
Qed.

Lemma sorted_seqs o (ch : chan Hub.frame) top (l : list WatchStatusResponse) :
  stream_ok Hub.fr_seq (Hub.fr_seq o) top ch -> l `prefix_of` map status_msg (o :: ch_got ch) ->
  StronglySorted Z.lt (map ws_Seq l).
Proof.
  intros [Hs _] [k Hk]. unfold Chan.stream in Hs. rewrite map_app, app_comm_cons in Hs.
  apply sorted_prefix in Hs. apply (sorted_prefix _ (map ws_Seq k)). rewrite <- map_app, <- Hk, map_map.
  exact Hs.
Qed.

(** C15: a status stream tells the truth, in order. However the stream's turns
    interleave with publications, other watchers and revocations (below the
    wrap of the counter): the snapshots it sends carry strictly increasing
    numbers, beginning with the opening; and when it is idle and still listed,
    the last it sent is the hub's current snapshot. Nothing is lost by
    the hub's dropping of stale frames. *)
Theorem status_stream_up_to_date es d ok ts :
  let '(sub, o, h) := Hub.subscribe d (Hub.run es) in
  others_only sub ts -> Hub.publishes es + sched_publishes ts < 2 ^ 64 ->
  let '(h', st) := WatchStatus_loop sub (begin status_msg sub ok (Some o) h) ts in
  StronglySorted Z.lt (map ws_Seq (snaps status_snap st)) /\
  (snaps status_snap st = [] \/ exists rest, snaps status_snap st = status_msg o :: rest) /\
  (over st = None -> sub ∈ Hub.subs h' ->
   forall w, Hub.heap h' !! sub = Some w -> ch_buf (updates w) = None -> at_select w st = true ->
   List.last (snaps status_snap st) status_heartbeat =
     status_msg (Hub.MkFrame (Hub.current h') (Hub.at_ h') (Hub.seq h'))).
Proof.
  unfold WatchStatus_loop.
  pose proof (begin_status es d ok) as Hb.
  destruct (Hub.subscribe d (Hub.run es)) as [[sub o] h]. intros Hts Hn.
  assert (0 <= sched_publishes ts) as Hge by (unfold sched_publishes, Hub.publishes; lia).
  destruct (Hb ltac:(lia)) as [Hs Hst]. clear Hb.
  apply (run_hub_state _ _ _ _ ts Hn) in Hs as (_ & os & Hi & Ho).
  apply (run_inv status_ok status_msg status_heartbeat status_snap (fun _ => eq_refl) eq_refl _ _ _ ts Hts)
    in Hst as (_ & w & Hw & Hp & Ha).
  destruct (run_stream _ _ _ _ _) as [h' st]. cbn [fst snd watcher status_watch] in *.
  destruct (Hub.hi_ok _ _ _ Hi sub w o Hw Ho) as (Hsort & _ & Hl). split_and!.
  - by eapply sorted_seqs.
  - destruct Hp as [k Hk]. destruct (snaps status_snap st) as [|m l]; [by left|right].
    cbn in Hk. injection Hk as <- _. by exists l.
  - intros Hov Hin w' Hw' Hbuf Hsel. assert (w' = w) as -> by congruence.
    destruct (Ha Hov) as [_ ->]. unfold at_select in Hsel. apply Nat.eqb_eq in Hsel.
    rewrite Hsel, firstn_all.
    change (option_list (Some o) ++ ch_got (updates w)) with (o :: ch_got (updates w)). rewrite last_map_cons.
    specialize (Hl (bool_decide_eq_true_2 _ Hin)). unfold last_seen, Chan.stream in Hl.
    rewrite Hbuf in Hl. cbn [option_list] in Hl. rewrite app_nil_r in Hl.
    by rewrite Hl, (Hub.hi_seq _ _ _ Hi).
Qed.

Lemma status_revoked es d ok ts1 ts2 w1 :
  Hub.publishes es < 2 ^ 64 ->
  let '(sub, o, h) := Hub.subscribe d (Hub.run es) in
  let '(h1, st1) := run_stream status_msg status_heartbeat sub (begin status_msg sub ok (Some o) h) ts1 in
  others_only sub ts1 -> others_only sub ts2 ->
  sub ∈ Hub.subs h1 -> Hub.heap h1 !! sub = Some w1 -> sub_deviceID w1 = d ->
  let c2 := run_stream status_msg status_heartbeat sub (Hub.dropDevice d h1, st1) ts2 in
  snaps status_snap (snd c2) `prefix_of` map status_msg (o :: Chan.stream (updates w1)) /\
  (over (snd c2) = None -> exists n, (n <= length (Chan.stream (updates w1)))%nat /\
     over (snd (run_stream status_msg status_heartbeat sub c2 (repeat (Turn BUpdate true) n ++ [Turn BGone true]))) =
       Some (EndError (RPCError PermissionDenied RRevoked))).
Proof.
  intros Hn. pose proof (begin_status es d ok Hn) as Hb.
  destruct (Hub.subscribe d (Hub.run es)) as [[sub o] h].
  destruct (run_stream _ _ _ _ ts1) as [h1 st1] eqn:E1. intros Ht1 Ht2 Hin Hw1 Hd. destruct Hb as [_ Hst].
  apply (run_inv status_ok status_msg status_heartbeat status_snap (fun _ => eq_refl) eq_refl _ _ _ ts1 Ht1) in Hst.
  rewrite E1 in Hst. destruct Hst as (Hok & w & Hw & Hacc). cbn [fst snd watcher status_watch] in *.
  assert (w = w1) as -> by congruence.
  assert (Hub.heap (Hub.dropDevice d h1) !! sub = Some (sub_close w1)) as Hw2.
  { rewrite Hub.drop_lookup, Hw1. cbn. rewrite bool_decide_eq_true_2; [done|]. split; [done|].
    unfold Hub.held_by. rewrite Hw1. cbn. by rewrite Hd. }
  apply (doomed_stream_ends status_ok status_msg status_heartbeat status_snap (fun _ => eq_refl) eq_refl
    sub (Some o) (Chan.stream (updates w1))); [done|split|].
  - intros i Hi. cbn [fst]. rewrite Hub.drop_lookup. by rewrite Hok.
  - exists (sub_close w1). split; [done|]. cbn [snd]. unfold accounted in *. by rewrite updates_close.
  - exists (sub_close w1). rewrite updates_close. cbn [fst]. split_and!; [done| |unfold sub_close; by destruct (once w1) eqn:E|done].
    cbn [listed status_watch]. intros Hl. apply held_exclusive in Hl. apply Hl. by rewrite Hw1, <- Hd.
Qed.

(** ** The pane stream *)

Record WatchPaneResponse := MkWatchPaneResponse {
  wp_Kind : Z; wp_Frame : option Pb.PaneFrame; wp_Seq : Z }.

Definition pane_msg (f : PaneHub.paneFrameMsg) : WatchPaneResponse :=
  MkWatchPaneResponse KIND_SNAPSHOT (Some (paneToProto (PaneHub.m_frame f))) (PaneHub.m_seq f).
Definition pane_heartbeat : WatchPaneResponse := MkWatchPaneResponse KIND_HEARTBEAT None 0.
Definition pane_snap (m : WatchPaneResponse) : bool := wp_Kind m =? KIND_SNAPSHOT.

Inductive pane_event :=
| PPublish (races : nat -> bool * bool) (sid : bytes) (f : Projection.PaneFrame)
| PSubscribe (deviceID sid : bytes)
| PDelete (sid : bytes) (sub : nat)
| PRemove (order : list bytes) (deviceID : bytes)
| PClose (sub : nat)
| PReceive (sub : nat).

Definition pane_step (h : PaneHub.paneHub) (e : pane_event) : PaneHub.paneHub :=
  match e with
  | PPublish races sid f => PaneHub.publish races sid f h
  | PSubscribe d sid => snd (PaneHub.subscribe d sid h)
  | PDelete sid sub => PaneHub.delete_sub sid sub h
  | PRemove order d => snd (PaneHub.remove_device order d h)
  | PClose sub => PaneHub.close_sub sub h
  | PReceive sub => PaneHub.put_heap (alter (on_chan receive) sub (PaneHub.p_heap h)) h
  end.

(** A watcher is named by its session and its number. *)
#[export] Instance pane_watch : WatchHub (bytes * nat) PaneHub.paneHub pane_event PaneHub.paneFrameMsg := {|
  hub_step := pane_step;
  watcher h k := PaneHub.p_heap h !! snd k;
  listed h k := exists sid, snd k ∈ PaneHub.session_subs sid h;
  put_watcher k w h := PaneHub.put_heap (<[snd k := w]> (PaneHub.p_heap h)) h;
  leave k := PaneHub.unsubscribe (fst k) (snd k);
  foreign k e := match e with PReceive j => j <> snd k | PDelete _ j => j <> snd k | _ => True end |}.

(** The loop of [WatchPane]. *)
Definition WatchPane_loop (k : bytes * nat) (c : PaneHub.paneHub * stream WatchPaneResponse)
    (ts : list (sched (E := pane_event))) : PaneHub.paneHub * stream WatchPaneResponse :=
  run_stream pane_msg pane_heartbeat k c ts.

(** The handlers, up to their loops: [WatchStatus_start] and [WatchPane_start]
    authorize and subscribe, then the opening is sent. *)
Definition WatchStatus `{Registry.RegistryLib} (auth : bytes) (ok : bool)
    : SE server rpcerr (nat * stream WatchStatusResponse) :=
  '(sub, opening) ← WatchStatus_start auth;
  locked (fun s => let '(h, st) := begin status_msg sub ok (Some opening) (hub s) in
                   ((sub, st), set_hub h s)).
Definition WatchPane `{Registry.RegistryLib} (auth : bytes) (m : WatchPaneRequest) (ok : bool)
    : SE server rpcerr (nat * stream WatchPaneResponse) :=
  '(sub, opening) ← WatchPane_start auth m;
  locked (fun s =>
    let '(h, st) := begin pane_msg (TrimSpace (wq_SessionId m), sub) ok opening (panes s) in
    ((sub, st), set_panes h s)).

Definition pane_ok (h : PaneHub.paneHub) : Prop :=
  forall i, (PaneHub.p_next h <= i)%nat -> PaneHub.p_heap h !! i = None.

(** A pane publication reaches the listed watchers of its session only. *)
Lemma pane_publish_lookup races sid f h i :
  exists msg, PaneHub.p_heap (PaneHub.publish races sid f h) !! i =
    (fun w => if bool_decide (i ∈ PaneHub.session_subs sid h) then on_chan (offer (races i) msg) w else w)
      <$> PaneHub.p_heap h !! i.
Proof.
  unfold PaneHub.publish, PaneHub.session_subs.
  destruct (PaneHub.sessions h !! sid) as [ss|]; cbn [from_option].
  2:{ exists (PaneHub.MkMsg f 0). rewrite bool_decide_eq_false_2 by set_solver. by destruct (_ !! i). }
  case_bool_decide as He.
  - exists (PaneHub.MkMsg f 0). rewrite He, bool_decide_eq_false_2 by set_solver. by destruct (_ !! i).
  - eexists. rewrite PaneHub.lookup_on_watchers. done.
Qed.

Lemma pane_publish_rest races sid f h :
  PaneHub.p_next (PaneHub.publish races sid f h) = PaneHub.p_next h /\
  forall sid', PaneHub.session_subs sid' (PaneHub.publish races sid f h) = PaneHub.session_subs sid' h.
Proof.
  unfold PaneHub.publish. destruct (PaneHub.sessions h !! sid) as [ss|] eqn:Hs; [|done].
  case_bool_decide; [done|]. split; [done|]. intros sid'. unfold PaneHub.session_subs. cbn.
  destruct (decide (sid = sid')) as [<-|]; [by rewrite lookup_insert_eq, Hs|by rewrite lookup_insert_ne].
Qed.

Lemma pane_subscribe_rest d sid h :
  let h' := snd (PaneHub.subscribe d sid h) in
  ((PaneHub.p_heap h' = PaneHub.p_heap h /\ PaneHub.p_next h' = PaneHub.p_next h) \/
   (PaneHub.p_heap h' = <[PaneHub.p_next h := newSub d]> (PaneHub.p_heap h) /\
    PaneHub.p_next h' = S (PaneHub.p_next h))) /\
  forall sid' i, i ∈ PaneHub.session_subs sid' h' -> i = PaneHub.p_next h \/ i ∈ PaneHub.session_subs sid' h.
Proof.
  assert (forall (m : gmap bytes PaneHub.paneSession) (ss0 : PaneHub.paneSession) sid' i, PaneHub.ps_subs ss0 = PaneHub.session_subs sid h ->
    i ∈ from_option PaneHub.ps_subs ∅ (<[sid := PaneHub.with_subs ({[PaneHub.p_next h]} ∪ PaneHub.ps_subs ss0) ss0]> m !! sid') ->
    m !! sid' = PaneHub.sessions h !! sid' \/ sid' = sid ->
    i = PaneHub.p_next h \/ i ∈ PaneHub.session_subs sid' h) as Hreg.
  { intros m ss0 sid' i Hss Hi Hm. destruct (decide (sid = sid')) as [<-|].
    - rewrite lookup_insert_eq in Hi. cbn in Hi. rewrite Hss in Hi. set_solver.
    - rewrite lookup_insert_ne in Hi by done. destruct Hm as [Hm| ->]; [|done]. rewrite Hm in Hi. by right. }
  assert (PaneHub.ps_subs (default (PaneHub.MkSession None 0 ∅ false) (PaneHub.sessions h !! sid)) =
          PaneHub.session_subs sid h) as Hdef.
  { unfold PaneHub.session_subs. by destruct (PaneHub.sessions h !! sid). }
  unfold PaneHub.subscribe. set (ss := default _ _) in *. cbn [PaneHub.source PaneHub.calls PaneHub.put_session].
  destruct (PaneHub.source h) as [f|]; cbn [snd].
  - destruct (PaneHub.ps_open ss); [|destruct (f (PaneHub.calls h) sid)]; cbn; (split; [first [by left|by right]|]);
      unfold PaneHub.session_subs; cbn; intros sid' i Hi.
    + eapply Hreg; [exact Hdef|exact Hi|]. destruct (decide (sid = sid')) as [<-|]; [auto|].
      rewrite lookup_insert_ne by done. auto.
    + eapply (Hreg _ (PaneHub.opened ss)); [exact Hdef|exact Hi|]. destruct (decide (sid = sid')) as [<-|]; [auto|].
      rewrite !lookup_insert_ne by done. auto.
    + right. destruct (decide (sid = sid')) as [<-|]; [|by rewrite lookup_insert_ne in Hi].
      rewrite lookup_insert_eq in Hi. cbn in Hi. by rewrite Hdef in Hi.
  - split; [by right|]. intros sid' i Hi. eapply Hreg; [exact Hdef|exact Hi|].
    destruct (decide (sid = sid')) as [<-|]; [auto|]. cbn. rewrite lookup_insert_ne by done. auto.
Qed.

Lemma pane_shrink_rest sid X h :
  PaneHub.p_heap (PaneHub.shrink sid X h) = PaneHub.p_heap h /\
  PaneHub.p_next (PaneHub.shrink sid X h) = PaneHub.p_next h /\
  forall sid', PaneHub.session_subs sid' (PaneHub.shrink sid X h) ⊆ PaneHub.session_subs sid' h.
Proof.
  split_and!.
  - apply PaneHub.shrink_heap.
  - unfold PaneHub.shrink, PaneHub.closeIfUnwatchedLocked. destruct (PaneHub.sessions h !! sid); [|done].
    destruct (_ || _); [done|]. cbn. by destruct (PaneHub.source h).
  - intros sid'. rewrite PaneHub.session_subs_shrink. case_decide; set_solver.
Qed.

Lemma pane_remove_rest order d h :
  let h' := snd (PaneHub.remove_device order d h) in
  PaneHub.p_heap h' = PaneHub.p_heap h /\ PaneHub.p_next h' = PaneHub.p_next h /\
  forall sid', PaneHub.session_subs sid' h' ⊆ PaneHub.session_subs sid' h.
Proof.
  unfold PaneHub.remove_device. generalize (∅ : gset nat). revert h.
  induction order as [|sid order IH]; intros h D; [done|]. cbn [fold_left PaneHub.drop_session].
  set (gone := filter _ _). destruct (pane_shrink_rest sid gone h) as (Hh & Hn & Hs).
  destruct (IH (PaneHub.shrink sid gone h) (D ∪ gone)) as (Hh' & Hn' & Hs').
  split_and!; [by rewrite Hh'|by rewrite Hn'|]. intros sid'. etrans; [apply Hs'|apply Hs].
Qed.

#[export] Instance pane_watch_laws : WatchHubLaws pane_ok.
Proof.
  split; unfold pane_ok; cbn [hub_step watcher listed put_watcher leave foreign pane_watch].
  - intros h e Hok i. destruct e as [races sid f|d sid|sid j|order d|j|j]; cbn [pane_step].
    + rewrite (proj1 (pane_publish_rest races sid f h)). destruct (pane_publish_lookup races sid f h i) as [msg ->].
      intros Hi. by rewrite Hok.
    + destruct (pane_subscribe_rest d sid h) as [[[-> ->]|[-> ->]] _]; [apply Hok|].
      intros Hi. rewrite lookup_insert_ne by lia. apply Hok. lia.
    + unfold PaneHub.delete_sub. destruct (pane_shrink_rest sid {[j]} h) as (-> & -> & _). apply Hok.
    + destruct (pane_remove_rest order d h) as (-> & -> & _). apply Hok.
    + intros Hi. apply lookup_alter_None. by apply Hok.
    + intros Hi. apply lookup_alter_None. by apply Hok.
  - intros k w h Hok [w0 Hw] i Hi. cbn in *. rewrite lookup_insert_ne; [by apply Hok|].
    intros <-. by rewrite Hok in Hw.
  - intros k h Hok i Hi. cbn in *. apply lookup_alter_None.
    destruct (pane_shrink_rest (fst k) {[snd k]} h) as (Hh & Hn & _). unfold PaneHub.delete_sub in *.
    rewrite Hh. rewrite Hn in Hi. by apply Hok.
  - intros k w h _. cbn. by rewrite lookup_insert_eq.
  - done.
  - intros k h w Hw. exists (sub_close w). cbn.
    destruct (pane_shrink_rest (fst k) {[snd k]} h) as (Hh & _ & Hs). unfold PaneHub.delete_sub in *.
    rewrite Hh, lookup_alter_eq, Hw, updates_close.
    split_and!; [done|done|apply once_close|]. intros Hl [sid Hin]. apply Hl. exists sid. by apply Hs.
  - intros [sid0 k] h e w Hok Hf Hw. cbn [fst snd] in *.
    destruct e as [races sid f|d sid|sid j|order d|j|j]; cbn [pane_step].
    + destruct (pane_publish_lookup races sid f h k) as [msg ->]. rewrite Hw. cbn. eexists. split; [done|].
      split_and!; [case_bool_decide; [apply offer_got|done]|by case_bool_decide|].
      intros Hl. rewrite bool_decide_eq_false_2 by eauto. split; [|done].
      intros [sid' Hin]. rewrite (proj2 (pane_publish_rest races sid f h)) in Hin. eauto.
    + destruct (pane_subscribe_rest d sid h) as [Hh Hs]. exists w.
      assert (PaneHub.p_next h <> k) as Hne by (intros <-; by rewrite Hok in Hw).
      split; [destruct Hh as [[-> _]|[-> _]]; [done|by rewrite lookup_insert_ne]|].
      split_and!; [done..|]. intros Hl. split; [|done]. intros [sid' [Heq|Hin]%Hs]; [by destruct Hne|eauto].
    + destruct (pane_shrink_rest sid {[j]} h) as (Hh & _ & Hs). unfold PaneHub.delete_sub. rewrite Hh.
      exists w. split_and!; [done..|]. intros Hl. split; [|done]. intros [sid' Hin]. apply Hl. exists sid'. by apply Hs.
    + destruct (pane_remove_rest order d h) as (Hh & _ & Hs). rewrite Hh.
      exists w. split_and!; [done..|]. intros Hl. split; [|done]. intros [sid' Hin]. apply Hl. exists sid'. by apply Hs.
    + cbn. destruct (decide (j = k)) as [->|].
      * rewrite lookup_alter_eq, Hw. exists (sub_close w). rewrite updates_close.
        split_and!; [done|done|apply once_close|done].
      * rewrite lookup_alter_ne by done. by exists w.
    + cbn. rewrite lookup_alter_ne by done. by exists w.
Qed.

Lemma pane_revoked k opening order ts2 (h1 : PaneHub.paneHub) st1 w1 :
  stream_inv pane_ok pane_msg pane_snap k opening (h1, st1) -> others_only k ts2 ->
  order ≡ₚ elements (dom (PaneHub.sessions h1)) ->
  snd k ∈ PaneHub.session_subs (fst k) h1 -> PaneHub.p_heap h1 !! snd k = Some w1 ->
  let c2 := run_stream pane_msg pane_heartbeat k (PaneHub.dropDevice order (sub_deviceID w1) h1, st1) ts2 in
  snaps pane_snap (snd c2) `prefix_of` map pane_msg (option_list opening ++ Chan.stream (updates w1)) /\
  (over (snd c2) = None -> exists n, (n <= length (Chan.stream (updates w1)))%nat /\
     over (snd (run_stream pane_msg pane_heartbeat k c2 (repeat (Turn BUpdate true) n ++ [Turn BGone true]))) =
       Some (EndError (RPCError PermissionDenied RRevoked))).
Proof.
  intros (Hok & w & Hw & Hacc) Ht2 Hord Hin Hw1. cbn [fst snd watcher pane_watch] in *.
  assert (w = w1) as -> by congruence.
  assert (PaneHub.p_heap (PaneHub.dropDevice order (sub_deviceID w1) h1) !! snd k = Some (sub_close w1) /\
          PaneHub.p_next (PaneHub.dropDevice order (sub_deviceID w1) h1) = PaneHub.p_next h1 /\
          forall i, PaneHub.p_heap h1 !! i = None -> PaneHub.p_heap (PaneHub.dropDevice order (sub_deviceID w1) h1) !! i = None)
    as (Hw2 & Hn2 & Hok2).
  { pose proof (pane_remove_rest order (sub_deviceID w1) h1) as Hr.
    assert (NoDup order) as Hnd by (rewrite Hord; apply NoDup_elements).
    pose proof (PaneHub.remove_device_spec order (sub_deviceID w1) h1 ∅ Hnd) as Hs.
    unfold PaneHub.dropDevice, PaneHub.remove_device in *.
    destruct (fold_left _ order _) as [X h']. cbn [snd] in Hr. destruct Hr as (Hh & Hn & _), Hs as (_ & _ & HX).
    unfold PaneHub.close_all. split_and!; [|exact Hn|].
    - rewrite PaneHub.lookup_on_watchers, Hh, Hw1. cbn. rewrite bool_decide_eq_true_2; [done|]. apply HX. right.
      exists (fst k). split_and!; [|done|unfold PaneHub.held_by; by rewrite Hw1].
      rewrite Hord, elem_of_elements, elem_of_dom. unfold PaneHub.session_subs in Hin.
      destruct (PaneHub.sessions h1 !! fst k); [done|]. cbn in Hin. set_solver.
    - intros i Hi. by rewrite PaneHub.lookup_on_watchers, Hh, Hi. }
  apply (doomed_stream_ends pane_ok pane_msg pane_heartbeat pane_snap (fun _ => eq_refl) eq_refl
    k opening (Chan.stream (updates w1))); [done|split|].
  - intros i Hi. cbn [fst] in *. rewrite Hn2 in Hi. apply Hok2, Hok, Hi.
  - exists (sub_close w1). split; [done|]. cbn [snd]. unfold accounted in *. by rewrite updates_close.
  - exists (sub_close w1). rewrite updates_close. cbn [fst].
    split_and!; [done| |unfold sub_close; by destruct (once w1) eqn:E|done].
    cbn [listed pane_watch]. intros [sid Hl]. apply panes_exclusive in Hl; [|done]. apply Hl. by rewrite Hw1.
Qed.

Lemma begin_pane src n h os d sid i o h' ok :
  PaneHub.reach src n h os -> n < 2 ^ 64 -> PaneHub.subscribe d sid h = (Ok (i, o), h') ->
  stream_inv pane_ok pane_msg pane_snap (sid, i) o (begin pane_msg (sid, i) ok o h').
Proof.
  intros Hr Hn Hsub. apply (PaneHub.r_subscribe _ _ _ _ _ _ _ _ _ Hr) in Hsub as Hr'.
  destruct (PaneHub.reach_inv _ _ _ _ Hr' Hn) as [_ Hi].
  assert (PaneHub.p_heap h' !! i = Some (newSub d)) as Hw.
  { revert Hsub. unfold PaneHub.subscribe. destruct (PaneHub.source _) as [f|]; [|intros [= <- <- <-]; apply lookup_insert_eq].
    destruct (PaneHub.ps_open _); [intros [= <- <- <-]; apply lookup_insert_eq|].
    destruct (f _ _); [intros [= <- <- <-]; apply lookup_insert_eq|done]. }
  apply (begin_inv pane_ok pane_msg pane_snap (fun _ => eq_refl) (sid, i) ok o h' (newSub d)); [|done|done].
  exact (PaneHub.pi_fresh _ _ _ Hi).
Qed.

(** C14: revocation ends streams. Take a status stream, or a pane stream, at any
    point of any schedule, drop its device, and let any schedule follow: of all
    snapshots the call ever sends, none is newer than what its watcher had been
    handed when the device was dropped; and wherever the call then stands, if
    it has not ended, sending the frames in hand and taking the [gone] branch
    ends it with the permission error that tells the surface to stop. *)
Theorem revoked_streams_end d ok :
  (forall es ts1 ts2 w1, Hub.publishes es < 2 ^ 64 ->
   let '(sub, o, h) := Hub.subscribe d (Hub.run es) in
   let '(h1, st1) := WatchStatus_loop sub (begin status_msg sub ok (Some o) h) ts1 in
   others_only sub ts1 -> others_only sub ts2 ->
   sub ∈ Hub.subs h1 -> Hub.heap h1 !! sub = Some w1 -> sub_deviceID w1 = d ->
   let c2 := WatchStatus_loop sub (Hub.dropDevice d h1, st1) ts2 in
   snaps status_snap (snd c2) `prefix_of` map status_msg (o :: Chan.stream (updates w1)) /\
   (over (snd c2) = None -> exists n, (n <= length (Chan.stream (updates w1)))%nat /\
      over (snd (WatchStatus_loop sub c2 (repeat (Turn BUpdate true) n ++ [Turn BGone true]))) =
        Some (EndError (RPCError PermissionDenied RRevoked)))) /\
  (forall src n h os sid i o h' ts1 ts2 order w1,
   PaneHub.reach src n h os -> n < 2 ^ 64 -> PaneHub.subscribe d sid h = (Ok (i, o), h') ->
   let '(h1, st1) := WatchPane_loop (sid, i) (begin pane_msg (sid, i) ok o h') ts1 in
   others_only (sid, i) ts1 -> others_only (sid, i) ts2 -> order ≡ₚ elements (dom (PaneHub.sessions h1)) ->
   i ∈ PaneHub.session_subs sid h1 -> PaneHub.p_heap h1 !! i = Some w1 -> sub_deviceID w1 = d ->
   let c2 := WatchPane_loop (sid, i) (PaneHub.dropDevice order d h1, st1) ts2 in
   snaps pane_snap (snd c2) `prefix_of` map pane_msg (option_list o ++ Chan.stream (updates w1)) /\
   (over (snd c2) = None -> exists n, (n <= length (Chan.stream (updates w1)))%nat /\
      over (snd (WatchPane_loop (sid, i) c2 (repeat (Turn BUpdate true) n ++ [Turn BGone true]))) =
        Some (EndError (RPCError PermissionDenied RRevoked)))).
Proof.
  unfold WatchStatus_loop, WatchPane_loop.
  split.
  - intros es ts1 ts2 w1. apply status_revoked.
  - intros src n h os sid i o h' ts1 ts2 order w1 Hr Hn Hsub.
    pose proof (begin_pane src n h os d sid i o h' ok Hr Hn Hsub) as Hst.
    destruct (run_stream _ _ _ _ ts1) as [h1 st1] eqn:E1. intros Ht1 Ht2 Hord Hin Hw1 Hd.
    apply (run_inv pane_ok pane_msg pane_heartbeat pane_snap (fun _ => eq_refl) eq_refl _ _ _ ts1 Ht1) in Hst.
    rewrite E1 in Hst. subst d. by apply (pane_revoked (sid, i) o order ts2 h1 st1 w1).
Qed.

(** ** Witnesses *)

Definition quiet_races : nat -> bool * bool := fun _ => (false, false).
Definition some_news : sched (E := Hub.event) := Env (Hub.EPublish quiet_races Projection.zeroStatus 7).

Lemma status_stream_up_to_date_witness :
  let '(sub, o, h) := Hub.subscribe (str "phone") (Hub.run []) in
  let '(h', st) := WatchStatus_loop sub (begin status_msg sub true (Some o) h)
    [some_news; some_news; Turn BUpdate true; Turn BTick true] in
  StronglySorted Z.lt (map ws_Seq (snaps status_snap st)) /\
  map ws_Seq (snaps status_snap st) = [0; 2] /\ Hub.seq h' = 2.
Proof.
  pose proof (status_stream_up_to_date [] (str "phone") true
    [some_news; some_news; Turn BUpdate true; Turn BTick true]) as H.
  change (Hub.run []) with Hub.newHub in *. cbn [Hub.subscribe Hub.newHub] in *.
  destruct (WatchStatus_loop _ _ _) as [h' st] eqn:E. split; [|by injection E as <- <-].
  apply H; [by repeat constructor|by vm_compute].
Defined.

Lemma revoked_streams_end_witness :
  let '(sub, o, h) := Hub.subscribe (str "phone") (Hub.run []) in
  let '(h1, st1) := WatchStatus_loop sub (begin status_msg sub true (Some o) h) [some_news] in
  let c2 := WatchStatus_loop sub (Hub.dropDevice (str "phone") h1, st1) [some_news; Turn BUpdate true] in
  (length (snaps status_snap (snd c2)) <= 2)%nat.
Proof.
  destruct (revoked_streams_end (str "phone") true) as [H _].
  specialize (H [] [some_news] [some_news; Turn BUpdate true]).
  change (Hub.run []) with Hub.newHub in *. cbn [Hub.subscribe Hub.newHub] in *.
  destruct (WatchStatus_loop _ _ [some_news]) as [h1 st1] eqn:E.
  assert (exists w1, Hub.heap h1 !! 0%nat = Some w1 /\ sub_deviceID w1 = str "phone" /\
    length (Chan.stream (updates w1)) = 1%nat /\ 0%nat ∈ Hub.subs h1) as (w1 & Hw1 & Hd & Hlen & Hin).
  { injection E as <- _. eexists. split_and!; [vm_compute; reflexivity|done|done|].
    apply (bool_decide_eq_true_1 _). by vm_compute. }
  destruct (H w1 ltac:(by vm_compute) ltac:(by repeat constructor) ltac:(by repeat constructor) Hin Hw1 Hd) as [Hp _].
  apply prefix_length in Hp. rewrite length_map in Hp. cbn [length] in Hp. rewrite Hlen in Hp. exact Hp.
Defined.
