(* ===== verification/EdgeClient.v ===== *)
(** * The device side of the edge protocol (edgeclient/client.go, edge/edge.go)

    The cloud, the executor, the agent hook and [anypb.New] are the interface
    [Peers]: what each answers may depend on everything asked of it so far. One
    client runs its passes serially, so its state is a record and a log. *)

From stdpp Require Import gmap.
From S2P Require Import Prelude GoStrings Sha256 GoTime GoOS Crypto EdgeProto Json JsonText JsonGo.
From S2P Require EdgeSign Grant.

#[local] Existing Instance Grant.GrantDoc_go.

(** ** edge/edge.go *)

Definition EdgeProtocolVersion : bytes := str "rook-edge/1".
Definition EventTypeCommandResult : bytes := str "com.rook.edge.command_result.v1".
Definition EventTypeAgentEvent : bytes := str "com.rook.edge.agent_event.v1".

(** ** The token on every call

    A call of either shape is a function of its request headers; the
    interceptor's three hooks wrap it. *)

Definition bearer : Type := bytes.
Definition stamp (b : bearer) (header : gmap bytes bytes) : gmap bytes bytes :=
  <[str "Authorization" := str "Bearer " ++ b]> header.
Definition WrapUnary {A} (b : bearer) (next : gmap bytes bytes -> A) : gmap bytes bytes -> A :=
  fun header => next (stamp b header).
Record StreamingClientConn := MkConn { RequestHeader : gmap bytes bytes }.
Definition WrapStreamingClient {A} (b : bearer) (next : A -> StreamingClientConn) : A -> StreamingClientConn :=
  fun spec => let conn := next spec in MkConn (stamp b (RequestHeader conn)).
Definition WrapStreamingHandler {A} (b : bearer) (next : A) : A := next.

(** ** Messages *)

Record RegisterDeviceRequest := MkRegister {
  rg_ProtocolVersion : bytes; rg_DeviceName : bytes; rg_Platform : bytes;
  rg_Capabilities : list bytes; rg_PolicyHash : bytes; rg_PublicKey : option bytes }.
Record RegisterDeviceResponse := MkRegistered {
  rd_DeviceId : bytes; rd_PollIntervalSeconds : Z; CloudPublicKey : option bytes }.
Record SyncEdgeResponse := MkSync {
  Commands : list EdgeCommand; sy_AckedDeviceSequence : Z; PollIntervalSeconds : Z;
  RevokedLeaseIds : list bytes }.
Record EventRejection := MkRejection { rj_DeviceSequence : Z; rj_Reason : bytes }.
Record SubmitEventsResponse := MkSubmitted { sb_AckedDeviceSequence : Z; sb_Rejections : list EventRejection }.
Record CommandResult := MkCommandResult { cr_CommandId : bytes; cr_Status : bytes; cr_ResultJson : bytes }.
Record AgentEvent := MkAgentEvent {
  ae_SessionId : bytes; ae_Kind : bytes; ae_Summary : bytes; ae_DataJson : bytes }.

(** [AgentUpdate] *)
Record AgentUpdate := MkAgentUpdate {
  up_SessionID : bytes; up_Kind : bytes; up_Summary : bytes; up_DataJSON : bytes }.

(** ** What the client talks to *)

Inductive rpc :=
| CRegister (req : RegisterDeviceRequest)
| CSync (version : bytes)
| CAck (commandID : bytes)
| CSubmit (events : list EdgeEvent).

(** The connect codes the client tells apart. *)
Inductive concode := CUnauthenticated | CUnimplemented | COther.

(** One executed command, with what the executor said. *)
Record run_record := MkRun { rn_cmd : EdgeCommand; rn_status : bytes; rn_json : bytes }.

Class Peers := {
  cloud_RegisterDevice : list rpc -> res concode RegisterDeviceResponse;
  cloud_SyncEdge : list rpc -> res concode SyncEdgeResponse;
  cloud_AckCommand : list rpc -> option concode;
  cloud_SubmitEvents : list rpc -> res concode SubmitEventsResponse;
  Execute : list run_record -> EdgeCommand -> bytes * bytes;
  Agent : option (list run_record -> EdgeCommand -> bytes -> bytes -> list AgentUpdate);
  anypb_result : CommandResult -> option Any;
  anypb_agent : AgentEvent -> option Any;
  (** [fmt]'s quoting verb and the text of [json.Unmarshal]'s errors. *)
  quoted : bytes -> bytes;
  json_error : bytes -> bytes }.

(** ** The client *)

Record Client := MkClient {
  Key : option bytes; cloudKey : option bytes; c_world : World;
  rpcs : list rpc; runs : list run_record }.

Definition set_cloudKey (k : option bytes) (c : Client) : Client :=
  MkClient (Key c) k (c_world c) (rpcs c) (runs c).
Definition put_c_world (w : World) (c : Client) : Client :=
  MkClient (Key c) (cloudKey c) w (rpcs c) (runs c).
Definition log_rpc (r : rpc) (c : Client) : Client :=
  MkClient (Key c) (cloudKey c) (c_world c) (rpcs c ++ [r]) (runs c).
Definition log_run (r : run_record) (c : Client) : Client :=
  MkClient (Key c) (cloudKey c) (c_world c) (rpcs c) (runs c ++ [r]).

Record SyncReport := MkReport {
  rp_Commands : Z; Reported : Z; AckedSeq : Z; PollSeconds : Z; Rejections : list bytes }.
Definition zeroReport : SyncReport := MkReport 0 0 0 0 [].

Inductive everr := EEmptyStatus | EEmptyUpdate | EAnypb.
Inductive syncerr :=
| ESync (c : concode) | EAck (commandID : bytes) (c : concode) | EEvent (commandID : bytes) (e : everr)
| EAgentEvent (commandID : bytes) (e : everr) | ESubmit (c : concode).

(** [connect.CodeOf] looks through the wrapping. *)
Definition CodeOf (e : syncerr) : concode :=
  match e with ESync c | EAck _ c | ESubmit c => c | _ => COther end.

Definition client_now {E} : SE Client E time := zoom c_world put_c_world Now.

(** A call: the request goes out, the answer depends on all requests so far. *)
Definition call {A E} (r : rpc) (answer : list rpc -> A) : SE Client E A :=
  _ ← modify (log_rpc r); gets (fun c => answer (rpcs c)).

Section client.
Context `{Ed25519, peers : Peers}.

Definition Register (name platform : bytes) (capabilities : list bytes) : SE Client concode bytes :=
  key ← gets Key;
  pub ← match key with
        | None => mret None
        | Some k => p ← of_res (or_panic (priv_Public k)); mret (Some p)
        end;
  let req := MkRegister EdgeProtocolVersion name platform capabilities [] pub in
  r ← call (CRegister req) cloud_RegisterDevice;
  m ← of_res r;
  _ ← modify (set_cloudKey (CloudPublicKey m));
  mret (rd_DeviceId m).

Definition CloudSigning (c : Client) : bool := negb (length (default [] (cloudKey c)) =? 0)%nat.

(** The texts of [edgesign]'s errors; the document's fields are read back. *)
Definition doc_field (f : Grant.GrantDoc -> bytes) (cmd : EdgeCommand) : bytes :=
  from_option f [] (Unmarshal (A := Grant.GrantDoc) (ApprovalGrant cmd)).
Definition bracketed (xs : list bytes) : bytes := str "[" ++ Join xs (str " ") ++ str "]".
Definition grant_error (cmd : EdgeCommand) (e : Grant.granterr) : bytes :=
  match e with
  | Grant.ENoGrant => str "command names a grant but carries no grant document"
  | Grant.ENoLedgerPayload => str "command carries no ledger payload"
  | Grant.EPayloadDigest => str "ledger payload does not match payload digest"
  | Grant.ENotJSON => str "grant document is not JSON: " ++ json_error (ApprovalGrant cmd)
  | Grant.ESchema => str "grant schema " ++ quoted (doc_field Grant.Schema cmd) ++ str ", want " ++
      quoted Grant.GrantSchema
  | Grant.EGrantID => str "grant " ++ doc_field Grant.GrantID cmd ++
      str " does not match the command's named grant " ++ ApprovalGrantId cmd
  | Grant.ESignature => str "grant signature does not verify"
  | Grant.EExpiryFormat => str "grant expiry " ++ quoted (doc_field Grant.g_ExpiresAt cmd) ++ str " is not RFC3339"
  | Grant.EExpired => str "grant expired " ++ doc_field Grant.g_ExpiresAt cmd
  | Grant.ERun => str "grant is for run " ++ doc_field Grant.g_WorkflowRunID cmd ++
      str ", command is for run " ++ WorkflowRunId cmd
  | Grant.EScope scope => str "grant scope " ++
      bracketed (from_option (fun d => default [] (Grant.ResourceScope d)) [] (Unmarshal (A := Grant.GrantDoc) (ApprovalGrant cmd))) ++
      str " does not cover " ++ scope
  | Grant.EActionDigest => str "grant action digest does not match this command"
  end.

(** [refuse]; [now] is read only when the grant is checked. *)
Definition signature_refuses {E} (key : option bytes) (cmd : EdgeCommand) : res E bool :=
  match key with
  | None => Ok false
  | Some k => match EdgeSign.VerifyCommand k cmd with Ok b => Ok (negb b) | Err e => Err e | Panic => Panic end
  end.

Definition refuse (cmd : EdgeCommand) : SE Client (SyncReport * syncerr) bytes :=
  key ← gets cloudKey;
  bad ← of_res (signature_refuses key cmd);
  if bad : bool then mret (str "cloud_signature does not verify") else
  let payload := if negb (bool_decide (LedgerPayload cmd = []))
                 then Grant.VerifiedLedgerPayload cmd else Ok [] in
  match payload with
  | Err e => mret (grant_error cmd e)
  | Panic => panic
  | Ok _ =>
    if negb (bool_decide (ApprovalGrantId cmd = [])) then
      t ← client_now;
      match Grant.VerifyCommandGrant key cmd t with
      | Ok _ => mret []
      | Err e => mret (str "grant refused: " ++ grant_error cmd e)
      | Panic => panic
      end
    else mret []
  end.

(** ** Events *)

Definition event_of (cmd : EdgeCommand) (id : bytes) (seq : Z) (type : bytes) (t : time) (payload : Any)
    : EdgeEvent :=
  MkEdgeEvent id (c_DeviceId cmd) seq (c_CommandId cmd) type (Some (timestamp_New t)) 0
    (Some payload) (Sum256 (Value payload)) [] [].

Definition result_id (commandID status : bytes) : bytes :=
  str "devevt_" ++ commandID ++ str "_" ++ status.
Definition agent_id (commandID : bytes) (i : nat) (kind : bytes) : bytes :=
  str "devevt_" ++ commandID ++ str "_agent_" ++ itoa (Z.of_nat i) ++ str "_" ++ kind.

Definition resultEvent (cmd : EdgeCommand) (seq : Z) (status resultJSON : bytes) : SE Client everr EdgeEvent :=
  if bool_decide (status = []) then throw EEmptyStatus else
  payload ← of_res (of_option EAnypb (anypb_result (MkCommandResult (c_CommandId cmd) status resultJSON)));
  t ← client_now;
  mret (event_of cmd (result_id (c_CommandId cmd) status) seq EventTypeCommandResult t payload).

Definition agentEvent (cmd : EdgeCommand) (seq : Z) (i : nat) (upd : AgentUpdate) : SE Client everr EdgeEvent :=
  if bool_decide (up_SessionID upd = []) || bool_decide (up_Kind upd = []) then throw EEmptyUpdate else
  payload ← of_res (of_option EAnypb (anypb_agent
    (MkAgentEvent (up_SessionID upd) (up_Kind upd) (up_Summary upd) (up_DataJSON upd))));
  t ← client_now;
  mret (event_of cmd (agent_id (c_CommandId cmd) i (up_Kind upd)) seq EventTypeAgentEvent t payload).

(** [if c.Key != nil { edgesign.SignEvent(c.Key, ev) }] *)
Definition sign_event {E} (ev : EdgeEvent) : SE Client E EdgeEvent :=
  key ← gets Key;
  match key with None => mret ev | Some k => of_res (EdgeSign.SignEvent k ev) end.

(** ** One pass *)

Definition execute_command {E} (cmd : EdgeCommand) : SE Client E (bytes * bytes) :=
  past ← gets runs;
  let '(status, json) := Execute past cmd in
  _ ← modify (log_run (MkRun cmd status json));
  mret (status, json).

(** [json.Marshal(map[string]string{"reason": reason})] *)
Definition reason_json (reason : bytes) : bytes :=
  str "{" ++ json_string (str "reason") ++ str ":" ++ json_string reason ++ str "}".

Fixpoint agent_events (report : SyncReport) (cmd : EdgeCommand) (seq : Z) (i : nat) (upds : list AgentUpdate)
    (events : list EdgeEvent) : SE Client (SyncReport * syncerr) (Z * list EdgeEvent) :=
  match upds with
  | [] => mret (seq, events)
  | upd :: rest =>
    let seq := w64 (seq + 1) in
    aev ← map_err (fun e => (report, EAgentEvent (c_CommandId cmd) e)) (agentEvent cmd seq i upd);
    aev ← sign_event aev;
    agent_events report cmd seq (S i) rest (events ++ [aev])
  end.

(** One command: ack, refuse or execute, then its events. *)
Definition sync_command (report : SyncReport) (cmd : EdgeCommand) (seq : Z) (events : list EdgeEvent)
    : SE Client (SyncReport * syncerr) (Z * list EdgeEvent) :=
  failed ← call (CAck (c_CommandId cmd)) cloud_AckCommand;
  _ ← of_res (match failed with Some c => Err (report, EAck (c_CommandId cmd) c) | None => Ok () end);
  reason ← refuse cmd;
  '(status, resultJSON) ←
    (if negb (bool_decide (reason = [])) then mret (str "rejected", reason_json reason)
     else execute_command cmd);
  let seq := w64 (seq + 1) in
  ev ← map_err (fun e => (report, EEvent (c_CommandId cmd) e)) (resultEvent cmd seq status resultJSON);
  ev ← sign_event ev;
  let events := events ++ [ev] in
  match Agent with
  | None => mret (seq, events)
  | Some agent =>
    past ← gets runs;
    agent_events report cmd seq 0 (agent past cmd status resultJSON) events
  end.

Fixpoint sync_commands (report : SyncReport) (cmds : list EdgeCommand) (seq : Z) (events : list EdgeEvent)
    : SE Client (SyncReport * syncerr) (list EdgeEvent) :=
  match cmds with
  | [] => mret events
  | cmd :: rest =>
    '(seq, events) ← sync_command report cmd seq events;
    sync_commands report rest seq events
  end.

Definition rejection_text (r : EventRejection) : bytes :=
  str "seq " ++ itoa (rj_DeviceSequence r) ++ str ": " ++ rj_Reason r.

Definition SyncOnce : SE Client (SyncReport * syncerr) SyncReport :=
  sync ← call (CSync EdgeProtocolVersion) cloud_SyncEdge;
  sync ← of_res (res_map_err (fun c => (zeroReport, ESync c)) sync);
  let report := MkReport (Z.of_nat (length (Commands sync))) 0 (sy_AckedDeviceSequence sync)
                  (PollIntervalSeconds sync) [] in
  events ← sync_commands report (Commands sync) (sy_AckedDeviceSequence sync) [];
  match events with
  | [] => mret report
  | _ =>
    r ← call (CSubmit events) cloud_SubmitEvents;
    r ← of_res (res_map_err (fun c => (report, ESubmit c)) r);
    mret (MkReport (rp_Commands report) (Z.of_nat (length events)) (sb_AckedDeviceSequence r)
            (PollSeconds report) (map rejection_text (sb_Rejections r)))
  end.
End client.

(** ** The loops: [Follow] and [watch] *)

(** What ends the pause between two passes. *)
Inductive pause := PDone | PTimer | PWake.
Inductive follow_end := FError (e : syncerr) | FContext | FPanic.

(** [time.Duration(max(report.PollSeconds, 1)) * time.Second] *)
Definition interval (report : SyncReport) : Z := i64 (Z.max (PollSeconds report) 1 * Second).

(** After one pass: [ctx_done] is [ctx.Err() != nil] as read on a failure. *)
Definition after_pass (ctx_done : bool) (r : res (SyncReport * syncerr) SyncReport) : follow_end + Z :=
  match r with
  | Ok report => inr (interval report)
  | Err (report, e) =>
    match CodeOf e with
    | CUnauthenticated => inl (FError e)
    | _ => if ctx_done then inl FContext else inr (interval report)
    end
  | Panic => inl FPanic
  end.

Section follow.
Context `{Ed25519, peers : Peers}.

(** [Follow] for as many turns as the schedule has, with the waits it made;
    [None] when it is still polling at its end. *)
Fixpoint Follow (turns : list (bool * pause)) (c : Client) : option follow_end * list Z * Client :=
  match turns with
  | [] => (None, [], c)
  | (ctx_done, p) :: rest =>
    let '(r, c) := SyncOnce c in
    match after_pass ctx_done r with
    | inl e => (Some e, [], c)
    | inr d =>
      match p with
      | PDone => (Some FContext, [d], c)
      | PTimer | PWake => let '(e, ds, c) := Follow rest c in (e, d :: ds, c)
      end
    end
  end.
End follow.

(** The watcher's state: the backoff, and whether the one-slot wake channel
    holds a nudge. *)
Record watcher := MkWatcher { backoff : Z; nudged : bool }.

Definition KIND_LISTENING : Z := 1.
Definition KIND_WAKE : Z := 2.

(** What happens while a stream is open: a message of some kind, or the Follow
    loop taking the nudge. *)
Inductive stream_event := SMessage (kind : Z) | STaken.

Definition on_stream (w : watcher) (e : stream_event) : watcher :=
  match e with
  | SMessage kind => MkWatcher Second (if (kind =? KIND_WAKE) || (kind =? KIND_LISTENING) then true else nudged w)
  | STaken => MkWatcher (backoff w) false
  end.

(** One try: what the open stream brought (nothing when it did not open), the
    code it ended with, whether the context was found done, and whether it
    ended during the backoff pause. *)
Record try := MkTry { t_stream : list stream_event; t_code : concode; t_done : bool; t_done_waiting : bool }.

(** The wait this try led to, and the watcher after it unless it retired. *)
Definition watch_try (w : watcher) (t : try) : option Z * option watcher :=
  let w := fold_left on_stream (t_stream t) w in
  match t_code t with
  | CUnimplemented | CUnauthenticated => (None, None)
  | COther =>
    if t_done t then (None, None)
    else if t_done_waiting t then (Some (backoff w), None)
    else (Some (backoff w), Some (MkWatcher (Z.min (i64 (backoff w * 2)) (30 * Second)) (nudged w)))
  end.

Fixpoint watch_from (w : watcher) (ts : list try) : list Z * option watcher :=
  match ts with
  | [] => ([], Some w)
  | t :: rest =>
    let '(d, w') := watch_try w t in
    let ds := option_list d in
    match w' with
    | None => (ds, None)
    | Some w' => let '(ds', e) := watch_from w' rest in (ds ++ ds', e)
    end
  end.
Definition watch (ts : list try) : list Z * option watcher := watch_from (MkWatcher Second false) ts.

(** ** Lemmas: refusals *)

Definition cnow (c : Client) : time := clock (c_world c) (ticks (c_world c)).
Definition ctick (c : Client) : Client := put_c_world (set_ticks (S (ticks (c_world c))) (c_world c)) c.

Lemma call_bind {A B E} r (f : list rpc -> A) (k : A -> SE Client E B) c :
  (call r f ≫= k) c = k (f (rpcs c ++ [r])) (log_rpc r c).
Proof. reflexivity. Qed.

Lemma client_now_bind {B E} (k : time -> SE Client E B) c : (client_now ≫= k) c = k (cnow c) (ctick c).
Proof. reflexivity. Qed.

Section lemmas.
Context `{Ed25519, peers : Peers}.

(** A command that passes the checklist at an instant. *)
Record admissible (key : option bytes) (cmd : EdgeCommand) (t : time) : Prop := MkAdmissible {
  ad_signed : forall k, key = Some k -> EdgeSign.VerifyCommand (E := SyncReport * syncerr) k cmd = Ok true;
  ad_payload : LedgerPayload cmd <> [] -> Sum256 (LedgerPayload cmd) = c_PayloadDigest cmd;
  ad_grant : ApprovalGrantId cmd <> [] -> exists d, Grant.VerifyCommandGrant key cmd t = Ok d }.

Lemma grant_error_nonempty cmd e : grant_error cmd e <> [].
Proof. by destruct e. Qed.

Lemma VerifiedLedgerPayload_ok cmd p :
  Grant.VerifiedLedgerPayload cmd = Ok p -> Sum256 (LedgerPayload cmd) = c_PayloadDigest cmd.
Proof.
  unfold Grant.VerifiedLedgerPayload. case_bool_decide; [done|]. case_bool_decide; done.
Qed.

Lemma VerifiedLedgerPayload_total cmd : Grant.VerifiedLedgerPayload cmd <> Panic.
Proof. unfold Grant.VerifiedLedgerPayload. by repeat case_bool_decide. Qed.

Lemma signature_refuses_false {E} key cmd :
  signature_refuses (E := E) key cmd = Ok false <->
  forall k, key = Some k -> EdgeSign.VerifyCommand (E := E) k cmd = Ok true.
Proof.
  unfold signature_refuses. destruct key as [k|]; [|naive_solver].
  destruct (EdgeSign.VerifyCommand k cmd) as [[]|e|] eqn:Hv; cbn; split; try done; try naive_solver; intros Hk;
    specialize (Hk k eq_refl); congruence.
Qed.

(** The digest check, when the payload rode along. *)
Lemma payload_check cmd :
  match (if negb (bool_decide (LedgerPayload cmd = [])) then Grant.VerifiedLedgerPayload cmd else Ok []) with
  | Ok _ => LedgerPayload cmd <> [] -> Sum256 (LedgerPayload cmd) = c_PayloadDigest cmd
  | Err e => LedgerPayload cmd <> [] /\ Sum256 (LedgerPayload cmd) <> c_PayloadDigest cmd
  | Panic => False
  end.
Proof.
  unfold Grant.VerifiedLedgerPayload. case_bool_decide as Hl; cbn [negb]; [done|].
  by case_bool_decide as Hd; cbn [negb].
Qed.

(** Verification panics only on a key of the wrong length. *)
Definition cloud_key_ok (key : option bytes) : Prop := forall k, key = Some k -> length k = PublicKeySize.

Lemma Verify_total {E} pub m sig : ed25519_Verify (E := E) pub m sig = Panic -> length pub <> PublicKeySize.
Proof. unfold ed25519_Verify. destruct (Nat.eqb_spec (length pub) PublicKeySize); done. Qed.

Lemma signature_refuses_panic {E} key cmd : signature_refuses (E := E) key cmd = Panic -> ~ cloud_key_ok key.
Proof.
  unfold signature_refuses, EdgeSign.VerifyCommand, verify_nonempty. destruct key as [k|]; [|done].
  intros Hp Hok. destruct (_ =? 0)%nat in Hp; [done|].
  destruct (ed25519_Verify k _ _) eqn:Hv in Hp; [done|done|]. by apply (Verify_total _ _ _ Hv), Hok.
Qed.

Lemma grant_panic key cmd t : Grant.VerifyCommandGrant key cmd t = Panic -> ~ cloud_key_ok key.
Proof.
  unfold Grant.VerifyCommandGrant, Grant.VerifiedLedgerPayload, Grant.signature_refused, Grant.VerifyGrantSignature.
  intros Hp Hok. repeat (case_match; simplify_eq; try done).
  all: match goal with Hv : ed25519_Verify ?k _ _ = Panic |- _ => apply Verify_total in Hv; by apply Hv, Hok end.
Qed.

(** [refuse] moves at most the clock, and lets exactly the admissible pass. *)
Lemma refuse_spec cmd c :
  (snd (refuse cmd c) = c \/ snd (refuse cmd c) = ctick c) /\
  (fst (refuse cmd c) = Ok [] <-> admissible (cloudKey c) cmd (cnow c)) /\
  (forall e, fst (refuse cmd c) <> Err e) /\
  (fst (refuse cmd c) = Panic -> ~ cloud_key_ok (cloudKey c)).
Proof.
  unfold refuse. rewrite gets_bind, of_res_bind.
  pose proof (signature_refuses_false (E := SyncReport * syncerr) (cloudKey c) cmd) as Hsig.
  destruct (signature_refuses (cloudKey c) cmd) as [bad|e|] eqn:Hs.
  2:{ exfalso. unfold signature_refuses, EdgeSign.VerifyCommand, verify_nonempty, ed25519_Verify in Hs.
      repeat case_match; simplify_eq. }
  2:{ split_and!; [by left| |done|]; [|by intros _; eapply signature_refuses_panic].
      split; [done|]. intros [Ha _ _]. by apply Hsig in Ha. }
  destruct bad.
  { split_and!; [by left| |done|done]. split; [done|]. intros [Ha _ _]. by apply Hsig in Ha. }
  apply proj1 in Hsig. specialize (Hsig eq_refl). pose proof (payload_check cmd) as Hp.
  destruct (if negb _ then _ else _) as [p|e|]; [| |done].
  2:{ split_and!; [by left| |done|done]. cbn. split; [intros [=Hn]; by apply grant_error_nonempty in Hn|].
      intros [_ Ha _]. destruct Hp as [Hl Hd]. by destruct (Hd (Ha Hl)). }
  case_bool_decide as Hg; cbn [negb].
  { split_and!; [by left| |done|done]. split; [|done]. intros _. split; [done|done|]. by intros ?. }
  rewrite client_now_bind. destruct (Grant.VerifyCommandGrant (cloudKey c) cmd (cnow c)) as [d|e|] eqn:Hv; cbn.
  - split_and!; [by right| |done|done]. split; [|done]. intros _. split; [done|done|]. eauto.
  - split_and!; [by right| |done|done]. split; [done|]. intros [_ _ Ha]. destruct (Ha Hg) as [d Hd]. congruence.
  - split_and!; [by right| |done|by intros _; eapply grant_panic].
    split; [done|]. intros [_ _ Ha]. destruct (Ha Hg) as [d Hd]. congruence.
Qed.

(** ** Lemmas: events *)

(** An event made for a command: numbered, digested, and signed when the client
    has a key. *)
Record event_for (key : option bytes) (cmd : EdgeCommand) (type : bytes) (n : Z) (ev : EdgeEvent) : Prop :=
  MkEventFor {
  ef_type : Type_ ev = type;
  ef_command : e_CommandId ev = c_CommandId cmd;
  ef_device : e_DeviceId ev = c_DeviceId cmd;
  ef_seq : DeviceSequence ev = n;
  ef_digest : exists p, e_Payload ev = Some p /\ e_PayloadDigest ev = Sum256 (Value p);
  ef_signed : forall k, key = Some k -> DeviceSignature ev = ed_sign k (EdgeSign.eventBytes ev) }.

(** What a step of the pass leaves alone. *)
Record same_client (c c' : Client) : Prop := MkSame {
  sc_key : Key c' = Key c; sc_cloud : cloudKey c' = cloudKey c;
  sc_clock : clock (c_world c') = clock (c_world c) }.

#[global] Instance same_client_pre : PreOrder same_client.
Proof.
  split; [by split|]. intros c c' c'' [] []. split; congruence.
Qed.

Lemma eventBytes_unsigned ev sig : EdgeSign.eventBytes (set_DeviceSignature sig ev) = EdgeSign.eventBytes ev.
Proof. by destruct ev. Qed.

Lemma sign_event_spec {E} cmd id type n t p c :
  match sign_event (E := E) (event_of cmd id n type t p) c with
  | (Ok ev, c') => c' = c /\ event_for (Key c) cmd type n ev /\ EventId ev = id /\ e_Payload ev = Some p
  | (Err _, _) => False
  | (Panic, c') => c' = c /\ exists k, Key c = Some k /\ length k <> PrivateKeySize
  end.
Proof.
  unfold sign_event. rewrite gets_bind. destruct (Key c) as [k|] eqn:Hk; cbn.
  - unfold of_res, EdgeSign.SignEvent, ed25519_Sign.
    destruct (Nat.eqb_spec (length k) PrivateKeySize) as [Hl|Hl].
    + split_and!; [done| |done|done]. split; try done; [by exists p|].
      intros k' [= <-]. by rewrite eventBytes_unsigned.
    + eauto.
  - split_and!; [done| |done|done]. split; try done. by exists p.
Qed.

(** The log of requests and of executions, extended. *)
Definition extends (c c' : Client) (qs : list rpc) (rs : list run_record) : Prop :=
  same_client c c' /\ rpcs c' = rpcs c ++ qs /\ runs c' = runs c ++ rs.

Lemma extends_refl c : extends c c [] [].
Proof. split_and!; [done|by rewrite app_nil_r..]. Qed.

Lemma extends_tick c : extends c (ctick c) [] [].
Proof. split_and!; [done|by rewrite app_nil_r..]. Qed.

Lemma extends_trans c c1 c2 q1 q2 r1 r2 :
  extends c c1 q1 r1 -> extends c1 c2 q2 r2 -> extends c c2 (q1 ++ q2) (r1 ++ r2).
Proof.
  intros (? & Hq & Hr) (? & Hq' & Hr'). split_and!; [by etrans|by rewrite Hq', Hq, app_assoc|by rewrite Hr', Hr, app_assoc].
Qed.

Lemma extends_quiet c c1 c2 q r : extends c c1 [] [] -> extends c1 c2 q r -> extends c c2 q r.
Proof. intros He He'. exact (extends_trans _ _ _ _ _ _ _ He He'). Qed.

(** The receipt of a command, and one agent fact. *)
Definition result_of (key : option bytes) (cmd : EdgeCommand) (n : Z) (status json : bytes) (ev : EdgeEvent) : Prop :=
  event_for key cmd EventTypeCommandResult n ev /\ status <> [] /\
  EventId ev = result_id (c_CommandId cmd) status /\
  e_Payload ev = anypb_result (MkCommandResult (c_CommandId cmd) status json).
Definition agent_of (key : option bytes) (cmd : EdgeCommand) (n : Z) (i : nat) (upd : AgentUpdate) (ev : EdgeEvent)
    : Prop :=
  event_for key cmd EventTypeAgentEvent n ev /\ up_SessionID upd <> [] /\ up_Kind upd <> [] /\
  EventId ev = agent_id (c_CommandId cmd) i (up_Kind upd) /\
  e_Payload ev = anypb_agent (MkAgentEvent (up_SessionID upd) (up_Kind upd) (up_Summary upd) (up_DataJSON upd)).

Definition key_ok (c : Client) : Prop := forall k, Key c = Some k -> length k = PrivateKeySize.

(** Updates and statuses the events accept; peers none of whose answers stops a
    pass. *)
Definition good_update (u : AgentUpdate) : Prop := up_SessionID u <> [] /\ up_Kind u <> [].
Record healthy : Prop := MkHealthy {
  hp_sync : forall l, exists s, cloud_SyncEdge l = Ok s;
  hp_ack : forall l, cloud_AckCommand l = None;
  hp_submit : forall l, exists r, cloud_SubmitEvents l = Ok r;
  hp_execute : forall past cmd, fst (Execute past cmd) <> [];
  hp_agent : forall f past cmd st js, Agent = Some f -> Forall good_update (f past cmd st js);
  hp_result : forall r, anypb_result r <> None;
  hp_any : forall a, anypb_agent a <> None }.

(** How a step of the pass may fail to deliver: an error, which takes a peer
    that is not healthy or an input that is not [P], or a panic, which takes a
    key of the wrong length. *)
Definition stops {A} (P : Prop) (report : SyncReport) (c : Client) (r : res (SyncReport * syncerr) A) : Prop :=
  (exists e, r = Err (report, e)) /\ ~ (P /\ healthy) \/
  r = Panic /\ ~ (key_ok c /\ cloud_key_ok (cloudKey c)).

Lemma stops_eq {A} (P Q : Prop) report c c' (r : res (SyncReport * syncerr) A) :
  same_client c c' -> (healthy -> Q -> P) -> stops P report c' r -> stops Q report c r.
Proof. unfold stops, key_ok. intros [-> -> _]. naive_solver. Qed.

Lemma result_step {B} report cmd n status json (k : EdgeEvent -> SE Client (SyncReport * syncerr) B) c r c' :
  (ev ← map_err (fun e => (report, EEvent (c_CommandId cmd) e)) (resultEvent cmd n status json);
   ev ← sign_event ev; k ev) c = (r, c') ->
  (exists ev c1, extends c c1 [] [] /\ result_of (Key c) cmd n status json ev /\ k ev c1 = (r, c')) \/
  (extends c c' [] [] /\ stops (status <> []) report c r).
Proof.
  rewrite bind_eq. unfold map_err, resultEvent. case_bool_decide as Hs; cbn [throw].
  { cbn. intros [= <- <-]. right. split; [apply extends_refl|]. left. naive_solver. }
  rewrite of_res_bind. destruct (anypb_result _) as [p|] eqn:Hp; cbn [of_option].
  2:{ cbn. intros [= <- <-]. right. split; [apply extends_refl|]. left. split; [eauto|].
      intros [_ Hh]. by apply (hp_result Hh) in Hp. }
  rewrite client_now_bind, mret_eq. cbn [res_map_err]. rewrite bind_eq.
  pose proof (sign_event_spec (E := SyncReport * syncerr) cmd (result_id (c_CommandId cmd) status)
    EventTypeCommandResult n (cnow c) p (ctick c)) as Hsig.
  destruct (sign_event _ _) as [[ev|e|] c1]; [|done|].
  - destruct Hsig as (-> & Hev & Hid & Hpay). intros Hk. left. exists ev, (ctick c).
    split_and!; [apply extends_tick|split_and!; congruence || done|done].
  - destruct Hsig as (-> & key & Hkey & Hlen). intros [= <- <-]. right. split; [apply extends_tick|].
    right. split; [done|]. intros [Hok _]. by apply Hlen, Hok.
Qed.

Lemma agent_step {B} report cmd n i upd (k : EdgeEvent -> SE Client (SyncReport * syncerr) B) c r c' :
  (ev ← map_err (fun e => (report, EAgentEvent (c_CommandId cmd) e)) (agentEvent cmd n i upd);
   ev ← sign_event ev; k ev) c = (r, c') ->
  (exists ev c1, extends c c1 [] [] /\ agent_of (Key c) cmd n i upd ev /\ k ev c1 = (r, c')) \/
  (extends c c' [] [] /\ stops (good_update upd) report c r).
Proof.
  rewrite bind_eq. unfold map_err, agentEvent. destruct (_ || _) eqn:Hs; cbn [throw].
  { cbn. intros [= <- <-]. right. split; [apply extends_refl|]. left. split; [eauto|].
    intros [[Hs1 Hs2] _]. by apply orb_true_iff in Hs as [?%bool_decide_eq_true_1|?%bool_decide_eq_true_1]. }
  apply orb_false_iff in Hs as [Hs1%bool_decide_eq_false_1 Hs2%bool_decide_eq_false_1].
  rewrite of_res_bind. destruct (anypb_agent _) as [p|] eqn:Hp; cbn [of_option].
  2:{ cbn. intros [= <- <-]. right. split; [apply extends_refl|]. left. split; [eauto|].
      intros [_ Hh]. by apply (hp_any Hh) in Hp. }
  rewrite client_now_bind, mret_eq. cbn [res_map_err]. rewrite bind_eq.
  pose proof (sign_event_spec (E := SyncReport * syncerr) cmd (agent_id (c_CommandId cmd) i (up_Kind upd))
    EventTypeAgentEvent n (cnow c) p (ctick c)) as Hsig.
  destruct (sign_event _ _) as [[ev|e|] c1]; [|done|].
  - destruct Hsig as (-> & Hev & Hid & Hpay). intros Hk. left. exists ev, (ctick c).
    split_and!; [apply extends_tick|split_and!; congruence || done|done].
  - destruct Hsig as (-> & key & Hkey & Hlen). intros [= <- <-]. right. split; [apply extends_tick|].
    right. split; [done|]. intros [Hok _]. by apply Hlen, Hok.
Qed.

(** ** Lemmas: one pass *)

(** The numbers the counter takes, and where it stops. *)
Fixpoint numbered (seq : Z) (n : nat) : list Z :=
  match n with O => [] | S n' => w64 (seq + 1) :: numbered (w64 (seq + 1)) n' end.
Fixpoint advance (seq : Z) (n : nat) : Z :=
  match n with O => seq | S n' => advance (w64 (seq + 1)) n' end.

Inductive agents_of (key : option bytes) (cmd : EdgeCommand) : Z -> nat -> list AgentUpdate -> list EdgeEvent -> Prop :=
| agents_nil seq i : agents_of key cmd seq i [] []
| agents_cons seq i upd upds ev evs :
    agent_of key cmd (w64 (seq + 1)) i upd ev -> agents_of key cmd (w64 (seq + 1)) (S i) upds evs ->
    agents_of key cmd seq i (upd :: upds) (ev :: evs).

Lemma agents_of_length key cmd seq i upds evs : agents_of key cmd seq i upds evs -> length evs = length upds.
Proof. induction 1; cbn; congruence. Qed.

Lemma agent_events_spec report cmd seq i upds events c r c' :
  agent_events report cmd seq i upds events c = (r, c') ->
  extends c c' [] [] /\
  ((exists evs, r = Ok (advance seq (length upds), events ++ evs) /\ agents_of (Key c) cmd seq i upds evs) \/
   stops (Forall good_update upds) report c r).
Proof.
  revert seq i events c. induction upds as [|upd upds IH]; intros seq i events c; cbn [agent_events].
  { rewrite mret_eq. intros [= <- <-]. split; [apply extends_refl|]. left. exists [].
    rewrite app_nil_r. split; [done|constructor]. }
  intros [(ev & c1 & He & Hev & Hk)|[He Hs]]%agent_step.
  2:{ split; [done|right]. eapply stops_eq; [done|intros _; apply Forall_inv|exact Hs]. }
  apply IH in Hk as [He' Hr]. split; [by eapply extends_quiet|].
  destruct He as (Hsame & _). pose proof (sc_key _ _ Hsame) as Hkey. destruct Hr as [(evs & -> & Ha)|Hst].
  - left. exists (ev :: evs). rewrite Hkey in Ha. rewrite <- app_assoc. split; [done|by constructor].
  - right. eapply stops_eq; [done|intros _; apply Forall_inv_tail|exact Hst].
Qed.

(** What became of a command: refused, or admissible and executed. *)
Definition outcome (c : Client) (cmd : EdgeCommand) (status json : bytes) (ran : list run_record) : Prop :=
  exists i, let t := clock (c_world c) i in
  (ran = [] /\ status = str "rejected" /\ ~ admissible (cloudKey c) cmd t) \/
  (ran = [MkRun cmd status json] /\ admissible (cloudKey c) cmd t /\ Execute (runs c) cmd = (status, json)).

Definition handled (c : Client) (cmd : EdgeCommand) (seq : Z) (ran : list run_record) (evs : list EdgeEvent) : Prop :=
  exists status json ev upds aevs,
    evs = ev :: aevs /\ outcome c cmd status json ran /\
    result_of (Key c) cmd (w64 (seq + 1)) status json ev /\
    agents_of (Key c) cmd (w64 (seq + 1)) 0 upds aevs /\
    upds = match Agent with None => [] | Some f => f (runs c ++ ran) cmd status json end.

(** Executions happen only to admissible commands, on every path. *)
Definition ran_ok (c : Client) (cmd : EdgeCommand) (ran : list run_record) : Prop :=
  ran = [] \/ exists i status json, ran = [MkRun cmd status json] /\
                admissible (cloudKey c) cmd (clock (c_world c) i).

Lemma outcome_ran c cmd status json ran : outcome c cmd status json ran -> ran_ok c cmd ran.
Proof. intros (i & [(-> & _)|(-> & ? & _)]); [by left|right]. eauto. Qed.

Lemma outcome_status c cmd status json ran : healthy -> outcome c cmd status json ran -> status <> [].
Proof.
  intros Hh (i & [(_ & -> & _)|(_ & _ & Hx)]); [done|]. pose proof (hp_execute Hh (runs c) cmd) as Hs. by rewrite Hx in Hs.
Qed.

(** The command's outcome: [refuse], then [Execute] or the rejection. *)
Lemma outcome_step {B} cmd (k : bytes * bytes -> SE Client (SyncReport * syncerr) B) c r c' :
  (reason ← refuse cmd;
   p ← (if negb (bool_decide (reason = [])) then mret (str "rejected", reason_json reason)
        else execute_command cmd); k p) c = (r, c') ->
  (r = Panic /\ ~ cloud_key_ok (cloudKey c) /\ extends c c' [] []) \/
  exists status json ran c1, extends c c1 [] ran /\ outcome c cmd status json ran /\ k (status, json) c1 = (r, c').
Proof.
  rewrite bind_eq. destruct (refuse_spec cmd c) as (Hc & Hiff & Herr & Hpan).
  destruct (refuse cmd c) as [[reason|e|] c0]; cbn [fst snd] in *; [|by destruct (Herr e)|].
  2:{ intros [= <- <-]. left. split_and!; [done|by apply Hpan|].
      destruct Hc as [->| ->]; [apply extends_refl|apply extends_tick]. }
  assert (extends c c0 [] []) as He by (destruct Hc as [->| ->]; [apply extends_refl|apply extends_tick]).
  case_bool_decide as Hn; cbn [negb]; intros Hk; right.
  - subst reason. unfold execute_command in Hk. rewrite bind_eq, gets_bind in Hk.
    destruct (Execute (runs c0) cmd) as [status json] eqn:Hx. rewrite modify_bind, mret_eq in Hk.
    exists status, json, [MkRun cmd status json], (log_run (MkRun cmd status json) c0). split_and!; [| |done].
    + eapply extends_quiet; [exact He|]. split_and!; [done|by rewrite app_nil_r|done].
    + exists (ticks (c_world c)). right. destruct He as (_ & _ & Hru). rewrite app_nil_r in Hru.
      split_and!; [done|by apply Hiff|by rewrite <- Hru].
  - rewrite mret_bind in Hk. exists (str "rejected"), (reason_json reason), [], c0. split_and!; [done| |done].
    exists (ticks (c_world c)). left. split_and!; [done..|]. rewrite <- Hiff. congruence.
Qed.

Lemma sync_command_spec report cmd seq events c r c' :
  sync_command report cmd seq events c = (r, c') ->
  exists ran, extends c c' [CAck (c_CommandId cmd)] ran /\ ran_ok c cmd ran /\
  ((exists evs, r = Ok (advance seq (length evs), events ++ evs) /\ handled c cmd seq ran evs) \/
   stops True report c r).
Proof.
  unfold sync_command. rewrite call_bind, of_res_bind. set (c0 := log_rpc _ c).
  assert (extends c c0 [CAck (c_CommandId cmd)] []) as Hack by (split_and!; [done|done|by rewrite app_nil_r]).
  destruct (cloud_AckCommand _) as [code|] eqn:Hc.
  { intros [= <- <-]. exists []. split_and!; [done|by left|]. right. left. split; [eauto|].
    intros [_ Hh]. by rewrite (hp_ack Hh) in Hc. }
  intros [(-> & Hck & He)|(status & json & ran & c1 & He & Ho & Hk)]%outcome_step.
  { exists []. split_and!; [exact (extends_trans _ _ _ _ _ _ _ Hack He)|by left|]. right. right. split; [done|].
    intros [_ ?]. by apply Hck. }
  assert (extends c c1 [CAck (c_CommandId cmd)] ran) as H1' by exact (extends_trans _ _ _ _ _ _ _ Hack He).
  assert (outcome c cmd status json ran) as Ho' by exact Ho.
  assert (same_client c c1) as Hsame by apply H1'. pose proof (sc_key _ _ Hsame) as Hkey.
  exists ran. apply result_step in Hk as [(ev & c2 & He2 & Hev & Hk)|[He2 Hst]].
  2:{ split_and!; [|by eapply outcome_ran|].
      - pose proof (extends_trans _ _ _ _ _ _ _ H1' He2) as Ht. by rewrite !app_nil_r in Ht.
      - right. eapply stops_eq; [exact Hsame| |exact Hst]. intros Hh _. by apply (outcome_status c cmd status json ran). }
  pose proof (extends_trans _ _ _ _ _ _ _ H1' He2) as H2'. rewrite !app_nil_r in H2'.
  rewrite Hkey in Hev. assert (same_client c c2) as Hsame2 by apply H2'.
  destruct Agent as [f|] eqn:Hag.
  - rewrite gets_bind in Hk. apply agent_events_spec in Hk as [He3 Hk].
    pose proof (extends_trans _ _ _ _ _ _ _ H2' He3) as H3'. rewrite !app_nil_r in H3'.
    split_and!; [done|by eapply outcome_ran|]. destruct Hk as [(evs & -> & Ha)|Hst].
    + left. exists (ev :: evs). rewrite <- app_assoc. rewrite (sc_key _ _ Hsame2) in Ha. split.
      * cbn [length advance]. by rewrite (agents_of_length _ _ _ _ _ _ Ha).
      * exists status, json, ev, (f (runs c2) cmd status json), evs. split_and!; try done.
        rewrite Hag. destruct H2' as (_ & _ & ->). done.
    + right. eapply stops_eq; [exact Hsame2| |exact Hst]. intros Hh _. by apply (hp_agent Hh).
  - rewrite mret_eq in Hk. injection Hk as <- <-. split_and!; [done|by eapply outcome_ran|]. left. exists [ev].
    split; [done|]. exists status, json, ev, [], []. split_and!; try done; [constructor|by rewrite Hag].
Qed.

(** All commands of a pass, in order: each starts from where the previous left
    the client and the counter. *)
Inductive all_handled : Client -> list EdgeCommand -> Z -> list run_record -> list (list EdgeEvent) -> Prop :=
| handled_nil c seq : all_handled c [] seq [] []
| handled_cons c c1 cmd cmds seq ran rans evs evss :
    handled c cmd seq ran evs -> extends c c1 [CAck (c_CommandId cmd)] ran ->
    all_handled c1 cmds (advance seq (length evs)) rans evss ->
    all_handled c (cmd :: cmds) seq (ran ++ rans) (evs :: evss).

(** Every execution of a pass was of an offered, admissible command. *)
Definition rans_ok (c : Client) (cmds : list EdgeCommand) (rans : list run_record) : Prop :=
  Forall (fun r => rn_cmd r ∈ cmds /\ exists i, admissible (cloudKey c) (rn_cmd r) (clock (c_world c) i)) rans.

Lemma ran_rans c cmd cmds ran : cmd ∈ cmds -> ran_ok c cmd ran -> rans_ok c cmds ran.
Proof.
  intros Hin [->|(i & status & json & -> & Ha)]; [constructor|]. apply List.Forall_cons; [|constructor].
  split; [done|]. by exists i.
Qed.

Lemma rans_ok_same c c1 cmds rans : same_client c c1 -> rans_ok c1 cmds rans -> rans_ok c cmds rans.
Proof. unfold rans_ok. by intros [_ -> ->]. Qed.

Lemma sync_commands_spec report cmds seq events c r c' :
  sync_commands report cmds seq events c = (r, c') ->
  exists acks rans, extends c c' (map CAck acks) rans /\ acks `prefix_of` map c_CommandId cmds /\ rans_ok c cmds rans /\
  ((exists evss, r = Ok (events ++ concat evss) /\ acks = map c_CommandId cmds /\ all_handled c cmds seq rans evss) \/
   stops True report c r).
Proof.
  revert seq events c. induction cmds as [|cmd cmds IH]; intros seq events c; cbn [sync_commands].
  { rewrite mret_eq. intros [= <- <-]. exists [], []. split_and!; [apply extends_refl|done|constructor|]. left.
    exists []. rewrite app_nil_r. split_and!; [done|done|constructor]. }
  rewrite bind_eq. destruct (sync_command report cmd seq events c) as [r1 c1] eqn:E.
  apply sync_command_spec in E as (ran & He & Hran & Hr).
  assert (same_client c c1) as Hsame by apply He.
  apply (ran_rans c cmd (cmd :: cmds)) in Hran; [|by left].
  destruct Hr as [(evs & -> & Hh)|Hst].
  2:{ intros Hk. exists [c_CommandId cmd], ran.
      assert (stops True report c r /\ c' = c1) as [Hs ->].
      { destruct Hst as [[[e ->] Hn]|[-> Hn]]; injection Hk as <- <-; (split; [|done]); [left; eauto|by right]. }
      split_and!; [done|by eexists|done|by right]. }
  intros Hk. apply IH in Hk as (acks & rans & He' & Hp & Hrans & Hk).
  exists (c_CommandId cmd :: acks), (ran ++ rans). split_and!.
  - exact (extends_trans _ _ _ _ _ _ _ He He').
  - destruct Hp as [k Hp]. exists k. cbn. by rewrite Hp.
  - apply Forall_app. split; [done|]. apply (rans_ok_same _ _ _ _ Hsame) in Hrans.
    eapply Forall_impl; [|exact Hrans]. intros x [? ?]. split; [by right|done].
  - destruct Hk as [(evss & -> & -> & Ha)|Hst]; [left|right; by eapply stops_eq; [exact Hsame| |exact Hst]].
    exists (evs :: evss). cbn [concat]. rewrite app_assoc. split_and!; [done|done|by econstructor].
Qed.

Lemma length_numbered seq n : length (numbered seq n) = n.
Proof. revert seq. induction n; intros; cbn; congruence. Qed.

Lemma numbered_app seq n m : numbered seq (n + m) = numbered seq n ++ numbered (advance seq n) m.
Proof. revert seq. induction n as [|n IH]; intros seq; cbn; [done|]. by rewrite IH. Qed.

Lemma numbered_seqZ seq n : 0 <= seq -> seq + Z.of_nat n < 2 ^ 64 -> numbered seq n = seqZ (seq + 1) (Z.of_nat n).
Proof.
  revert seq. induction n as [|n IH]; intros seq Hs Hn; [done|]. cbn [numbered].
  rewrite w64_id by lia. rewrite IH by lia. rewrite (seqZ_cons (seq + 1)) by lia.
  unfold Z.succ, Z.pred. f_equal. f_equal; lia.
Qed.

Lemma agents_of_numbers key cmd seq i upds evs :
  agents_of key cmd seq i upds evs ->
  map DeviceSequence evs = numbered seq (length evs) /\
  Forall (fun ev => exists n j upd, agent_of key cmd n j upd ev) evs.
Proof.
  induction 1 as [|seq i upd upds ev evs Ha _ [IH IH']]; cbn; [done|]. rewrite IH, (ef_seq _ _ _ _ _ (proj1 Ha)).
  split; [done|]. apply List.Forall_cons; [by exists (w64 (seq + 1)), i, upd|done].
Qed.

(** A command's events: its receipt, then facts about agents. *)
Definition events_of (key : option bytes) (cmd : EdgeCommand) (evs : list EdgeEvent) : Prop :=
  exists ev aevs n status json, evs = ev :: aevs /\ result_of key cmd n status json ev /\
    Forall (fun a => exists n i upd, agent_of key cmd n i upd a) aevs.

Lemma all_handled_spec c cmds seq rans evss :
  all_handled c cmds seq rans evss ->
  map DeviceSequence (concat evss) = numbered seq (length (concat evss)) /\
  Forall2 (events_of (Key c)) cmds evss.
Proof.
  induction 1 as [|c c1 cmd cmds seq ran rans evs evss Hh He _ [IH IH']]; [by split; constructor|].
  destruct Hh as (status & json & ev & upds & aevs & -> & _ & Hr & Ha & _).
  destruct (agents_of_numbers _ _ _ _ _ _ Ha) as [Hn Hall]. split.
  - cbn [concat]. rewrite map_app, length_app, numbered_app, IH. f_equal.
    cbn [map length numbered]. by rewrite Hn, (ef_seq _ _ _ _ _ (proj1 Hr)).
  - constructor; [|by rewrite <- (sc_key _ _ (proj1 He))]. exists ev, aevs, (w64 (seq + 1)), status, json. by split_and!.
Qed.

Lemma events_concat_nil key cmds evss : Forall2 (events_of key) cmds evss -> concat evss = [] <-> cmds = [].
Proof.
  intros Hf. destruct Hf as [|cmd evs cmds evss (ev & aevs & n & st & js & -> & _) _]; [done|].
  by split.
Qed.

(** [SyncOnce] up to the submission. *)
Definition sync_report (sync : SyncEdgeResponse) : SyncReport :=
  MkReport (Z.of_nat (length (Commands sync))) 0 (sy_AckedDeviceSequence sync) (PollIntervalSeconds sync) [].

Lemma SyncOnce_eq c :
  SyncOnce c =
  let c0 := log_rpc (CSync EdgeProtocolVersion) c in
  match cloud_SyncEdge (rpcs c0) with
  | Err e => (Err (zeroReport, ESync e), c0)
  | Panic => (Panic, c0)
  | Ok sync =>
    match sync_commands (sync_report sync) (Commands sync) (sy_AckedDeviceSequence sync) [] c0 with
    | (Ok [], c1) => (Ok (sync_report sync), c1)
    | (Ok events, c1) =>
      let c2 := log_rpc (CSubmit events) c1 in
      match cloud_SubmitEvents (rpcs c2) with
      | Ok r => (Ok (MkReport (rp_Commands (sync_report sync)) (Z.of_nat (length events))
                       (sb_AckedDeviceSequence r) (PollIntervalSeconds sync) (map rejection_text (sb_Rejections r))), c2)
      | Err e => (Err (sync_report sync, ESubmit e), c2)
      | Panic => (Panic, c2)
      end
    | (Err e, c1) => (Err e, c1)
    | (Panic, c1) => (Panic, c1)
    end
  end.
Proof.
  unfold SyncOnce. rewrite call_bind, of_res_bind. cbv zeta. cbn [rpcs log_rpc].
  destruct (cloud_SyncEdge _) as [sync|e|]; cbn [res_map_err]; [|done..]. rewrite bind_eq.
  fold (sync_report sync). destruct (sync_commands _ _ _ _ _) as [[[|ev events]|e|] c1]; [done| |done..].
  rewrite call_bind, of_res_bind. cbn [rpcs log_rpc]. by destruct (cloud_SubmitEvents _).
Qed.

(** A command that passes the checklist all along is executed and reported. *)
Definition ran_and_reported (key : option bytes) (cmd : EdgeCommand) (rans : list run_record) (evs : list EdgeEvent)
    : Prop :=
  exists status json n ev, MkRun cmd status json ∈ rans /\ ev ∈ evs /\ result_of key cmd n status json ev.
Definition always_admissible (c : Client) (cmd : EdgeCommand) : Prop :=
  forall i, admissible (cloudKey c) cmd (clock (c_world c) i).

Lemma handled_runs c cmd seq ran evs :
  handled c cmd seq ran evs -> always_admissible c cmd -> ran_and_reported (Key c) cmd ran evs.
Proof.
  intros (status & json & ev & upds & aevs & -> & (i & [(_ & _ & Hn)|(-> & _)]) & Hr & _) Ha; [by destruct Hn|].
  exists status, json, (w64 (seq + 1)), ev. split_and!; [by left|by left|done].
Qed.

Lemma all_handled_runs c cmds seq rans evss cmd :
  all_handled c cmds seq rans evss -> cmd ∈ cmds -> always_admissible c cmd ->
  ran_and_reported (Key c) cmd rans (concat evss).
Proof.
  intros Hall Hin. induction Hall as [|c c1 cmd' cmds seq ran rans evs evss Hh [[Hk Hc Ht] _] _ IH]; intros Ha; [by apply elem_of_nil in Hin|].
  apply elem_of_cons in Hin as [->|Hin].
  - destruct (handled_runs _ _ _ _ _ Hh Ha) as (st & js & n & ev & ? & ? & ?). exists st, js, n, ev.
    cbn [concat]. by rewrite !elem_of_app; auto.
  - destruct (IH Hin) as (st & js & n & ev & ? & ? & ?).
    { intros i. rewrite Hc, Ht. apply Ha. }
    rewrite Hk in *. exists st, js, n, ev. cbn [concat]. by rewrite !elem_of_app; auto.
Qed.

(** With healthy peers and keys a pass completes. *)
Lemma SyncOnce_completes c :
  healthy -> key_ok c -> cloud_key_ok (cloudKey c) ->
  exists s r c' rans evss,
    cloud_SyncEdge (rpcs c ++ [CSync EdgeProtocolVersion]) = Ok s /\ SyncOnce c = (Ok r, c') /\
    runs c' = runs c ++ rans /\ all_handled (log_rpc (CSync EdgeProtocolVersion) c) (Commands s)
      (sy_AckedDeviceSequence s) rans evss /\
    (Commands s <> [] -> exists qs, rpcs c' = qs ++ [CSubmit (concat evss)]).
Proof.
  intros Hh Hk Hck. rewrite SyncOnce_eq. cbv zeta. set (c0 := log_rpc _ c).
  destruct (hp_sync Hh (rpcs c0)) as [s Hs]. rewrite Hs. exists s.
  destruct (sync_commands _ _ _ _ c0) as [r c1] eqn:E.
  apply sync_commands_spec in E as (acks & rans & (_ & _ & Hru) & _ & _ & [(evss & -> & _ & Ha)|[[_ Hn]|[_ Hn]]]);
    [|by destruct Hn|by destruct Hn].
  cbn [app]. pose proof (events_concat_nil _ _ _ (proj2 (all_handled_spec _ _ _ _ _ Ha))) as Hnil.
  destruct (concat evss) as [|ev events] eqn:Hev.
  - exists (sync_report s), c1, rans, evss. split_and!; [done..|]. intros Hne. by destruct (Hne (proj1 Hnil eq_refl)).
  - destruct (hp_submit Hh (rpcs (log_rpc (CSubmit (ev :: events)) c1))) as [x Hx]. rewrite Hx. eexists _, _, rans, evss.
    split_and!; [done..|]. intros _. rewrite Hev. by eexists.
Qed.

End lemmas.

(** ** Properties *)

Section properties.
Context `{Ed25519, peers : Peers}.

(** The cloud's calls return. *)
Definition cloud_returns : Prop :=
  (forall l, cloud_SyncEdge l <> Panic) /\ (forall l, cloud_SubmitEvents l <> Panic).

(** What one executed command had going for it. *)
Definition verified (c : Client) (cmd : EdgeCommand) : Prop :=
  (forall k, cloudKey c = Some k -> ed_verify k (EdgeSign.commandBytes cmd) (CloudSignature cmd) = true) /\
  (LedgerPayload cmd <> [] -> Sum256 (LedgerPayload cmd) = c_PayloadDigest cmd) /\
  (ApprovalGrantId cmd <> [] ->
   exists i d, Grant.VerifyCommandGrant (cloudKey c) cmd (clock (c_world c) i) = Ok d).

Lemma admissible_verified c cmd i : admissible (cloudKey c) cmd (clock (c_world c) i) -> verified c cmd.
Proof.
  intros [Hs Hp Hg]. split_and!; [|done|].
  - intros k Hk. apply Hs in Hk. by apply verify_nonempty_true in Hk.
  - intros Hn. destruct (Hg Hn) as [d Hd]. eauto.
Qed.

(** C10: nothing is executed without authority. Whatever a pass ends with, each
    command it handed to the executor was offered in this pass and, when the
    cloud's key is known, carries the cloud's signature over exactly its
    fields; a ledger payload it carries hashes to the digest it names; and a
    grant it names passed the whole checklist at a reading of the clock. With
    keys of the right lengths and a cloud that answers, a pass never panics. *)
Theorem SyncOnce_executes_verified c :
  let '(r, c') := SyncOnce c in
  (exists rans, runs c' = runs c ++ rans /\
   Forall (fun x => verified c (rn_cmd x) /\
     exists s, cloud_SyncEdge (rpcs c ++ [CSync EdgeProtocolVersion]) = Ok s /\ rn_cmd x ∈ Commands s) rans) /\
  (key_ok c -> cloud_key_ok (cloudKey c) -> cloud_returns -> r <> Panic).
Proof.
  rewrite SyncOnce_eq. cbv zeta. set (c0 := log_rpc _ c). cbn [rpcs log_rpc c0].
  destruct (cloud_SyncEdge _) as [s|e|] eqn:Hs.
  2:{ split; [exists []; by rewrite app_nil_r|done]. }
  2:{ split; [exists []; by rewrite app_nil_r|]. intros _ _ [Hc _] _. by apply Hc in Hs. }
  destruct (sync_commands _ _ _ _ c0) as [r c1] eqn:E.
  apply sync_commands_spec in E as (acks & rans & (_ & _ & Hru) & _ & Hrans & Hr).
  assert (exists rans, runs c1 = runs c ++ rans /\
    Forall (fun x => verified c (rn_cmd x) /\ exists s', Ok s = Ok (E := concode) s' /\ rn_cmd x ∈ Commands s') rans) as Hdone.
  { exists rans. split; [done|]. eapply Forall_impl; [|exact Hrans]. intros x (Hin & i & Ha).
    split; [by apply (admissible_verified c _ i)|eauto]. }
  destruct Hr as [(evss & -> & _)|[[[e ->] _]|[-> Hn]]].
  - destruct ([] ++ concat evss) as [|ev events]; [by split|].
    destruct (cloud_SubmitEvents _) as [x|e|] eqn:Hsub; (split; [exact Hdone|done || intros _ _ [_ Hc] _; by apply Hc in Hsub]).
  - by split.
  - split; [exact Hdone|]. intros Hk Hck _. by destruct Hn.
Qed.

(** C24: a completed pass reports everything, once, in order. The requests are
    one sync, one ack per offered command in the order offered, and one
    submission when any command was offered; the submission carries for each
    command its receipt and then its agent facts; the device sequences are
    consecutive from the acknowledged cursor on (below its wrap); and every
    event names its command and device, carries the digest of its payload and,
    when the client has a key, a signature over exactly its fields. *)
Theorem SyncOnce_reports c r c' s :
  SyncOnce c = (Ok r, c') -> cloud_SyncEdge (rpcs c ++ [CSync EdgeProtocolVersion]) = Ok s ->
  exists evss,
    rpcs c' = rpcs c ++ CSync EdgeProtocolVersion :: map (fun cmd => CAck (c_CommandId cmd)) (Commands s) ++
                (if bool_decide (Commands s = []) then [] else [CSubmit (concat evss)]) /\
    Forall2 (events_of (Key c)) (Commands s) evss /\
    Reported r = Z.of_nat (length (concat evss)) /\
    (0 <= sy_AckedDeviceSequence s -> sy_AckedDeviceSequence s + Reported r < 2 ^ 64 ->
     map DeviceSequence (concat evss) = seqZ (sy_AckedDeviceSequence s + 1) (Reported r)).
Proof.
  rewrite SyncOnce_eq. cbv zeta. set (c0 := log_rpc _ c). cbn [rpcs log_rpc c0]. intros Hrun Hs.
  rewrite Hs in Hrun. destruct (sync_commands _ _ _ _ c0) as [r1 c1] eqn:E.
  apply sync_commands_spec in E as (acks & rans & (_ & Hq & _) & _ & _ & Hr).
  destruct Hr as [(evss & -> & -> & Ha)|[[[e ->] _]|[-> _]]]; [|done..].
  apply all_handled_spec in Ha as [Hnum Hf]. pose proof (events_concat_nil _ _ _ Hf) as Hnil.
  exists evss. cbn [app] in Hrun. rewrite map_map in Hq. cbn [rpcs log_rpc c0] in Hq.
  assert (Reported r = Z.of_nat (length (concat evss)) /\
    rpcs c' = rpcs c1 ++ (if bool_decide (Commands s = []) then [] else [CSubmit (concat evss)])) as [Hrep Hq'].
  { destruct (concat evss) as [|ev events].
    - injection Hrun as <- <-. rewrite bool_decide_eq_true_2 by tauto. by rewrite app_nil_r.
    - rewrite bool_decide_eq_false_2 by (rewrite <- Hnil; done).
      destruct (cloud_SubmitEvents _) as [x|e|]; [|done..]. by injection Hrun as <- <-. }
  split_and!; [|done|done|].
  - rewrite Hq', Hq, <- !app_assoc. done.
  - intros H0' Hlt. rewrite Hrep in *. rewrite Hnum. apply numbered_seqZ; lia.
Qed.

(** The poll hint of a pass's report. *)
Definition polls_in_range : Prop := forall l s, cloud_SyncEdge l = Ok s -> uint32 (PollIntervalSeconds s).

Lemma SyncOnce_poll c :
  polls_in_range ->
  match fst (SyncOnce c) with
  | Ok report | Err (report, _) => uint32 (PollSeconds report)
  | Panic => True
  end.
Proof.
  intros Hp. rewrite SyncOnce_eq. cbv zeta. set (c0 := log_rpc _ c).
  destruct (cloud_SyncEdge _) as [s|e|] eqn:Hs; [|cbn; unfold uint32; lia|done]. apply Hp in Hs.
  destruct (sync_commands _ _ _ _ c0) as [r c1] eqn:E.
  apply sync_commands_spec in E as (acks & rans & _ & _ & _ & [(evss & -> & _)|[[[e ->] _]|[-> _]]]); [|done|done].
  destruct ([] ++ concat evss) as [|ev events]; [done|]. by destruct (cloud_SubmitEvents _).
Qed.

Lemma interval_bounds report :
  uint32 (PollSeconds report) ->
  interval report = Z.max (PollSeconds report) 1 * Second /\ Second <= interval report <= (2 ^ 32 - 1) * Second.
Proof.
  unfold interval, uint32, Second. intros Hp.
  assert (i64 (Z.max (PollSeconds report) 1 * 1000000000) = Z.max (PollSeconds report) 1 * 1000000000) as ->.
  { unfold i64. rewrite Z.mod_small; lia. }
  lia.
Qed.

(** C36: the device neither gives up nor spins. Under any sequence of answers
    whose poll hints are 32-bit, every pause of [Follow] is a whole hint of at
    least one second, computed without overflow; the loop ends only with an
    authentication refusal, the context, or a panic; and it is still polling
    otherwise. *)
Theorem Follow_persists turns c :
  polls_in_range ->
  let '(e, waits, _) := Follow turns c in
  Forall (fun d => Second <= d <= (2 ^ 32 - 1) * Second) waits /\
  match e with
  | Some (FError err) => CodeOf err = CUnauthenticated
  | Some FContext => exists b p, (b, p) ∈ turns /\ (b = true \/ p = PDone)
  | Some FPanic => True
  | None => length waits = length turns
  end.
Proof.
  intros Hp. revert c. induction turns as [|[b p] turns IH]; intros c; cbn [Follow]; [done|].
  pose proof (SyncOnce_poll c Hp) as Hpoll. destruct (SyncOnce c) as [r c1]. cbn [fst] in Hpoll.
  assert (match after_pass b r with
          | inl (FError err) => CodeOf err = CUnauthenticated
          | inl FContext => b = true
          | inl FPanic => True
          | inr d => Second <= d <= (2 ^ 32 - 1) * Second
          end) as Ha.
  { destruct r as [rp|[rp e]|]; cbn [after_pass]; [by apply interval_bounds| |done].
    destruct (CodeOf e) eqn:Hc; [done| |]; (destruct b; [done|by apply interval_bounds]). }
  destruct (after_pass b r) as [[err| |]|d].
  - done.
  - split; [done|]. exists b, p. split; [by left|by left].
  - done.
  - assert (let '(e, waits, _) := let '(e, ds, c) := Follow turns c1 in (e, d :: ds, c) in
      Forall (fun d => Second <= d <= (2 ^ 32 - 1) * Second) waits /\
      match e with
      | Some (FError err) => CodeOf err = CUnauthenticated
      | Some FContext => exists b' p', (b', p') ∈ (b, p) :: turns /\ (b' = true \/ p' = PDone)
      | Some FPanic => True
      | None => length waits = length ((b, p) :: turns)
      end) as Hrec.
    { specialize (IH c1). destruct (Follow turns c1) as [[e ds] c2]. destruct IH as [Hd He].
      split; [by apply List.Forall_cons|]. destruct e as [[err| |]|]; [done| |done|by cbn; rewrite He].
      destruct He as (b' & p' & Hin & Hor). exists b', p'. split; [by right|done]. }
    destruct p; [|exact Hrec..]. split; [by apply List.Forall_cons|]. exists b, PDone. split; [by left|by right].
Qed.
End properties.

(** ** From the cloud's approval to the device's receipt *)

Section approval.
Context `{Ed25519Laws, peers : Peers}.

Lemma SignCommand_verifies {E} priv pub cmd cmd' :
  key_pair priv pub -> EdgeSign.SignCommand (E := E) priv cmd = Ok cmd' ->
  exists sig, cmd' = set_CloudSignature sig cmd /\
    forall E', EdgeSign.VerifyCommand (E := E') pub cmd' = Ok true.
Proof.
  intros Hk. unfold EdgeSign.SignCommand, ed25519_Sign. rewrite (proj1 (key_pair_lengths _ _ Hk)). cbn [Nat.eqb].
  intros [= <-]. eexists. split; [done|]. intros E'.
  transitivity (verify_nonempty (E := E') pub (EdgeSign.commandBytes cmd) (ed_sign priv (EdgeSign.commandBytes cmd))).
  - by destruct cmd.
  - by apply verify_sign.
Qed.

(** An approved and signed command passes every check of the device until the
    approval expires. *)
Lemma approved_admissible priv pub grant doc expiry cmd cmd' c :
  key_pair priv pub -> Grant.approved priv grant doc expiry cmd ->
  EdgeSign.SignCommand (E := syncerr) priv cmd = Ok cmd' ->
  cloudKey c = Some pub -> (forall i, clock (c_world c) i <= expiry) -> always_admissible c cmd'.
Proof.
  intros Hk Ha (sig & -> & Hv)%(SignCommand_verifies priv pub _ _ Hk) Hck Ht i.
  apply (Grant.approved_signed _ _ _ _ _ sig) in Ha. rewrite Hck. split.
  - by intros k [= <-].
  - intros _. by destruct (Grant.ap_ledger _ _ _ _ _ Ha).
  - intros _. exists doc. rewrite (Grant.approved_spendable priv pub grant doc expiry) by done.
    by rewrite (proj2 (Z.leb_le _ _) (Ht i)).
Qed.

(** C18: an approved command gets done. When the cloud signs a grant, puts it on
    a command that agrees with it and signs the command, and offers that
    command in a pass with any others, in any position, a device that knows the
    cloud's key and whose clock does not pass the expiry completes the pass: it
    hands that very command to the executor, and the pass's one submission
    carries the receipt of what the executor answered, signed with the device's
    key. The cloud, the executor and the agent hook need only be healthy. *)
Theorem approved_command_runs priv pub grant doc expiry cmd cmd' c s :
  key_pair priv pub -> Grant.approved priv grant doc expiry cmd ->
  EdgeSign.SignCommand (E := syncerr) priv cmd = Ok cmd' ->
  healthy -> key_ok c -> cloudKey c = Some pub -> (forall i, clock (c_world c) i <= expiry) ->
  cloud_SyncEdge (rpcs c ++ [CSync EdgeProtocolVersion]) = Ok s -> cmd' ∈ Commands s ->
  exists r c' rans qs evs, SyncOnce c = (Ok r, c') /\
    runs c' = runs c ++ rans /\ rpcs c' = qs ++ [CSubmit evs] /\ ran_and_reported (Key c) cmd' rans evs.
Proof.
  intros Hk Ha Hsig Hh Hkey Hck Ht Hs Hin.
  assert (cloud_key_ok (cloudKey c)) as Hcko.
  { rewrite Hck. intros k [= <-]. apply (key_pair_lengths _ _ Hk). }
  destruct (SyncOnce_completes c Hh Hkey Hcko) as (s' & r & c' & rans & evss & Hs' & Hr & Hruns & Hall & Hlast).
  rewrite Hs in Hs'. injection Hs' as <-. destruct Hlast as [qs Hq].
  { intros Hn. rewrite Hn in Hin. by apply elem_of_nil in Hin. }
  exists r, c', rans, qs, (concat evss). split_and!; [done..|].
  eapply (all_handled_runs _ _ _ _ _ _ Hall Hin). by apply (approved_admissible priv pub grant doc expiry cmd cmd').
Qed.
End approval.

(** ** The wake stream's pauses *)

Definition has_message (t : try) : bool :=
  existsb (fun e => match e with SMessage _ => true | STaken => false end) (t_stream t).

Definition backoff_ok (w : watcher) : Prop := Second <= backoff w <= 30 * Second.

Lemma on_stream_backoff es w :
  backoff (fold_left on_stream es w) =
  if existsb (fun e => match e with SMessage _ => true | STaken => false end) es then Second else backoff w.
Proof.
  revert w. induction es as [|e es IH]; intros w; [done|]. cbn [fold_left existsb]. rewrite IH.
  destruct e; cbn; [by destruct (existsb _ es)|done].
Qed.

Lemma watch_try_ok w t :
  backoff_ok w ->
  match watch_try w t with
  | (d, w') => Forall (fun d => Second <= d <= 30 * Second) (option_list d) /\ from_option backoff_ok True w'
  end.
Proof.
  intros Hw. unfold watch_try. set (w1 := fold_left on_stream (t_stream t) w).
  assert (backoff_ok w1) as Hw1.
  { unfold backoff_ok, w1. rewrite on_stream_backoff. destruct (existsb _ _); [unfold Second; lia|done]. }
  destruct (t_code t); [done..|]. destruct (t_done t); [done|].
  destruct (t_done_waiting t); (split; [by repeat constructor; apply Hw1|]); [done|].
  cbn. unfold backoff_ok, Second in *. cbn. unfold i64. rewrite Z.mod_small; lia.
Qed.

Lemma watch_from_ok ts w :
  backoff_ok w -> Forall (fun d => Second <= d <= 30 * Second) (fst (watch_from w ts)).
Proof.
  revert w. induction ts as [|t ts IH]; intros w Hw; [constructor|]. cbn [watch_from].
  pose proof (watch_try_ok w t Hw) as Ht. destruct (watch_try w t) as [d w']. destruct Ht as [Hd Hw'].
  destruct w' as [w'|]; [|done]. specialize (IH w' Hw'). destruct (watch_from w' ts) as [ds e].
  cbn in *. by apply Forall_app.
Qed.

(** A try that fails without a word. *)
Definition silent (t : try) : Prop :=
  has_message t = false /\ t_code t = COther /\ t_done t = false /\ t_done_waiting t = false.

Definition backoff_after (k : nat) : Z := Z.min (2 ^ Z.of_nat k) 30 * Second.

Lemma backoff_after_S k : Z.min (i64 (backoff_after k * 2)) (30 * Second) = backoff_after (S k).
Proof.
  unfold backoff_after, Second. rewrite Nat2Z.inj_succ, Z.pow_succ_r by lia.
  pose proof (Z.pow_pos_nonneg 2 (Z.of_nat k) ltac:(lia) ltac:(lia)).
  unfold i64. rewrite Z.mod_small; lia.
Qed.

Lemma watch_silent ts w k :
  Forall silent ts -> backoff w = backoff_after k ->
  fst (watch_from w ts) = map backoff_after (List.seq k (length ts)) /\
  exists w', snd (watch_from w ts) = Some w' /\ backoff w' = backoff_after (k + length ts).
Proof.
  intros Hs. revert w k. induction Hs as [|t ts (Hm & Hc & Hd & Hw) _ IH]; intros w k Hk.
  { cbn. split; [done|]. exists w. by rewrite Nat.add_0_r. }
  cbn [watch_from length List.seq map]. unfold watch_try. rewrite Hc, Hd, Hw.
  pose proof (on_stream_backoff (t_stream t) w) as Hb. unfold has_message in Hm. rewrite Hm, Hk in Hb.
  set (w1 := fold_left on_stream (t_stream t) w) in *. rewrite Hb, backoff_after_S.
  destruct (IH (MkWatcher (backoff_after (S k)) (nudged w1)) (S k) eq_refl) as [Hf (w' & Hw' & Hb')].
  destruct (watch_from _ ts) as [ds e]. cbn [fst snd option_list app] in *. rewrite Hf.
  split; [done|]. exists w'. split; [done|]. by rewrite Nat.add_succ_r.
Qed.

(** C37: the wake stream is only an accelerator. Its pauses always last between
    one and thirty seconds; [n] silent failures in a row pause one, two, four,
    ... seconds up to thirty; any message puts the next pause back to one
    second; and an answer that the stream is not offered, or not authorized,
    retires the watcher at once. *)
Theorem watch_backs_off ts ts' w :
  Forall (fun d => Second <= d <= 30 * Second) (fst (watch ts)) /\
  (Forall silent ts -> fst (watch ts) = map (fun k => Z.min (2 ^ Z.of_nat k) 30 * Second) (List.seq 0 (length ts))) /\
  (forall t, has_message t = true -> fst (watch_try w t) = None \/ fst (watch_try w t) = Some Second) /\
  (forall t, t_code t <> COther -> watch_from w (t :: ts') = ([], None)).
Proof.
  split_and!.
  - apply watch_from_ok. unfold backoff_ok, Second. cbn. lia.
  - intros Hs. by apply (watch_silent ts (MkWatcher Second false) 0).
  - intros t Hm. unfold watch_try. pose proof (on_stream_backoff (t_stream t) w) as Hb.
    unfold has_message in Hm. rewrite Hm in Hb. rewrite Hb.
    destruct (t_code t), (t_done t), (t_done_waiting t); cbn; auto.
  - intros t Hc. cbn [watch_from]. unfold watch_try. by destruct (t_code t).
Qed.

(** ** Event identities *)

Definition no_underscore (s : bytes) : Prop := x5f ∉ s.

Lemma sep_app_inj (sep : byte) x y t u :
  sep ∉ x -> sep ∉ y -> x ++ sep :: t = y ++ sep :: u -> x = y /\ t = u.
Proof.
  revert y. induction x as [|b x IH]; intros [|c y] Hx Hy E; simplify_eq/=; try set_solver.
  destruct (IH y) as [-> ->]; [set_solver..|done|done].
Qed.

Lemma sep_tail_inj (sep : byte) x y t u :
  sep ∉ t -> sep ∉ u -> x ++ sep :: t = y ++ sep :: u -> x = y /\ t = u.
Proof.
  intros Ht Hu E%(f_equal (@rev byte)). rewrite !rev_app_distr in E. cbn [rev] in E.
  rewrite <- !app_assoc in E. cbn [app] in E.
  assert (forall l : bytes, sep ∉ l -> sep ∉ rev l) as Hr.
  { intros l Hl. by rewrite list_elem_of_In, <- in_rev, <- list_elem_of_In. }
  apply sep_app_inj in E as [E1 E2]; [|by apply Hr..].
  by rewrite <- (rev_involutive x), <- (rev_involutive t), E1, E2, !rev_involutive.
Qed.

Lemma itoa_no_underscore i : no_underscore (itoa (Z.of_nat i)).
Proof.
  unfold no_underscore, itoa. rewrite (proj2 (Z.ltb_ge _ 0)) by lia.
  destruct (dec_spec (Z.of_nat i) ltac:(lia)) as (_ & Hd & _). intros Hin%list_elem_of_In.
  apply (proj1 (forallb_forall _ _) Hd) in Hin. by vm_compute in Hin.
Qed.

(** Identities converge. Receipts with the ledger's statuses (no
    underscore) have the same event id exactly when they are about the same
    command and the same outcome, so a re-report is a duplicate and a
    contradiction is not; and among one command's agent facts the id determines
    the position and the kind. *)
Theorem event_ids_identify a b s t i j k l :
  no_underscore s -> no_underscore t ->
  (result_id a s = result_id b t <-> a = b /\ s = t) /\
  (agent_id a i k = agent_id a j l <-> i = j /\ k = l).
Proof.
  intros Hs Ht. unfold result_id, agent_id. split; (split; [|by intros [-> ->]]).
  - intros E%(inj (app _)). by apply (sep_tail_inj x5f) in E.
  - intros E%(inj (app _))%(inj (app _))%(inj (app _)).
    apply (sep_app_inj x5f) in E as [E ->]; [|apply itoa_no_underscore..]. split; [|done].
    unfold itoa in E. rewrite !(proj2 (Z.ltb_ge _ 0)) in E by lia. apply dec_inj in E; lia.
Qed.

(** A receipt's id and an agent fact's id may coincide when command ids are
    chosen to make them. *)
Example ids_overlap : result_id (str "cmd_agent_0") (str "started") = agent_id (str "cmd") 0 (str "started").
Proof. by vm_compute. Qed.

(** ** Witnesses *)

Definition cloud_seed : bytes := repeat x33 32.
Definition cloud_pub : bytes := ed_public cloud_seed.
Definition plain_command (id : bytes) : EdgeCommand :=
  MkEdgeCommand EdgeProtocolVersion id [] 1 (str "dev") [] (str "run") (str "worktree") (str "w") 0 0 None []
    [] [] None [] [] [] [].
Definition signed (cmd : EdgeCommand) : EdgeCommand :=
  set_CloudSignature (ed_sign (cloud_seed ++ cloud_pub) (EdgeSign.commandBytes cmd)) cmd.

(** A cloud that offers these commands, with willing peers. *)
Definition offering (cmds : list EdgeCommand) : Peers := {|
  cloud_RegisterDevice _ := Ok (MkRegistered (str "dev") 5 (Some cloud_pub));
  cloud_SyncEdge _ := Ok (MkSync cmds 4 30 []);
  cloud_AckCommand _ := None;
  cloud_SubmitEvents _ := Ok (MkSubmitted 7 []);
  Execute _ _ := (str "succeeded", str "{}");
  Agent := Some (fun _ _ _ _ => [MkAgentUpdate (str "s") (str "started") [] []]);
  anypb_result r := Some (MkAny (str "result") (cr_ResultJson r));
  anypb_agent a := Some (MkAny (str "agent") (ae_DataJson a));
  quoted s := s;
  json_error _ := [] |}.

Lemma offering_healthy cmds : healthy (peers := offering cmds).
Proof.
  split; try done; [by eexists|by eexists|]. intros f past cmd st js [= <-]. by repeat constructor.
Qed.

(** One signed and one forged command. *)
#[local] Instance toy_peers : Peers :=
  offering [signed (plain_command (str "a")); set_CloudSignature (str "forged") (plain_command (str "b"))].

Definition device_key : bytes := repeat x44 32 ++ ed_public (repeat x44 32).
Definition registered : Client := MkClient (Some device_key) (Some cloud_pub) (calm 5 x01) [] [].

Lemma SyncOnce_executes_verified_witness :
  fst (SyncOnce registered) <> Panic /\ map (fun x => c_CommandId (rn_cmd x)) (runs (snd (SyncOnce registered))) = [str "a"].
Proof.
  split; [|by vm_compute].
  pose proof (SyncOnce_executes_verified registered) as Hs. destruct (SyncOnce registered) as [r c'] eqn:E.
  destruct Hs as [_ Hp]. apply Hp.
  - intros k [= <-]. by vm_compute.
  - intros k [= <-]. by vm_compute.
  - by split.
Defined.

Lemma SyncOnce_reports_witness :
  exists r c' evss, SyncOnce registered = (Ok r, c') /\ Reported r = 4 /\
    map DeviceSequence (concat evss) = [5; 6; 7; 8] /\
    exists qs, rpcs c' = qs ++ [CSubmit (concat evss)].
Proof.
  destruct (SyncOnce registered) as [[r|e|] c'] eqn:E; [|by vm_compute in E..].
  destruct (SyncOnce_reports registered r c' _ E eq_refl) as (evss & Hq & _ & Hrep & Hnum).
  assert (Reported r = 4) as H4.
  { assert (match fst (SyncOnce registered) with Ok r => Reported r | _ => 0 end = 4) as Hc by (vm_compute; reflexivity).
    by rewrite E in Hc. }
  exists r, c', evss. split_and!; [done|done| |].
  - rewrite Hnum; [|by vm_compute|rewrite H4; by vm_compute]. by rewrite H4.
  - rewrite Hq. by exists [CSync EdgeProtocolVersion; CAck (str "a"); CAck (str "b")].
Defined.

Lemma Follow_persists_witness :
  let '(e, waits, _) := Follow [(false, PTimer); (false, PWake)] registered in
  e = None /\ Forall (fun d => Second <= d <= (2 ^ 32 - 1) * Second) waits /\ waits = [30 * Second; 30 * Second].
Proof.
  pose proof (Follow_persists [(false, PTimer); (false, PWake)] registered) as Hf.
  assert (polls_in_range) as Hp by (intros l s [= <-]; unfold uint32; cbn; lia). specialize (Hf Hp).
  destruct (Follow _ registered) as [[e ds] c'] eqn:E.
  assert (e = None /\ ds = [30 * Second; 30 * Second]) as [-> ->].
  { assert (fst (Follow [(false, PTimer); (false, PWake)] registered) = (None, [30 * Second; 30 * Second])) as Hc
      by (vm_compute; reflexivity).
    rewrite E in Hc. clear E Hf. cbn [fst] in Hc. by split; [apply (f_equal fst) in Hc|apply (f_equal snd) in Hc]. }
  split_and!; [done|apply Hf|done].
Defined.

(** The approved command of [Grant], behind a forged one. *)
Lemma approved_command_runs_witness :
  exists raw r c' rans qs evs,
    let cmd := signed (Grant.approved_command raw) in
    SyncOnce (peers := offering [plain_command (str "b"); cmd]) registered = (Ok r, c') /\
    runs c' = rans /\ rpcs c' = qs ++ [CSubmit evs] /\
    ran_and_reported (peers := offering [plain_command (str "b"); cmd]) (Some device_key) cmd rans evs.
Proof.
  assert (key_pair (cloud_seed ++ cloud_pub) cloud_pub) as Hk by (by exists cloud_seed).
  destruct (Grant.golden_approved _ _ Hk) as (doc & raw & _ & _ & Ha). exists raw.
  destruct (approved_command_runs (peers := offering [plain_command (str "b"); signed (Grant.approved_command raw)])
    _ _ Grant.golden_grant doc (unixTime 1785153600 0) _ (signed (Grant.approved_command raw)) registered
    (MkSync [plain_command (str "b"); signed (Grant.approved_command raw)] 4 30 []) Hk Ha)
    as (r & c' & rans & qs & evs & Hr & Hx & Hq & Hrr).
  - reflexivity.
  - apply offering_healthy.
  - intros k [= <-]. by vm_compute.
  - reflexivity.
  - intros i. by vm_compute.
  - reflexivity.
  - right. left.
  - exists r, c', rans, qs, evs. exact (conj Hr (conj Hx (conj Hq Hrr))).
Defined.

Lemma event_ids_identify_witness :
  result_id (str "a_b") (str "failed") <> result_id (str "a") (str "rejected").
Proof.
  destruct (event_ids_identify (str "a_b") (str "a") (str "failed") (str "rejected") 0 1 [] []) as [H _];
    [by (apply (bool_decide_eq_true_1 _); vm_compute)..|].
  intros E. by apply H in E as [? _].
Defined.

(** A cloud key is stored as it came. When registration delivered one of
    the wrong length, the first signed command makes the pass panic. *)
Theorem odd_cloud_key_panics :
  fst (SyncOnce (set_cloudKey (Some (take 31 cloud_pub)) registered)) = Panic.
Proof. by vm_compute. Qed.
