(* ===== verification/Connect.v ===== *)
(** * connect, as the generated code calls it

    connect-go is not part of the repository: its types and functions are the
    fields of [Connect], what it documents about one client and one handler is
    [ConnectLaws], and nothing else of it is used. A call, a handler and an
    HTTP handler are computations over one state [S], which is whatever the
    services on both ends work on. *)

From stdpp Require Import gmap.
From S2P Require Import Prelude GoStrings GoURL Http.
From S2P Require EdgeProto Server EdgeClient.

(** [http.Header], with the one value per canonical key that [Set] leaves. *)
Abbreviation Header := (gmap bytes bytes).
Definition Authorization : bytes := str "Authorization".

(** What net/http writes and reads back unchanged as a field's value: no control
    octet but the tab, no blank at either end, and short of the 1 MiB a server
    allows a whole header by a wide margin. The code sets no field but
    [Authorization]. *)
Definition isLWS (b : byte) : bool := Byte.eqb b x20 || Byte.eqb b x09.
Definition isCTL (b : byte) : bool := (Byte.to_N b <? 32)%N || Byte.eqb b x7f.
Definition field_value (v : bytes) : bool :=
  forallb (fun b => isLWS b || negb (isCTL b)) v &&
  negb (from_option isLWS false (head v)) && negb (from_option isLWS false (list.last v)) &&
  (Z.of_nat (length v) <? 2 ^ 19).
Definition header_plain (hd : Header) : Prop :=
  map_Forall (fun k v => k = Authorization /\ field_value v = true) hd.

(** A generated message type. [encodable] says which values of the model's
    record are messages proto3 encodes: its strings are UTF-8, its numbers are
    in their width. A [bytes] field holds any octets, and the Z of a [double]
    stands for any float64. [normal] leaves out the values whose encoding is
    another's too: proto3 does not tell an empty [bytes] field from a nil one. *)
Class Proto (A : Type) := { encodable : A -> bool; normal : A -> bool }.
Definition int32b (z : Z) : bool := (- 2 ^ 31 <=? z) && (z <? 2 ^ 31).
Definition int64b (z : Z) : bool := (- 2 ^ 63 <=? z) && (z <? 2 ^ 63).
Definition uint32b (z : Z) : bool := (0 <=? z) && (z <? 2 ^ 32).
Definition uint64b (z : Z) : bool := (0 <=? z) && (z <? 2 ^ 64).
Definition option_encodable {A : Type} `{Proto A} (o : option A) : bool := from_option encodable true o.
Definition list_encodable {A : Type} `{Proto A} (l : list A) : bool := forallb encodable l.
#[export] Instance Timestamp_proto : Proto EdgeProto.Timestamp := {|
  encodable t := int64b (EdgeProto.Seconds t) && int32b (EdgeProto.Nanos t);
  normal _ := true |}.
Definition nonempty_bytes (o : option bytes) : bool := match o with Some [] => false | _ => true end.

(** Its encoding, which is the protobuf library's. A value that is not
    encodable is refused; one that is encodes below the 2 GiB every protobuf
    message is kept under; what was encoded decodes to the same message, up to
    what the encoding does not tell apart. *)
Class Message (A : Type) `{Proto A} := {
  proto_Size : A -> Z; marshal : A -> option bytes; unmarshal : bytes -> option A }.
Definition encodes {A : Type} `{Message A} (a : A) : Prop := encodable a = true /\ normal a = true /\ proto_Size a < 2 ^ 31.
Class MessageLaws (A : Type) `{Message A} : Prop := {
  marshal_encodes (a : A) : encodes a -> exists raw, marshal a = Some raw;
  marshal_refuses (a : A) : encodable a = false -> marshal a = None;
  unmarshal_marshal (a : A) raw : normal a = true -> marshal a = Some raw -> unmarshal raw = Some a }.

(** The two shapes of an RPC the protocols have. *)
Inductive StreamType := StreamTypeUnary | StreamTypeServer.

(** [connect.Interceptor]: each hook wraps the next function; a unary call is
    a function of the request header. *)
Record Interceptor := MkInterceptor {
  WrapUnary : forall A, (Header -> A) -> Header -> A;
  WrapStreamingClient : forall A, (A -> EdgeClient.StreamingClientConn) -> A -> EdgeClient.StreamingClientConn;
  WrapStreamingHandler : forall A, A -> A }.

Class Connect (S : Type) := {
  Context : Type;
  Request : Type -> Type; NewRequest : forall {A}, A -> Request A;
  Msg : forall {A}, Request A -> A; req_Header : forall {A}, Request A -> Header;
  Response : Type -> Type; NewResponse : forall {A}, A -> Response A; res_Msg : forall {A}, Response A -> A;
  ServerStream : Type -> Type; ServerStreamForClient : Type -> Type;
  Error : Type; NewError : Server.code -> bytes -> Error;
  (** The rest of an HTTP request, and what a connect handler writes. *)
  Payload : Type; Output : Type;
  (** The reflection data of the generated files, by service and method. *)
  MethodDescriptor : Type; method_ByName : bytes -> bytes -> MethodDescriptor;
  HTTPClient : Type;
  ClientOption : Type; WithClientSchema : MethodDescriptor -> ClientOption;
  WithClientOptions : list ClientOption -> ClientOption; WithInterceptors : list Interceptor -> ClientOption;
  HandlerOption : Type; WithHandlerSchema : MethodDescriptor -> HandlerOption;
  WithHandlerOptions : list HandlerOption -> HandlerOption;
  Client : Type -> Type -> Type;
  NewClient : forall Req Res `{Message Req, Message Res}, HTTPClient -> bytes -> list ClientOption -> Client Req Res;
  CallUnary : forall {Req Res}, Client Req Res -> Context -> Request Req -> SE S Error (Response Res);
  CallServerStream : forall {Req Res}, Client Req Res -> Context -> Request Req ->
    SE S Error (ServerStreamForClient Res);
  Handler : Type;
  NewUnaryHandler : forall Req Res `{Message Req, Message Res}, bytes ->
    (Context -> Request Req -> SE S Error (Response Res)) -> list HandlerOption -> Handler;
  NewServerStreamHandler : forall Req Res `{Message Req, Message Res}, bytes ->
    (Context -> Request Req -> ServerStream Res -> SE S Error unit) -> list HandlerOption -> Handler;
  ServeHTTP : Handler -> HTTPHandler Payload Output S }.

(** The two shapes of a remote method, and of the function that serves it. *)
Definition UnaryCall {S} `{Connect S} (Req Res : Type) : Type :=
  Context -> Request Req -> SE S Error (Response Res).
Definition StreamCall {S} `{Connect S} (Req Res : Type) : Type :=
  Context -> Request Req -> SE S Error (ServerStreamForClient Res).
Definition StreamServe {S} `{Connect S} (Req Res : Type) : Type :=
  Context -> Request Req -> ServerStream Res -> SE S Error unit.

(** ** What connect documents

    Of one client whose requests a handler in the same process answers: nothing
    between the two fails. *)

Class Wire (S : Type) `{Connect S} := {
  (** An [http.Client] whose requests a handler in the same process answers. *)
  over : HTTPHandler Payload Output S -> HTTPClient;
  (** A context that does not end before the call it is given to. *)
  lasting : Context -> bool;
  (** A request with these headers and this encoded message. *)
  sent : StreamType -> Header -> bytes -> Payload;
  (** A handler's context, and the request it decodes, if it can. *)
  handler_context : HTTPRequest Payload -> Context;
  received : forall {A} `{Message A}, StreamType -> HTTPRequest Payload -> option (Request A);
  (** What a unary handler writes, and what a client reads. *)
  written : forall {A} `{Message A}, res Error (Response A) -> Output;
  decode : forall {A} `{Message A}, reply Output -> res Error (Response A);
  (** The stream a handler sends on, and what a client sees of it. *)
  server_stream : forall {A}, HTTPRequest Payload -> ServerStream A;
  open_stream : forall {A} `{Message A}, reply Output -> res Error (ServerStreamForClient A);
  interceptors : list ClientOption -> list Interceptor }.

(** The header a streaming call opens with. *)
Definition conn_header (ics : list Interceptor) : Header :=
  EdgeClient.RequestHeader
    (foldr (fun i next => WrapStreamingClient i unit next) (fun _ => EdgeClient.MkConn ∅) ics ()).

(** The options the generated code gives a handler that is built without any. *)
Definition handler_options {S} `{Connect S} (d : MethodDescriptor) : list HandlerOption :=
  [WithHandlerSchema d; WithHandlerOptions []].

Class ConnectLaws (S : Type) `{Wire S} : Prop := {
  Msg_NewRequest {A} (a : A) : Msg (NewRequest a) = a;
  Header_NewRequest {A} (a : A) : req_Header (NewRequest a) = ∅;
  Msg_NewResponse {A} (a : A) : res_Msg (NewResponse a) = a;
  interceptors_none : interceptors [] = [];
  interceptors_schema d os : interceptors (WithClientSchema d :: os) = interceptors os;
  interceptors_options os' os : interceptors (WithClientOptions os' :: os) = interceptors os' ++ interceptors os;
  interceptors_with ics os : interceptors (WithInterceptors ics :: os) = ics ++ interceptors os;
  (** A unary call posts its message once the interceptors have had the header;
      nothing is said of a message that does not encode, or of a header that
      does not travel as it is. *)
  CallUnary_sends {Req Res} `{Message Req, Message Res} h url u opts ctx (req : Request Req) s :
    url_Parse url = Some u -> lasting ctx = true ->
    exists post : Header -> SE S Error (Response Res),
      CallUnary (NewClient Req Res (over h) url opts) ctx req s =
        foldr (fun i next => WrapUnary i _ next) post (interceptors opts) (req_Header req) s /\
      forall header s raw, header_plain header -> marshal (Msg req) = Some raw ->
        post header s =
        let '(w, s') := h (MkHTTPRequest (url_Path u) (sent StreamTypeUnary header raw)) s in (decode w, s');
  (** A stream's connection has its interceptors' header, to which the request's
      own is added. *)
  CallServerStream_sends {Req Res} `{Message Req, Message Res} h url u opts ctx (req : Request Req) raw s :
    let header := conn_header (interceptors opts) in
    url_Parse url = Some u -> lasting ctx = true ->
    header ##ₘ req_Header req -> header_plain (header ∪ req_Header req) -> marshal (Msg req) = Some raw ->
    CallServerStream (NewClient Req Res (over h) url opts) ctx req s =
    let '(w, s') := h (MkHTTPRequest (url_Path u) (sent StreamTypeServer (header ∪ req_Header req) raw)) s in
    (open_stream w, s');
  received_sent {A} `{MessageLaws A} k path header (m : A) raw :
    header_plain header -> normal m = true -> marshal m = Some raw ->
    exists req : Request A, received k (MkHTTPRequest path (sent k header raw)) = Some req /\
      Msg req = m /\ req_Header req !! Authorization = header !! Authorization;
  ServeHTTP_unary {Req Res} `{Message Req, Message Res} proc impl d rq s :
    ServeHTTP (NewUnaryHandler Req Res proc impl (handler_options d)) rq s =
    match received StreamTypeUnary rq with
    | Some req => let '(r, s') := impl (handler_context rq) req s in (WOutput (written r), s')
    | None => (fst (ServeHTTP (NewUnaryHandler Req Res proc impl (handler_options d)) rq s), s)
    end;
  ServeHTTP_stream {Req Res} `{Message Req, Message Res} proc impl d rq s :
    exists w, ServeHTTP (NewServerStreamHandler Req Res proc impl (handler_options d)) rq s =
      (w, if received StreamTypeServer rq is Some req
          then snd (impl (handler_context rq) req (server_stream rq) s) else s);
  decode_Ok {A} `{MessageLaws A} (r : Response A) raw :
    normal (res_Msg r) = true -> marshal (res_Msg r) = Some raw ->
    exists r', decode (WOutput (written (Ok r))) = Ok r' /\ res_Msg r' = res_Msg r;
  (** A response that does not encode is an internal error to the caller. *)
  decode_unencoded {A} `{MessageLaws A} (r : Response A) :
    marshal (res_Msg r) = None ->
    exists text, decode (WOutput (written (Ok r))) = Err (NewError Server.Internal text);
  (** An error keeps its code; its text travels in JSON or in a trailer. *)
  decode_Err {A} `{Message A} c text :
    exists text', decode (A := A) (WOutput (written (A := A) (Err (NewError c text)))) = Err (NewError c text') /\
      (utf8_valid text = true -> text' = text);
  (** A page that is not connect's: 404 reads as unimplemented. *)
  decode_NotFound {A} `{Message A} :
    exists text, decode (A := A) (WNotFound) = Err (NewError Server.Unimplemented text) }.

(** ** Calls that reach their handler *)

Section reach.
Context {S : Type} `{ConnectLaws S}.

(** What a client's options make of the headers of its calls. *)
Record client_header (opts : list ClientOption) (g : Header -> Header) : Prop := {
  header_unary A (f : Header -> A) header :
    foldr (fun i next => WrapUnary i A next) f (interceptors opts) header = f (g header);
  header_stream : conn_header (interceptors opts) = g ∅ }.

(** The result of a call is the handler's: the message of a response, an
    internal error when that message does not encode, or the error with its
    code and, when it is UTF-8, its text. *)
Definition same_outcome {A : Type} `{Message A} (seen r : res Error (Response A)) : Prop :=
  match r with
  | Ok v =>
    (encodes (res_Msg v) -> exists v', seen = Ok v' /\ res_Msg v' = res_Msg v) /\
    (encodable (res_Msg v) = false -> exists text, seen = Err (NewError Server.Internal text))
  | Err e => forall c text, e = NewError c text ->
    exists text', seen = Err (NewError c text') /\ (utf8_valid text = true -> text' = text)
  | Panic => True
  end.

(** A call whose context lasts, whose header travels as it is and whose message
    encodes. *)
Definition goes_out {Req : Type} `{Message Req} (ctx : Context) (header : Header) (m : Req) : Prop :=
  lasting ctx = true /\ header_plain header /\ encodes m.

(** A unary call is one run of [impl], on the same message and credential; the
    state it leaves is that run's, and so is its outcome. *)
Definition unary_reaches {Req Res : Type} `{Message Req, Message Res} (g : Header -> Header)
    (call impl : UnaryCall Req Res) : Prop :=
  forall ctx req s, goes_out ctx (g (req_Header req)) (Msg req) -> exists ctx' req',
    Msg req' = Msg req /\ req_Header req' !! Authorization = g (req_Header req) !! Authorization /\
    snd (call ctx req s) = snd (impl ctx' req' s) /\
    same_outcome (fst (call ctx req s)) (fst (impl ctx' req' s)).

Definition stream_reaches {Req Res : Type} `{Message Req} (g : Header -> Header) (call : StreamCall Req Res)
    (impl : StreamServe Req Res) : Prop :=
  forall ctx req s, g ∅ ##ₘ req_Header req -> goes_out ctx (g ∅ ∪ req_Header req) (Msg req) ->
  exists ctx' req' stream,
    Msg req' = Msg req /\
    req_Header req' !! Authorization = (g ∅ ∪ req_Header req) !! Authorization /\
    snd (call ctx req s) = snd (impl ctx' req' stream s).

(** A method mounted under its procedure's path. *)
Definition mounted (h : HTTPHandler Payload Output S) (proc : bytes) (served : Handler) : Prop :=
  forall x s, h (MkHTTPRequest proc x) s = ServeHTTP served (MkHTTPRequest proc x) s.

(** A service mounted with the path its constructor gives: every canonical path
    below it goes to its handler. *)
Definition serves (h : HTTPHandler Payload Output S) (service : bytes * HTTPHandler Payload Output S) : Prop :=
  forall rq s, HasPrefix (URL_Path rq) (fst service) = true -> cleanPath (URL_Path rq) = URL_Path rq ->
    h rq s = snd service rq s.

(** A call that is answered as not implemented, whatever it asks. *)
Definition unimplemented_error (name : bytes) : Error :=
  NewError Server.Unimplemented (name ++ str " is not implemented").
Definition answers_unimplemented {Req Res : Type} `{Message Req} (name : bytes) (call : UnaryCall Req Res) : Prop :=
  forall ctx req s, goes_out ctx (req_Header req) (Msg req) -> call ctx req s = (Err (unimplemented_error name), s).
Definition leaves_state {Req Res : Type} `{Message Req} (g : Header -> Header) (call : StreamCall Req Res) : Prop :=
  forall ctx req s, g ∅ ##ₘ req_Header req -> goes_out ctx (g ∅ ∪ req_Header req) (Msg req) -> snd (call ctx req s) = s.

Definition rooted_path (proc : bytes) : bool :=
  match proc with b :: p => bool_decide (b = x2f) && forallb path_byte p | [] => false end.

Lemma client_url o n proc :
  origin_ok o = true -> rooted_path proc = true ->
  exists u, url_Parse (TrimRight (origin_url o ++ repeat x2f n) (str "/") ++ proc) = Some u /\ url_Path u = proc.
Proof.
  intros Ho. destruct proc as [|b p]; [done|]. cbn [rooted_path].
  intros [->%bool_decide_eq_true Hp]%andb_true_iff.
  pose proof (url_Path_base o n p Ho Hp) as Hu. destruct (url_Parse _) as [u|]; [|done].
  injection Hu as Hu. by exists u.
Qed.

Lemma unary_call {Req Res} `{MessageLaws Req, MessageLaws Res} h o n proc d opts g (impl : UnaryCall Req Res) :
  origin_ok o = true -> rooted_path proc = true -> client_header opts g ->
  mounted h proc (NewUnaryHandler Req Res proc impl (handler_options d)) ->
  unary_reaches g (CallUnary (NewClient Req Res (over h)
    (TrimRight (origin_url o ++ repeat x2f n) (str "/") ++ proc) opts)) impl.
Proof.
  intros Ho Hp Hg Hm ctx req s (Hl & Hh & He). destruct (marshal_encodes _ He) as [raw Hraw].
  destruct (client_url o n proc Ho Hp) as (u & Hu & Hpath).
  destruct (CallUnary_sends (Res := Res) h _ u opts ctx req s Hu Hl) as (post & -> & Hpost).
  rewrite (header_unary opts g Hg), (Hpost _ s raw Hh Hraw), Hpath.
  set (hd := g (req_Header req)) in *. set (rq := MkHTTPRequest proc (sent StreamTypeUnary hd raw)).
  destruct (received_sent StreamTypeUnary proc hd (Msg req) raw Hh (proj1 (proj2 He)) Hraw) as (req' & Hr & Hmsg & Hauth). fold rq in Hr.
  exists (handler_context rq), req'.
  rewrite (Hm _ s : h rq s = _). fold rq. rewrite ServeHTTP_unary, Hr.
  destruct (impl (handler_context rq) req' s) as [r s']. cbn [fst snd]. split_and!; [done..|].
  destruct r as [v|e|]; cbn [same_outcome]; [split|intros c text ->; apply decode_Err|done].
  - intros Hv. destruct (marshal_encodes _ Hv) as [raw' Hv']. by apply (decode_Ok v raw'); [apply Hv|].
  - intros Hv%marshal_refuses. by apply decode_unencoded.
Qed.

Lemma stream_call {Req Res} `{MessageLaws Req, MessageLaws Res} h o n proc d opts g (impl : StreamServe Req Res) :
  origin_ok o = true -> rooted_path proc = true -> client_header opts g ->
  mounted h proc (NewServerStreamHandler Req Res proc impl (handler_options d)) ->
  stream_reaches g (CallServerStream (NewClient Req Res (over h)
    (TrimRight (origin_url o ++ repeat x2f n) (str "/") ++ proc) opts)) impl.
Proof.
  intros Ho Hp Hg Hm ctx req s Hd (Hl & Hh & He). destruct (marshal_encodes _ He) as [raw Hraw].
  destruct (client_url o n proc Ho Hp) as (u & Hu & Hpath).
  rewrite <- (header_stream opts g Hg) in Hd, Hh |- *.
  rewrite (CallServerStream_sends h _ u opts ctx req raw s Hu Hl Hd Hh Hraw), Hpath.
  set (hd := conn_header _ ∪ _) in *. set (rq := MkHTTPRequest proc (sent StreamTypeServer hd raw)).
  destruct (received_sent StreamTypeServer proc hd (Msg req) raw Hh (proj1 (proj2 He)) Hraw) as (req' & Hr & Hmsg & Hauth). fold rq in Hr.
  exists (handler_context rq), req', (server_stream rq). rewrite (Hm _ s : h rq s = _). fold rq.
  destruct (ServeHTTP_stream proc impl d rq s) as [w ->]. by rewrite Hr.
Qed.

(** Headers of a client with no interceptors. *)
Lemma client_header_plain d : client_header [WithClientSchema d; WithClientOptions []] id.
Proof.
  assert (interceptors [WithClientSchema d; WithClientOptions []] = []) as Hi.
  { rewrite interceptors_schema, interceptors_options. by rewrite !interceptors_none. }
  split; rewrite Hi; done.
Qed.

Lemma unimplemented_reached {Req Res : Type} `{Message Req, Message Res} name (call impl : UnaryCall Req Res) :
  utf8_valid (name ++ str " is not implemented") = true ->
  unary_reaches id call impl -> (forall ctx req s, impl ctx req s = (Err (unimplemented_error name), s)) ->
  answers_unimplemented name call.
Proof.
  intros Hn Hr Hi ctx req s Hg. destruct (Hr ctx req s Hg) as (ctx' & req' & _ & _ & Hs & Ho).
  rewrite (Hi ctx' req' s) in Hs, Ho. cbn in Hs, Ho. destruct (call ctx req s) as [r s']. cbn in *.
  destruct (Ho _ _ eq_refl) as (text & -> & Ht). by rewrite (Ht Hn), Hs.
Qed.
Lemma state_left {Req Res : Type} `{Message Req} g (call : StreamCall Req Res) (impl : StreamServe Req Res) :
  stream_reaches g call impl -> (forall ctx req stream s, snd (impl ctx req stream s) = s) -> leaves_state g call.
Proof. intros Hr Hi ctx req s Hd Hg. by destruct (Hr ctx req s Hd Hg) as (? & ? & ? & _ & _ & ->). Qed.

(** What serving any request at all can do to the state. *)
Lemma serve_unary_state {Req Res} `{Message Req, Message Res} proc impl d rq s :
  let s' := snd (ServeHTTP (NewUnaryHandler Req Res proc impl (handler_options d)) rq s) in
  s' = s \/ exists ctx req, s' = snd (impl ctx req s).
Proof.
  cbv zeta. rewrite ServeHTTP_unary. destruct (received _ rq) as [req|]; [right|by left].
  exists (handler_context rq), req. by destruct (impl _ _ s).
Qed.

Lemma serve_stream_state {Req Res} `{Message Req, Message Res} proc impl d rq s :
  let s' := snd (ServeHTTP (NewServerStreamHandler Req Res proc impl (handler_options d)) rq s) in
  s' = s \/ exists ctx req stream, s' = snd (impl ctx req stream s).
Proof.
  cbv zeta. destruct (ServeHTTP_stream proc impl d rq s) as [w ->].
  destruct (received _ rq) as [req|]; cbn; [right; eauto|by left].
Qed.
End reach.

(** ** An in-process implementation

    The interface and its laws can be met: a client that hands the encoded
    message to a handler in the same process. The encodable messages are
    encoded bit by bit from the numbering of a countable type, whatever their
    size. *)

Fixpoint pos_bytes (p : positive) : bytes :=
  match p with xH => [] | xO q => x00 :: pos_bytes q | xI q => x01 :: pos_bytes q end.
Fixpoint bytes_pos (b : bytes) : positive :=
  match b with [] => xH | x00 :: b' => xO (bytes_pos b') | _ :: b' => xI (bytes_pos b') end.
Lemma bytes_pos_bytes p : bytes_pos (pos_bytes p) = p.
Proof. induction p as [p IH|p IH|]; cbn; by rewrite ?IH. Qed.

Definition counted_message {A : Type} `{Proto A, Countable A} : Message A := {|
  proto_Size _ := 0;
  marshal a := if encodable a then Some (pos_bytes (encode a)) else None;
  unmarshal b := countable.decode (bytes_pos b) |}.
Lemma counted_laws {A : Type} `{Proto A, Countable A} : MessageLaws (H0 := counted_message) A.
Proof.
  split; cbn.
  - intros a [-> _]. eauto.
  - by intros a ->.
  - intros a raw _. destruct (encodable a); intros [= <-]. rewrite bytes_pos_bytes. apply countable.decode_encode.
Qed.

Section loopback.
Context (S : Type).

Definition loop_error : Type := Server.code * bytes.
Definition loop_output : Type := res loop_error bytes.
Definition loop_handler : Type := HTTPHandler (Header * bytes) loop_output S.
Record loop_client (Req Res : Type) := MkLoopClient {
  loop_unary : Header * Req -> SE S loop_error Res;
  loop_stream : Header * Req -> SE S loop_error (reply loop_output) }.
Arguments loop_unary {Req Res}. Arguments loop_stream {Req Res}.

Definition loop_received {A : Type} `{Message A} (rq : HTTPRequest (Header * bytes)) : option (Header * A) :=
  m ← unmarshal (snd (payload rq)); Some (fst (payload rq), m).
Definition loop_written {A : Type} `{Message A} (r : res loop_error A) : loop_output :=
  match r with
  | Ok a => match marshal a with Some raw => Ok raw | None => Err (Server.Internal, str "marshal message") end
  | Err e => Err e | Panic => Panic end.
Definition loop_decode {A : Type} `{Message A} (w : reply loop_output) : res loop_error A :=
  match w with
  | WOutput (Ok b) => of_option (Server.Internal, []) (unmarshal b)
  | WOutput (Err e) => Err e
  | WOutput Panic | WRedirect _ => Err (Server.Unavailable, [])
  | WNotFound => Err (Server.Unimplemented, str "404 Not Found")
  end.
Definition loop_NewClient (Req Res : Type) `{Message Req, Message Res} (h : loop_handler) (url : bytes)
    (opts : list (list Interceptor)) : loop_client Req Res :=
  let post u hd (m : Req) s :=
    match marshal m with
    | Some raw => h (MkHTTPRequest (url_Path u) (hd, raw)) s
    | None => (WOutput (Err (Server.Internal, str "marshal message")), s)
    end in
  MkLoopClient Req Res
    (fun req => match url_Parse url with
     | Some u => foldr (fun i next => WrapUnary i _ next)
         (fun hd s => let '(w, s') := post u hd (snd req) s in (loop_decode w, s')) (concat opts) (fst req)
     | None => throw (Server.Unavailable, [])
     end)
    (fun req s => match url_Parse url with
     | Some u => let '(w, s') := post u (conn_header (concat opts) ∪ fst req) (snd req) s in (Ok w, s')
     | None => (Err (Server.Unavailable, []), s)
     end).
Definition loop_unary_handler (Req Res : Type) `{Message Req, Message Res}
    (impl : Header * Req -> SE S loop_error Res) : loop_handler :=
  fun rq s => match loop_received rq with
    | Some req => let '(r, s') := impl req s in (WOutput (loop_written r), s')
    | None => (WOutput (Err (Server.InvalidArgument, [])), s)
    end.
Definition loop_stream_handler (Req Res : Type) `{Message Req, Message Res}
    (impl : Header * Req -> SE S loop_error unit) : loop_handler :=
  fun rq s => match loop_received rq with
    | Some req => let '(r, s') := impl req s in
        (WOutput (match r with Ok _ => Ok [] | Err e => Err e | Panic => Panic end), s')
    | None => (WOutput (Err (Server.InvalidArgument, [])), s)
    end.

Definition loop_connect : Connect S := {|
  Context := unit; Request A := (Header * A)%type; NewRequest A a := (∅, a);
  Msg A := snd; req_Header A := fst; Response A := A; NewResponse A a := a; res_Msg A a := a;
  ServerStream A := unit; ServerStreamForClient A := reply loop_output;
  Error := loop_error; NewError := pair; Payload := (Header * bytes)%type; Output := loop_output;
  MethodDescriptor := unit; method_ByName _ _ := (); HTTPClient := loop_handler;
  ClientOption := list Interceptor; WithClientSchema _ := []; WithClientOptions := @concat _;
  WithInterceptors ics := ics;
  HandlerOption := unit; WithHandlerSchema _ := (); WithHandlerOptions _ := ();
  Client := loop_client; NewClient := @loop_NewClient;
  CallUnary Req Res c _ req := loop_unary c req; CallServerStream Req Res c _ req := loop_stream c req;
  Handler := loop_handler;
  NewUnaryHandler Req Res _ _ _ _ _ impl _ := loop_unary_handler Req Res (impl ());
  NewServerStreamHandler Req Res _ _ _ _ _ impl _ := loop_stream_handler Req Res (fun req => impl () req ());
  ServeHTTP h := h |}.

#[local] Existing Instance loop_connect.

Definition loop_wire : Wire (H := loop_connect) S := {|
  over h := h; lasting _ := true; sent _ hd m := (hd, m); handler_context _ := ();
  received A _ _ _ rq := loop_received rq; written A _ _ r := loop_written r; decode A _ _ w := loop_decode w;
  server_stream A _ := (); open_stream A _ _ w := Ok w; interceptors opts := concat opts |}.

Lemma loop_laws : ConnectLaws (H := loop_connect) (H0 := loop_wire) S.
Proof.
  split; cbn; try done.
  - intros Req Res P1 M1 P2 M2 h url u opts ctx req s -> _. eexists. split; [reflexivity|].
    cbn. by intros header s' raw _ ->.
  - intros Req Res P1 M1 P2 M2 h url u opts ctx req raw s -> _ _ _ Hraw. cbn in *. by rewrite Hraw.
  - intros A ? ? ? k path hd m raw _ Hn Hm. unfold loop_received. cbn. rewrite (unmarshal_marshal m raw Hn Hm). by eexists.
  - intros Req Res P1 M1 P2 M2 proc impl d rq s. unfold loop_unary_handler. by destruct (loop_received rq).
  - intros Req Res P1 M1 P2 M2 proc impl d rq s. unfold loop_stream_handler.
    destruct (loop_received rq) as [req|]; [|by eexists]. destruct (impl () req () s). by eexists.
  - intros A ? ? ? r raw Hn Hr. exists r. rewrite Hr. by rewrite (unmarshal_marshal r raw Hn Hr).
  - intros A ? ? ? r Hr. rewrite Hr. by eexists.
  - intros A ? ? c text. by eexists.
  - intros A ? ?. by eexists.
Qed.
End loopback.
