(* ===== verification/LinkConnect.v ===== *)
(** * The generated connect code of the link protocol
    (gen/rook/link/v1/linkv1connect/link.connect.go)

    A module per service: its procedures, its client, its handler, and the
    handler that implements nothing. The messages are the records the server
    works on; those without fields, and the digest's envelope, are here. *)

From stdpp Require Import gmap.
From S2P Require Import Prelude GoStrings GoURL Convert Http Connect.
From S2P Require EdgeProto Server Streams.

Abbreviation GetHostInfoResponse := Server.GetHostInfoResponse.
Abbreviation PairRequest := Server.PairRequest.
Abbreviation PairResponse := Server.PairResponse.
Abbreviation ChallengeRequest := Server.ChallengeRequest.
Abbreviation ChallengeResponse := Server.ChallengeResponse.
Abbreviation AuthenticateRequest := Server.AuthenticateRequest.
Abbreviation AuthenticateResponse := Server.AuthenticateResponse.
Abbreviation GetStatusResponse := Server.GetStatusResponse.
Abbreviation WatchStatusResponse := Streams.WatchStatusResponse.
Abbreviation SubmitAnswerRequest := Server.SubmitAnswerRequest.
Abbreviation SubmitAnswerResponse := Server.SubmitAnswerResponse.
Abbreviation SubmitCommandRequest := Server.SubmitCommandRequest.
Abbreviation SubmitCommandResponse := Server.SubmitCommandResponse.
Abbreviation GetDigestRequest := Server.GetDigestRequest.
Abbreviation WatchPaneRequest := Server.WatchPaneRequest.
Abbreviation WatchPaneResponse := Streams.WatchPaneResponse.

Record GetHostInfoRequest := MkGetHostInfoRequest {}.
Record GetStatusRequest := MkGetStatusRequest {}.
Record WatchStatusRequest := MkWatchStatusRequest {}.
Record GetDigestResponse := MkGetDigestResponse { gr_Digest : option Pb.Digest }.

(** What of each message encodes: the types of the fields are those of the
    [protobuf] tags of gen/rook/link/v1/link.pb.go. *)

#[export] Instance StyleRun_proto : Proto Pb.StyleRun := {|
  encodable m := 
    uint32b (Pb.Start m) && uint32b (Pb.Len m) && uint32b (Pb.Fg m) && uint32b (Pb.Bg m) &&
    uint32b (Pb.Attrs m);
  normal _ := true |}.
#[export] Instance PaneRow_proto : Proto Pb.PaneRow := {|
  encodable m := utf8_valid (Pb.Text m) && list_encodable (Pb.Runs m);
  normal _ := true |}.
#[export] Instance PaneFrame_proto : Proto Pb.PaneFrame := {|
  encodable m := 
    uint32b (Pb.Cols m) && uint32b (Pb.Rows m) && uint32b (Pb.CursorX m) && uint32b (Pb.CursorY m) &&
    list_encodable (Pb.Lines m);
  normal _ := true |}.
#[export] Instance AgentDigest_proto : Proto Pb.AgentDigest := {|
  encodable m := 
    utf8_valid (Pb.ad_Headline m) && forallb utf8_valid (Pb.ad_Bullets m) &&
    option_encodable (Pb.ad_At m);
  normal _ := true |}.
#[export] Instance Agent_proto : Proto Pb.Agent := {|
  encodable m := 
    utf8_valid (Pb.Id m) && int32b (Pb.State m) && utf8_valid (Pb.Title m) && utf8_valid (Pb.Ask m) &&
    utf8_valid (Pb.AskId m) && utf8_valid (Pb.Model m) && int32b (Pb.CtxPct m) &&
    option_encodable (Pb.ag_Digest m) && utf8_valid (Pb.Now m) && option_encodable (Pb.NowAt m) &&
    option_encodable (Pb.LastEvent m);
  normal _ := true |}.
#[export] Instance Workspace_proto : Proto Pb.Workspace := {|
  encodable m := 
    utf8_valid (Pb.Name m) && utf8_valid (Pb.Branch m) && int32b (Pb.Attention m) &&
    list_encodable (Pb.Agents m);
  normal _ := true |}.
#[export] Instance Usage_proto : Proto Pb.Usage := {|
  encodable m := 
    utf8_valid (Pb.Mode m) && int32b (Pb.SessionPct m) && utf8_valid (Pb.SessionResets m) &&
    int32b (Pb.WeekAllPct m) && utf8_valid (Pb.WeekAllResets m) && utf8_valid (Pb.WeekModelName m) &&
    int32b (Pb.WeekModelPct m) && utf8_valid (Pb.WeekModelResets m) && option_encodable (Pb.us_At m);
  normal _ := true |}.
#[export] Instance Status_proto : Proto Pb.Status := {|
  encodable m := 
    utf8_valid (Pb.Hostname m) && utf8_valid (Pb.RookVersion m) && utf8_valid (Pb.HostId m) &&
    list_encodable (Pb.Workspaces m) && option_encodable (Pb.st_At m) &&
    option_encodable (Pb.st_Usage m);
  normal _ := true |}.
#[export] Instance Digest_proto : Proto Pb.Digest := {|
  encodable m := 
    utf8_valid (Pb.dg_Id m) && utf8_valid (Pb.SessionId m) && utf8_valid (Pb.dg_Headline m) &&
    forallb utf8_valid (Pb.dg_Bullets m) && utf8_valid (Pb.FullText m) && utf8_valid (Pb.Prompt m) &&
    utf8_valid (Pb.Reply m) && utf8_valid (Pb.ReplyState m) && option_encodable (Pb.dg_At m) &&
    utf8_valid (Pb.dg_Model m);
  normal _ := true |}.
#[export] Instance GetHostInfoRequest_proto : Proto GetHostInfoRequest := {|
  encodable _ := true;
  normal _ := true |}.
#[export] Instance GetHostInfoResponse_proto : Proto GetHostInfoResponse := {|
  encodable m := 
    utf8_valid (Server.hi_HostId m) && utf8_valid (Server.hi_HostName m) &&
    utf8_valid (Server.hi_TrustDomainId m) && forallb utf8_valid (Server.ProtocolVersions m);
  normal _ := true |}.
#[export] Instance PairRequest_proto : Proto PairRequest := {|
  encodable m := 
    utf8_valid (Server.pr_ProtocolVersion m) && utf8_valid (Server.PairingSecret m) &&
    utf8_valid (Server.DeviceName m) && utf8_valid (Server.DeviceModel m) &&
    forallb utf8_valid (Server.RequestedCapabilities m);
  normal _ := true |}.
#[export] Instance PairResponse_proto : Proto PairResponse := {|
  encodable m := 
    utf8_valid (Server.pp_DeviceId m) && utf8_valid (Server.pp_HostId m) &&
    utf8_valid (Server.pp_TrustDomainId m) && forallb utf8_valid (Server.GrantedCapabilities m);
  normal _ := true |}.
#[export] Instance ChallengeRequest_proto : Proto ChallengeRequest := {|
  encodable m := utf8_valid (Server.cq_DeviceId m);
  normal _ := true |}.
#[export] Instance ChallengeResponse_proto : Proto ChallengeResponse := {|
  encodable m := encodable (Server.cr_ExpiresAt m);
  normal _ := true |}.
#[export] Instance AuthenticateRequest_proto : Proto AuthenticateRequest := {|
  encodable m := utf8_valid (Server.ar_ProtocolVersion m) && utf8_valid (Server.ar_DeviceId m);
  normal _ := true |}.
#[export] Instance AuthenticateResponse_proto : Proto AuthenticateResponse := {|
  encodable m := 
    encodable (Server.at_ExpiresAt m) && forallb utf8_valid (Server.at_Capabilities m) &&
    utf8_valid (Server.at_TrustDomainId m);
  normal _ := true |}.
#[export] Instance GetStatusRequest_proto : Proto GetStatusRequest := {|
  encodable _ := true;
  normal _ := true |}.
#[export] Instance GetStatusResponse_proto : Proto GetStatusResponse := {|
  encodable m := encodable (Server.gs_Status m) && uint64b (Server.gs_Seq m);
  normal _ := true |}.
#[export] Instance WatchStatusRequest_proto : Proto WatchStatusRequest := {|
  encodable _ := true;
  normal _ := true |}.
#[export] Instance WatchStatusResponse_proto : Proto WatchStatusResponse := {|
  encodable m := int32b (Streams.ws_Kind m) && option_encodable (Streams.ws_Status m) && uint64b (Streams.ws_Seq m);
  normal _ := true |}.
#[export] Instance SubmitAnswerRequest_proto : Proto SubmitAnswerRequest := {|
  encodable m := utf8_valid (Server.sa_AskId m) && utf8_valid (Server.Text m);
  normal _ := true |}.
#[export] Instance SubmitAnswerResponse_proto : Proto SubmitAnswerResponse := {|
  encodable m := int32b (Server.sa_Disposition m) && utf8_valid (Server.sa_Note m);
  normal _ := true |}.
#[export] Instance SubmitCommandRequest_proto : Proto SubmitCommandRequest := {|
  encodable m := 
    int32b (Server.Kind m) && utf8_valid (Server.sc_SessionId m) && utf8_valid (Server.Workspace m) &&
    utf8_valid (Server.Prompt m);
  normal _ := true |}.
#[export] Instance SubmitCommandResponse_proto : Proto SubmitCommandResponse := {|
  encodable m := utf8_valid (Server.CommandId m) && int32b (Server.sr_Disposition m) && utf8_valid (Server.Note m);
  normal _ := true |}.
#[export] Instance GetDigestRequest_proto : Proto GetDigestRequest := {|
  encodable m := utf8_valid (Server.gd_SessionId m);
  normal _ := true |}.
#[export] Instance GetDigestResponse_proto : Proto GetDigestResponse := {|
  encodable m := option_encodable (gr_Digest m);
  normal _ := true |}.
#[export] Instance WatchPaneRequest_proto : Proto WatchPaneRequest := {|
  encodable m := utf8_valid (Server.wq_SessionId m);
  normal _ := true |}.
#[export] Instance WatchPaneResponse_proto : Proto WatchPaneResponse := {|
  encodable m := int32b (Streams.wp_Kind m) && option_encodable (Streams.wp_Frame m) && uint64b (Streams.wp_Seq m);
  normal _ := true |}.

(** The encodings of the messages. *)

Class LinkMessages := {
  GetHostInfoRequest_message :: Message GetHostInfoRequest;
  GetHostInfoResponse_message :: Message GetHostInfoResponse;
  PairRequest_message :: Message PairRequest;
  PairResponse_message :: Message PairResponse;
  ChallengeRequest_message :: Message ChallengeRequest;
  ChallengeResponse_message :: Message ChallengeResponse;
  AuthenticateRequest_message :: Message AuthenticateRequest;
  AuthenticateResponse_message :: Message AuthenticateResponse;
  GetStatusRequest_message :: Message GetStatusRequest;
  GetStatusResponse_message :: Message GetStatusResponse;
  WatchStatusRequest_message :: Message WatchStatusRequest;
  WatchStatusResponse_message :: Message WatchStatusResponse;
  SubmitAnswerRequest_message :: Message SubmitAnswerRequest;
  SubmitAnswerResponse_message :: Message SubmitAnswerResponse;
  SubmitCommandRequest_message :: Message SubmitCommandRequest;
  SubmitCommandResponse_message :: Message SubmitCommandResponse;
  GetDigestRequest_message :: Message GetDigestRequest;
  GetDigestResponse_message :: Message GetDigestResponse;
  WatchPaneRequest_message :: Message WatchPaneRequest;
  WatchPaneResponse_message :: Message WatchPaneResponse }.
Class LinkMessagesLaws `{LinkMessages} : Prop := {
  GetHostInfoRequest_laws :: MessageLaws GetHostInfoRequest;
  GetHostInfoResponse_laws :: MessageLaws GetHostInfoResponse;
  PairRequest_laws :: MessageLaws PairRequest;
  PairResponse_laws :: MessageLaws PairResponse;
  ChallengeRequest_laws :: MessageLaws ChallengeRequest;
  ChallengeResponse_laws :: MessageLaws ChallengeResponse;
  AuthenticateRequest_laws :: MessageLaws AuthenticateRequest;
  AuthenticateResponse_laws :: MessageLaws AuthenticateResponse;
  GetStatusRequest_laws :: MessageLaws GetStatusRequest;
  GetStatusResponse_laws :: MessageLaws GetStatusResponse;
  WatchStatusRequest_laws :: MessageLaws WatchStatusRequest;
  WatchStatusResponse_laws :: MessageLaws WatchStatusResponse;
  SubmitAnswerRequest_laws :: MessageLaws SubmitAnswerRequest;
  SubmitAnswerResponse_laws :: MessageLaws SubmitAnswerResponse;
  SubmitCommandRequest_laws :: MessageLaws SubmitCommandRequest;
  SubmitCommandResponse_laws :: MessageLaws SubmitCommandResponse;
  GetDigestRequest_laws :: MessageLaws GetDigestRequest;
  GetDigestResponse_laws :: MessageLaws GetDigestResponse;
  WatchPaneRequest_laws :: MessageLaws WatchPaneRequest;
  WatchPaneResponse_laws :: MessageLaws WatchPaneResponse }.

Module HostService.
Definition HostServiceName : bytes := str "rook.link.v1.HostService".
Definition HostServiceGetHostInfoProcedure : bytes := str "/rook.link.v1.HostService/GetHostInfo".
Definition HostServicePairProcedure : bytes := str "/rook.link.v1.HostService/Pair".
Definition HostServiceChallengeProcedure : bytes := str "/rook.link.v1.HostService/Challenge".
Definition HostServiceAuthenticateProcedure : bytes := str "/rook.link.v1.HostService/Authenticate".

Section service.
Context {S : Type} `{Connect S, LinkMessages}.

(** The interface a client has, and the one a server implements. *)
Record HostServiceClient := MkHostServiceClient {
  c_GetHostInfo : UnaryCall GetHostInfoRequest GetHostInfoResponse;
  c_Pair : UnaryCall PairRequest PairResponse;
  c_Challenge : UnaryCall ChallengeRequest ChallengeResponse;
  c_Authenticate : UnaryCall AuthenticateRequest AuthenticateResponse }.
Record HostServiceHandler := MkHostServiceHandler {
  GetHostInfo : UnaryCall GetHostInfoRequest GetHostInfoResponse;
  Pair : UnaryCall PairRequest PairResponse;
  Challenge : UnaryCall ChallengeRequest ChallengeResponse;
  Authenticate : UnaryCall AuthenticateRequest AuthenticateResponse }.

Record hostServiceClient := MkhostServiceClient {
  getHostInfo : Client GetHostInfoRequest GetHostInfoResponse;
  pair : Client PairRequest PairResponse;
  challenge : Client ChallengeRequest ChallengeResponse;
  authenticate : Client AuthenticateRequest AuthenticateResponse }.

Definition hostServiceClient_GetHostInfo (c : hostServiceClient) : UnaryCall GetHostInfoRequest GetHostInfoResponse :=
  fun ctx req => CallUnary (getHostInfo c) ctx req.
Definition hostServiceClient_Pair (c : hostServiceClient) : UnaryCall PairRequest PairResponse :=
  fun ctx req => CallUnary (pair c) ctx req.
Definition hostServiceClient_Challenge (c : hostServiceClient) : UnaryCall ChallengeRequest ChallengeResponse :=
  fun ctx req => CallUnary (challenge c) ctx req.
Definition hostServiceClient_Authenticate (c : hostServiceClient) : UnaryCall AuthenticateRequest
  AuthenticateResponse :=
  fun ctx req => CallUnary (authenticate c) ctx req.

Definition NewHostServiceClient (httpClient : HTTPClient) (baseURL : bytes) (opts : list ClientOption)
    : HostServiceClient :=
  let baseURL := TrimRight baseURL (str "/") in
  let hostServiceMethods := method_ByName (str "HostService") in
  let c := MkhostServiceClient
    (NewClient GetHostInfoRequest GetHostInfoResponse httpClient (baseURL ++ HostServiceGetHostInfoProcedure)
       [WithClientSchema (hostServiceMethods (str "GetHostInfo")); WithClientOptions opts])
    (NewClient PairRequest PairResponse httpClient (baseURL ++ HostServicePairProcedure)
       [WithClientSchema (hostServiceMethods (str "Pair")); WithClientOptions opts])
    (NewClient ChallengeRequest ChallengeResponse httpClient (baseURL ++ HostServiceChallengeProcedure)
       [WithClientSchema (hostServiceMethods (str "Challenge")); WithClientOptions opts])
    (NewClient AuthenticateRequest AuthenticateResponse httpClient (baseURL ++ HostServiceAuthenticateProcedure)
       [WithClientSchema (hostServiceMethods (str "Authenticate")); WithClientOptions opts]) in
  MkHostServiceClient (hostServiceClient_GetHostInfo c) (hostServiceClient_Pair c) (hostServiceClient_Challenge c)
    (hostServiceClient_Authenticate c).

Definition NewHostServiceHandler (svc : HostServiceHandler) (opts : list HandlerOption)
    : bytes * HTTPHandler Payload Output S :=
  let hostServiceMethods := method_ByName (str "HostService") in
  let hostServiceGetHostInfoHandler := NewUnaryHandler GetHostInfoRequest GetHostInfoResponse
    HostServiceGetHostInfoProcedure (GetHostInfo svc)
       [WithHandlerSchema (hostServiceMethods (str "GetHostInfo")); WithHandlerOptions opts] in
  let hostServicePairHandler := NewUnaryHandler PairRequest PairResponse HostServicePairProcedure (Pair svc)
       [WithHandlerSchema (hostServiceMethods (str "Pair")); WithHandlerOptions opts] in
  let hostServiceChallengeHandler := NewUnaryHandler ChallengeRequest ChallengeResponse
    HostServiceChallengeProcedure (Challenge svc)
       [WithHandlerSchema (hostServiceMethods (str "Challenge")); WithHandlerOptions opts] in
  let hostServiceAuthenticateHandler := NewUnaryHandler AuthenticateRequest AuthenticateResponse
    HostServiceAuthenticateProcedure (Authenticate svc)
       [WithHandlerSchema (hostServiceMethods (str "Authenticate")); WithHandlerOptions opts] in
  (str "/rook.link.v1.HostService/", fun r s =>
    if bool_decide (URL_Path r = HostServiceGetHostInfoProcedure) then ServeHTTP hostServiceGetHostInfoHandler r s
    else if bool_decide (URL_Path r = HostServicePairProcedure) then ServeHTTP hostServicePairHandler r s
    else if bool_decide (URL_Path r = HostServiceChallengeProcedure) then ServeHTTP hostServiceChallengeHandler r s
    else if bool_decide (URL_Path r = HostServiceAuthenticateProcedure) then ServeHTTP
      hostServiceAuthenticateHandler r s
    else http_NotFound r s).

(** [UnimplementedHostServiceHandler]. *)
Definition UnimplementedHostServiceHandler_GetHostInfo : UnaryCall GetHostInfoRequest GetHostInfoResponse :=
  fun _ _ => throw (NewError Server.Unimplemented (str "rook.link.v1.HostService.GetHostInfo is not implemented")).
Definition UnimplementedHostServiceHandler_Pair : UnaryCall PairRequest PairResponse :=
  fun _ _ => throw (NewError Server.Unimplemented (str "rook.link.v1.HostService.Pair is not implemented")).
Definition UnimplementedHostServiceHandler_Challenge : UnaryCall ChallengeRequest ChallengeResponse :=
  fun _ _ => throw (NewError Server.Unimplemented (str "rook.link.v1.HostService.Challenge is not implemented")).
Definition UnimplementedHostServiceHandler_Authenticate : UnaryCall AuthenticateRequest AuthenticateResponse :=
  fun _ _ => throw (NewError Server.Unimplemented (str "rook.link.v1.HostService.Authenticate is not implemented")).
Definition UnimplementedHostServiceHandler : HostServiceHandler :=
  MkHostServiceHandler UnimplementedHostServiceHandler_GetHostInfo UnimplementedHostServiceHandler_Pair
    UnimplementedHostServiceHandler_Challenge UnimplementedHostServiceHandler_Authenticate.
End service.

(** Over a connection, a client of the host service is its handler. Whatever
    slashes its base ends in, each of the four methods of a client built for a
    server that mounts the service runs the method of the same name, once, on
    the message and credential that were sent, and returns what that returned;
    so no two procedures are crossed. *)
Lemma host_reaches {S : Type} `{ConnectLaws S, LinkMessagesLaws} h o n (svc : HostServiceHandler) :
  origin_ok o = true -> serves h (NewHostServiceHandler svc []) ->
  let c := NewHostServiceClient (over h) (origin_url o ++ repeat x2f n) [] in
  unary_reaches id (c_GetHostInfo c) (GetHostInfo svc) /\ unary_reaches id (c_Pair c) (Pair svc) /\
  unary_reaches id (c_Challenge c) (Challenge svc) /\ unary_reaches id (c_Authenticate c) (Authenticate svc).
Proof.
  intros Ho Hs. split_and!; (eapply unary_call; [exact Ho|reflexivity|apply client_header_plain|]);
    intros x s; by rewrite Hs.
Qed.
End HostService.

Module LinkService.
Definition LinkServiceName : bytes := str "rook.link.v1.LinkService".
Definition LinkServiceGetStatusProcedure : bytes := str "/rook.link.v1.LinkService/GetStatus".
Definition LinkServiceWatchStatusProcedure : bytes := str "/rook.link.v1.LinkService/WatchStatus".
Definition LinkServiceSubmitAnswerProcedure : bytes := str "/rook.link.v1.LinkService/SubmitAnswer".
Definition LinkServiceSubmitCommandProcedure : bytes := str "/rook.link.v1.LinkService/SubmitCommand".
Definition LinkServiceGetDigestProcedure : bytes := str "/rook.link.v1.LinkService/GetDigest".
Definition LinkServiceWatchPaneProcedure : bytes := str "/rook.link.v1.LinkService/WatchPane".

Section service.
Context {S : Type} `{Connect S, LinkMessages}.

(** The interface a client has, and the one a server implements. *)
Record LinkServiceClient := MkLinkServiceClient {
  c_GetStatus : UnaryCall GetStatusRequest GetStatusResponse;
  c_WatchStatus : StreamCall WatchStatusRequest WatchStatusResponse;
  c_SubmitAnswer : UnaryCall SubmitAnswerRequest SubmitAnswerResponse;
  c_SubmitCommand : UnaryCall SubmitCommandRequest SubmitCommandResponse;
  c_GetDigest : UnaryCall GetDigestRequest GetDigestResponse;
  c_WatchPane : StreamCall WatchPaneRequest WatchPaneResponse }.
Record LinkServiceHandler := MkLinkServiceHandler {
  GetStatus : UnaryCall GetStatusRequest GetStatusResponse;
  WatchStatus : StreamServe WatchStatusRequest WatchStatusResponse;
  SubmitAnswer : UnaryCall SubmitAnswerRequest SubmitAnswerResponse;
  SubmitCommand : UnaryCall SubmitCommandRequest SubmitCommandResponse;
  GetDigest : UnaryCall GetDigestRequest GetDigestResponse;
  WatchPane : StreamServe WatchPaneRequest WatchPaneResponse }.

Record linkServiceClient := MklinkServiceClient {
  getStatus : Client GetStatusRequest GetStatusResponse;
  watchStatus : Client WatchStatusRequest WatchStatusResponse;
  submitAnswer : Client SubmitAnswerRequest SubmitAnswerResponse;
  submitCommand : Client SubmitCommandRequest SubmitCommandResponse;
  getDigest : Client GetDigestRequest GetDigestResponse;
  watchPane : Client WatchPaneRequest WatchPaneResponse }.

Definition linkServiceClient_GetStatus (c : linkServiceClient) : UnaryCall GetStatusRequest GetStatusResponse :=
  fun ctx req => CallUnary (getStatus c) ctx req.
Definition linkServiceClient_WatchStatus (c : linkServiceClient) : StreamCall WatchStatusRequest
  WatchStatusResponse :=
  fun ctx req => CallServerStream (watchStatus c) ctx req.
Definition linkServiceClient_SubmitAnswer (c : linkServiceClient) : UnaryCall SubmitAnswerRequest
  SubmitAnswerResponse :=
  fun ctx req => CallUnary (submitAnswer c) ctx req.
Definition linkServiceClient_SubmitCommand (c : linkServiceClient) : UnaryCall SubmitCommandRequest
  SubmitCommandResponse :=
  fun ctx req => CallUnary (submitCommand c) ctx req.
Definition linkServiceClient_GetDigest (c : linkServiceClient) : UnaryCall GetDigestRequest GetDigestResponse :=
  fun ctx req => CallUnary (getDigest c) ctx req.
Definition linkServiceClient_WatchPane (c : linkServiceClient) : StreamCall WatchPaneRequest WatchPaneResponse :=
  fun ctx req => CallServerStream (watchPane c) ctx req.

Definition NewLinkServiceClient (httpClient : HTTPClient) (baseURL : bytes) (opts : list ClientOption)
    : LinkServiceClient :=
  let baseURL := TrimRight baseURL (str "/") in
  let linkServiceMethods := method_ByName (str "LinkService") in
  let c := MklinkServiceClient
    (NewClient GetStatusRequest GetStatusResponse httpClient (baseURL ++ LinkServiceGetStatusProcedure)
       [WithClientSchema (linkServiceMethods (str "GetStatus")); WithClientOptions opts])
    (NewClient WatchStatusRequest WatchStatusResponse httpClient (baseURL ++ LinkServiceWatchStatusProcedure)
       [WithClientSchema (linkServiceMethods (str "WatchStatus")); WithClientOptions opts])
    (NewClient SubmitAnswerRequest SubmitAnswerResponse httpClient (baseURL ++ LinkServiceSubmitAnswerProcedure)
       [WithClientSchema (linkServiceMethods (str "SubmitAnswer")); WithClientOptions opts])
    (NewClient SubmitCommandRequest SubmitCommandResponse httpClient (baseURL ++ LinkServiceSubmitCommandProcedure)
       [WithClientSchema (linkServiceMethods (str "SubmitCommand")); WithClientOptions opts])
    (NewClient GetDigestRequest GetDigestResponse httpClient (baseURL ++ LinkServiceGetDigestProcedure)
       [WithClientSchema (linkServiceMethods (str "GetDigest")); WithClientOptions opts])
    (NewClient WatchPaneRequest WatchPaneResponse httpClient (baseURL ++ LinkServiceWatchPaneProcedure)
       [WithClientSchema (linkServiceMethods (str "WatchPane")); WithClientOptions opts]) in
  MkLinkServiceClient (linkServiceClient_GetStatus c) (linkServiceClient_WatchStatus c)
    (linkServiceClient_SubmitAnswer c) (linkServiceClient_SubmitCommand c) (linkServiceClient_GetDigest c)
      (linkServiceClient_WatchPane c).

Definition NewLinkServiceHandler (svc : LinkServiceHandler) (opts : list HandlerOption)
    : bytes * HTTPHandler Payload Output S :=
  let linkServiceMethods := method_ByName (str "LinkService") in
  let linkServiceGetStatusHandler := NewUnaryHandler GetStatusRequest GetStatusResponse
    LinkServiceGetStatusProcedure (GetStatus svc)
       [WithHandlerSchema (linkServiceMethods (str "GetStatus")); WithHandlerOptions opts] in
  let linkServiceWatchStatusHandler := NewServerStreamHandler WatchStatusRequest WatchStatusResponse
    LinkServiceWatchStatusProcedure (WatchStatus svc)
       [WithHandlerSchema (linkServiceMethods (str "WatchStatus")); WithHandlerOptions opts] in
  let linkServiceSubmitAnswerHandler := NewUnaryHandler SubmitAnswerRequest SubmitAnswerResponse
    LinkServiceSubmitAnswerProcedure (SubmitAnswer svc)
       [WithHandlerSchema (linkServiceMethods (str "SubmitAnswer")); WithHandlerOptions opts] in
  let linkServiceSubmitCommandHandler := NewUnaryHandler SubmitCommandRequest SubmitCommandResponse
    LinkServiceSubmitCommandProcedure (SubmitCommand svc)
       [WithHandlerSchema (linkServiceMethods (str "SubmitCommand")); WithHandlerOptions opts] in
  let linkServiceGetDigestHandler := NewUnaryHandler GetDigestRequest GetDigestResponse
    LinkServiceGetDigestProcedure (GetDigest svc)
       [WithHandlerSchema (linkServiceMethods (str "GetDigest")); WithHandlerOptions opts] in
  let linkServiceWatchPaneHandler := NewServerStreamHandler WatchPaneRequest WatchPaneResponse
    LinkServiceWatchPaneProcedure (WatchPane svc)
       [WithHandlerSchema (linkServiceMethods (str "WatchPane")); WithHandlerOptions opts] in
  (str "/rook.link.v1.LinkService/", fun r s =>
    if bool_decide (URL_Path r = LinkServiceGetStatusProcedure) then ServeHTTP linkServiceGetStatusHandler r s
    else if bool_decide (URL_Path r = LinkServiceWatchStatusProcedure) then ServeHTTP linkServiceWatchStatusHandler
      r s
    else if bool_decide (URL_Path r = LinkServiceSubmitAnswerProcedure) then ServeHTTP
      linkServiceSubmitAnswerHandler r s
    else if bool_decide (URL_Path r = LinkServiceSubmitCommandProcedure) then ServeHTTP
      linkServiceSubmitCommandHandler r s
    else if bool_decide (URL_Path r = LinkServiceGetDigestProcedure) then ServeHTTP linkServiceGetDigestHandler r s
    else if bool_decide (URL_Path r = LinkServiceWatchPaneProcedure) then ServeHTTP linkServiceWatchPaneHandler r s
    else http_NotFound r s).

(** [UnimplementedLinkServiceHandler]. *)
Definition UnimplementedLinkServiceHandler_GetStatus : UnaryCall GetStatusRequest GetStatusResponse :=
  fun _ _ => throw (NewError Server.Unimplemented (str "rook.link.v1.LinkService.GetStatus is not implemented")).
Definition UnimplementedLinkServiceHandler_WatchStatus : StreamServe WatchStatusRequest WatchStatusResponse :=
  fun _ _ _ => throw (NewError Server.Unimplemented (str "rook.link.v1.LinkService.WatchStatus is not implemented")).
Definition UnimplementedLinkServiceHandler_SubmitAnswer : UnaryCall SubmitAnswerRequest SubmitAnswerResponse :=
  fun _ _ => throw (NewError Server.Unimplemented (str "rook.link.v1.LinkService.SubmitAnswer is not implemented")).
Definition UnimplementedLinkServiceHandler_SubmitCommand : UnaryCall SubmitCommandRequest SubmitCommandResponse :=
  fun _ _ => throw (NewError Server.Unimplemented (str "rook.link.v1.LinkService.SubmitCommand is not implemented")).
Definition UnimplementedLinkServiceHandler_GetDigest : UnaryCall GetDigestRequest GetDigestResponse :=
  fun _ _ => throw (NewError Server.Unimplemented (str "rook.link.v1.LinkService.GetDigest is not implemented")).
Definition UnimplementedLinkServiceHandler_WatchPane : StreamServe WatchPaneRequest WatchPaneResponse :=
  fun _ _ _ => throw (NewError Server.Unimplemented (str "rook.link.v1.LinkService.WatchPane is not implemented")).
Definition UnimplementedLinkServiceHandler : LinkServiceHandler :=
  MkLinkServiceHandler UnimplementedLinkServiceHandler_GetStatus UnimplementedLinkServiceHandler_WatchStatus
    UnimplementedLinkServiceHandler_SubmitAnswer UnimplementedLinkServiceHandler_SubmitCommand
      UnimplementedLinkServiceHandler_GetDigest UnimplementedLinkServiceHandler_WatchPane.
End service.

(** The same for the session surface: four unary methods and two streams. *)
Lemma link_reaches {S : Type} `{ConnectLaws S, LinkMessagesLaws} h o n (svc : LinkServiceHandler) :
  origin_ok o = true -> serves h (NewLinkServiceHandler svc []) ->
  let c := NewLinkServiceClient (over h) (origin_url o ++ repeat x2f n) [] in
  unary_reaches id (c_GetStatus c) (GetStatus svc) /\ stream_reaches id (c_WatchStatus c) (WatchStatus svc) /\
  unary_reaches id (c_SubmitAnswer c) (SubmitAnswer svc) /\
  unary_reaches id (c_SubmitCommand c) (SubmitCommand svc) /\
  unary_reaches id (c_GetDigest c) (GetDigest svc) /\ stream_reaches id (c_WatchPane c) (WatchPane svc).
Proof.
  intros Ho Hs.
  split_and!; (first [eapply unary_call|eapply stream_call]; [exact Ho|reflexivity|apply client_header_plain|]);
    intros x s; by rewrite Hs.
Qed.
End LinkService.

(** The paths the two services answer at. *)
Definition host_procedures : list bytes := [HostService.HostServiceGetHostInfoProcedure;
  HostService.HostServicePairProcedure; HostService.HostServiceChallengeProcedure;
  HostService.HostServiceAuthenticateProcedure].
Definition link_procedures : list bytes := [LinkService.LinkServiceGetStatusProcedure;
  LinkService.LinkServiceWatchStatusProcedure; LinkService.LinkServiceSubmitAnswerProcedure;
  LinkService.LinkServiceSubmitCommandProcedure; LinkService.LinkServiceGetDigestProcedure;
  LinkService.LinkServiceWatchPaneProcedure].

(** A host that implements nothing says so, and a path that is no procedure
    does nothing. Every unary call of a client whose server mounts the two
    unimplemented handlers fails with the code Unimplemented and a text naming
    the method, and neither these calls nor the streams touch the state; a
    request to any other path below the services is a 404 that touches nothing,
    whatever implements them. *)
Theorem unimplemented_answers {S : Type} `{ConnectLaws S, LinkMessagesLaws} h o n :
  origin_ok o = true ->
  serves h (HostService.NewHostServiceHandler HostService.UnimplementedHostServiceHandler []) ->
  serves h (LinkService.NewLinkServiceHandler LinkService.UnimplementedLinkServiceHandler []) ->
  let url := origin_url o ++ repeat x2f n in
  let ch := HostService.NewHostServiceClient (over h) url [] in
  let cl := LinkService.NewLinkServiceClient (over h) url [] in
  (answers_unimplemented (str "rook.link.v1.HostService.GetHostInfo") (HostService.c_GetHostInfo ch) /\
   answers_unimplemented (str "rook.link.v1.HostService.Pair") (HostService.c_Pair ch) /\
   answers_unimplemented (str "rook.link.v1.HostService.Challenge") (HostService.c_Challenge ch) /\
   answers_unimplemented (str "rook.link.v1.HostService.Authenticate") (HostService.c_Authenticate ch)) /\
  (answers_unimplemented (str "rook.link.v1.LinkService.GetStatus") (LinkService.c_GetStatus cl) /\
   answers_unimplemented (str "rook.link.v1.LinkService.SubmitAnswer") (LinkService.c_SubmitAnswer cl) /\
   answers_unimplemented (str "rook.link.v1.LinkService.SubmitCommand") (LinkService.c_SubmitCommand cl) /\
   answers_unimplemented (str "rook.link.v1.LinkService.GetDigest") (LinkService.c_GetDigest cl)) /\
  leaves_state id (LinkService.c_WatchStatus cl) /\ leaves_state id (LinkService.c_WatchPane cl) /\
  forall host link rq s,
    (URL_Path rq ∉ host_procedures -> snd (HostService.NewHostServiceHandler host []) rq s = (WNotFound, s)) /\
    (URL_Path rq ∉ link_procedures -> snd (LinkService.NewLinkServiceHandler link []) rq s = (WNotFound, s)).
Proof.
  intros Ho Hh Hl url ch cl.
  destruct (HostService.host_reaches h o n _ Ho Hh) as (H1' & H2' & H3' & H4').
  destruct (LinkService.link_reaches h o n _ Ho Hl) as (L1 & L2 & L3 & L4 & L5 & L6).
  split_and!.
  1-8: eapply unimplemented_reached; [vm_compute; reflexivity|eassumption|reflexivity].
  1,2: by eapply state_left; [eassumption|].
  intros host link rq s. split; cbn [snd fst HostService.NewHostServiceHandler LinkService.NewLinkServiceHandler];
    intros Hno; rewrite !bool_decide_eq_false_2 by (intros E; apply Hno; rewrite E; unfold host_procedures, link_procedures; set_solver); done.
Qed.

(** ** An encoding of the messages

    Every message type is countable, so the in-process connect has an encoding. *)

#[local] Instance Timestamp_eq_dec : EqDecision EdgeProto.Timestamp.
Proof. solve_decision. Defined.
#[local] Instance Timestamp_countable : Countable EdgeProto.Timestamp.
Proof.
  apply (inj_countable'
    (fun x => (EdgeProto.Seconds x, EdgeProto.Nanos x))
    (fun '(a0, a1) => EdgeProto.MkTimestamp a0 a1)).
  by intros [].
Defined.

#[local] Instance pb_StyleRun_eq_dec : EqDecision Pb.StyleRun.
Proof. solve_decision. Defined.
#[local] Instance pb_StyleRun_countable : Countable Pb.StyleRun.
Proof.
  apply (inj_countable'
    (fun x => (Pb.Start x, Pb.Len x, Pb.Fg x, Pb.Bg x, Pb.Attrs x))
    (fun '(a0, a1, a2, a3, a4) => Pb.MkStyleRun a0 a1 a2 a3 a4)).
  by intros [].
Defined.

#[local] Instance pb_PaneRow_eq_dec : EqDecision Pb.PaneRow.
Proof. solve_decision. Defined.
#[local] Instance pb_PaneRow_countable : Countable Pb.PaneRow.
Proof.
  apply (inj_countable'
    (fun x => (Pb.Text x, Pb.Runs x))
    (fun '(a0, a1) => Pb.MkPaneRow a0 a1)).
  by intros [].
Defined.

#[local] Instance pb_PaneFrame_eq_dec : EqDecision Pb.PaneFrame.
Proof. solve_decision. Defined.
#[local] Instance pb_PaneFrame_countable : Countable Pb.PaneFrame.
Proof.
  apply (inj_countable'
    (fun x => (Pb.Cols x, Pb.Rows x, Pb.CursorX x, Pb.CursorY x, Pb.CursorVisible x, Pb.Lines x))
    (fun '(a0, a1, a2, a3, a4, a5) => Pb.MkPaneFrame a0 a1 a2 a3 a4 a5)).
  by intros [].
Defined.

#[local] Instance pb_AgentDigest_eq_dec : EqDecision Pb.AgentDigest.
Proof. solve_decision. Defined.
#[local] Instance pb_AgentDigest_countable : Countable Pb.AgentDigest.
Proof.
  apply (inj_countable'
    (fun x => (Pb.ad_Headline x, Pb.ad_Bullets x, Pb.ad_At x))
    (fun '(a0, a1, a2) => Pb.MkAgentDigest a0 a1 a2)).
  by intros [].
Defined.

#[local] Instance pb_Agent_eq_dec : EqDecision Pb.Agent.
Proof. solve_decision. Defined.
#[local] Instance pb_Agent_countable : Countable Pb.Agent.
Proof.
  apply (inj_countable'
    (fun x => (Pb.Id x, Pb.State x, Pb.Title x, Pb.Ask x, Pb.AskId x, Pb.Model x, Pb.CostUsd x, Pb.CtxPct x,
      Pb.ag_Digest x, Pb.Attached x, Pb.Now x, Pb.NowAt x, Pb.LastEvent x))
    (fun '(a0, a1, a2, a3, a4, a5, a6, a7, a8, a9, a10, a11, a12) => Pb.MkAgent a0 a1 a2 a3 a4 a5 a6 a7 a8 a9 a10
      a11 a12)).
  by intros [].
Defined.

#[local] Instance pb_Workspace_eq_dec : EqDecision Pb.Workspace.
Proof. solve_decision. Defined.
#[local] Instance pb_Workspace_countable : Countable Pb.Workspace.
Proof.
  apply (inj_countable'
    (fun x => (Pb.Name x, Pb.Branch x, Pb.Attention x, Pb.Agents x))
    (fun '(a0, a1, a2, a3) => Pb.MkWorkspace a0 a1 a2 a3)).
  by intros [].
Defined.

#[local] Instance pb_Usage_eq_dec : EqDecision Pb.Usage.
Proof. solve_decision. Defined.
#[local] Instance pb_Usage_countable : Countable Pb.Usage.
Proof.
  apply (inj_countable'
    (fun x => (Pb.Mode x, Pb.SessionPct x, Pb.SessionResets x, Pb.WeekAllPct x, Pb.WeekAllResets x,
      Pb.WeekModelName x, Pb.WeekModelPct x, Pb.WeekModelResets x, Pb.us_At x, Pb.AgentTodayUsd x, Pb.AgentWeekUsd x))
    (fun '(a0, a1, a2, a3, a4, a5, a6, a7, a8, a9, a10) => Pb.MkUsage a0 a1 a2 a3 a4 a5 a6 a7 a8 a9 a10)).
  by intros [].
Defined.

#[local] Instance pb_Status_eq_dec : EqDecision Pb.Status.
Proof. solve_decision. Defined.
#[local] Instance pb_Status_countable : Countable Pb.Status.
Proof.
  apply (inj_countable'
    (fun x => (Pb.Hostname x, Pb.RookVersion x, Pb.HostId x, Pb.Workspaces x, Pb.st_At x, Pb.st_Usage x))
    (fun '(a0, a1, a2, a3, a4, a5) => Pb.MkStatus a0 a1 a2 a3 a4 a5)).
  by intros [].
Defined.

#[local] Instance pb_Digest_eq_dec : EqDecision Pb.Digest.
Proof. solve_decision. Defined.
#[local] Instance pb_Digest_countable : Countable Pb.Digest.
Proof.
  apply (inj_countable'
    (fun x => (Pb.dg_Id x, Pb.SessionId x, Pb.dg_Headline x, Pb.dg_Bullets x, Pb.FullText x, Pb.Prompt x, Pb.Reply
      x, Pb.ReplyState x, Pb.dg_At x, Pb.dg_Model x, Pb.dg_CostUsd x))
    (fun '(a0, a1, a2, a3, a4, a5, a6, a7, a8, a9, a10) => Pb.MkDigest a0 a1 a2 a3 a4 a5 a6 a7 a8 a9 a10)).
  by intros [].
Defined.

#[local] Instance PairRequest_eq_dec : EqDecision Server.PairRequest.
Proof. solve_decision. Defined.
#[local] Instance PairRequest_countable : Countable Server.PairRequest.
Proof.
  apply (inj_countable'
    (fun x => (Server.pr_ProtocolVersion x, Server.PairingSecret x, Server.DevicePublicKey x, Server.DeviceName x,
      Server.DeviceModel x, Server.RequestedCapabilities x, Server.Proof_ x))
    (fun '(a0, a1, a2, a3, a4, a5, a6) => Server.MkPairRequest a0 a1 a2 a3 a4 a5 a6)).
  by intros [].
Defined.

#[local] Instance PairResponse_eq_dec : EqDecision Server.PairResponse.
Proof. solve_decision. Defined.
#[local] Instance PairResponse_countable : Countable Server.PairResponse.
Proof.
  apply (inj_countable'
    (fun x => (Server.pp_DeviceId x, Server.pp_HostId x, Server.pp_TrustDomainId x, Server.pp_HostPublicKey x,
      Server.GrantedCapabilities x))
    (fun '(a0, a1, a2, a3, a4) => Server.MkPairResponse a0 a1 a2 a3 a4)).
  by intros [].
Defined.

#[local] Instance GetHostInfoResponse_eq_dec : EqDecision Server.GetHostInfoResponse.
Proof. solve_decision. Defined.
#[local] Instance GetHostInfoResponse_countable : Countable Server.GetHostInfoResponse.
Proof.
  apply (inj_countable'
    (fun x => (Server.hi_HostId x, Server.hi_HostName x, Server.hi_TrustDomainId x, Server.ProtocolVersions x,
      Server.PairingOpen x, Server.hi_HostPublicKey x))
    (fun '(a0, a1, a2, a3, a4, a5) => Server.MkGetHostInfoResponse a0 a1 a2 a3 a4 a5)).
  by intros [].
Defined.

#[local] Instance ChallengeRequest_eq_dec : EqDecision Server.ChallengeRequest.
Proof. solve_decision. Defined.
#[local] Instance ChallengeRequest_countable : Countable Server.ChallengeRequest.
Proof.
  apply (inj_countable'
    (Server.cq_DeviceId)
    (Server.MkChallengeRequest)).
  by intros [].
Defined.

#[local] Instance ChallengeResponse_eq_dec : EqDecision Server.ChallengeResponse.
Proof. solve_decision. Defined.
#[local] Instance ChallengeResponse_countable : Countable Server.ChallengeResponse.
Proof.
  apply (inj_countable'
    (fun x => (Server.cr_Nonce x, Server.cr_ExpiresAt x))
    (fun '(a0, a1) => Server.MkChallengeResponse a0 a1)).
  by intros [].
Defined.

#[local] Instance AuthenticateRequest_eq_dec : EqDecision Server.AuthenticateRequest.
Proof. solve_decision. Defined.
#[local] Instance AuthenticateRequest_countable : Countable Server.AuthenticateRequest.
Proof.
  apply (inj_countable'
    (fun x => (Server.ar_ProtocolVersion x, Server.ar_DeviceId x, Server.ar_Nonce x, Server.ar_Signature x))
    (fun '(a0, a1, a2, a3) => Server.MkAuthenticateRequest a0 a1 a2 a3)).
  by intros [].
Defined.

#[local] Instance AuthenticateResponse_eq_dec : EqDecision Server.AuthenticateResponse.
Proof. solve_decision. Defined.
#[local] Instance AuthenticateResponse_countable : Countable Server.AuthenticateResponse.
Proof.
  apply (inj_countable'
    (fun x => (Server.SessionToken x, Server.at_ExpiresAt x, Server.at_Capabilities x, Server.at_TrustDomainId x))
    (fun '(a0, a1, a2, a3) => Server.MkAuthenticateResponse a0 a1 a2 a3)).
  by intros [].
Defined.

#[local] Instance GetStatusResponse_eq_dec : EqDecision Server.GetStatusResponse.
Proof. solve_decision. Defined.
#[local] Instance GetStatusResponse_countable : Countable Server.GetStatusResponse.
Proof.
  apply (inj_countable'
    (fun x => (Server.gs_Status x, Server.gs_Seq x))
    (fun '(a0, a1) => Server.MkGetStatusResponse a0 a1)).
  by intros [].
Defined.

#[local] Instance GetDigestRequest_eq_dec : EqDecision Server.GetDigestRequest.
Proof. solve_decision. Defined.
#[local] Instance GetDigestRequest_countable : Countable Server.GetDigestRequest.
Proof.
  apply (inj_countable'
    (Server.gd_SessionId)
    (Server.MkGetDigestRequest)).
  by intros [].
Defined.

#[local] Instance WatchPaneRequest_eq_dec : EqDecision Server.WatchPaneRequest.
Proof. solve_decision. Defined.
#[local] Instance WatchPaneRequest_countable : Countable Server.WatchPaneRequest.
Proof.
  apply (inj_countable'
    (Server.wq_SessionId)
    (Server.MkWatchPaneRequest)).
  by intros [].
Defined.

#[local] Instance SubmitAnswerRequest_eq_dec : EqDecision Server.SubmitAnswerRequest.
Proof. solve_decision. Defined.
#[local] Instance SubmitAnswerRequest_countable : Countable Server.SubmitAnswerRequest.
Proof.
  apply (inj_countable'
    (fun x => (Server.sa_AskId x, Server.Text x))
    (fun '(a0, a1) => Server.MkSubmitAnswerRequest a0 a1)).
  by intros [].
Defined.

#[local] Instance SubmitAnswerResponse_eq_dec : EqDecision Server.SubmitAnswerResponse.
Proof. solve_decision. Defined.
#[local] Instance SubmitAnswerResponse_countable : Countable Server.SubmitAnswerResponse.
Proof.
  apply (inj_countable'
    (fun x => (Server.sa_Disposition x, Server.sa_Note x))
    (fun '(a0, a1) => Server.MkSubmitAnswerResponse a0 a1)).
  by intros [].
Defined.

#[local] Instance SubmitCommandRequest_eq_dec : EqDecision Server.SubmitCommandRequest.
Proof. solve_decision. Defined.
#[local] Instance SubmitCommandRequest_countable : Countable Server.SubmitCommandRequest.
Proof.
  apply (inj_countable'
    (fun x => (Server.Kind x, Server.sc_SessionId x, Server.Workspace x, Server.Prompt x))
    (fun '(a0, a1, a2, a3) => Server.MkSubmitCommandRequest a0 a1 a2 a3)).
  by intros [].
Defined.

#[local] Instance SubmitCommandResponse_eq_dec : EqDecision Server.SubmitCommandResponse.
Proof. solve_decision. Defined.
#[local] Instance SubmitCommandResponse_countable : Countable Server.SubmitCommandResponse.
Proof.
  apply (inj_countable'
    (fun x => (Server.CommandId x, Server.sr_Disposition x, Server.Note x))
    (fun '(a0, a1, a2) => Server.MkSubmitCommandResponse a0 a1 a2)).
  by intros [].
Defined.

#[local] Instance WatchStatusResponse_eq_dec : EqDecision Streams.WatchStatusResponse.
Proof. solve_decision. Defined.
#[local] Instance WatchStatusResponse_countable : Countable Streams.WatchStatusResponse.
Proof.
  apply (inj_countable'
    (fun x => (Streams.ws_Kind x, Streams.ws_Status x, Streams.ws_Seq x))
    (fun '(a0, a1, a2) => Streams.MkWatchStatusResponse a0 a1 a2)).
  by intros [].
Defined.

#[local] Instance WatchPaneResponse_eq_dec : EqDecision Streams.WatchPaneResponse.
Proof. solve_decision. Defined.
#[local] Instance WatchPaneResponse_countable : Countable Streams.WatchPaneResponse.
Proof.
  apply (inj_countable'
    (fun x => (Streams.wp_Kind x, Streams.wp_Frame x, Streams.wp_Seq x))
    (fun '(a0, a1, a2) => Streams.MkWatchPaneResponse a0 a1 a2)).
  by intros [].
Defined.

#[local] Instance GetHostInfoRequest_eq_dec : EqDecision GetHostInfoRequest.
Proof. solve_decision. Defined.
#[local] Instance GetHostInfoRequest_countable : Countable GetHostInfoRequest.
Proof.
  apply (inj_countable'
    (fun _ => ())
    (fun _ => MkGetHostInfoRequest)).
  by intros [].
Defined.

#[local] Instance GetStatusRequest_eq_dec : EqDecision GetStatusRequest.
Proof. solve_decision. Defined.
#[local] Instance GetStatusRequest_countable : Countable GetStatusRequest.
Proof.
  apply (inj_countable'
    (fun _ => ())
    (fun _ => MkGetStatusRequest)).
  by intros [].
Defined.

#[local] Instance WatchStatusRequest_eq_dec : EqDecision WatchStatusRequest.
Proof. solve_decision. Defined.
#[local] Instance WatchStatusRequest_countable : Countable WatchStatusRequest.
Proof.
  apply (inj_countable'
    (fun _ => ())
    (fun _ => MkWatchStatusRequest)).
  by intros [].
Defined.

#[local] Instance GetDigestResponse_eq_dec : EqDecision GetDigestResponse.
Proof. solve_decision. Defined.
#[local] Instance GetDigestResponse_countable : Countable GetDigestResponse.
Proof.
  apply (inj_countable'
    (gr_Digest)
    (MkGetDigestResponse)).
  by intros [].
Defined.

Definition counted_LinkMessages : LinkMessages.
Proof. split; exact counted_message. Defined.
Lemma counted_LinkMessages_laws : LinkMessagesLaws (H := counted_LinkMessages).
Proof. split; exact counted_laws. Qed.

#[local] Existing Instance counted_LinkMessages.
#[local] Existing Instance counted_LinkMessages_laws.
#[local] Existing Instance loop_connect.
#[local] Existing Instance loop_wire.
#[local] Existing Instance loop_laws.

Definition localhost : Origin := MkOrigin (str "https") (str "127.0.0.1") (Some (str "4443")).

(** Both unimplemented services on one mux. *)
Definition unimplemented_mux : HTTPHandler (Header * bytes) loop_output nat :=
  mux_ServeHTTP (MkMux [HostService.NewHostServiceHandler HostService.UnimplementedHostServiceHandler [];
                        LinkService.NewLinkServiceHandler LinkService.UnimplementedLinkServiceHandler []]).

Lemma unimplemented_answers_witness :
  let c := LinkService.NewLinkServiceClient (S := nat) (over unimplemented_mux)
             (str "https://127.0.0.1:4443//") [] in
  LinkService.c_GetStatus c () (NewRequest MkGetStatusRequest) 7%nat =
    (Err (unimplemented_error (str "rook.link.v1.LinkService.GetStatus")), 7%nat).
Proof.
  intros c.
  assert (serves unimplemented_mux (HostService.NewHostServiceHandler HostService.UnimplementedHostServiceHandler []))
    as Hh by (intros rq s Hp Hc; by apply two_subtrees).
  assert (serves unimplemented_mux (LinkService.NewLinkServiceHandler LinkService.UnimplementedLinkServiceHandler []))
    as Hl by (intros rq s Hp Hc; by apply two_subtrees).
  pose proof (unimplemented_answers unimplemented_mux localhost 2 eq_refl Hh Hl) as (_ & (Hg & _) & _).
  apply (Hg () (NewRequest MkGetStatusRequest) 7%nat).
  split_and!; [reflexivity|apply map_Forall_empty|vm_compute; repeat split; reflexivity].
Defined.
