(* ===== verification/Handler.v ===== *)
(** * The server behind its HTTP handler (link/server.go, Handler)

    The server's methods as implementations of the two generated services, with
    the errors' texts, mounted on one multiplexer; what a remote client gets,
    and what any request at all can do.

    A stream's turns depend on its connection, so they are given by the call's
    context; the state a stream leaves is the one after those turns. *)

From stdpp Require Import gmap sets.
From S2P Require Import Prelude GoStrings GoOS GoURL Crypto Convert Http Connect LinkConnect.
From S2P Require Projection Identity Registry Pairing Tokens Hub PaneHub Server Streams.

(** ** Error texts

    Texts made by the operating system, by [fmt]'s quoting verb, by the JSON
    encoder and by the pane source are the library's or the embedder's. *)

Class Texts := {
  quoted : bytes -> bytes; os_text : oserr -> bytes; json_text : bytes; pane_source_text : bytes }.

Section texts.
Context `{Texts}.

Definition regerr_text (path : bytes) (e : Registry.regerr) : bytes :=
  match e with
  | Registry.ErrNotFound => str "registry: no such device"
  | Registry.ErrRevoked => str "registry: device is revoked"
  | Registry.ELacks d c => str "registry: device " ++ d ++ str " lacks " ++ c
  | Registry.EKeyLength n => str "registry: device key is " ++ itoa (Z.of_nat n) ++ str " bytes, want " ++
      itoa (Z.of_nat PublicKeySize)
  | Registry.ENoCapabilities => str "registry: no recognized capabilities requested"
  | Registry.EFileNotJSON => str "registry: " ++ path ++ str " is not JSON: " ++ json_text
  | Registry.EMarshal => json_text
  | Registry.ERegIO e => os_text e
  end.

Definition perror_text (e : Projection.perror) : bytes :=
  match e with
  | Projection.ErrBadAnswer => str "answer needs an askId (≤128 bytes) and text (≤4096 bytes)"
  | Projection.ErrAnswerConflict => str "that ask already has a pending answer, or the outbox is full"
  | Projection.ErrBadCommand => str "command needs a known kind and its target: sessionId (≤128 bytes) for compact/resume, workspace (≤200 bytes) and an optional prompt (≤4096 bytes) for spawn, sessionId plus prompt for say"
  | Projection.ErrCommandConflict => str "that command is already pending, or the outbox is full"
  end.

(** The registry's file error is [Open]'s alone, and no handler opens one. *)
Definition reason_text (r : Server.reason) : bytes :=
  match r with
  | Server.RVersion sent => str "host speaks " ++ Server.ProtocolVersion ++ str ", device sent " ++ quoted sent
  | Server.RDeviceKey => str "device key must be 32 bytes of Ed25519"
  | Server.RProof => str "pairing proof does not verify"
  | Server.RNoWindow => str "no open pairing window for that secret"
  | Server.RRegistry e => regerr_text [] e
  | Server.RUnknownDevice => str "unknown or revoked device"
  | Server.RRandom e => os_text e
  | Server.RChallenge => str "challenge is unknown, expired, or not yours"
  | Server.RAuthSignature => str "challenge signature does not verify"
  | Server.RNoToken => str "no link session token"
  | Server.RBadToken => str "session token is unknown or expired"
  | Server.RNoDigests => str "this host does not serve digests"
  | Server.RSessionID => str "session_id required"
  | Server.RNoDigest => str "no digest for that session"
  | Server.RNoPanes => str "this host does not stream panes"
  | Server.RWatchID => str "watch needs a session id (≤128 bytes)"
  | Server.RSource => pane_source_text
  | Server.RBadAnswer => perror_text Projection.ErrBadAnswer
  | Server.RBadCommand => perror_text Projection.ErrBadCommand
  | Server.RRevoked => str "device revoked"
  end.
End texts.

(** ** The two services *)

(** How an open stream's call goes on: whether its opening message is sent, and
    the turns that follow. *)
Class StreamTurns {S : Type} `{Connect S} := {
  opening_sent : Context -> bool;
  status_turns : Context -> list (Streams.sched (E := Hub.event));
  pane_turns : Context -> list (Streams.sched (E := Streams.pane_event));
  send_error : Error }.

Section handler.
Context `{Ed25519, Registry.RegistryLib, Server.Host, Texts, Connect Server.server, !StreamTurns}.

Definition to_connect (e : Server.rpcerr) : Error :=
  NewError (Server.e_code e) (reason_text (Server.e_reason e)).

(** [req.Header().Get("Authorization")] *)
Definition credential {A : Type} (req : Request A) : bytes := default [] (req_Header req !! Authorization).

Definition unary {Req Res : Type} (f : bytes -> Req -> SE Server.server Server.rpcerr Res) : UnaryCall Req Res :=
  fun _ req => map_err to_connect (r ← f (credential req) (Msg req); mret (NewResponse r)).

(** What a stream handler returns, when it has returned. *)
Definition stream_result {R : Type} (st : Streams.stream R) : SE Server.server Error unit :=
  match Streams.over st with
  | Some (Streams.EndError e) => throw (to_connect e)
  | Some Streams.EndSend => throw send_error
  | Some Streams.EndNil | None => mret ()
  end.

(** The loops, run on the server's hubs. *)
Definition run_status (sub : nat) (st : Streams.stream Streams.WatchStatusResponse)
    (turns : list (Streams.sched (E := Hub.event))) : SE Server.server Error (Streams.stream Streams.WatchStatusResponse) :=
  fun s => let '(h, st) := Streams.WatchStatus_loop sub (Server.hub s, st) turns in (Ok st, Server.set_hub h s).
Definition run_pane (k : bytes * nat) (st : Streams.stream Streams.WatchPaneResponse)
    (turns : list (Streams.sched (E := Streams.pane_event))) : SE Server.server Error (Streams.stream Streams.WatchPaneResponse) :=
  fun s => let '(h, st) := Streams.WatchPane_loop k (Server.panes s, st) turns in (Ok st, Server.set_panes h s).

Definition serve_WatchStatus : StreamServe WatchStatusRequest Streams.WatchStatusResponse := fun ctx req _ =>
  '(sub, st) ← map_err to_connect (Streams.WatchStatus (credential req) (opening_sent ctx));
  st ← run_status sub st (status_turns ctx);
  stream_result st.

Definition serve_WatchPane : StreamServe Server.WatchPaneRequest Streams.WatchPaneResponse := fun ctx req _ =>
  '(sub, st) ← map_err to_connect (Streams.WatchPane (credential req) (Msg req) (opening_sent ctx));
  st ← run_pane (TrimSpace (Server.wq_SessionId (Msg req)), sub) st (pane_turns ctx);
  stream_result st.

Definition host_service : HostService.HostServiceHandler :=
  HostService.MkHostServiceHandler
    (unary (fun _ (_ : GetHostInfoRequest) => Server.GetHostInfo))
    (unary (fun _ => Server.Pair)) (unary (fun _ => Server.Challenge)) (unary (fun _ => Server.Authenticate)).

Definition link_service : LinkService.LinkServiceHandler :=
  LinkService.MkLinkServiceHandler
    (unary (fun auth (_ : GetStatusRequest) => Server.GetStatus auth))
    serve_WatchStatus
    (unary Server.SubmitAnswer) (unary Server.SubmitCommand)
    (unary (fun auth m => d ← Server.GetDigest auth m; mret (MkGetDigestResponse (Some d))))
    serve_WatchPane.

Context `{!LinkMessages}.

(** [Handler]: both services on one mux. *)
Definition Handler {E : Type} : res E (HTTPHandler Payload Output Server.server) :=
  match Handle (HostService.NewHostServiceHandler host_service []) NewServeMux with
  | Ok mux =>
    match Handle (LinkService.NewLinkServiceHandler link_service []) mux with
    | Ok mux => Ok (mux_ServeHTTP mux)
    | Err e => Err e
    | Panic => Panic
    end
  | Err e => Err e
  | Panic => Panic
  end.
End handler.

(** ** The mux serves both services *)

Section served.
Context `{Ed25519, Registry.RegistryLib, Server.Host, Texts, ConnectLaws Server.server, !StreamTurns, !LinkMessages}.

Lemma Handler_mux {E : Type} : Handler (E := E) =
  Ok (mux_ServeHTTP (MkMux [HostService.NewHostServiceHandler host_service [];
                            LinkService.NewLinkServiceHandler link_service []])).
Proof. reflexivity. Qed.

Lemma Handler_serves {E : Type} h :
  Handler (E := E) = Ok h ->
  serves h (HostService.NewHostServiceHandler host_service []) /\
  serves h (LinkService.NewLinkServiceHandler link_service []).
Proof.
  rewrite Handler_mux. intros [= <-].
  split; intros rq s Hp Hc; by apply two_subtrees.
Qed.

(** ** Remote calls are local calls *)

(** A remote call of a server method, if it goes out: the state it leaves is
    the method's, and so is the response when that encodes (an internal error
    takes its place when it does not), or the error with its code and text. *)
Definition call_is_local {Req Res : Type} `{Message Req, Message Res} (call : UnaryCall Req Res)
    (f : bytes -> Req -> SE Server.server Server.rpcerr Res) : Prop :=
  forall ctx req s, goes_out ctx (req_Header req) (Msg req) ->
    let '(r, s') := f (credential req) (Msg req) s in
    snd (call ctx req s) = s' /\
    match r with
    | Ok v =>
      (encodes v -> exists v', fst (call ctx req s) = Ok v' /\ res_Msg v' = v) /\
      (encodable v = false -> exists text, fst (call ctx req s) = Err (NewError Server.Internal text))
    | Err e => exists text, fst (call ctx req s) = Err (NewError (Server.e_code e) text) /\
      (utf8_valid (reason_text (Server.e_reason e)) = true -> text = reason_text (Server.e_reason e))
    | Panic => True
    end.

Lemma unary_is_local {Req Res : Type} `{Message Req, Message Res} (call : UnaryCall Req Res) f :
  unary_reaches id call (unary f) -> call_is_local call f.
Proof.
  intros Hr ctx req s Hg. destruct (Hr ctx req s Hg) as (ctx' & req' & Hm & Ha & Hs & Ho).
  unfold unary, map_err in Hs, Ho. rewrite bind_eq in Hs, Ho.
  unfold credential in Hs, Ho. rewrite Ha, Hm in Hs, Ho. fold (credential req) in Hs, Ho. cbn [id] in Hs, Ho.
  unfold credential in Hs, Ho |- *.
  destruct (f (default [] (req_Header req !! Authorization)) (Msg req) s) as [[v|e|] s']; cbn in Hs, Ho; split; try done.
  - by rewrite Msg_NewResponse in Ho.
  - by apply Ho.
Qed.

(** C7: a remote call is the local call. For a host that serves its Handler,
    every unary method of the two generated clients, whatever slashes the base
    URL ends in, whose context lasts, whose headers travel as they are and whose
    message encodes (proto3 refuses strings that are not UTF-8), acts on the
    host as the server's method of that name does on the credential and message
    sent. It returns the same response when that encodes and an internal error,
    after the method has acted, when it does not; or an error with the same code
    and, if it is UTF-8, the same text. The two watch calls run the server's
    stream on what was sent. Nothing is crossed between the ten procedures. *)
Theorem remote_is_local {E : Type} `{!LinkMessagesLaws} h o n :
  Handler (E := E) = Ok h -> origin_ok o = true ->
  let url := origin_url o ++ repeat x2f n in
  let ch := HostService.NewHostServiceClient (over h) url [] in
  let cl := LinkService.NewLinkServiceClient (over h) url [] in
  call_is_local (HostService.c_GetHostInfo ch) (fun _ _ => Server.GetHostInfo) /\
  call_is_local (HostService.c_Pair ch) (fun _ => Server.Pair) /\
  call_is_local (HostService.c_Challenge ch) (fun _ => Server.Challenge) /\
  call_is_local (HostService.c_Authenticate ch) (fun _ => Server.Authenticate) /\
  call_is_local (LinkService.c_GetStatus cl) (fun auth _ => Server.GetStatus auth) /\
  call_is_local (LinkService.c_SubmitAnswer cl) Server.SubmitAnswer /\
  call_is_local (LinkService.c_SubmitCommand cl) Server.SubmitCommand /\
  call_is_local (LinkService.c_GetDigest cl)
    (fun auth m => d ← Server.GetDigest auth m; mret (MkGetDigestResponse (Some d))) /\
  stream_reaches id (LinkService.c_WatchStatus cl) serve_WatchStatus /\
  stream_reaches id (LinkService.c_WatchPane cl) serve_WatchPane.
Proof.
  intros Hh Ho url ch cl. destruct (Handler_serves h Hh) as [Hhost Hlink].
  destruct (HostService.host_reaches h o n _ Ho Hhost) as (H1' & H2' & H3' & H4').
  destruct (LinkService.link_reaches h o n _ Ho Hlink) as (L1 & L2 & L3 & L4 & L5 & L6).
  split_and!; first [by apply unary_is_local|assumption].
Qed.

(** ** Any request at all *)

(** What a request can come to, once decoded. *)
Inductive request :=
| QGetHostInfo | QPair (m : Server.PairRequest) | QChallenge (m : Server.ChallengeRequest)
| QAuthenticate (m : Server.AuthenticateRequest)
| QGetStatus (auth : bytes) | QSubmitAnswer (auth : bytes) (m : Server.SubmitAnswerRequest)
| QSubmitCommand (auth : bytes) (m : Server.SubmitCommandRequest)
| QGetDigest (auth : bytes) (m : Server.GetDigestRequest)
| QWatchStatus (auth : bytes) (ok : bool) (turns : list (Streams.sched (E := Hub.event)))
| QWatchPane (auth : bytes) (m : Server.WatchPaneRequest) (ok : bool)
    (turns : list (Streams.sched (E := Streams.pane_event))).

Definition request_path (q : request) : bytes :=
  match q with
  | QGetHostInfo => HostService.HostServiceGetHostInfoProcedure
  | QPair _ => HostService.HostServicePairProcedure
  | QChallenge _ => HostService.HostServiceChallengeProcedure
  | QAuthenticate _ => HostService.HostServiceAuthenticateProcedure
  | QGetStatus _ => LinkService.LinkServiceGetStatusProcedure
  | QSubmitAnswer _ _ => LinkService.LinkServiceSubmitAnswerProcedure
  | QSubmitCommand _ _ => LinkService.LinkServiceSubmitCommandProcedure
  | QGetDigest _ _ => LinkService.LinkServiceGetDigestProcedure
  | QWatchStatus _ _ _ => LinkService.LinkServiceWatchStatusProcedure
  | QWatchPane _ _ _ _ => LinkService.LinkServiceWatchPaneProcedure
  end.

(** A watch call, to the end of its turns. *)
Definition watch_status (auth : bytes) (ok : bool) (turns : list (Streams.sched (E := Hub.event)))
    (s : Server.server) : Server.server :=
  match Streams.WatchStatus auth ok s with
  | (Ok (sub, st), s) => Server.set_hub (fst (Streams.WatchStatus_loop sub (Server.hub s, st) turns)) s
  | (_, s) => s
  end.
Definition watch_pane (auth : bytes) (m : Server.WatchPaneRequest) (ok : bool)
    (turns : list (Streams.sched (E := Streams.pane_event))) (s : Server.server) : Server.server :=
  match Streams.WatchPane auth m ok s with
  | (Ok (sub, st), s) =>
    Server.set_panes (fst (Streams.WatchPane_loop (TrimSpace (Server.wq_SessionId m), sub)
                             (Server.panes s, st) turns)) s
  | (_, s) => s
  end.

Definition serve_request (q : request) (s : Server.server) : Server.server :=
  match q with
  | QGetHostInfo => snd (Server.GetHostInfo s)
  | QPair m => snd (Server.Pair m s)
  | QChallenge m => snd (Server.Challenge m s)
  | QAuthenticate m => snd (Server.Authenticate m s)
  | QGetStatus auth => snd (Server.GetStatus auth s)
  | QSubmitAnswer auth m => snd (Server.SubmitAnswer auth m s)
  | QSubmitCommand auth m => snd (Server.SubmitCommand auth m s)
  | QGetDigest auth m => snd (Server.GetDigest auth m s)
  | QWatchStatus auth ok turns => watch_status auth ok turns s
  | QWatchPane auth m ok turns => watch_pane auth m ok turns s
  end.

Lemma unary_state {Req Res : Type} (f : bytes -> Req -> SE Server.server Server.rpcerr Res) ctx req s :
  snd (unary f ctx req s) = snd (f (credential req) (Msg req) s).
Proof. unfold unary, map_err. rewrite bind_eq. by destruct (f _ _ s) as [[]]. Qed.

Lemma serve_WatchStatus_state ctx req stream s :
  snd (serve_WatchStatus ctx req stream s) =
  watch_status (credential req) (opening_sent ctx) (status_turns ctx) s.
Proof.
  unfold serve_WatchStatus, watch_status, map_err. rewrite bind_eq.
  destruct (Streams.WatchStatus _ _ s) as [[[sub st]|e|] s']; cbn [fst snd res_map_err]; [|done..]. rewrite bind_eq. unfold run_status.
  destruct (Streams.WatchStatus_loop _ _ _) as [h st']. cbn [fst snd].
  unfold stream_result. by destruct (Streams.over st') as [[]|].
Qed.

Lemma serve_WatchPane_state ctx req stream s :
  snd (serve_WatchPane ctx req stream s) =
  watch_pane (credential req) (Msg req) (opening_sent ctx) (pane_turns ctx) s.
Proof.
  unfold serve_WatchPane, watch_pane, map_err. rewrite bind_eq.
  destruct (Streams.WatchPane _ _ _ s) as [[[sub st]|e|] s']; cbn [fst snd res_map_err]; [|done..]. rewrite bind_eq. unfold run_pane.
  destruct (Streams.WatchPane_loop _ _ _) as [h st']. cbn [fst snd].
  unfold stream_result. by destruct (Streams.over st') as [[]|].
Qed.

Lemma GetDigest_state auth m s :
  snd ((d ← Server.GetDigest auth m; mret (MkGetDigestResponse (Some d))) s) = snd (Server.GetDigest auth m s).
Proof. rewrite bind_eq. by destruct (Server.GetDigest auth m s) as [[]]. Qed.

(** One branch of the dispatch. *)
Ltac which_request Hpath :=
  let go q := (eexists q; split; [rewrite Hpath; reflexivity|]; eassumption) in
  first [ go (QGetHostInfo) | go open_constr:(QPair _) | go open_constr:(QChallenge _)
        | go open_constr:(QAuthenticate _) | go open_constr:(QGetStatus _)
        | go open_constr:(QSubmitAnswer _ _) | go open_constr:(QSubmitCommand _ _)
        | go open_constr:(QGetDigest _ _) | go open_constr:(QWatchStatus _ _ _)
        | go open_constr:(QWatchPane _ _ _ _) ].
Ltac serve_case Hpath rq s :=
  lazymatch goal with
  | |- context [ServeHTTP (NewUnaryHandler _ _ ?proc ?impl [WithHandlerSchema ?d; _]) rq s] =>
    let Hs := fresh in
    destruct (serve_unary_state proc impl d rq s) as [Hs|(ctx & req & Hs)];
    [left; exact Hs|right; rewrite unary_state, ?GetDigest_state in Hs]
  | |- context [ServeHTTP (NewServerStreamHandler _ _ ?proc ?impl [WithHandlerSchema ?d; _]) rq s] =>
    let Hs := fresh in
    destruct (serve_stream_state proc impl d rq s) as [Hs|(ctx & req & stream & Hs)];
    [left; exact Hs|right; rewrite ?serve_WatchStatus_state, ?serve_WatchPane_state in Hs]
  end; which_request Hpath.

(** Whatever request arrives, served or refused, well-formed or not: the state
    is untouched, or it is what one server method, the one its path names, left. *)
Lemma any_request {E : Type} h rq s :
  Handler (E := E) = Ok h ->
  snd (h rq s) = s \/ exists q, request_path q = URL_Path rq /\ snd (h rq s) = serve_request q s.
Proof.
  rewrite Handler_mux. intros [= <-].
  destruct (mux_ServeHTTP_cases (MkMux [HostService.NewHostServiceHandler host_service [];
    LinkService.NewLinkServiceHandler link_service []]) rq s) as [Hs|(ph & Hin & _ & ->)]; [by left|].
  cbn [patterns] in Hin. apply elem_of_cons in Hin as [->|[->|Hin%elem_of_nil]%elem_of_cons]; [| |done].
  all: cbn [snd HostService.NewHostServiceHandler LinkService.NewLinkServiceHandler].
  - cbn [host_service HostService.GetHostInfo HostService.Pair HostService.Challenge HostService.Authenticate].
    repeat (case_bool_decide as Hpath; [serve_case Hpath rq s|clear Hpath]). by left.
  - cbn [link_service LinkService.GetStatus LinkService.WatchStatus LinkService.SubmitAnswer
      LinkService.SubmitCommand LinkService.GetDigest LinkService.WatchPane].
    repeat (case_bool_decide as Hpath; [serve_case Hpath rq s|clear Hpath]). by left.
Qed.
End served.

(** ** Witness *)

#[local] Existing Instances Registry.toy_registry_lib Server.toy_host.
#[local] Existing Instances counted_LinkMessages counted_LinkMessages_laws.
#[local] Existing Instances loop_connect loop_wire loop_laws.
#[local] Instance toy_texts : Texts := {| quoted s := s; os_text _ := []; json_text := []; pane_source_text := [] |}.
#[local] Instance toy_turns : StreamTurns (S := Server.server) := {|
  opening_sent _ := true; status_turns _ := []; pane_turns _ := []; send_error := (Server.Unavailable, []) |}.

Definition host_handler : HTTPHandler (Payload (S := Server.server)) (Output (S := Server.server)) Server.server :=
  mux_ServeHTTP (MkMux [HostService.NewHostServiceHandler host_service [];
                        LinkService.NewLinkServiceHandler link_service []]).

Lemma remote_is_local_witness :
  let c := LinkService.NewLinkServiceClient (over host_handler) (str "https://127.0.0.1:4443/") [] in
  let auth := Server.bearerPrefix ++ str "t" in
  let req : Request GetStatusRequest := ({[Authorization := auth]}, MkGetStatusRequest) in
  exists v, fst (Server.GetStatus auth Server.session_of) = Ok v /\
    fst (LinkService.c_GetStatus c () req Server.session_of) = Ok v.
Proof.
  intros c auth req.
  assert (Handler (E := unit) = Ok host_handler) as Hh by exact Handler_mux.
  assert (origin_ok localhost = true) as Ho by reflexivity.
  pose proof (remote_is_local host_handler localhost 1 Hh Ho) as Hr.
  destruct Hr as (_ & _ & _ & _ & Hs & _).
  specialize (Hs () req Server.session_of). cbv beta in Hs.
  assert (goes_out (S := Server.server) (Req := GetStatusRequest) () (req_Header req) (Msg req)) as Hg.
  { split_and!; [reflexivity| |vm_compute; repeat split; reflexivity].
    apply map_Forall_singleton. split; [reflexivity|vm_compute; reflexivity]. }
  specialize (Hs Hg).
  change (credential req) with auth in Hs.
  assert (match fst (Server.GetStatus auth Server.session_of) with Ok v => encodable v | _ => false end = true)
    as Hen by (vm_compute; reflexivity).
  destruct (Server.GetStatus auth Server.session_of) as [[v|e|] s']; [|done..]. cbn [fst] in Hen.
  destruct Hs as (_ & Hs & _). destruct Hs as (v' & Hok & <-); [done|]. exists v'. split; [done|exact Hok].
Defined.
