(* ===== verification/Trust.v ===== *)
(** * Where authority comes from (the whole host, over time)

    A host's life is a sequence of requests at its HTTP handler and of calls the
    embedding program makes: opening and closing the pairing window, publishing,
    revoking, editing capabilities. The theorem is about every such life: what
    reached the executor was asked for by a device that had authenticated, that
    had paired before, through a window the embedder had opened before that. *)

From stdpp Require Import gmap sets.
From S2P Require Import Prelude GoStrings BaseN Json GoTime GoOS GoURL Crypto Convert Http Connect LinkConnect Handler.
From S2P Require Projection Identity Registry Pairing Tokens Hub PaneHub Server Streams.
Import Server (server, known, answer_verifies, requested_caps, tnow, tick).

(** ** What most steps leave alone *)

(** Entries of a book, in memory and in its file, keep their key, id and
    tombstone, and none is added. *)
Definition same_key (d d' : Registry.Device) : Prop :=
  Registry.d_PublicKey d' = Registry.d_PublicKey d /\ Registry.d_ID d' = Registry.d_ID d /\
  (is_Some (Registry.d_RevokedAt d) -> Registry.d_RevokedAt d' = Registry.d_RevokedAt d).
Definition book_keeps (b b' : Registry.RState) : Prop :=
  forall dev, option_Forall2 same_key (Registry.devices b !! dev) (Registry.devices b' !! dev).

(** A property of an entry that survives edits and the file. *)
Record durable (P : bytes -> Registry.Device -> Prop) : Prop := MkDurable {
  du_carried : Registry.carried P;
  du_same : forall dev d d', same_key d d' -> P dev d -> P dev d' }.

Definition file_keeps (b b' : Registry.RState) : Prop :=
  forall P, durable P -> Registry.everywhere P b -> Registry.everywhere P b'.

#[export] Instance same_key_preorder : PreOrder same_key.
Proof.
  split; [by intros d|]. intros d1 d2 d3 (Hk & Hi & Hr) (Hk' & Hi' & Hr'). split_and!; [congruence..|].
  intros Hd. rewrite Hr'; [by apply Hr|]. by rewrite Hr.
Qed.
Lemma book_keeps_refl b : book_keeps b b.
Proof. intros dev. destruct (Registry.devices b !! dev); by repeat constructor. Qed.
Lemma book_keeps_trans b1 b2 b3 : book_keeps b1 b2 -> book_keeps b2 b3 -> book_keeps b1 b3.
Proof.
  intros H12 H23 dev. pose proof (H23 dev) as H. destruct (H12 dev) as [d1 d2 Hk|]; [|exact H].
  inversion_clear H as [? d3 Hk'|]. constructor. by etrans.
Qed.
Lemma book_keeps_same b b' dev d' : book_keeps b b' -> Registry.devices b' !! dev = Some d' ->
  exists d, Registry.devices b !! dev = Some d /\ same_key d d'.
Proof. intros Hk Hd. pose proof (Hk dev) as H. rewrite Hd in H. inversion_clear H as [d ? Hs|]. eauto. Qed.
Lemma book_keeps_back b b' dev d' : book_keeps b b' -> Registry.devices b' !! dev = Some d' ->
  exists d, Registry.devices b !! dev = Some d /\
    Registry.d_PublicKey d' = Registry.d_PublicKey d /\ Registry.d_ID d' = Registry.d_ID d.
Proof. intros Hk Hd. destruct (book_keeps_same _ _ _ _ Hk Hd) as (d & ? & ? & ? & _). eauto. Qed.

Lemma book_keeps_devices b b' : Registry.devices b' = Registry.devices b -> book_keeps b b'.
Proof. intros E dev. rewrite E. apply book_keeps_refl. Qed.
Lemma everywhere_disk P b w :
  disk w = disk (Registry.rs_world b) -> Registry.everywhere P b -> Registry.everywhere P (Registry.put_world w b).
Proof. intros Hw [Hb Hf]. split; [done|]. cbn. by rewrite Hw. Qed.

(** Every registry method but [Add] keeps the book's keys. *)
Definition keeps (op : Registry.regop) : Prop := match op with Registry.OAdd _ => False | _ => True end.

Section book.
Context `{Registry.RegistryLibLaws}.

Lemma op_keeps op b : keeps op -> book_keeps b (snd (Registry.run_op op b)).
Proof.
  intros Hop dev. rewrite (proj1 (Registry.run_op_devices op b)). unfold Registry.op_book.
  destruct (Registry.op_refusal _ _); [apply book_keeps_refl|].
  assert (forall (f : Registry.Device -> Registry.Device) k, (forall d, same_key d (f d)) ->
    option_Forall2 same_key (Registry.devices b !! dev) (alter f k (Registry.devices b) !! dev)) as Halter.
  { intros f k Hf. destruct (decide (k = dev)) as [->|].
    - rewrite lookup_alter_eq. by destruct (_ !! dev); constructor.
    - rewrite lookup_alter_ne by done. apply book_keeps_refl. }
  destruct op as [d|k caps|k t|k t]; [done|..]; apply Halter; intros d; [by destruct d..|].
  destruct (Registry.Revoked d) eqn:Hr; [done|]. split; [by destruct d|]. split; [by destruct d|].
  unfold Registry.Revoked in Hr. apply bool_decide_eq_false in Hr. intros [t' Ht]. destruct Hr. by rewrite Ht.
Qed.

(** So it stays in the file, too. *)
Lemma op_file op b : keeps op -> file_keeps b (snd (Registry.run_op op b)).
Proof.
  intros Hop P [Hc Hs] HP. apply Registry.run_op_everywhere; [done..|].
  pose proof (op_keeps op b Hop) as Hk. rewrite <- (proj1 (Registry.run_op_devices op b)).
  intros dev d' Hd'. destruct (book_keeps_same _ _ _ _ Hk Hd') as (d & Hd & Hkey).
  apply (Hs dev d d'); [done|]. by apply HP.
Qed.

Lemma evolves_keeps b b' : Registry.evolves keeps b b' -> book_keeps b b' /\ file_keeps b b'.
Proof.
  induction 1 as [|b' w _ [Hb Hf] Hw|b' op _ [Hb Hf] Hop]; [split; [apply book_keeps_refl|by intros P]|..].
  - split; [by eapply book_keeps_trans, book_keeps_devices|]. intros P HP Hx. apply everywhere_disk; auto.
  - split; [by eapply book_keeps_trans, op_keeps|]. intros P HP Hx. apply (op_file _ _ Hop P HP); auto.
Qed.
End book.

(** A device id is plain text. *)
Lemma mended_DeviceID pub : mended (Identity.DeviceIDFor pub) = Identity.DeviceIDFor pub.
Proof. apply unquote_json_escape, Identity.utf8_valid_ascii, Identity.Base32Lower_ascii. Qed.

(** Drawing octets leaves the disk alone. *)
Lemma nonce_mint_disk dev t n w : disk (snd (Tokens.nonce_mint dev t n w)) = disk w.
Proof. unfold Tokens.nonce_mint, rand_Read. rewrite bind_eq. by destruct (entropy _ _). Qed.
Lemma rand_disk n w : disk (snd (rand_Read n w)) = disk w.
Proof. apply keeps_files_rand. Qed.

Lemma resolve_subset tok t ts : Tokens.sessions (snd (Tokens.token_resolve tok t ts)) ⊆ Tokens.sessions ts.
Proof.
  unfold Tokens.token_resolve. destruct (_ !! tok) as [x|]; [|done].
  destruct (negb _); [apply delete_subseteq|done].
Qed.

Lemma drop_subset d ts : Tokens.sessions (Tokens.token_dropDevice d ts) ⊆ Tokens.sessions ts.
Proof. apply map_filter_subseteq. Qed.

(** The window, the effects and the identity stay; tokens only go; the book is
    changed, and saved, by methods that [may] run. *)
Record quiet_by `{Registry.RegistryLib} (may : Registry.regop -> Prop) (s s' : server) : Prop := MkQuiet {
  q_id : Server.id s' = Server.id s;
  q_pairs : Server.pairs s' = Server.pairs s;
  q_ops : Registry.evolves may (Server.book s) (Server.book s');
  q_tokens : Tokens.sessions (Server.tokens s') ⊆ Tokens.sessions (Server.tokens s);
  q_effects : Server.effects s' = Server.effects s }.
Arguments q_id {_ _} _ _ _.
Arguments q_pairs {_ _} _ _ _.
Arguments q_ops {_ _} _ _ _.
Arguments q_tokens {_ _} _ _ _.
Arguments q_effects {_ _} _ _ _.
Abbreviation quiet := (quiet_by keeps).

(** Steps that at most touch devices. *)
Class Touching (may : Registry.regop -> Prop) : Prop := touches : forall dev t, may (Registry.OTouch dev t).
#[export] Instance keeps_touching : Touching keeps.
Proof. by intros dev t. Qed.

#[export] Existing Instance Registry.evolves_preorder.

Section quiet.
Context `{Ed25519, Registry.RegistryLibLaws, Server.Host} {may : Registry.regop -> Prop}.

#[export] Instance quiet_preorder : PreOrder (quiet_by may).
Proof.
  split; [by intros s; split|]. intros s1 s2 s3 [] []. split; [congruence|congruence|by etrans|by etrans|congruence].
Qed.

Lemma q_book s s' : quiet s s' -> book_keeps (Server.book s) (Server.book s').
Proof. intros Hq. apply evolves_keeps, Hq. Qed.
Lemma q_file s s' : quiet s s' -> file_keeps (Server.book s) (Server.book s').
Proof. intros Hq. apply evolves_keeps, Hq. Qed.

(** Setting anything but the window, the book's devices, the tokens and the
    effects is quiet. *)
Ltac quiet_fields := split; [done|done|exact (Registry.ev_refl _ _)|done|done].

Lemma quiet_world w s : disk w = disk (Server.world s) -> quiet_by may s (Server.set_world w s).
Proof. intros Hw. split; [done|done|exact (Registry.evolves_world may w _ Hw)|done|done]. Qed.
Lemma quiet_tick s : quiet_by may s (tick s). Proof. by apply quiet_world. Qed.
Lemma quiet_nonces n s : quiet_by may s (Server.set_nonces n s). Proof. quiet_fields. Qed.
Lemma quiet_hub h s : quiet_by may s (Server.set_hub h s). Proof. quiet_fields. Qed.
Lemma quiet_panes h s : quiet_by may s (Server.set_panes h s). Proof. quiet_fields. Qed.

Lemma quiet_authorize auth s : quiet_by may s (Server.after_authorize auth s).
Proof.
  unfold Server.after_authorize. destruct (negb _); [done|].
  etrans; [apply quiet_tick|]. split; [done|done|exact (Registry.ev_refl _ _)|apply resolve_subset|done].
Qed.

Lemma quiet_op op s : may op -> quiet_by may s (Server.set_book (snd (Registry.run_op op (Server.book s))) s).
Proof. intros Hop. split; [done|done|by apply Registry.evolves_op|done|done]. Qed.

Context `{!Touching may}.

Lemma quiet_touched dev s : quiet_by may s (Server.touched dev s).
Proof.
  unfold Server.touched. etrans; [apply quiet_tick|].
  exact (quiet_op (Registry.OTouch dev (tnow s)) (tick s) (touches _ _)).
Qed.

Lemma quiet_drop dev s : quiet_by may s (Server.drop_device dev s).
Proof. split; [done|done|exact (Registry.ev_refl _ _)|apply drop_subset|done]. Qed.

(** ** The handlers that are quiet *)

Lemma quiet_GetHostInfo s : quiet_by may s (snd (Server.GetHostInfo s)).
Proof.
  unfold Server.GetHostInfo. rewrite gets_bind, or_panic_bind. destruct (Identity.HostID _); [|done].
  rewrite gets_bind, Server.now_bind, gets_bind, or_panic_bind.
  destruct (Identity.PublicKey _); apply quiet_tick.
Qed.

Lemma quiet_Challenge m s : quiet_by may s (snd (Server.Challenge m s)).
Proof.
  unfold Server.Challenge. rewrite Server.known_device_bind. destruct (known _ s) as [d|]; [|done].
  rewrite Server.now_bind. etrans; [apply quiet_tick|]. rewrite bind_eq. unfold Server.mint_nonce.
  match goal with |- context [Tokens.nonce_mint ?d ?t ?n ?w] => pose proof (nonce_mint_disk d t n w) as Hw end.
  destruct (Tokens.nonce_mint _ _ _ _) as [[[[n exp] ns]|e|] w]; [|by apply quiet_world..].
  etrans; [by apply (quiet_world w)|apply quiet_nonces].
Qed.

Lemma quiet_GetStatus auth s : quiet_by may s (snd (Server.GetStatus auth s)).
Proof.
  unfold Server.GetStatus. rewrite Server.authorize_bind.
  destruct (Server.authorized _ _ s); apply quiet_authorize.
Qed.

Lemma quiet_GetDigest auth m s : quiet_by may s (snd (Server.GetDigest auth m s)).
Proof.
  unfold Server.GetDigest. rewrite Server.authorize_bind.
  destruct (Server.authorized _ _ s); [|apply quiet_authorize..]. rewrite gets_bind.
  destruct (Server.digests _) as [look|]; [|apply quiet_authorize]. destruct (_ || _); [apply quiet_authorize|].
  destruct (look _); apply quiet_authorize.
Qed.

Lemma quiet_watch_status auth ok turns s : quiet_by may s (watch_status auth ok turns s).
Proof.
  unfold watch_status, Streams.WatchStatus, Server.WatchStatus_start. rewrite bind_eq, Server.authorize_bind.
  destruct (Server.authorized _ _ s) as [dev|e|]; [|apply quiet_authorize..].
  etrans; [apply quiet_authorize|]. unfold Server.watch_open, Server.locked.
  destruct (Hub.subscribe _ _) as [[sub o] h]. destruct (Streams.begin _ _ _ _ _) as [h' st].
  etrans; [apply (quiet_hub h)|]. etrans; [apply (quiet_hub h')|apply quiet_hub].
Qed.

Lemma quiet_watch_pane auth m ok turns s : quiet_by may s (watch_pane auth m ok turns s).
Proof.
  unfold watch_pane, Streams.WatchPane, Server.WatchPane_start. rewrite bind_eq, Server.authorize_bind.
  destruct (Server.authorized _ _ s) as [dev|e|]; [|apply quiet_authorize..].
  etrans; [apply quiet_authorize|]. rewrite gets_bind.
  destruct (PaneHub.source _); [|cbn; reflexivity]. destruct (_ || _); [cbn; reflexivity|]. unfold Server.pane_open.
  destruct (PaneHub.subscribe _ _ _) as [[[sub o]|e|] h]; [|apply quiet_panes..].
  unfold Server.locked. destruct (Streams.begin _ _ _ _ _) as [h' st].
  etrans; [apply (quiet_panes h)|]. etrans; [apply (quiet_panes h')|apply quiet_panes].
Qed.

(** ** The embedder's calls that are quiet *)

Lemma quiet_Publish races st s : quiet_by may s (snd (Server.Publish races st s)).
Proof.
  unfold Server.Publish. rewrite gets_bind, or_panic_bind. destruct (Identity.HostID _); [|done].
  rewrite Server.now_bind. etrans; [apply quiet_tick|].
  unfold Server.locked. destruct (Hub.publish _ _ _ _) as [n hb]. apply quiet_hub.
Qed.

Lemma quiet_RevokeDevice dev s :
  (forall t, may (Registry.ORevoke dev t)) -> quiet_by may s (snd (Server.RevokeDevice dev s)).
Proof.
  intros Hmay. unfold Server.RevokeDevice. rewrite Server.now_bind, Server.book_bind. etrans; [apply quiet_tick|].
  pose proof (quiet_op (Registry.ORevoke dev (tnow s)) (tick s) (Hmay _)) as Hk. cbn [Registry.run_op] in Hk.
  destruct (Registry.Revoke _ _ _) as [[[]|e|] b']; cbn [snd] in *; [|exact Hk..].
  etrans; [exact Hk|apply quiet_drop].
Qed.

Lemma quiet_SetCapabilities dev caps s :
  may (Registry.OSetCapabilities dev caps) ->
  quiet_by may s (Server.set_book (snd (Registry.SetCapabilities dev caps (Server.book s))) s).
Proof. exact (quiet_op (Registry.OSetCapabilities dev caps) s). Qed.
End quiet.

(** ** The handlers that are not *)

Section loud.
Context `{Ed25519, Registry.RegistryLibLaws, Server.Host} {may : Registry.regop -> Prop} `{!Touching may}.

(** A valid submission of an authorized caller, and the effect it causes. *)
Inductive submission : request -> server -> bytes -> Server.effect -> Prop :=
| SubCommand auth m s dev c :
    fst (Server.authorize auth Registry.CapAgentCommand s) = Ok dev ->
    Projection.ValidCommand (kindFromProto (Server.Kind m)) (Server.sc_SessionId m) (Server.Workspace m)
      (Server.Prompt m) (tnow (Server.after_authorize auth s)) = Ok c ->
    submission (QSubmitCommand auth m) s dev (Server.ECommand c)
| SubAnswer auth m s dev a :
    fst (Server.authorize auth Registry.CapAgentAnswer s) = Ok dev ->
    Projection.ValidAnswer (Server.sa_AskId m) (Server.Text m) (tnow (Server.after_authorize auth s)) = Ok a ->
    submission (QSubmitAnswer auth m) s dev (Server.EAnswer a).

Definition submitter (q : request) : bytes :=
  match q with QSubmitCommand auth _ | QSubmitAnswer auth _ => auth | _ => [] end.

Lemma submission_authorized q s dev x :
  submission q s dev x -> exists cap, fst (Server.authorize (submitter q) cap s) = Ok dev.
Proof. destruct 1; eauto. Qed.

Lemma SubmitCommand_state auth m s :
  quiet_by may s (snd (Server.SubmitCommand auth m s)) \/
  exists dev c s1, submission (QSubmitCommand auth m) s dev (Server.ECommand c) /\ quiet_by may s s1 /\
    quiet_by may (Server.add_effect (Server.ECommand c) s1) (snd (Server.SubmitCommand auth m s)).
Proof.
  unfold Server.SubmitCommand. rewrite Server.authorize_bind.
  destruct (Server.authorized auth Registry.CapAgentCommand s) as [dev|e|] eqn:Ha; [|left; apply quiet_authorize..].
  rewrite Server.now_bind, of_res_bind.
  destruct (Projection.ValidCommand _ _ _ _ _) as [c|e|] eqn:Hc; cbn [res_map_err];
    [|left; etrans; [apply quiet_authorize|apply quiet_tick]..].
  right. rewrite Server.locked_bind, Server.touch_bind, mret_eq. cbn [fst snd].
  exists dev, c, (tick (Server.after_authorize auth s)). split_and!.
  - constructor; [by rewrite Server.authorize_eq|exact Hc].
  - etrans; [apply quiet_authorize|apply quiet_tick].
  - apply quiet_touched.
Qed.

Lemma SubmitAnswer_state auth m s :
  quiet_by may s (snd (Server.SubmitAnswer auth m s)) \/
  exists dev a s1, submission (QSubmitAnswer auth m) s dev (Server.EAnswer a) /\ quiet_by may s s1 /\
    quiet_by may (Server.add_effect (Server.EAnswer a) s1) (snd (Server.SubmitAnswer auth m s)).
Proof.
  unfold Server.SubmitAnswer. rewrite Server.authorize_bind.
  destruct (Server.authorized auth Registry.CapAgentAnswer s) as [dev|e|] eqn:Ha; [|left; apply quiet_authorize..].
  rewrite Server.valid_answer_bind.
  destruct (Projection.ValidAnswer _ _ _) as [a|e|] eqn:Hc; [|left; apply quiet_authorize..].
  right. rewrite Server.locked_bind, Server.touch_bind, mret_eq. cbn [fst snd].
  exists dev, a, (tick (Server.after_authorize auth s)). split_and!.
  - constructor; [by rewrite Server.authorize_eq|exact Hc].
  - etrans; [apply quiet_authorize|apply quiet_tick].
  - apply quiet_touched.
Qed.

(** A pairing request that gets as far as the book: its proof verifies with its
    own key for this host, and its secret is that of the open window. *)
Definition pairing_accepted (m : Server.PairRequest) (s : server) : Prop :=
  length (Server.DevicePublicKey m) = PublicKeySize /\ Server.proof_verifies m s /\
  Pairing.OpenNow (tnow s) (Server.pairs s) = true /\
  Server.PairingSecret m = Pairing.m_secret (Server.pairs s).

(** What an accepted pairing request leaves: the window is spent, and the book
    and its file have no entry that was not there but the device's own, under
    its derived id. *)
Record paired_state `{Registry.RegistryLib} (m : Server.PairRequest) (s s' : server) : Prop := MkPaired {
  p_id : Server.id s' = Server.id s;
  p_pairs : Pairing.m_secret (Server.pairs s') = [];
  p_ops : exists d, Registry.d_ID d = Identity.DeviceIDFor (Server.DevicePublicKey m) /\
    Registry.d_PublicKey d = Server.DevicePublicKey m /\
    Registry.evolves (eq (Registry.OAdd d)) (Server.book s) (Server.book s');
  p_book : forall dev d', Registry.devices (Server.book s') !! dev = Some d' ->
    (dev = Identity.DeviceIDFor (Server.DevicePublicKey m) /\
     Registry.d_PublicKey d' = Server.DevicePublicKey m /\ Registry.d_ID d' = dev) \/
    Registry.devices (Server.book s) !! dev = Some d';
  p_file : forall P, durable P ->
    (forall d, Registry.d_ID d = Identity.DeviceIDFor (Server.DevicePublicKey m) ->
       Registry.d_PublicKey d = Server.DevicePublicKey m -> P (Registry.d_ID d) d) ->
    Registry.everywhere P (Server.book s) -> Registry.everywhere P (Server.book s');
  p_stays : forall dev, is_Some (Registry.devices (Server.book s) !! dev) ->
    is_Some (Registry.devices (Server.book s') !! dev);
  p_tokens : Tokens.sessions (Server.tokens s') ⊆ Tokens.sessions (Server.tokens s);
  p_effects : Server.effects s' = Server.effects s }.

Lemma paired_quiet m s s1 s2 : paired_state m s s1 -> Server.book s2 = Server.book s1 ->
  Server.id s2 = Server.id s1 -> Server.pairs s2 = Server.pairs s1 -> Server.effects s2 = Server.effects s1 ->
  Tokens.sessions (Server.tokens s2) ⊆ Tokens.sessions (Server.tokens s1) -> paired_state m s s2.
Proof.
  intros [] Hb Hi Hp He Ht. split; [congruence|by rewrite Hp|by rewrite Hb..|by etrans|congruence].
Qed.

Lemma Pair_state m s :
  quiet_by may s (snd (Server.Pair m s)) \/
  (pairing_accepted m s /\ paired_state m s (snd (Server.Pair m s))).
Proof.
  unfold Server.Pair. destruct (negb (bool_decide _)); [by left|].
  destruct (Nat.eqb_spec (length (Server.DevicePublicKey m)) PublicKeySize) as [Hl|]; cbn [negb]; [|by left].
  rewrite gets_bind, or_panic_bind. destruct (Identity.HostID (Server.id s)) as [hid|] eqn:Hh; [|by left].
  rewrite of_res_bind. destruct (Identity.VerifyPairProof _ _ _ _) as [ok|e|] eqn:Hv; [|by left..].
  rewrite throw_if_bind. destruct ok; cbn [negb]; [|by left].
  rewrite Server.now_bind. unfold Server.Redeem. rewrite Server.locked_bind.
  change (Server.pairs (tick s)) with (Server.pairs s). rewrite Pairing.Redeem_spec.
  destruct (decide _) as [[Hopen Hsec]|]; cbn [fst snd]; rewrite throw_if_bind; cbn [negb].
  2:{ left. destruct s. apply quiet_tick. }
  right. split; [split_and!; [done|by exists hid|done..]|]. rewrite Server.now_bind, Server.book_bind.
  set (s1 := tick (Server.set_pairs _ (tick s))). set (d := Registry.MkDevice _ _ _ _ _ _ _ _).
  pose proof (Server.Add_result d (Server.book s1)) as Ha.
  set (b1 := snd (Registry.run_op (Registry.OAdd d) (Server.book s1))).
  assert (forall b', b' = b1 ->
    Registry.devices b' = Registry.op_effect (Registry.OAdd d) (Registry.devices (Server.book s1)) \/
    b' = Server.book s1 -> paired_state m s (Server.set_book b' s1)) as Hp.
  { intros b' Hb1 Hb. split; [done|done| | | | |done|done]; cbn [Server.set_book Server.book].
    - exists d. split_and!; [done..|]. rewrite Hb1. constructor; [|done].
      exact (Registry.evolves_world _ (Server.world s1) (Server.book s) eq_refl).
    - intros dev d' Hd'. destruct Hb as [Hb| ->]; [|by right]. rewrite Hb in Hd'. cbn [Registry.op_effect] in Hd'.
      apply lookup_insert_Some in Hd' as [[<- <-]|[_ Hd']]; [by left|by right].
    - intros P [Hc _] Hnew HP. rewrite Hb1. apply Registry.run_op_everywhere; [exact Hc|exact HP|].
      unfold Registry.op_book. destruct (Registry.op_refusal _ _); [apply HP|].
      apply map_Forall_insert_2; [|apply HP].
      exact (Hnew (Registry.set_Capabilities (Registry.filter_caps (Registry.d_Capabilities d)) d) eq_refl eq_refl).
    - intros dev Hdev. destruct Hb as [->| ->]; [|exact Hdev]. cbn [Registry.op_effect].
      rewrite lookup_insert_is_Some'. by right. }
  cbn [Registry.run_op] in b1. subst b1.
  destruct (Registry.Add d (Server.book s1)) as [[[]|e|] b']; [| |done]; cbn [snd] in Hp.
  - rewrite modify_bind, gets_bind, !or_panic_bind.
    destruct (Identity.PublicKey (Server.id s)); cbn [snd mret SE_ret];
      (eapply paired_quiet; [apply Hp; [done|left; by apply Ha]|done..|apply drop_subset]).
  - cbn [snd]. apply Hp; [done|]. destruct Ha as [[_ ->]|[_ ->]]; auto.
Qed.

(** A granted session: the one token that is new, for the device that answered. *)
Lemma Authenticate_state m s :
  (forall d, known (Server.ar_DeviceId m) s = Some d -> Registry.d_ID d = Server.ar_DeviceId m) ->
  quiet_by may s (snd (Server.Authenticate m s)) \/
  exists d resp t s1, known (Server.ar_DeviceId m) s = Some d /\
    fst (Server.Authenticate m s) = Ok resp /\ answer_verifies d m s /\ quiet_by may s s1 /\
    quiet_by may (Server.set_tokens (Tokens.token_insert (Server.SessionToken resp) (Server.ar_DeviceId m) t
             (Server.tokens s1)) s1) (snd (Server.Authenticate m s)).
Proof.
  intros Hid. unfold Server.Authenticate. rewrite Server.known_device_bind.
  destruct (known _ s) as [d|] eqn:Hk; [|by left]. rewrite (Hid d eq_refl), Server.now_bind.
  unfold Server.consume_nonce. rewrite Server.locked_bind.
  destruct (Tokens.nonce_consume _ _ _ _) as [live ns]. cbn [fst snd]. set (s0 := Server.set_nonces ns (tick s)).
  assert (quiet_by may s s0) as Hq by (etrans; [apply quiet_tick|apply quiet_nonces]).
  rewrite throw_if_bind. destruct live; cbn [negb]; [|by left]. rewrite gets_bind, or_panic_bind.
  change (Server.id s0) with (Server.id s).
  destruct (Identity.HostID (Server.id s)) as [hid|] eqn:Hh; [|by left]. rewrite of_res_bind.
  destruct (Identity.VerifyAuth _ _ _ _ _) as [ok|e|] eqn:Hv; [|by left..].
  rewrite throw_if_bind. destruct ok; cbn [negb]; [|by left]. rewrite Server.now_bind, bind_eq.
  unfold Server.mint_token, Tokens.token_mint. rewrite bind_eq.
  match goal with |- context [rand_Read 32 ?w] => pose proof (rand_disk 32 w) as Hw end.
  destruct (rand_Read 32 _) as [[raw|e|] w]; [|left; etrans; [exact Hq|]..].
  - right. cbn [mret SE_ret]. rewrite Server.touch_bind. set (s1 := Server.set_world w (tick s0)).
    eexists d, _, _, s1. split_and!; [done|reflexivity|by exists hid| |].
    + etrans; [exact Hq|]. etrans; [apply quiet_tick|by apply quiet_world].
    + cbn [fst snd Server.SessionToken]. apply quiet_touched.
  - etrans; [apply quiet_tick|by apply quiet_world].
  - etrans; [apply quiet_tick|by apply quiet_world].
Qed.
End loud.

(** ** A host's life *)

Section life.
Context `{Ed25519, Registry.RegistryLibLaws, Server.Host, Texts, ConnectLaws Server.server, !StreamTurns, !LinkMessages}.
Context {E : Type} (h : HTTPHandler Payload Output server).
Hypothesis serving : Handler (E := E) = Ok h.

(** The embedder's calls, and requests; a pairing window opens with a drawn
    secret, when the draw succeeds. The process may end at any point; the next
    one opens the devices file, with everything else in the world changed at
    will, and makes a server of it with any identity and options. *)
Inductive event :=
| HTTP (rq : HTTPRequest Payload)
| OpenWindow | CloseWindow
| Publish (races : nat -> bool * bool) (st : Projection.Status)
| PublishPane (races : nat -> bool * bool) (sid : bytes) (f : Projection.PaneFrame)
| Revoke (dev : bytes)
| SetCapabilities (dev : bytes) (caps : list bytes)
| Restart (o : Server.Options) (w : World).

Definition open_window (s : server) : server :=
  match Pairing.Open (tnow s) (Server.pairs s) (Server.world (tick s)) with
  | (Ok (_, m), w) => Server.set_pairs m (Server.set_world w (tick s))
  | (_, w) => Server.set_world w (tick s)
  end.

Lemma open_window_disk s : disk (Server.world (open_window s)) = disk (Server.world s).
Proof.
  unfold open_window, Pairing.Open. rewrite bind_eq. pose proof (rand_disk Pairing.secretLen (Server.world (tick s))) as Hw.
  by destruct (rand_Read _ _) as [[b|e|] w].
Qed.

(** The executor's log goes on. A process that cannot open its book does not
    come up: such an attempt is no step. *)
Definition reboot (o : Server.Options) (w : World) (s : server) : option server :=
  let path := Registry.r_path (Server.registry s) in
  let w := set_disk (partial_alter (fun _ => disk (Server.world s) !! path) path (disk w)) w in
  match Registry.Open path w with
  | (Ok r, w) =>
    match Server.NewServer (Server.MkOptions (Server.op_Identity o) (Some (Registry.MkRState r w)) None
            (Server.op_Executor o) (Server.op_HostName o) (Server.op_Panes o) (Server.op_Digests o)
            (Server.op_Heartbeat o)) with
    | Ok s' => Some (fold_left (fun s x => Server.add_effect x s) (Server.effects s) s')
    | _ => None
    end
  | _ => None
  end.
Definition restart (o : Server.Options) (w : World) (s : server) : server := default s (reboot o w s).

Definition step (s : server) (e : event) : server :=
  match e with
  | HTTP rq => snd (h rq s)
  | OpenWindow => open_window s
  | CloseWindow => Server.set_pairs (Pairing.Close (Server.pairs s)) s
  | Publish races st => snd (Server.Publish races st s)
  | PublishPane races sid f => Server.PublishPane races sid f s
  | Revoke dev => snd (Server.RevokeDevice dev s)
  | SetCapabilities dev caps =>
    Server.set_book (snd (Registry.SetCapabilities dev caps (Server.book s))) s
  | Restart o w => restart o w s
  end.
Definition run (es : list event) (s : server) : server := fold_left step es s.

(** What a new process starts with. *)
Record rebooted (o : Server.Options) (s s' : server) : Prop := MkRebooted {
  rb_id : Server.op_Identity o = Some (Server.id s');
  rb_pairs : Server.pairs s' = Pairing.zeroManager;
  rb_tokens : Server.tokens s' = Tokens.newTokens;
  rb_nonces : Server.nonces s' = Tokens.newNonces;
  rb_effects : Server.effects s' = Server.effects s;
  rb_opened : exists w w', let path := Registry.r_path (Server.registry s) in
    disk w !! path = disk (Server.world s) !! path /\
    Registry.Open path w = (Ok (Server.registry s'), w') /\ Server.world s' = w';
  rb_book : forall P, Registry.everywhere P (Server.book s) -> Registry.everywhere P (Server.book s') }.

Lemma reboot_spec o w s s' : reboot o w s = Some s' -> rebooted o s s'.
Proof.
  unfold reboot. cbv zeta. set (w0 := set_disk _ w).
  destruct (Registry.Open _ w0) as [[r|e|] w'] eqn:Ho; [|done..].
  unfold Server.NewServer. cbn [Server.op_Identity Server.op_Registry Server.op_Executor Server.op_Pairing default].
  destruct (Server.op_Identity o) as [i|] eqn:Hi; [|done]. destruct (Server.op_Executor o); [|done].
  assert (forall xs s', let s2 := fold_left (fun s x => Server.add_effect x s) xs s' in
    Server.id s2 = Server.id s' /\ Server.pairs s2 = Server.pairs s' /\ Server.tokens s2 = Server.tokens s' /\
    Server.nonces s2 = Server.nonces s' /\ Server.book s2 = Server.book s' /\
    Server.effects s2 = Server.effects s' ++ xs) as Hlog.
  { induction xs as [|x xs IH]; intros s1; cbn [fold_left]; [by rewrite app_nil_r|].
    destruct (IH (Server.add_effect x s1)) as (-> & -> & -> & -> & -> & ->).
    cbn [Server.add_effect Server.effects]. by rewrite <- app_assoc. }
  intros [= <-]. match goal with |- rebooted _ _ (fold_left _ ?xs ?s1) =>
    destruct (Hlog xs s1) as (Ei & Ep & Et & En & Eb & Ee); split; rewrite ?Ei, ?Ep, ?Et, ?En, ?Eb, ?Ee end; try done.
  - exists w0, w'. cbn zeta. unfold Server.registry, Server.world. rewrite Eb. split_and!; [|exact Ho|done].
    unfold w0. cbn [disk set_disk]. by rewrite lookup_partial_alter_eq.
  - intros P [_ Hf]. cbn [Server.book]. eapply Registry.Open_everywhere; [|exact Ho].
  intros raw f Hd. apply Hf. rewrite <- Hd. unfold w0. cbn [disk set_disk]. by rewrite lookup_partial_alter_eq.
Qed.

Lemma restart_spec o w s : restart o w s = s \/ rebooted o s (restart o w s).
Proof.
  unfold restart. destruct (reboot o w s) as [s'|] eqn:Hr; [right|by left]. by eapply reboot_spec.
Qed.

Lemma run_snoc es e s : run (es ++ [e]) s = step (run es s) e.
Proof. unfold run. by rewrite fold_left_app. Qed.

(** A request at the handler that was served as [q]. *)
Definition serves_as (e : event) (q : request) (s : server) : Prop :=
  exists rq, e = HTTP rq /\ URL_Path rq = request_path q /\ snd (h rq s) = serve_request q s.

(** ** The chain *)

Section chain.
Variable s0 : server.

(** What each link says about the life so far. *)
Definition opened (es : list event) (secret : bytes) : Prop :=
  exists es1 es2, es = es1 ++ OpenWindow :: es2 /\
    Pairing.m_secret (Server.pairs (run (es1 ++ [OpenWindow]) s0)) = secret.
Definition paired (es : list event) (dev : bytes) : Prop :=
  exists es1 e es2 m, es = es1 ++ e :: es2 /\ serves_as e (QPair m) (run es1 s0) /\
    Identity.DeviceIDFor (Server.DevicePublicKey m) = dev /\ pairing_accepted m (run es1 s0) /\
    opened es1 (Server.PairingSecret m).
Definition authenticated (es : list event) (dev tok : bytes) : Prop :=
  exists es1 e es2 m d resp, es = es1 ++ e :: es2 /\ serves_as e (QAuthenticate m) (run es1 s0) /\
    fst (Server.Authenticate m (run es1 s0)) = Ok resp /\ Server.SessionToken resp = tok /\
    Server.ar_DeviceId m = dev /\ known dev (run es1 s0) = Some d /\
    Identity.DeviceIDFor (Registry.d_PublicKey d) = dev /\ answer_verifies d m (run es1 s0) /\ paired es1 dev.
Definition submitted (es : list event) (x : Server.effect) : Prop :=
  exists es1 e es2 q dev tok, es = es1 ++ e :: es2 /\ serves_as e q (run es1 s0) /\
    submission q (run es1 s0) dev x /\ submitter q = Server.bearerPrefix ++ tok /\ authenticated es1 dev tok.

(** An entry of the book, or of its file. *)
Definition enrolled (es : list event) (dev : bytes) (d : Registry.Device) : Prop :=
  paired es dev /\ Identity.DeviceIDFor (Registry.d_PublicKey d) = dev /\ Registry.d_ID d = dev.

Lemma enrolled_durable es : durable (enrolled es).
Proof.
  split; [split|].
  - by intros dev d (_ & _ & ?).
  - intros dev d (Hp & Hk & Hi).
    assert (mended dev = dev) as Hm by by rewrite <- Hk, mended_DeviceID. rewrite Hm. split_and!; [done|done|]. cbn [Registry.mend_device Registry.d_ID]. by rewrite Hi.
  - intros dev d d' (Hk & Hi & _) (Hp & ? & ?). unfold enrolled. by rewrite Hk, Hi.
Qed.

Record traced (es : list event) (s : server) : Prop := MkTraced {
  t_window : Pairing.m_secret (Server.pairs s) <> [] -> opened es (Pairing.m_secret (Server.pairs s));
  t_book : Registry.everywhere (enrolled es) (Server.book s);
  t_tokens : forall tok x, Tokens.sessions (Server.tokens s) !! tok = Some x ->
    authenticated es (Tokens.s_deviceID x) tok;
  t_effects : forall x, x ∈ Server.effects s -> submitted es x }.

Lemma opened_more es secret e : opened es secret -> opened (es ++ [e]) secret.
Proof. intros (es1 & es2 & -> & Hs). exists es1, (es2 ++ [e]). by rewrite <- app_assoc. Qed.
Lemma paired_more es dev e : paired es dev -> paired (es ++ [e]) dev.
Proof.
  intros (es1 & e1 & es2 & m & -> & Hs). exists es1, e1, (es2 ++ [e]), m. by rewrite <- app_assoc.
Qed.
Lemma authenticated_more es dev tok e : authenticated es dev tok -> authenticated (es ++ [e]) dev tok.
Proof.
  intros (es1 & e1 & es2 & m & d & resp & -> & Hs). exists es1, e1, (es2 ++ [e]), m, d, resp. by rewrite <- app_assoc.
Qed.
Lemma submitted_more es x e : submitted es x -> submitted (es ++ [e]) x.
Proof.
  intros (es1 & e1 & es2 & q & dev & tok & -> & Hs). exists es1, e1, (es2 ++ [e]), q, dev, tok.
  by rewrite <- app_assoc.
Qed.

Lemma traced_more es s e : traced es s -> traced (es ++ [e]) s.
Proof.
  intros [Hw Hb Ht He]. split.
  - intros Hn. by apply opened_more, Hw.
  - eapply Registry.everywhere_impl; [exact Hb|]. intros dev d (? & ?). split; [by apply paired_more|done].
  - intros tok x Hx. by apply authenticated_more, Ht.
  - intros x Hx. by apply submitted_more, He.
Qed.

Lemma traced_quiet es s s' : quiet s s' -> traced es s -> traced es s'.
Proof.
  intros Hq [Hw Hb Ht He]. pose proof (q_file _ _ Hq) as Hk. destruct Hq as [Hi Hp _ Hs Hf]. split.
  - by rewrite Hp.
  - apply Hk; [apply enrolled_durable|exact Hb].
  - intros tok x Hx. apply Ht. by eapply lookup_weaken.
  - by rewrite Hf.
Qed.

Lemma resolve_session tok t ts dev :
  dev <> [] -> fst (Tokens.token_resolve tok t ts) = dev ->
  exists x, Tokens.sessions ts !! tok = Some x /\ Tokens.s_deviceID x = dev.
Proof.
  unfold Tokens.token_resolve. intros Hd. destruct (_ !! tok) as [x|]; [|by intros <-].
  destruct (negb _); cbn; [by intros <-|]. intros <-. by exists x.
Qed.

(** Authorized callers hold a token that was granted. *)
Lemma authorized_session auth cap s dev :
  fst (Server.authorize auth cap s) = Ok dev ->
  exists tok x, auth = Server.bearerPrefix ++ tok /\
    Tokens.sessions (Server.tokens s) !! tok = Some x /\ Tokens.s_deviceID x = dev.
Proof.
  rewrite Server.authorize_eq. cbn [fst]. unfold Server.authorized.
  destruct (HasPrefix auth _) eqn:Hp; cbn [negb]; [|done]. apply HasPrefix_spec in Hp. cbv zeta.
  case_bool_decide as Hd; [done|]. destruct (Registry.Allowed _ cap _) as [[]|e|]; [|done..].
  intros [= Hdev]. exists (TrimPrefix auth Server.bearerPrefix).
  rewrite Hdev in Hd. destruct (resolve_session _ _ _ _ Hd Hdev) as (x & Hx & Hx').
  exists x. by split_and!.
Qed.

(** One more effect, submitted now. *)
Lemma traced_submission es s s1 s' e q dev x :
  s = run es s0 -> traced es s -> serves_as e q s -> submission q s dev x ->
  quiet s s1 -> quiet (Server.add_effect x s1) s' -> traced (es ++ [e]) s'.
Proof.
  intros Hs Ht Hq Hsub Hq1 Hq2. apply (traced_quiet _ _ _ Hq2).
  pose proof (traced_more es s1 e (traced_quiet es s s1 Hq1 Ht)) as [Hw Hb Htk He].
  split; [exact Hw|exact Hb|exact Htk|]. cbn [Server.add_effect Server.effects].
  intros y [Hy| ->%list_elem_of_singleton]%elem_of_app; [by apply He|].
  destruct (submission_authorized _ _ _ _ Hsub) as [cap Ha].
  destruct (authorized_session _ _ _ _ Ha) as (tok & z & Hauth & Hz & Hdev).
  exists es, e, [], q, dev, tok. subst s. split_and!; [done..|].
  rewrite <- Hdev. by apply (t_tokens _ _ Ht).
Qed.

Lemma traced_pairing es s s' e m :
  s = run es s0 -> traced es s -> serves_as e (QPair m) s -> pairing_accepted m s -> paired_state m s s' ->
  traced (es ++ [e]) s'.
Proof.
  intros Hs Ht Hq Hacc [Hi Hp _ _ Hb _ Htk Hf]. pose proof Hacc as (_ & _ & Hopen & Hsec).
  assert (opened es (Server.PairingSecret m)) as Ho.
  { rewrite Hsec. apply (t_window _ _ Ht). unfold Pairing.OpenNow in Hopen.
    by apply andb_true_iff in Hopen as [Hn%negb_true_iff%bool_decide_eq_false _]. }
  pose proof (traced_more es s e Ht) as [Hw' Hb' Ht' He']. split.
  - by rewrite Hp.
  - apply Hb; [apply enrolled_durable| |exact Hb']. intros d Hid Hk. subst s.
    split_and!; [|by rewrite Hid, Hk|done]. rewrite Hid. by exists es, e, [], m.
  - intros tok x Hx. apply Ht'. by eapply lookup_weaken.
  - by rewrite Hf.
Qed.

Lemma traced_session es s s1 s' e m d resp t :
  s = run es s0 -> traced es s -> serves_as e (QAuthenticate m) s ->
  known (Server.ar_DeviceId m) s = Some d -> fst (Server.Authenticate m s) = Ok resp -> answer_verifies d m s ->
  quiet s s1 ->
  quiet (Server.set_tokens (Tokens.token_insert (Server.SessionToken resp) (Server.ar_DeviceId m) t
           (Server.tokens s1)) s1) s' ->
  traced (es ++ [e]) s'.
Proof.
  intros Hs Ht Hq Hk Hok Hv Hq1 Hq2. apply (traced_quiet _ _ _ Hq2).
  pose proof (traced_more es s1 e (traced_quiet es s s1 Hq1 Ht)) as [Hw Hb Htk He].
  split; [exact Hw|exact Hb| |exact He]. intros tok x.
  cbn [Server.set_tokens Server.tokens Tokens.token_insert Tokens.sessions].
  intros [[<- <-]|[_ Hx]]%lookup_insert_Some; [|by apply Htk]. cbn [Tokens.s_deviceID].
  assert (Registry.devices (Server.book s) !! Server.ar_DeviceId m = Some d) as Hd.
  { unfold known, Registry.Get in Hk. unfold Registry.devices. destruct (Registry.r_devices _ !! _) as [d1|]; [|done].
    destruct (Registry.Revoked d1); by simplify_eq. }
  destruct (proj1 (t_book _ _ Ht) _ _ Hd) as (Hp & Hid & _). subst s. by exists es, e, [], m, d, resp.
Qed.

(** One step, whatever it is. *)
Lemma traced_step es e : traced es (run es s0) -> traced (es ++ [e]) (run (es ++ [e]) s0).
Proof.
  intros Ht. rewrite run_snoc. remember (run es s0) as s eqn:Hs.
  assert (forall s', quiet s s' -> traced (es ++ [e]) s') as Hquiet.
  { intros s' Hq. by apply traced_more, (traced_quiet es s s'). }
  destruct e as [rq| | |races st|races sid f|dev|dev caps|o w]; cbn [step].
  - destruct (any_request h rq s serving) as [->|(q & Hpath & Hq)]; [by apply Hquiet|].
    assert (serves_as (HTTP rq) q s) as Hsq by by exists rq. rewrite Hq. clear Hq.
    destruct q as [|m|m|m|auth|auth m|auth m|auth m|auth ok turns|auth m ok turns]; cbn [serve_request].
    + apply Hquiet, quiet_GetHostInfo.
    + destruct (Pair_state (may := keeps) m s) as [Hx|[Ha Hx]]; [by apply Hquiet|by eapply traced_pairing].
    + apply Hquiet, quiet_Challenge.
    + destruct (Authenticate_state (may := keeps) m s) as [Hx|(d & resp & t & s1 & ? & ? & ? & ? & ?)];
        [|by apply Hquiet|by eapply traced_session].
      intros d Hk. unfold known, Registry.Get in Hk.
      destruct (Registry.r_devices _ !! _) as [d1|] eqn:Hd; [|done]. destruct (Registry.Revoked d1); [done|].
      simplify_eq. by apply (proj1 (t_book _ _ Ht)) in Hd as (_ & _ & ?).
    + apply Hquiet, quiet_GetStatus.
    + destruct (SubmitAnswer_state (may := keeps) auth m s) as [Hx|(dev & a & s1 & ? & ? & ?)]; [by apply Hquiet|by eapply traced_submission].
    + destruct (SubmitCommand_state (may := keeps) auth m s) as [Hx|(dev & a & s1 & ? & ? & ?)]; [by apply Hquiet|by eapply traced_submission].
    + apply Hquiet, quiet_GetDigest.
    + apply Hquiet, quiet_watch_status.
    + apply Hquiet, quiet_watch_pane.
  - pose proof (traced_more es s OpenWindow Ht) as [Hw Hb Htk He].
    assert (open_window s = run (es ++ [OpenWindow]) s0) as Hrun by (by rewrite run_snoc, <- Hs).
    split.
    + intros _. exists es, []. by rewrite Hrun.
    + pose proof (open_window_disk s) as Hdisk. revert Hdisk. unfold open_window.
      destruct (Pairing.Open _ _ _) as [[[]|?|] ?]; intros Hdisk; by apply (everywhere_disk _ (Server.book s)).
    + intros tok x Hx. apply Htk. revert Hx. unfold open_window. by destruct (Pairing.Open _ _ _) as [[[]|?|] ?].
    + intros x Hx. apply He. revert Hx. unfold open_window. by destruct (Pairing.Open _ _ _) as [[[]|?|] ?].
  - pose proof (traced_more es s CloseWindow Ht) as [Hw Hb Htk He]. by split.
  - apply Hquiet, quiet_Publish.
  - apply Hquiet, quiet_panes.
  - by apply Hquiet, quiet_RevokeDevice.
  - by apply Hquiet, quiet_SetCapabilities.
  - destruct (restart_spec o w s) as [->|[_ Hp' Ht' _ He' _ Hb']]; [by apply Hquiet|].
    pose proof (traced_more es s (Restart o w) Ht) as [_ Hb _ He].
    split; [by rewrite Hp'|by apply Hb'|intros tok x; by rewrite Ht'|by rewrite He'].
Qed.
End chain.

(** A host as [NewServer] makes it, with nobody on its book or in its file and
    no window open. *)
Definition fresh (s : server) : Prop :=
  Pairing.m_secret (Server.pairs s) = [] /\ Registry.everywhere (fun _ _ => False) (Server.book s) /\
  Tokens.sessions (Server.tokens s) = ∅ /\ Server.effects s = [].

Lemma traced_life s0 es : fresh s0 -> traced s0 es (run es s0).
Proof.
  intros (Hp & Hd & Ht & He). induction es as [|e es IH] using rev_ind; [|by apply traced_step].
  split; cbn [run fold_left].
  - by rewrite Hp.
  - by eapply Registry.everywhere_impl; [exact Hd|].
  - intros tok x. by rewrite Ht, lookup_empty.
  - rewrite He. by intros x Hx%elem_of_nil.
Qed.

(** C1: authority has one source. Along any life of a fresh host, made of
    arbitrary HTTP requests, embedder calls and restarts of the process in any
    order, whatever file operations fail, whatever reached
    the executor was submitted, valid, by an authorized device under a token
    that an earlier Authenticate request had granted it, answering with a
    signature that verifies under the key its id is derived from; before that,
    a Pair request for that very key had carried a verifying proof and the
    secret of a window then open; and before that the embedder had opened that
    window. The same holds of every token and of every device on the book. *)
Theorem chain_of_trust s0 es :
  fresh s0 ->
  (forall x, x ∈ Server.effects (run es s0) -> submitted s0 es x) /\
  (forall tok x, Tokens.sessions (Server.tokens (run es s0)) !! tok = Some x ->
     authenticated s0 es (Tokens.s_deviceID x) tok) /\
  (forall dev d, Registry.devices (Server.book (run es s0)) !! dev = Some d ->
     paired s0 es dev /\ Identity.DeviceIDFor (Registry.d_PublicKey d) = dev).
Proof.
  intros Hf. destruct (traced_life s0 es Hf) as [_ Hb Ht He]. split_and!; [exact He|exact Ht|].
  intros dev d Hd. by destruct (proj1 Hb dev d Hd) as (? & ? & _).
Qed.
End life.

(** ** Witness: one life, from the window to the keyboard *)

#[local] Existing Instances Registry.toy_registry_lib Registry.toy_registry_laws Server.toy_host.
#[local] Existing Instances counted_LinkMessages counted_LinkMessages_laws.
#[local] Existing Instances loop_connect loop_wire loop_laws.
#[local] Existing Instances toy_texts toy_turns.

Definition fresh_host : server :=
  Server.MkServer (Server.id Server.paired) Registry.fresh_book Pairing.zeroManager (str "host") (25 * Second)
    Hub.newHub (PaneHub.newPaneHub None) None Tokens.newTokens Tokens.newNonces [].
(** This world's first draw is octets 1, its second octets 2, and so on. *)
Definition the_secret : bytes := RawURLEncode (repeat x01 16).
Definition the_nonce : bytes := repeat x02 32.
Definition host_id : bytes := default [] (Identity.HostID (Server.id fresh_host)).
Definition request_to (path : bytes) (header : Header) (body : bytes) : event :=
  HTTP (MkHTTPRequest path (header, body)).
Definition encoded {A : Type} `{Message A} (m : A) : bytes := default [] (marshal m).
Definition pair_request : event :=
  request_to HostService.HostServicePairProcedure ∅ (encoded (Server.MkPairRequest Server.ProtocolVersion
    the_secret Server.phone_pub (str "Phone") [] []
    (ed_sign Server.phone_priv (Identity.pairBytes host_id the_secret Server.phone_pub)))).
Definition challenge_request : event :=
  request_to HostService.HostServiceChallengeProcedure ∅ (encoded (Server.MkChallengeRequest Server.phone_id)).
Definition authenticate_request : event :=
  request_to HostService.HostServiceAuthenticateProcedure ∅ (encoded (Server.MkAuthenticateRequest
    Server.ProtocolVersion Server.phone_id the_nonce
    (ed_sign Server.phone_priv (Identity.authBytes host_id Server.phone_id the_nonce)))).
Definition answer_request : event :=
  request_to LinkService.LinkServiceSubmitAnswerProcedure
    {[ Authorization := Server.bearerPrefix ++ RawURLEncode (repeat x03 32) ]}
    (encoded (Server.MkSubmitAnswerRequest (str "ask") (str "yes"))).
(** Between the pairing and the challenge the process restarts. *)
Definition restart_event : event :=
  Restart (Server.MkOptions (Some (Server.id Server.paired)) None None true (str "host") None None 0)
    (set_draws 1 (calm 5 x01)).
Definition a_life : list event :=
  [OpenWindow; pair_request; restart_event; challenge_request; authenticate_request; answer_request].

Lemma fresh_host_fresh : fresh fresh_host.
Proof.
  split; [done|]. split; [|by split]. split; [apply map_Forall_empty|].
  intros raw f Hd. vm_compute in Hd. discriminate.
Qed.

Lemma chain_of_trust_witness :
  let x := Server.EAnswer (Projection.MkAnswer (str "ask") (str "yes") 5) in
  Server.effects (run host_handler a_life fresh_host) = [x] /\ submitted host_handler fresh_host a_life x.
Proof.
  intros x. assert (Server.effects (run host_handler a_life fresh_host) = [x]) as He by (vm_compute; reflexivity).
  split; [exact He|].
  destruct (chain_of_trust (E := unit) host_handler Handler_mux fresh_host a_life) as (Hs & _).
  - exact fresh_host_fresh.
  - apply Hs. rewrite He. by left.
Defined.
