(* ===== verification/TypeSafe.v ===== *)
(** * A host never panics (the whole host, over time)

    Ed25519 panics on a key of the wrong length (a device's, or the host's own),
    and a nil pointer or an index out of range would panic too. The state a host
    can get into is typed so that none of its methods does, whatever the
    request, for as long as the identities it is started with have a whole
    public key, as those of [LoadOrCreate] have
    ([Identity.LoadOrCreate_keyed]). *)

From stdpp Require Import gmap sets.
From S2P Require Import Prelude GoStrings GoOS GoURL Crypto Convert Http Connect LinkConnect Handler Trust.
From S2P Require Projection Identity Registry Pairing Tokens Hub PaneHub Server Streams.
Import Server (server, known, tnow, tick).

(** The identity's public key can be read off its private key. *)
Definition keyed (i : Identity.Identity) : Prop := is_Some (Identity.HostID i).

(** Every device, on the book and in its file, is filed under its own id with a
    key of the right length, every session token is some filed device's, and
    the host has a key of its own. *)
Definition well_keyed (dev : bytes) (d : Registry.Device) : Prop :=
  Registry.d_ID d = dev /\ length (Registry.d_PublicKey d) = PublicKeySize.
Record host_typed (s : server) : Prop := MkTyped {
  ty_book : Registry.everywhere well_keyed (Server.book s);
  ty_tokens : forall tok x, Tokens.sessions (Server.tokens s) !! tok = Some x ->
    is_Some (Registry.devices (Server.book s) !! Tokens.s_deviceID x);
  ty_key : keyed (Server.id s) }.

Section typed.
Context `{Ed25519, Registry.RegistryLibLaws, Server.Host}.

Lemma well_keyed_durable : durable well_keyed.
Proof.
  split; [split|].
  - by intros dev d [].
  - intros dev d [<- Hl]. by split.
  - intros dev d d' (Hk & Hi & _) [? ?]. unfold well_keyed. by rewrite Hk, Hi.
Qed.

Lemma typed_quiet s s' : quiet s s' -> host_typed s -> host_typed s'.
Proof.
  intros Hq [Hb Ht Hi]. pose proof (q_book _ _ Hq) as Hk. pose proof (q_file _ _ Hq) as Hf. destruct Hq as [Hid _ _ Hs _].
  split; [| |by rewrite Hid].
  - by apply Hf; [apply well_keyed_durable|].
  - intros tok x Hx. destruct (Ht tok x) as [d Hd]; [by eapply lookup_weaken|].
    pose proof (Hk (Tokens.s_deviceID x)) as Hr. rewrite Hd in Hr. inversion_clear Hr. by eexists.
Qed.

Lemma typed_paired m s s' : pairing_accepted m s -> paired_state m s s' -> host_typed s -> host_typed s'.
Proof.
  intros (Hl & _) [Hid _ _ _ Hb Hst Hs _] [Hb0 Ht Hi]. split; [| |by rewrite Hid].
  - apply Hb; [apply well_keyed_durable| |exact Hb0]. intros d _ Hk. split; [done|by rewrite Hk].
  - intros tok x Hx. apply Hst, (Ht tok). by eapply lookup_weaken.
Qed.

Lemma known_typed s dev d :
  host_typed s -> known dev s = Some d ->
  Registry.devices (Server.book s) !! dev = Some d /\ Registry.d_ID d = dev /\
  length (Registry.d_PublicKey d) = PublicKeySize.
Proof.
  intros [[Hb _] _ _]. unfold known, Registry.Get.
  destruct (Registry.r_devices _ !! dev) as [d1|] eqn:Hd; [|done]. destruct (Registry.Revoked d1); [done|].
  intros [= <-]. split; [exact Hd|by apply Hb].
Qed.

Lemma typed_request q s : host_typed s -> host_typed (serve_request q s).
Proof.
  intros Hty. destruct q as [|m|m|m|auth|auth m|auth m|auth m|auth ok turns|auth m ok turns]; cbn [serve_request].
  - by apply (typed_quiet s); [apply quiet_GetHostInfo|].
  - destruct (Pair_state (may := keeps) m s) as [Hq|[Ha Hp]]; [by apply (typed_quiet s)|by apply (typed_paired m s)].
  - by apply (typed_quiet s); [apply quiet_Challenge|].
  - destruct (Authenticate_state (may := keeps) m s) as [Hq|(d & resp & t & s1 & Hk & _ & _ & Hq1 & Hq2)]; [|by apply (typed_quiet s)|].
    { intros d Hk. by apply (known_typed s _ d Hty). }
    apply (typed_quiet _ _ Hq2). pose proof (typed_quiet s s1 Hq1 Hty) as [Hb Ht Hi].
    split; [exact Hb| |exact Hi]. intros tok x. cbn [Server.set_tokens Server.tokens Tokens.token_insert Tokens.sessions].
    intros [[<- <-]|[_ Hx]]%lookup_insert_Some; [|by apply (Ht tok)].
    cbn [Tokens.s_deviceID Server.set_tokens Server.book].
    destruct (known_typed s _ d Hty Hk) as [Hd _]. pose proof (q_book _ _ Hq1 (Server.ar_DeviceId m)) as Hr.
    rewrite Hd in Hr. inversion_clear Hr. by eexists.
  - by apply (typed_quiet s); [apply quiet_GetStatus|].
  - destruct (SubmitAnswer_state (may := keeps) auth m s) as [Hq|(dev & a & s1 & _ & Hq1 & Hq2)]; [by apply (typed_quiet s)|].
    apply (typed_quiet _ _ Hq2). destruct (typed_quiet s s1 Hq1 Hty); by split.
  - destruct (SubmitCommand_state (may := keeps) auth m s) as [Hq|(dev & a & s1 & _ & Hq1 & Hq2)]; [by apply (typed_quiet s)|].
    apply (typed_quiet _ _ Hq2). destruct (typed_quiet s s1 Hq1 Hty); by split.
  - by apply (typed_quiet s); [apply quiet_GetDigest|].
  - by apply (typed_quiet s); [apply quiet_watch_status|].
  - by apply (typed_quiet s); [apply quiet_watch_pane|].
Qed.

(** ** No panic *)

Definition safe {A : Type} (m : SE server Server.rpcerr A) (s : server) : Prop := fst (m s) <> Panic.

Lemma authorized_safe auth cap s : Server.authorized auth cap s <> Panic.
Proof.
  unfold Server.authorized, Registry.Allowed. destruct (negb _); [done|]. cbv zeta. destruct (bool_decide _); [done|].
  destruct (_ !! _) as [d|]; [|done]. destruct (Registry.Revoked d); [done|]. by destruct (negb _).
Qed.

(** After authorization, what follows decides. *)
Lemma authorize_safe {A : Type} auth cap (k : bytes -> SE server Server.rpcerr A) s :
  (forall dev s', fst (k dev s') <> Panic) -> safe (Server.authorize auth cap ≫= k) s.
Proof.
  intros Hk. unfold safe. rewrite Server.authorize_bind. pose proof (authorized_safe auth cap s).
  by destruct (Server.authorized auth cap s).
Qed.

Lemma VerifyPairProof_safe m hid :
  length (Server.DevicePublicKey m) = PublicKeySize ->
  exists b, Identity.VerifyPairProof (E := Server.rpcerr) (Server.DevicePublicKey m) hid
    (Server.PairingSecret m) (Server.Proof_ m) = Ok b.
Proof. intros Hl. by apply verify_nonempty_total. Qed.

Lemma typed_keys s : host_typed s ->
  exists hid pub, Identity.HostID (Server.id s) = Some hid /\ Identity.PublicKey (Server.id s) = Some pub.
Proof.
  intros [_ _ [hid Hh]]. unfold Identity.HostID in *. destruct (Identity.PublicKey _) as [pub|]; [|done]. by exists hid, pub.
Qed.

Lemma GetHostInfo_safe s : host_typed s -> safe Server.GetHostInfo s.
Proof.
  intros (hid & pub & Hh & Hp)%typed_keys. unfold safe, Server.GetHostInfo.
  by rewrite gets_bind, or_panic_bind, Hh, gets_bind, Server.now_bind, gets_bind, or_panic_bind, Hp.
Qed.

Lemma Publish_safe races st s : host_typed s -> safe (Server.Publish races st) s.
Proof.
  intros (hid & pub & Hh & Hp)%typed_keys. unfold safe, Server.Publish.
  rewrite gets_bind, or_panic_bind, Hh, Server.now_bind. unfold Server.locked. by destruct (Hub.publish _ _ _ _).
Qed.

Lemma SetCapabilities_safe dev caps b : fst (Registry.SetCapabilities dev caps b) <> Panic.
Proof.
  pose proof (Registry.run_op_eq (Registry.OSetCapabilities dev caps) b) as He. cbn [Registry.run_op Registry.forgiving] in He.
  rewrite He. destruct (Registry.op_refusal _ _); [done|].
  pose proof (Registry.persistLocked_cases
    (Registry.set_book (Registry.op_effect (Registry.OSetCapabilities dev caps) (Registry.devices b)) b)) as Hc.
  by destruct (Registry.persistLocked _) as [[[]|e|] b'].
Qed.

Lemma OpenWindow_safe t m w : fst (Pairing.Open t m w) <> Panic.
Proof. unfold Pairing.Open, rand_Read. rewrite bind_eq. by destruct (entropy _ _). Qed.

Lemma Pair_safe m s : host_typed s -> safe (Server.Pair m) s.
Proof.
  intros (hid & pub & Hh & Hpub)%typed_keys.
  unfold safe, Server.Pair. destruct (negb (bool_decide _)); [done|].
  destruct (Nat.eqb_spec (length (Server.DevicePublicKey m)) PublicKeySize) as [Hl|]; cbn [negb]; [|done].
  rewrite gets_bind, or_panic_bind, Hh, of_res_bind. destruct (VerifyPairProof_safe m hid Hl) as [b ->].
  rewrite throw_if_bind.
  destruct b; cbn [negb]; [|done]. rewrite Server.now_bind. unfold Server.Redeem. rewrite Server.locked_bind.
  destruct (Pairing.Redeem _ _ _) as [ok m']. cbn [fst snd]. rewrite throw_if_bind. destruct ok; cbn [negb]; [|done].
  rewrite Server.now_bind, Server.book_bind. pose proof (fun d b => Server.Add_result d b) as Ha.
  match goal with |- context [Registry.Add ?d ?b] => specialize (Ha d b); destruct (Registry.Add d b) as [[[]|e|] b'] end;
    [|done..].
  by rewrite modify_bind, gets_bind, !or_panic_bind, Hpub.
Qed.

Lemma Authenticate_safe m s : host_typed s -> safe (Server.Authenticate m) s.
Proof.
  intros Hty. destruct (typed_keys s Hty) as (hid & pub & Hh & _).
  unfold safe, Server.Authenticate. rewrite Server.known_device_bind.
  destruct (known _ s) as [d|] eqn:Hk; [|done]. destruct (known_typed s _ d Hty Hk) as (_ & _ & Hl).
  rewrite Server.now_bind. unfold Server.consume_nonce. rewrite Server.locked_bind.
  destruct (Tokens.nonce_consume _ _ _ _) as [live ns]. cbn [fst snd]. rewrite throw_if_bind.
  destruct live; cbn [negb]; [|done]. rewrite gets_bind, or_panic_bind.
  change (Server.id (Server.set_nonces ns (tick s))) with (Server.id s). rewrite Hh, of_res_bind.
  unfold Identity.VerifyAuth.
  match goal with |- context [verify_nonempty _ ?msg ?sig] =>
    destruct (verify_nonempty_total (E := Server.rpcerr) (Registry.d_PublicKey d) msg sig Hl) as [b ->] end.
  rewrite throw_if_bind. destruct b; cbn [negb]; [|done]. rewrite Server.now_bind, bind_eq.
  unfold Server.mint_token, Tokens.token_mint, rand_Read. rewrite bind_eq. by destruct (entropy _ _).
Qed.

Lemma Challenge_safe m s : safe (Server.Challenge m) s.
Proof.
  unfold safe, Server.Challenge. rewrite Server.known_device_bind. destruct (known _ s); [|done].
  rewrite Server.now_bind, bind_eq. unfold Server.mint_nonce, Tokens.nonce_mint, rand_Read. rewrite bind_eq.
  by destruct (entropy _ _).
Qed.

Lemma Submit_safe auth am cm s :
  safe (Server.SubmitAnswer auth am) s /\ safe (Server.SubmitCommand auth cm) s.
Proof.
  split; apply authorize_safe; intros dev s'; [rewrite Server.valid_answer_bind|rewrite Server.now_bind, of_res_bind].
  - unfold Projection.ValidAnswer. by destruct (_ || _).
  - match goal with |- context [Projection.ValidCommand ?k ?i ?w ?p ?t] =>
      destruct (Projection.ValidCommand_result k i w p t) as [[c ->]| ->] end; done.
Qed.

Lemma reads_safe auth gm s :
  safe (Server.GetStatus auth) s /\ safe (Server.GetDigest auth gm) s /\ safe (Server.WatchStatus_start auth) s.
Proof.
  split_and!; apply authorize_safe; intros dev s'; [done| |].
  - rewrite gets_bind. destruct (Server.digests s') as [look|]; [|done]. cbv zeta.
    case_match; [done|]. by destruct (look _).
  - unfold Server.watch_open, Server.locked. by destruct (Hub.subscribe _ _) as [[]].
Qed.

Lemma WatchPane_safe auth m s : safe (Server.WatchPane_start auth m) s.
Proof.
  apply authorize_safe. intros dev s'. rewrite gets_bind.
  destruct (PaneHub.source (Server.panes s')) as [src|] eqn:Hsrc; [|done]. cbv zeta.
  case_match; [done|].
  unfold Server.pane_open, PaneHub.subscribe. cbn [PaneHub.source PaneHub.put_session]. rewrite Hsrc.
  destruct (PaneHub.ps_open _); [done|]. by destruct (src _ _).
Qed.
End typed.

Section life.
Context `{Ed25519, Registry.RegistryLibLaws, Server.Host, Texts, ConnectLaws server, !StreamTurns, !LinkMessages}.
Context {E : Type} (h : HTTPHandler Payload Output server).
Hypothesis serving : Handler (E := E) = Ok h.

(** A process that starts with a key of its own, if it starts. *)
Definition keyed_event (e : event) : Prop :=
  match e with Restart o _ => forall i, Server.op_Identity o = Some i -> keyed i | _ => True end.

Lemma typed_step s e : keyed_event e -> host_typed s -> host_typed (step h s e).
Proof.
  intros He Hty. destruct e as [rq| | |races st|races sid f|dev|dev caps|o w]; cbn [step].
  - destruct (any_request h rq s serving) as [->|(q & _ & ->)]; [done|by apply typed_request].
  - pose proof (open_window_disk s) as Hdisk. revert Hdisk. unfold open_window. destruct Hty as [Hb Ht Hi].
    destruct (Pairing.Open _ _ _) as [[[]|?|] ?]; intros Hdisk; (split; [|exact Ht|exact Hi]);
      by apply (everywhere_disk _ (Server.book s)).
  - destruct Hty; by split.
  - apply (typed_quiet s); [|done]. apply quiet_Publish.
  - by apply (typed_quiet s); [apply quiet_panes|].
  - by apply (typed_quiet s); [apply quiet_RevokeDevice|].
  - by apply (typed_quiet s); [apply quiet_SetCapabilities|].
  - destruct (restart_spec o w s) as [->|[Hi _ Ht _ _ _ Hb]]; [done|]. destruct Hty as [Hty _ _].
    split; [by apply Hb| |by apply He]. intros tok x. by rewrite Ht.
Qed.

Lemma typed_run es s : Forall keyed_event es -> host_typed s -> host_typed (run h es s).
Proof. intros He. revert s. induction He as [|e es He _ IH]; intros s Hs; [done|]. by apply IH, typed_step. Qed.

(** C8: the host's state stays typed, and a typed host never panics. From any
    typed state, along any life of arbitrary HTTP requests, embedder calls and
    restarts of the process with an identity that has a whole public key, every
    device stays filed under its own id with a 32-octet key, every token belongs
    to a filed device and the host keeps a key of its own; and then no method of
    the two services panics, on any request, header or credential whatever (of
    the two watches this speaks of what comes before their loops), and neither
    does revoking a device, setting its capabilities, publishing a status or
    opening a window. *)
Theorem host_never_panics s es :
  host_typed s -> Forall keyed_event es ->
  let s' := run h es s in
  host_typed s' /\
  (forall pm cm am auth aq cq gm wm,
     safe Server.GetHostInfo s' /\ safe (Server.Pair pm) s' /\ safe (Server.Challenge cm) s' /\ safe (Server.Authenticate am) s' /\
     safe (Server.GetStatus auth) s' /\ safe (Server.GetDigest auth gm) s' /\
     safe (Server.SubmitAnswer auth aq) s' /\ safe (Server.SubmitCommand auth cq) s' /\
     safe (Server.WatchStatus_start auth) s' /\ safe (Server.WatchPane_start auth wm) s') /\
  (forall dev caps races st,
     safe (Server.RevokeDevice dev) s' /\ safe (Server.Publish races st) s' /\
     fst (Registry.SetCapabilities dev caps (Server.book s')) <> Panic /\
     fst (Pairing.Open (tnow s') (Server.pairs s') (Server.world (tick s'))) <> Panic).
Proof.
  intros Hs He s'. pose proof (typed_run es s He Hs) as Hty. fold s' in Hty. split; [exact Hty|]. split; intros.
  { destruct (Submit_safe auth aq cq s') as [Ha Hc]. destruct (reads_safe auth gm s') as (Hg & Hd & Hw).
    split_and!; [by apply GetHostInfo_safe|by apply Pair_safe|apply Challenge_safe|by apply Authenticate_safe|done..|].
    apply WatchPane_safe. }
  split_and!; [|by apply Publish_safe|apply SetCapabilities_safe|apply OpenWindow_safe]. unfold safe, Server.RevokeDevice. rewrite Server.now_bind, Server.book_bind.
  pose proof (Server.Revoke_result dev (tnow s') (Server.book (tick s'))) as Hr.
  by destruct (Registry.Revoke _ _ _) as [[[]|e|] b'].
Qed.
End life.

(** ** Witness *)

#[local] Existing Instances Registry.toy_registry_lib Registry.toy_registry_laws Server.toy_host.
#[local] Existing Instances counted_LinkMessages counted_LinkMessages_laws.
#[local] Existing Instances loop_connect loop_wire loop_laws toy_texts toy_turns.

Lemma host_never_panics_witness :
  let s' := run host_handler a_life fresh_host in
  host_typed s' /\ length (Server.effects s') = 1%nat /\
  safe (Server.Pair (Server.MkPairRequest Server.ProtocolVersion [] [] [] [] [] [])) s'.
Proof.
  assert (host_typed fresh_host) as Hf.
  { split; [|by intros|vm_compute; by eexists]. eapply Registry.everywhere_impl; [exact (proj1 (proj2 fresh_host_fresh))|by intros]. }
  assert (Handler (E := unit) = Ok host_handler) as Hh by exact Handler_mux.
  assert (Forall keyed_event a_life) as He.
  { repeat (apply List.Forall_cons; [try exact I|]); [|apply List.Forall_nil].
    intros i [= <-]. vm_compute. by eexists. }
  destruct (host_never_panics host_handler Hh fresh_host a_life Hf He) as (Hty & Hall & _).
  split; [exact Hty|]. split; [by vm_compute|].
  exact (proj1 (proj2 (Hall _ (Server.MkChallengeRequest []) (Server.MkAuthenticateRequest [] [] [] []) []
    (Server.MkSubmitAnswerRequest [] []) (Server.MkSubmitCommandRequest 0 [] [] [])
    (Server.MkGetDigestRequest []) (Server.MkWatchPaneRequest [])))).
Defined.
