(* ===== verification/Revocation.v ===== *)
(** * Revocation outlives the process (the whole host, over time)

    The lives of [Trust], requests, embedder calls and restarts in any order:
    once [RevokeDevice] has reported success the device is out, in memory and in
    the file every later process starts from, until it pairs again. *)

From stdpp Require Import gmap sets.
From S2P Require Import Prelude GoStrings Json GoTime GoOS GoURL Crypto Convert Http Connect LinkConnect Handler Trust.
From S2P Require Projection Identity Registry Pairing Tokens Hub PaneHub Server Streams.
Import Server (server, tnow, tick).

(** Every entry is filed under the id of its key, and [dev]'s is revoked. *)
Definition shut_out (dev k : bytes) (d : Registry.Device) : Prop :=
  Registry.d_ID d = k /\ Identity.DeviceIDFor (Registry.d_PublicKey d) = k /\
  (k = dev -> is_Some (Registry.d_RevokedAt d)).

Lemma shut_out_durable dev : durable (shut_out dev).
Proof.
  split; [split|].
  - by intros k d [].
  - intros k d (Hi & Hk & Hr). assert (mended k = k) as Hm by by rewrite <- Hk, mended_DeviceID. rewrite Hm.
    split_and!; [|exact Hk|exact Hr]. cbn [Registry.mend_device Registry.d_ID]. by rewrite Hi.
  - intros k d d' (Hk' & Hi' & Hr') (Hi & Hk & Hr). unfold shut_out. rewrite Hk', Hi'. split_and!; [done..|].
    intros Hd. specialize (Hr Hd). by rewrite Hr'.
Qed.

Section revocation.
Context `{Ed25519, Registry.RegistryLibLaws, Server.Host, Texts, ConnectLaws server, !StreamTurns, !LinkMessages}.
Context {E : Type} (h : HTTPHandler Payload Output server).
Hypothesis serving : Handler (E := E) = Ok h.

Definition shut (dev : bytes) (s : server) : Prop := Registry.everywhere (shut_out dev) (Server.book s).

Lemma shut_quiet dev s s' : quiet s s' -> shut dev s -> shut dev s'.
Proof. intros Hq. apply (q_file _ _ Hq), shut_out_durable. Qed.

(** Nobody is let through as a device that is shut out. *)
Lemma shut_unauthorized dev s auth cap : shut dev s -> fst (Server.authorize auth cap s) <> Ok dev.
Proof.
  intros [Hb _]. rewrite Server.authorize_eq. cbn [fst]. unfold Server.authorized. destruct (negb _); [done|].
  cbv zeta. case_bool_decide; [done|].
  destruct (Registry.Allowed _ cap _) as [[]|e|] eqn:Ha; [|done..]. intros [= Hdev]. rewrite Hdev in Ha.
  unfold Registry.Allowed in Ha. destruct (Registry.r_devices (Server.registry s) !! dev) as [d|] eqn:Hd; [|done].
  destruct (Hb dev d Hd) as (_ & _ & Hr). rewrite (proj2 (Registry.Revoked_spec d)) in Ha; [done|]. by apply Hr.
Qed.

(** A successful [RevokeDevice] shuts the device out. *)
Lemma RevokeDevice_shuts dev s :
  Registry.everywhere (fun k d => Registry.d_ID d = k /\ Identity.DeviceIDFor (Registry.d_PublicKey d) = k) (Server.book s) ->
  fst (Server.RevokeDevice dev s) = Ok () -> shut dev (snd (Server.RevokeDevice dev s)).
Proof.
  intros [Hb _]. unfold Server.RevokeDevice. rewrite Server.now_bind, Server.book_bind.
  change (Server.book (tick s)) with (Registry.put_world (Server.world (tick s)) (Server.book s)).
  set (b := Registry.put_world _ _). set (op := Registry.ORevoke dev (tnow s)).
  change (Registry.Revoke dev (tnow s) b) with (Registry.run_op op b).
  pose proof (Registry.run_op_saved (shut_out dev) op b (du_carried _ (shut_out_durable dev))) as Hs.
  pose proof (op_keeps op b I) as Hk. pose proof (proj1 (Registry.run_op_devices op b)) as Hd.
  assert (Registry.op_refusal op (Registry.devices b) = None \/ exists e, fst (Registry.run_op op b) = Err e) as Href.
  { rewrite Registry.run_op_eq. destruct (Registry.op_refusal _ _); eauto. }
  destruct (Registry.run_op op b) as [[[]|e|] b']; cbn [fst snd] in *; [|done..]. intros _.
  apply Hs; [done|done|]. clear Hs. destruct Href as [Href|[e [=]]]. rewrite <- Hd. intros k d' Hd'.
  destruct (book_keeps_same _ _ _ _ Hk Hd') as (d & Hdk & Hkey & Hid & Hr). destruct (Hb k d Hdk) as [Hi Hp].
  unfold shut_out. rewrite Hkey, Hid. split_and!; [done..|]. intros ->.
  destruct (Registry.op_book_Revoke dev (tnow s) d _ Hdk) as (d2 & Hd2 & Ht). rewrite Hd in Hd'.
  assert (Some d2 = Some d') as [= <-] by (by rewrite <- Hd2, <- Hd'). by rewrite Ht.
Qed.

(** ** One step *)

(** [e] enrolls [dev]. *)
Definition enrolls (dev : bytes) (e : event) (s : server) : Prop :=
  exists m, serves_as h e (QPair m) s /\ pairing_accepted m s /\ Identity.DeviceIDFor (Server.DevicePublicKey m) = dev.

(** The event [e], served in the state [s], is a valid submission of a device
    other than [dev] that is authorized there, and [x] is what it causes. *)
Definition other_submits (dev : bytes) (e : event) (s : server) (x : Server.effect) : Prop :=
  exists q dev', serves_as h e q s /\ submission q s dev' x /\ dev' <> dev.

Lemma shut_request dev q e s :
  serves_as h e q s -> ~ enrolls dev e s -> shut dev s ->
  shut dev (serve_request q s) /\
  exists xs, Server.effects (serve_request q s) = Server.effects s ++ xs /\ Forall (other_submits dev e s) xs.
Proof.
  intros Hq Hno Hs.
  assert (forall s', quiet s s' -> shut dev s' /\
    exists xs, Server.effects s' = Server.effects s ++ xs /\ Forall (other_submits dev e s) xs) as Hquiet.
  { intros s' Hqs. split; [by eapply shut_quiet|]. exists []. by rewrite app_nil_r, (q_effects _ _ Hqs). }
  assert (forall dev' x s1 s', submission q s dev' x -> quiet s s1 -> quiet (Server.add_effect x s1) s' ->
    shut dev s' /\ exists xs, Server.effects s' = Server.effects s ++ xs /\ Forall (other_submits dev e s) xs) as Hsub.
  { intros dev' x s1 s' Hsub Hq1 Hq2. split.
    - apply (shut_quiet _ _ _ Hq2). exact (shut_quiet _ _ _ Hq1 Hs).
    - exists [x]. rewrite (q_effects _ _ Hq2). cbn [Server.add_effect Server.effects]. rewrite (q_effects _ _ Hq1).
      split; [done|]. apply List.Forall_cons; [|constructor]. exists q, dev'. split_and!; [done..|]. intros ->.
      destruct (submission_authorized _ _ _ _ Hsub) as [cap Ha]. by apply (shut_unauthorized dev s (submitter q) cap). }
  destruct q as [|m|m|m|auth|auth m|auth m|auth m|auth ok turns|auth m ok turns]; cbn [serve_request].
  - apply Hquiet, quiet_GetHostInfo.
  - destruct (Pair_state (may := keeps) m s) as [Hx|[Ha Hx]]; [by apply Hquiet|]. split.
    + apply (p_file _ _ _ Hx); [apply shut_out_durable| |exact Hs]. intros d Hid Hk.
      split_and!; [done|by rewrite Hk|]. intros Hdev. destruct Hno. exists m. split_and!; [done..|congruence].
    + exists []. by rewrite app_nil_r, (p_effects _ _ _ Hx).
  - apply Hquiet, quiet_Challenge.
  - destruct (Authenticate_state (may := keeps) m s) as [Hx|(d & resp & t & s1 & _ & _ & _ & Hq1 & Hq2)]; [|by apply Hquiet|].
    { intros d Hk. unfold Server.known, Registry.Get in Hk.
      destruct (Registry.r_devices _ !! _) as [d1|] eqn:Hd; [|done]. destruct (Registry.Revoked d1); [done|].
      simplify_eq. by apply (proj1 Hs) in Hd as (? & _). }
    split; [apply (shut_quiet _ _ _ Hq2); exact (shut_quiet _ _ _ Hq1 Hs)|].
    exists []. rewrite app_nil_r, (q_effects _ _ Hq2). cbn. by rewrite (q_effects _ _ Hq1).
  - apply Hquiet, quiet_GetStatus.
  - destruct (SubmitAnswer_state (may := keeps) auth m s) as [Hx|(dev' & a & s1 & ? & ? & ?)]; [by apply Hquiet|by eapply Hsub].
  - destruct (SubmitCommand_state (may := keeps) auth m s) as [Hx|(dev' & a & s1 & ? & ? & ?)]; [by apply Hquiet|by eapply Hsub].
  - apply Hquiet, quiet_GetDigest.
  - apply Hquiet, quiet_watch_status.
  - apply Hquiet, quiet_watch_pane.
Qed.

Lemma shut_step dev e s :
  ~ enrolls dev e s -> shut dev s ->
  shut dev (step h s e) /\
  exists xs, Server.effects (step h s e) = Server.effects s ++ xs /\ Forall (other_submits dev e s) xs.
Proof.
  intros Hno Hs.
  assert (forall s', quiet s s' -> shut dev s' /\
    exists xs, Server.effects s' = Server.effects s ++ xs /\ Forall (other_submits dev e s) xs) as Hquiet.
  { intros s' Hqs. split; [by eapply shut_quiet|]. exists []. by rewrite app_nil_r, (q_effects _ _ Hqs). }
  destruct e as [rq| | |races st|races sid f|k|k caps|o w]; cbn [step].
  - destruct (any_request h rq s serving) as [->|(q & Hpath & Hq)]; [by apply Hquiet|]. rewrite Hq.
    apply (shut_request dev q (HTTP rq)); [|done..]. exists rq. by split_and!.
  - split; [|exists []; rewrite app_nil_r; split; [|constructor]].
    + pose proof (open_window_disk s) as Hdisk. revert Hdisk. unfold open_window.
      destruct (Pairing.Open _ _ _) as [[[]|?|] ?]; intros Hdisk; by apply (everywhere_disk _ (Server.book s)).
    + unfold open_window. by destruct (Pairing.Open _ _ _) as [[[]|?|] ?].
  - split; [exact Hs|]. exists []. by rewrite app_nil_r.
  - apply Hquiet, quiet_Publish.
  - apply Hquiet, quiet_panes.
  - by apply Hquiet, quiet_RevokeDevice.
  - by apply Hquiet, quiet_SetCapabilities.
  - destruct (restart_spec o w s) as [->|[_ _ _ _ He _ Hb]]; [by apply Hquiet|].
    split; [by apply Hb|]. exists []. by rewrite app_nil_r.
Qed.

(** ** Any life afterwards *)

(** No event of the life enrolls [dev]. *)
Fixpoint unpaired (dev : bytes) (es : list event) (s : server) : Prop :=
  match es with
  | [] => True
  | e :: es' => ~ enrolls dev e s /\ unpaired dev es' (step h s e)
  end.

(** [x] is what some request of the life [es] from [s] causes, where it is served:
    a valid submission of a device other than [dev], authorized at that point. *)
Definition by_other (dev : bytes) (es : list event) (s : server) (x : Server.effect) : Prop :=
  exists es1 e es2, es = es1 ++ e :: es2 /\ other_submits dev e (run h es1 s) x.

Lemma shut_run dev es s :
  unpaired dev es s -> shut dev s ->
  shut dev (run h es s) /\
  exists xs, Server.effects (run h es s) = Server.effects s ++ xs /\ Forall (by_other dev es s) xs.
Proof.
  revert s. induction es as [|e es IH]; intros s Hu Hs; [split; [done|]; exists []; by rewrite app_nil_r|].
  destruct Hu as [Hno Hu]. destruct (shut_step dev e s Hno Hs) as (Hs' & xs & Hx & Hf).
  destruct (IH _ Hu Hs') as (Hs2 & ys & Hy & Hf'). change (run h (e :: es) s) with (run h es (step h s e)).
  split; [done|]. exists (xs ++ ys). rewrite Hy, Hx, app_assoc. split; [done|]. apply Forall_app. split.
  - eapply List.Forall_impl; [|exact Hf]. intros x Ho. by exists [], e, es.
  - eapply List.Forall_impl; [|exact Hf']. intros x (es1 & e' & es2 & -> & Ho). by exists (e :: es1), e', es2.
Qed.

(** C2: a revocation that was reported holds. After any life of a fresh host, once
    [RevokeDevice] has returned success, whatever requests, embedder calls,
    failing file operations, crashes and restarts follow, no request is let
    through as that device, and everything that reaches the executor is what a
    request of that life causes, a valid submission served while its sender, a
    device other than that one, was authorized; until the device pairs again
    through a window. *)
Theorem revocation_outlives_restarts s0 es dev es' :
  fresh s0 ->
  let '(r, s1) := Server.RevokeDevice dev (run h es s0) in
  r = Ok () -> unpaired dev es' s1 ->
  let s' := run h es' s1 in
  (forall auth cap, fst (Server.authorize auth cap s') <> Ok dev) /\
  exists xs, Server.effects s' = Server.effects (run h es s0) ++ xs /\ Forall (by_other dev es' s1) xs.
Proof.
  intros Hf. pose proof (t_book _ _ _ _ (traced_life h serving s0 es Hf)) as Hb. set (s := run h es s0) in *.
  pose proof (RevokeDevice_shuts dev s) as Hshut. pose proof (quiet_RevokeDevice (may := keeps) dev s (fun _ => I)) as Hq.
  destruct (Server.RevokeDevice dev s) as [r s1]. cbn [fst snd] in *. intros -> Hu.
  destruct (shut_run dev es' s1 Hu) as (Hs' & xs & Hx & Hall).
  - apply Hshut; [|done]. eapply Registry.everywhere_impl; [exact Hb|]. by intros k d (_ & ? & ?).
  - split; [intros auth cap; by apply shut_unauthorized|]. exists xs. by rewrite <- (q_effects _ _ Hq).
Qed.
End revocation.

(** ** Witness: the phone of [Trust], revoked, knocks at a new process *)

#[local] Existing Instances Registry.toy_registry_lib Registry.toy_registry_laws Server.toy_host.
#[local] Existing Instances counted_LinkMessages counted_LinkMessages_laws.
#[local] Existing Instances loop_connect loop_wire loop_laws.
#[local] Existing Instances toy_texts toy_turns.

Definition afterlife : list event := [answer_request; restart_event; challenge_request; authenticate_request; answer_request].

(** Requests at other paths enroll nobody. *)
Lemma path_enrolls_not dev rq s :
  URL_Path rq <> HostService.HostServicePairProcedure -> ~ enrolls host_handler dev (HTTP rq) s.
Proof. intros Hp (m & (rq' & [= <-] & Hpath & _) & _). by destruct Hp. Qed.

Lemma revocation_outlives_restarts_witness :
  let s := run host_handler a_life fresh_host in
  let s1 := snd (Server.RevokeDevice Server.phone_id s) in
  let s' := run host_handler afterlife s1 in
  length (Server.effects s) = 1%nat /\ fst (Server.RevokeDevice Server.phone_id s) = Ok () /\
  (forall auth cap, fst (Server.authorize auth cap s') <> Ok Server.phone_id) /\
  Server.effects s' = Server.effects s.
Proof.
  intros s s1 s'. assert (fst (Server.RevokeDevice Server.phone_id s) = Ok ()) as Hok by (vm_compute; reflexivity).
  split; [vm_compute; reflexivity|]. split; [exact Hok|].
  assert (unpaired host_handler Server.phone_id afterlife s1) as Hu.
  { repeat first [split; [first [by apply path_enrolls_not|intros (m & (rq & [=] & _) & _)]|]|exact I]. }
  pose proof (revocation_outlives_restarts (E := unit) host_handler Handler_mux fresh_host a_life Server.phone_id
    afterlife fresh_host_fresh) as H.
  fold s in H. unfold s1 in *. destruct (Server.RevokeDevice Server.phone_id s) as [r s2] eqn:Hr.
  split; [by apply H|]. unfold s', s1. cbn [snd].
  assert (Server.effects (run host_handler afterlife (snd (Server.RevokeDevice Server.phone_id s))) =
          Server.effects s) as He by (vm_compute; reflexivity).
  by rewrite Hr in He.
Defined.
