(* ===== verification/Comeback.v ===== *)
(** * A pairing outlives the process (the whole host, over time)

    The lives of [Trust] again, and what the host owes a device it has paired:
    until someone revokes it, edits it or pairs it anew, the device stays on the
    book with what it was granted, the next process comes up with that book, and
    the device gets a session and reads the status at any time. *)

From stdpp Require Import gmap sets.
From S2P Require Import Prelude GoStrings Json GoTime GoOS GoURL Crypto Convert Http Connect LinkConnect Handler Trust Revocation.
From S2P Require Projection Identity Registry Pairing Tokens Hub PaneHub Server Streams.
Import Server (server, tnow, tick).

(** ** Books a device is settled in *)

Definition own (k : bytes) (d : Registry.Device) : Prop :=
  Registry.d_ID d = k /\ Identity.DeviceIDFor (Registry.d_PublicKey d) = k.

(** Every entry is filed under the id of its key, and [dev]'s is live, with this
    key and these capabilities. *)
Definition settled_in (dev pub : bytes) (caps : list bytes) (m : gmap bytes Registry.Device) : Prop :=
  map_Forall own m /\
  exists d, m !! dev = Some d /\ Registry.d_PublicKey d = pub /\ Registry.d_RevokedAt d = None /\
            Registry.d_Capabilities d = caps.

(** The methods that leave [dev]'s entry as it is, its last contact apart. *)
Definition spares (dev : bytes) (op : Registry.regop) : Prop :=
  match op with
  | Registry.OAdd d => Registry.d_ID d <> dev /\ own (Registry.d_ID d) d
  | Registry.OSetCapabilities k _ | Registry.ORevoke k _ => k <> dev
  | Registry.OTouch _ _ => True
  end.

#[export] Instance spares_touching dev : Touching (spares dev).
Proof. by intros k t. Qed.

Lemma own_alter (f : Registry.Device -> Registry.Device) (k : bytes) (m : gmap bytes Registry.Device) :
  (forall d, Registry.d_ID (f d) = Registry.d_ID d /\ Registry.d_PublicKey (f d) = Registry.d_PublicKey d) ->
  map_Forall own m -> map_Forall own (alter f k m).
Proof.
  intros Hf Hm k' d [(<- & d0 & Hd & ->)|[_ Hd]]%lookup_alter_Some; [|by apply Hm].
  destruct (Hf d0) as [Hi Hp]. unfold own. rewrite Hi, Hp. by apply Hm.
Qed.

Lemma spares_book dev pub caps op m :
  spares dev op -> settled_in dev pub caps m -> settled_in dev pub caps (Registry.op_book op m).
Proof.
  intros Hop [Hm (d & Hd & Hs)]. unfold Registry.op_book. destruct (Registry.op_refusal op m); [by split; eauto|].
  destruct op as [x|k cs|k t|k t]; cbn [Registry.op_effect spares] in *.
  - destruct Hop as [Hne Hx]. split; [by apply map_Forall_insert_2|]. exists d. by rewrite lookup_insert_ne.
  - split; [by apply own_alter|]. exists d. by rewrite lookup_alter_ne.
  - split; [by apply own_alter|]. destruct (decide (k = dev)) as [->|].
    + exists (Registry.set_LastSeenAt t d). by rewrite lookup_alter_eq, Hd.
    + exists d. by rewrite lookup_alter_ne.
  - split; [apply own_alter; [|done]; intros x; by destruct (Registry.Revoked x)|].
    exists d. by rewrite lookup_alter_ne.
Qed.

Lemma own_textual k d : own k d -> Registry.d_ID d = k /\ mended k = k.
Proof. intros [Hi Hk]. split; [done|]. by rewrite <- Hk, mended_DeviceID. Qed.

(** Known capabilities are text. *)
Lemma granted_mended caps : map mended (Registry.filter_caps caps) = Registry.filter_caps caps.
Proof.
  destruct (Registry.filter_caps_wf caps) as (_ & _ & Ht). induction Ht as [|c cs Hc _ IH]; [done|].
  cbn [map]. rewrite IH. f_equal. by apply unquote_json_escape.
Qed.

Lemma settled_portable dev pub caps : map mended caps = caps -> Registry.portable (settled_in dev pub caps).
Proof.
  intros Hcaps m [Hm (d & Hd & Hk & Hr & Hc)]. split; [intros k x Hx; by apply own_textual, Hm|]. split.
  - intros k x (x0 & <- & Hx)%lookup_fmap_Some. destruct (Hm k x0 Hx) as [Hi Hp].
    split; [|exact Hp]. cbn [Registry.mend_device Registry.d_ID]. rewrite Hi. by apply (own_textual k x0).
  - exists (Registry.mend_device d). rewrite lookup_fmap, Hd. cbn. by rewrite Hk, Hr, Hc, Hcaps.
Qed.

Section comeback.
Context `{Ed25519Laws, Registry.RegistryLibLaws, Server.Host, Texts, ConnectLaws server, !StreamTurns, !LinkMessages}.
Context {E : Type} (h : HTTPHandler Payload Output server).
Hypothesis serving : Handler (E := E) = Ok h.

Definition settled (dev pub : bytes) (caps : list bytes) (s : server) : Prop :=
  Registry.opens (settled_in dev pub caps) (Server.book s).

(** ** One step *)

(** What a request may do to the book. *)
Lemma request_evolves (may : Registry.regop -> Prop) `{!Touching may} q s :
  map_Forall own (Registry.devices (Server.book s)) ->
  (forall m d, q = QPair m -> pairing_accepted m s ->
     Registry.d_ID d = Identity.DeviceIDFor (Server.DevicePublicKey m) ->
     Registry.d_PublicKey d = Server.DevicePublicKey m -> may (Registry.OAdd d)) ->
  Registry.evolves may (Server.book s) (Server.book (serve_request q s)).
Proof.
  intros Hown Hadd.
  destruct q as [|m|m|m|auth|auth m|auth m|auth m|auth ok turns|auth m ok turns]; cbn [serve_request].
  - apply q_ops, quiet_GetHostInfo.
  - destruct (Pair_state (may := may) m s) as [Hq|[Ha Hp]]; [by apply q_ops|].
    destruct (p_ops _ _ _ Hp) as (d & Hi & Hk & Hev). eapply Registry.evolves_mono; [|exact Hev].
    intros op <-. by apply (Hadd m).
  - apply q_ops, quiet_Challenge.
  - destruct (Authenticate_state (may := may) m s) as [Hq|(d & resp & t & s1 & _ & _ & _ & Hq1 & Hq2)];
      [|by apply q_ops|].
    { intros d [Hd _]%Server.known_Get. by apply (Hown _ d) in Hd as []. }
    etrans; [by apply (q_ops _ _ Hq1)|]. exact (q_ops _ _ Hq2).
  - apply q_ops, quiet_GetStatus.
  - destruct (SubmitAnswer_state (may := may) auth m s) as [Hq|(k & a & s1 & _ & Hq1 & Hq2)]; [by apply q_ops|].
    etrans; [by apply (q_ops _ _ Hq1)|]. exact (q_ops _ _ Hq2).
  - destruct (SubmitCommand_state (may := may) auth m s) as [Hq|(k & a & s1 & _ & Hq1 & Hq2)]; [by apply q_ops|].
    etrans; [by apply (q_ops _ _ Hq1)|]. exact (q_ops _ _ Hq2).
  - apply q_ops, quiet_GetDigest.
  - apply q_ops, quiet_watch_status.
  - apply q_ops, quiet_watch_pane.
Qed.

(** The embedder's calls that take something from [dev]. *)
Definition withdraws (dev : bytes) (e : event) : Prop :=
  match e with Revoke k | SetCapabilities k _ => k = dev | _ => False end.

Section step.
Context (dev pub : bytes) (caps : list bytes).
Hypothesis Hcaps : map mended caps = caps.

Lemma settled_evolves s s' :
  Registry.evolves (spares dev) (Server.book s) (Server.book s') -> settled dev pub caps s -> settled dev pub caps s'.
Proof.
  intros He. eapply Registry.evolves_opens; [by apply settled_portable| |exact He]. intros op m. apply spares_book.
Qed.

Lemma settled_rebooted o s s' : rebooted o s s' -> settled dev pub caps s -> settled dev pub caps s'.
Proof.
  intros Hr [_ Hf]. destruct (rb_opened _ _ _ Hr) as (w & w' & Hd & Ho & Hw).
  change (Registry.rs_reg (Server.book s)) with (Server.registry s) in Hf.
  change (Registry.rs_world (Server.book s)) with (Server.world s) in Hf. rewrite <- Hd in Hf.
  destruct (Registry.Open_inv _ _ _ _ _ Hf Ho) as (Hp & Hi & Hdw). split; [exact Hi|].
  change (Registry.rs_reg (Server.book s')) with (Server.registry s').
  change (Registry.rs_world (Server.book s')) with (Server.world s'). by rewrite Hp, Hw, Hdw.
Qed.

Lemma settled_step e s :
  ~ enrolls h dev e s -> ~ withdraws dev e -> settled dev pub caps s -> settled dev pub caps (step h s e).
Proof.
  intros Hno Hw Hs.
  assert (forall s', quiet_by (spares dev) s s' -> settled dev pub caps s') as Hquiet.
  { intros s' Hq. by eapply settled_evolves; [apply (q_ops _ _ Hq)|]. }
  destruct e as [rq| | |races st|races sid f|k|k cs|o w]; cbn [step withdraws] in *.
  - destruct (any_request h rq s serving) as [->|(q & Hpath & Hq)]; [by apply Hquiet|]. rewrite Hq.
    eapply settled_evolves; [|exact Hs]. apply request_evolves; [apply _|apply Hs|].
    intros m d -> Ha Hi Hk. split; [|split; [done|by rewrite Hk]]. intros Hdev. destruct Hno. exists m.
    split_and!; [by exists rq; split_and!|done|congruence].
  - eapply settled_evolves; [|exact Hs]. pose proof (open_window_disk s) as Hdisk. revert Hdisk. unfold open_window.
    destruct (Pairing.Open _ _ _) as [[[]|?|] w']; intros Hdisk; by apply (Registry.evolves_world _ w').
  - exact Hs.
  - apply Hquiet, quiet_Publish.
  - apply Hquiet, quiet_panes.
  - by apply Hquiet, quiet_RevokeDevice.
  - by apply Hquiet, quiet_SetCapabilities.
  - destruct (restart_spec o w s) as [->|Hr]; [done|]. by eapply settled_rebooted.
Qed.

Lemma settled_run es s :
  unpaired h dev es s -> Forall (fun e => ~ withdraws dev e) es -> settled dev pub caps s ->
  settled dev pub caps (run h es s).
Proof.
  revert s. induction es as [|e es IH]; intros s Hu Hw Hs; [done|]. destruct Hu as [Hno Hu].
  apply Forall_cons_iff in Hw as [Hw1 Hw]. apply IH; [done..|]. by apply settled_step.
Qed.
End step.

(** ** The pairing, and the next process *)

(** An accepted pairing is in the file when its answer is sent. *)
Lemma Pair_settles m s resp s1 :
  map_Forall own (Registry.devices (Server.book s)) -> Server.Pair m s = (Ok resp, s1) ->
  Server.GrantedCapabilities resp = Registry.filter_caps (Server.requested_caps m) /\
  settled (Identity.DeviceIDFor (Server.DevicePublicKey m)) (Server.DevicePublicKey m)
    (Server.GrantedCapabilities resp) s1.
Proof.
  intros Hown. unfold Server.Pair. destruct (negb (bool_decide _)); [done|].
  destruct (negb (length _ =? _)%nat); [done|].
  rewrite gets_bind, or_panic_bind. destruct (Identity.HostID _) as [hid|]; [|done].
  rewrite of_res_bind. destruct (Identity.VerifyPairProof _ _ _ _) as [ok|e|]; [|done..].
  rewrite throw_if_bind. destruct ok; cbn [negb]; [|done]. rewrite Server.now_bind. unfold Server.Redeem.
  rewrite Server.locked_bind. destruct (Pairing.Redeem _ _ _) as [ok m']. cbn [fst snd]. rewrite throw_if_bind.
  destruct ok; cbn [negb]; [|done]. rewrite Server.now_bind, Server.book_bind. fold (Server.requested_caps m).
  set (s2 := tick (Server.set_pairs m' (tick s))). set (d := Registry.MkDevice _ _ _ _ _ _ _ _).
  set (caps := Registry.filter_caps (Server.requested_caps m)).
  set (I := settled_in (Identity.DeviceIDFor (Server.DevicePublicKey m)) (Server.DevicePublicKey m) caps).
  pose proof (Registry.run_op_opened I (Registry.OAdd d) (Server.book s2) (settled_portable _ _ _ (granted_mended _))) as Hadd.
  cbn [Registry.run_op] in Hadd. pose proof (Server.Add_result d (Server.book s2)) as Hr.
  destruct (Registry.Add d (Server.book s2)) as [[[]|e|] b']; cbn [fst snd] in *; [|done..].
  assert (Registry.opens I b') as Hb.
  { apply Hadd; [done..|]. unfold Registry.op_book. destruct Hr as [-> _]. cbn [Registry.op_effect].
    split; [by apply map_Forall_insert_2|]. eexists. by rewrite lookup_insert_eq. }
  rewrite modify_bind, gets_bind, !or_panic_bind. destruct (Identity.PublicKey _); [|done].
  intros [= <- <-]. cbn [Server.GrantedCapabilities].
  assert (from_option Registry.d_Capabilities [] (Registry.devices b' !! Identity.DeviceIDFor (Server.DevicePublicKey m)) = caps)
    as Hc by (by destruct Hb as [(_ & x & -> & _ & _ & <-) _]).
  change (Registry.Get _ _) with (Registry.devices b' !! Identity.DeviceIDFor (Server.DevicePublicKey m)).
  rewrite Hc. split; [done|exact Hb].
Qed.

(** A process that can read the file comes up. *)
Lemma settled_comes_up dev pub caps s o w :
  settled dev pub caps s -> is_Some (Server.op_Identity o) -> Server.op_Executor o = true ->
  faults w (ops w) = None -> is_Some (reboot o w s).
Proof.
  intros [_ Hf] [i Hi] He Hw. unfold reboot. cbv zeta. set (path := Registry.r_path (Server.registry s)).
  set (w0 := set_disk _ w). change (Registry.r_path (Registry.rs_reg (Server.book s))) with path in Hf.
  assert (disk w0 !! path = disk (Server.world s) !! path) as Hd
    by (unfold w0; cbn [disk set_disk]; by rewrite lookup_partial_alter_eq).
  unfold Registry.stored_in in Hf. unfold Server.world in Hd. rewrite <- Hd in Hf.
  destruct (disk w0 !! path) as [raw|] eqn:Hraw; [|by destruct Hf as [_ (? & ? & _)]].
  destruct Hf as (f & Hu & _). pose proof (Registry.Open_reads path w0 raw f Hw Hraw Hu) as Ho.
  destruct (Registry.Open path w0) as [[r|e|] w']; [|done..].
  unfold Server.NewServer. cbn [Server.op_Identity Server.op_Registry Server.op_Executor Server.op_Pairing default].
  rewrite Hi, He. by eexists.
Qed.

(** C3: a pairing that was confirmed holds. After any life of a fresh host, once
    [Pair] has answered a device, whatever requests, embedder calls, failing file
    operations, crashes and restarts follow, as long as nobody revokes the
    device, sets its capabilities or pairs it anew: the device is on the book
    with its key and the capabilities it was granted; a process that can read
    its files comes up; and if the device was granted the status and the host's
    key is whole, then at any point of its life where the next two draws of
    random octets succeed and the next five readings of the clock lie within a
    minute of each other, it gets a challenge, signs it, is granted a session
    and reads the status. *)
Theorem pairing_outlives_restarts priv m s0 es es' :
  fresh s0 -> key_pair priv (Server.DevicePublicKey m) ->
  let dev := Identity.DeviceIDFor (Server.DevicePublicKey m) in
  let '(r, s1) := Server.Pair m (run h es s0) in
  let s := run h es' s1 in
  unpaired h dev es' s1 -> Forall (fun e => ~ withdraws dev e) es' ->
  forall resp, r = Ok resp ->
  (exists d, Registry.Get dev (Server.registry s) = Some d /\ Registry.d_PublicKey d = Server.DevicePublicKey m /\
     Registry.d_RevokedAt d = None /\ Registry.d_Capabilities d = Server.GrantedCapabilities resp) /\
  (forall o w, is_Some (Server.op_Identity o) -> Server.op_Executor o = true -> faults w (ops w) = None ->
     is_Some (reboot o w s)) /\
  (forall hostID, Registry.CapStatusRead ∈ Server.GrantedCapabilities resp ->
   Identity.HostID (Server.id s) = Some hostID ->
   Server.prompt_clock (Server.world s) -> Server.octets_ready (Server.world s) ->
   exists ch s2 sig tok s3,
     Server.Challenge (Server.MkChallengeRequest dev) s = (Ok ch, s2) /\
     Identity.SignAuth (E := Server.rpcerr) priv hostID dev (Server.cr_Nonce ch) = Ok sig /\
     Server.Authenticate (Server.MkAuthenticateRequest Server.ProtocolVersion dev (Server.cr_Nonce ch) sig) s2 = (Ok tok, s3) /\
     fst (Server.GetStatus (Server.bearerPrefix ++ Server.SessionToken tok) s3) =
       Ok (Server.MkGetStatusResponse (statusToProto (Hub.current (Server.hub s)) (Hub.at_ (Server.hub s)))
             (Hub.seq (Server.hub s)))).
Proof.
  intros Hf Hk dev. pose proof (t_book _ _ _ _ (traced_life h serving s0 es Hf)) as [Hb _].
  destruct (Server.Pair m (run h es s0)) as [r s1] eqn:Hp. intros s Hu Hw resp ->.
  destruct (Pair_settles _ _ _ _ (map_Forall_impl _ _ _ Hb (fun k d Hd => conj (proj2 (proj2 Hd)) (proj1 (proj2 Hd)))) Hp)
    as [Hc Hs].
  assert (map mended (Server.GrantedCapabilities resp) = Server.GrantedCapabilities resp) as Hm
    by (rewrite Hc; apply granted_mended).
  pose proof (settled_run dev _ _ Hm es' s1 Hu Hw Hs) as Hend. fold s in Hend.
  pose proof Hend as [[Hown (d & Hd & Hpk & Hr & Hcs)] _].
  split; [by exists d|]. split; [intros o w; by eapply settled_comes_up|].
  intros hostID Hcap Hid Hclk Hent. apply (Server.known_handshake priv (Server.DevicePublicKey m) hostID d); try done.
  - by apply Server.known_Get.
  - by apply (Hown dev d).
  - by rewrite Hcs.
Qed.
End comeback.

(** ** Witness: the phone of [Trust] comes back after a restart *)

#[local] Existing Instances Registry.toy_registry_lib Registry.toy_registry_laws Server.toy_host.
#[local] Existing Instances counted_LinkMessages counted_LinkMessages_laws.
#[local] Existing Instances loop_connect loop_wire loop_laws.
#[local] Existing Instances toy_texts toy_turns.

Definition phone_request : Server.PairRequest :=
  Server.MkPairRequest Server.ProtocolVersion the_secret Server.phone_pub (str "Phone") [] []
    (ed_sign Server.phone_priv (Identity.pairBytes host_id the_secret Server.phone_pub)).

(** A session and an answer; then the process dies, and somebody else is revoked. *)
Definition a_week : list event :=
  [challenge_request; authenticate_request; answer_request; restart_event; Revoke (str "another")].

Lemma pairing_outlives_restarts_witness :
  let s1 := snd (Server.Pair phone_request (run host_handler [OpenWindow] fresh_host)) in
  let s := run host_handler a_week s1 in
  (exists d, Registry.Get Server.phone_id (Server.registry s) = Some d /\
     Registry.d_Capabilities d = Registry.DefaultCapabilities) /\
  exists ch s2 sig tok s3,
    Server.Challenge (Server.MkChallengeRequest Server.phone_id) s = (Ok ch, s2) /\
    Server.Authenticate (Server.MkAuthenticateRequest Server.ProtocolVersion Server.phone_id (Server.cr_Nonce ch) sig) s2 =
      (Ok tok, s3) /\
    exists st, fst (Server.GetStatus (Server.bearerPrefix ++ Server.SessionToken tok) s3) = Ok st.
Proof.
  intros s1 s.
  assert (exists resp, fst (Server.Pair phone_request (run host_handler [OpenWindow] fresh_host)) = Ok resp /\
    Server.GrantedCapabilities resp = Registry.DefaultCapabilities) as (resp & Hok & Hcaps).
  { eexists. split; vm_compute; reflexivity. }
  assert (unpaired host_handler Server.phone_id a_week s1) as Hu.
  { repeat first [split; [first [by apply path_enrolls_not|intros (m & (rq & [=] & _) & _)]|]|exact I]. }
  assert (Forall (fun e => ~ withdraws Server.phone_id e) a_week) as Hw.
  { repeat apply List.Forall_cons; [by intros []..| |by apply List.Forall_nil].
    cbn [withdraws]. by apply (bool_decide_eq_false_1 _). }
  assert (Server.prompt_clock (Server.world s)) as Hclk.
  { assert (forall i, clock (Server.world s) i = 5) as Hc by (intros i; vm_compute; reflexivity).
    intros i j _ _. by rewrite !Hc. }
  assert (Server.octets_ready (Server.world s)) as Hent.
  { unfold Server.octets_ready. assert (entropy (Server.world s) = entropy (calm 5 x01)) as -> by (vm_compute; reflexivity). done. }
  assert (Identity.HostID (Server.id s) = Some Server.paired_host) as Hid by (vm_compute; reflexivity).
  pose proof (pairing_outlives_restarts (E := unit) host_handler Handler_mux Server.phone_priv phone_request
    fresh_host [OpenWindow] a_week fresh_host_fresh Server.phone_key) as H.
  change (Server.DevicePublicKey phone_request) with Server.phone_pub in H. fold Server.phone_id in H. unfold s, s1 in *.
  destruct (Server.Pair phone_request (run host_handler [OpenWindow] fresh_host)) as [r s2]. cbn [fst snd] in *.
  destruct (H Hu Hw resp Hok) as ((d & Hd & _ & _ & Hdc) & _ & Hh).
  split; [exists d; split; [exact Hd|rewrite Hdc; exact Hcaps]|].
  destruct (Hh Server.paired_host) as (ch & s3 & sig & tok & s4 & Hc & _ & Ha & Hg); [| |exact Hclk|exact Hent|].
  - rewrite Hcaps. by left.
  - exact Hid.
  - exists ch, s3, sig, tok, s4. split_and!; [exact Hc|exact Ha|]. eexists. exact Hg.
Defined.
