(* ===== verification/Sections.v ===== *)
(** * The handlers as programs of critical sections (link/server.go)

    Every handler as the sections it is made of, in its order, each the step of
    one component; between any two other calls may run. A section notes the fact
    it makes true. Alone, each program is the handler of [Server]. *)

From stdpp Require Import gmap sets.
From S2P Require Import Prelude GoStrings BaseN GoTime GoOS Crypto EdgeProto Convert Threads.
From S2P Require Projection Identity Registry Pairing Tokens Hub PaneHub Streams Connect Handler Trust.
From S2P Require Import Server.

(** ** Facts *)

(** What a section makes true, noted by it. *)
Inductive fact :=
| Opened (secret : bytes)
| Redeemed (secret pub proof : bytes)
| Enrolled (dev pub : bytes)
| Revoked (dev : bytes)
| Challenged (dev nonce : bytes)
| Granted (dev tok nonce sig : bytes)
| Cleared (tok dev cap : bytes)
| Submitted (dev : bytes) (x : effect).

#[local] Notation "'program'" := (prog server rpcerr fact).

#[local] Existing Instances Streams.status_watch Streams.pane_watch.

(** ** The handlers as programs *)

Section programs.
Context `{Ed25519, Registry.RegistryLib, Host}.

Definition refuse {A} (c : code) (r : reason) : program A := Ret (Err (RPCError c r)).
Definition refuse_if (b : bool) (e : rpcerr) : program unit := if b then Ret (Err e) else mret ().

Definition drop_sections (dev : bytes) : program unit :=
  _ ← silent (modify (drop_tokens dev));
  _ ← silent (modify (drop_hub dev));
  silent (modify (drop_panes dev)).

Definition touch_sections (dev : bytes) : program unit :=
  t ← silent now; silent (modify (fun s => set_book (Registry.Touch dev t (book s)) s)).

Definition known_section (dev : bytes) : program Registry.Device :=
  d ← silent (gets (fun s => Registry.Get dev (registry s)));
  match d with
  | Some d => if Registry.Revoked d then refuse PermissionDenied RUnknownDevice else mret d
  | None => refuse PermissionDenied RUnknownDevice
  end.

Definition GetHostInfo_sections : program GetHostInfoResponse :=
  host ← silent (gets id);
  hostID ← Ret (or_panic (Identity.HostID host));
  name ← silent (gets hostName);
  t ← silent now;
  isOpen ← silent (gets (fun s => Pairing.OpenNow t (pairs s)));
  pub ← Ret (or_panic (Identity.PublicKey host));
  mret (MkGetHostInfoResponse hostID name (Identity.TrustDomainID host) [ProtocolVersion] isOpen pub).

Definition add_device (d : Registry.Device) : SE server rpcerr unit :=
  map_err (fun e => RPCError InvalidArgument (RRegistry e)) (zoom book set_book (Registry.Add d)).

(** The book takes the device unless the request is refused; a failed save comes
    after. *)
Definition enrolls (dev pub : bytes) (r : res rpcerr unit) : list fact :=
  match r with
  | Err (RPCError _ (RRegistry (Registry.EKeyLength _ | Registry.ENoCapabilities))) => []
  | _ => [Enrolled dev pub]
  end.

Definition Pair_sections (m : PairRequest) : program PairResponse :=
  if negb (bool_decide (pr_ProtocolVersion m = ProtocolVersion))
  then refuse FailedPrecondition (RVersion (pr_ProtocolVersion m))
  else if negb (length (DevicePublicKey m) =? PublicKeySize)%nat then refuse InvalidArgument RDeviceKey
  else
    let devPub := DevicePublicKey m in
    host ← silent (gets id);
    hostID ← Ret (or_panic (Identity.HostID host));
    ok ← Ret (Identity.VerifyPairProof devPub hostID (PairingSecret m) (Proof_ m));
    _ ← refuse_if (negb ok) (RPCError PermissionDenied RProof);
    t ← silent now;
    redeemed ← atom (Redeem (PairingSecret m) t) (fun r =>
      match r with Ok true => [Redeemed (PairingSecret m) devPub (Proof_ m)] | _ => [] end);
    _ ← refuse_if (negb redeemed) (RPCError PermissionDenied RNoWindow);
    let deviceID := Identity.DeviceIDFor devPub in
    let caps := match RequestedCapabilities m with [] => Registry.DefaultCapabilities | cs => cs end in
    paired ← silent now;
    let d := Registry.MkDevice deviceID (clipDisplay (DeviceName m)) (clipDisplay (DeviceModel m))
               (DevicePublicKey m) caps paired zeroTime None in
    _ ← atom (add_device d) (enrolls deviceID devPub);
    _ ← drop_sections deviceID;
    granted ← silent (gets (fun s => from_option Registry.d_Capabilities [] (Registry.Get deviceID (registry s))));
    hostID' ← Ret (or_panic (Identity.HostID host));
    pub ← Ret (or_panic (Identity.PublicKey host));
    mret (MkPairResponse deviceID hostID' (Identity.TrustDomainID host) pub granted).

Definition Challenge_sections (m : ChallengeRequest) : program ChallengeResponse :=
  d ← known_section (cq_DeviceId m);
  t ← silent now;
  '(n, exp) ← atom (mint_nonce (Registry.d_ID d) t) (fun r =>
    match r with Ok (n, _) => [Challenged (Registry.d_ID d) n] | _ => [] end);
  mret (MkChallengeResponse n (timestamp_New exp)).

Definition Authenticate_sections (m : AuthenticateRequest) : program AuthenticateResponse :=
  d ← known_section (ar_DeviceId m);
  t ← silent now;
  live ← silent (consume_nonce (ar_Nonce m) (Registry.d_ID d) t);
  _ ← refuse_if (negb live) (RPCError PermissionDenied RChallenge);
  host ← silent (gets id);
  hostID ← Ret (or_panic (Identity.HostID host));
  ok ← Ret (Identity.VerifyAuth (Registry.d_PublicKey d) hostID (Registry.d_ID d)
              (ar_Nonce m) (ar_Signature m));
  _ ← refuse_if (negb ok) (RPCError PermissionDenied RAuthSignature);
  t' ← silent now;
  '(tok, exp) ← atom (mint_token (Registry.d_ID d) t') (fun r =>
    match r with Ok (tok, _) => [Granted (Registry.d_ID d) tok (ar_Nonce m) (ar_Signature m)] | _ => [] end);
  _ ← touch_sections (Registry.d_ID d);
  silent (gets (fun s => MkAuthenticateResponse tok (timestamp_New exp) (Registry.d_Capabilities d)
                           (Identity.TrustDomainID (id s)))).

Definition allowed (dev cap : bytes) : SE server rpcerr unit :=
  s ← gets (fun s => s);
  of_res (res_map_err (fun e => RPCError PermissionDenied (RRegistry e)) (Registry.Allowed dev cap (registry s))).

Definition authorize_sections (auth cap : bytes) : program bytes :=
  if negb (HasPrefix auth bearerPrefix) then refuse Unauthenticated RNoToken
  else
    let tok := TrimPrefix auth bearerPrefix in
    t ← silent now;
    dev ← silent (resolve_token tok t);
    _ ← refuse_if (bool_decide (dev = [])) (RPCError Unauthenticated RBadToken);
    _ ← atom (allowed dev cap) (fun r => match r with Ok _ => [Cleared tok dev cap] | _ => [] end);
    mret dev.

Definition GetStatus_sections (auth : bytes) : program GetStatusResponse :=
  _ ← authorize_sections auth Registry.CapStatusRead;
  silent (gets (fun s => let '(cur, t, n) := Hub.snapshot (hub s) in MkGetStatusResponse (statusToProto cur t) n)).

Definition GetDigest_sections (auth : bytes) (m : GetDigestRequest) : program Pb.Digest :=
  _ ← authorize_sections auth Registry.CapSessionRead;
  src ← silent (gets digests);
  match src with
  | None => refuse Unimplemented RNoDigests
  | Some lookup =>
    let sessionID := gd_SessionId m in
    if bool_decide (sessionID = []) || (Projection.MaxAskIDLen <? length sessionID)%nat
    then refuse InvalidArgument RSessionID
    else match lookup sessionID with
    | None => refuse NotFound RNoDigest
    | Some d => mret (digestToProto (Projection.Digest_Clamp d))
    end
  end.

Definition SubmitAnswer_sections (auth : bytes) (m : SubmitAnswerRequest) : program SubmitAnswerResponse :=
  deviceID ← authorize_sections auth Registry.CapAgentAnswer;
  a ← silent (valid_answer m);
  out ← atom (locked (fun s => (exec_Answer (effects s) a, add_effect (EAnswer a) s)))
          (fun _ => [Submitted deviceID (EAnswer a)]);
  _ ← touch_sections deviceID;
  mret (MkSubmitAnswerResponse (dispositionToProto (o_Disposition out)) (o_Note out)).

Definition SubmitCommand_sections (auth : bytes) (m : SubmitCommandRequest) : program SubmitCommandResponse :=
  deviceID ← authorize_sections auth Registry.CapAgentCommand;
  t ← silent now;
  c ← Ret (res_map_err (fun _ => RPCError InvalidArgument RBadCommand)
             (Projection.ValidCommand (kindFromProto (Kind m)) (sc_SessionId m) (Workspace m) (Prompt m) t));
  out ← atom (locked (fun s => (exec_Execute (effects s) c, add_effect (ECommand c) s)))
          (fun _ => [Submitted deviceID (ECommand c)]);
  _ ← touch_sections deviceID;
  mret (MkSubmitCommandResponse (Projection.c_ID c) (dispositionToProto (o_Disposition out)) (o_Note out)).

(** A watch: open, then one section for each of its turns. *)
Definition status_turn (sub : nat) (st : Streams.stream Streams.WatchStatusResponse)
    (t : Streams.sched (E := Hub.event)) : SE server rpcerr (Streams.stream Streams.WatchStatusResponse) :=
  locked (fun s => let '(h, st) := Streams.WatchStatus_loop sub (hub s, st) [t] in (st, set_hub h s)).
Fixpoint status_turns (sub : nat) (st : Streams.stream Streams.WatchStatusResponse)
    (ts : list (Streams.sched (E := Hub.event))) : program unit :=
  match ts with [] => mret () | t :: ts => st ← silent (status_turn sub st t); status_turns sub st ts end.
Definition WatchStatus_sections (auth : bytes) (ok : bool) (ts : list (Streams.sched (E := Hub.event))) : program unit :=
  deviceID ← authorize_sections auth Registry.CapStatusRead;
  '(sub, opening) ← silent (watch_open deviceID);
  st ← silent (locked (fun s => let '(h, st) := Streams.begin Streams.status_msg sub ok (Some opening) (hub s) in
                                (st, set_hub h s)));
  status_turns sub st ts.

Definition pane_turn (k : bytes * nat) (st : Streams.stream Streams.WatchPaneResponse)
    (t : Streams.sched (E := Streams.pane_event)) : SE server rpcerr (Streams.stream Streams.WatchPaneResponse) :=
  locked (fun s => let '(h, st) := Streams.WatchPane_loop k (panes s, st) [t] in (st, set_panes h s)).
Fixpoint pane_turns (k : bytes * nat) (st : Streams.stream Streams.WatchPaneResponse)
    (ts : list (Streams.sched (E := Streams.pane_event))) : program unit :=
  match ts with [] => mret () | t :: ts => st ← silent (pane_turn k st t); pane_turns k st ts end.
Definition WatchPane_sections (auth : bytes) (m : WatchPaneRequest) (ok : bool)
    (ts : list (Streams.sched (E := Streams.pane_event))) : program unit :=
  deviceID ← authorize_sections auth Registry.CapSessionRead;
  source ← silent (gets (fun s => PaneHub.source (panes s)));
  match source with
  | None => refuse Unimplemented RNoPanes
  | Some _ =>
    let sessionID := TrimSpace (wq_SessionId m) in
    if bool_decide (sessionID = []) || (Projection.MaxAskIDLen <? length sessionID)%nat
    then refuse InvalidArgument RWatchID
    else
      '(sub, opening) ← silent (pane_open deviceID sessionID);
      st ← silent (locked (fun s => let '(h, st) := Streams.begin Streams.pane_msg (sessionID, sub) ok opening (panes s) in
                                    (st, set_panes h s)));
      pane_turns (sessionID, sub) st ts
  end.

Definition RevokeDevice_sections (deviceID : bytes) : program unit :=
  t ← silent now;
  _ ← atom (map_err reg_err (zoom book set_book (Registry.Revoke deviceID t))) (fun r =>
        match r with Ok _ => [Revoked deviceID] | _ => [] end);
  drop_sections deviceID.

Definition Publish_sections (races : nat -> bool * bool) (status : Projection.Status) : program Z :=
  host ← silent (gets id);
  hostID ← Ret (or_panic (Identity.HostID host));
  t ← silent now;
  silent (locked (fun s =>
    let status := set_HostID hostID status in
    let '(n, h) := Hub.publish races status t (hub s) in (n, set_hub h s))).

(** The embedder's calls on the manager and the registry. *)
Definition open_section : SE server rpcerr bytes := fun s =>
  match Pairing.Open (tnow s) (pairs s) (world (tick s)) with
  | (Ok (secret, m), w) => (Ok secret, set_pairs m (set_world w (tick s)))
  | (Err e, w) => (Err (RPCError Internal (RRandom e)), set_world w (tick s))
  | (Panic, w) => (Panic, set_world w (tick s))
  end.

(** ** Calls *)

Inductive call :=
| Remote (q : Handler.request)
| OpenWindow | CloseWindow
| Publishes (races : nat -> bool * bool) (st : Projection.Status)
| PublishesPane (races : nat -> bool * bool) (sid : bytes) (f : Projection.PaneFrame)
| Revokes (dev : bytes)
| SetsCapabilities (dev : bytes) (caps : list bytes).

Definition request_sections (q : Handler.request) : program unit :=
  match q with
  | Handler.QGetHostInfo => prog_void GetHostInfo_sections
  | Handler.QPair m => prog_void (Pair_sections m)
  | Handler.QChallenge m => prog_void (Challenge_sections m)
  | Handler.QAuthenticate m => prog_void (Authenticate_sections m)
  | Handler.QGetStatus auth => prog_void (GetStatus_sections auth)
  | Handler.QSubmitAnswer auth m => prog_void (SubmitAnswer_sections auth m)
  | Handler.QSubmitCommand auth m => prog_void (SubmitCommand_sections auth m)
  | Handler.QGetDigest auth m => prog_void (GetDigest_sections auth m)
  | Handler.QWatchStatus auth ok ts => WatchStatus_sections auth ok ts
  | Handler.QWatchPane auth m ok ts => WatchPane_sections auth m ok ts
  end.
Definition call_sections (c : call) : program unit :=
  match c with
  | Remote q => request_sections q
  | OpenWindow => prog_void (atom open_section (fun r => match r with Ok secret => [Opened secret] | _ => [] end))
  | CloseWindow => silent (modify (fun s => set_pairs (Pairing.Close (pairs s)) s))
  | Publishes races st => prog_void (Publish_sections races st)
  | PublishesPane races sid f => silent (modify (PublishPane races sid f))
  | Revokes dev => RevokeDevice_sections dev
  | SetsCapabilities dev caps =>
    silent (modify (fun s => set_book (snd (Registry.SetCapabilities dev caps (book s))) s))
  end.

(** ** Alone, each is its handler *)

Lemma alone_ret {A} (r : res rpcerr A) (s : server) : alone (Ret (F := fact) r) s = of_res (S := server) r s.
Proof. done. Qed.

Lemma alone_refuse_if b e s : alone (refuse_if b e) s = throw_if (S := server) b e s.
Proof. by destruct b. Qed.

Lemma alone_drop dev s : alone (drop_sections dev) s = modify (E := rpcerr) (drop_device dev) s.
Proof. reflexivity. Qed.

Lemma alone_touch dev s : alone (touch_sections dev) s = touch dev s.
Proof. reflexivity. Qed.

(** Walks down two computations with the same sections. *)
Ltac alone_step :=
  apply alone_bind;
  [first [apply alone_atom | apply alone_refuse_if | apply alone_ret | apply alone_drop | apply alone_touch | done]
  |intros ??].

Lemma alone_known dev s : alone (known_section dev) s = known_device dev s.
Proof.
  unfold known_section, known_device. alone_step. destruct a as [d|]; [|done]. by destruct (Registry.Revoked d).
Qed.

Lemma alone_authorize auth cap s : alone (authorize_sections auth cap) s = authorize auth cap s.
Proof.
  unfold authorize_sections, authorize. destruct (negb _); [done|]. cbv zeta.
  do 3 alone_step. etrans; [by apply (alone_bind _ _ (allowed a0 cap) (fun _ => mret a0)); [intros; apply alone_atom|]|].
  unfold allowed. rewrite bind_eq, !gets_bind, of_res_bind.
  by destruct (Registry.Allowed _ cap (registry _)).
Qed.

Lemma alone_Pair m s : alone (Pair_sections m) s = Pair m s.
Proof.
  unfold Pair_sections, Pair. destruct (negb _); [done|]. destruct (negb _); [done|]. cbv zeta.
  by do 13 alone_step.
Qed.

Lemma alone_Challenge m s : alone (Challenge_sections m) s = Challenge m s.
Proof.
  unfold Challenge_sections, Challenge. apply alone_bind; [apply alone_known|]. intros d s1.
  do 2 alone_step. by destruct a0.
Qed.

Lemma alone_Authenticate m s : alone (Authenticate_sections m) s = Authenticate m s.
Proof.
  unfold Authenticate_sections, Authenticate. apply alone_bind; [apply alone_known|]. intros d s1.
  do 9 alone_step. destruct a7. alone_step. apply alone_atom.
Qed.

Lemma alone_GetStatus auth s : alone (GetStatus_sections auth) s = GetStatus auth s.
Proof. apply alone_bind; [apply alone_authorize|]. intros d s1. apply alone_atom. Qed.

Lemma alone_GetDigest auth m s : alone (GetDigest_sections auth m) s = GetDigest auth m s.
Proof.
  apply alone_bind; [apply alone_authorize|]. intros d s1. alone_step. destruct a as [look|]; [|done]. cbv zeta.
  destruct (_ || _); [done|]. by destruct (look _).
Qed.

Lemma alone_SubmitAnswer auth m s : alone (SubmitAnswer_sections auth m) s = SubmitAnswer auth m s.
Proof. apply alone_bind; [apply alone_authorize|]. intros d s1. by do 3 alone_step. Qed.

Lemma alone_GetHostInfo s : alone GetHostInfo_sections s = GetHostInfo s.
Proof. unfold GetHostInfo_sections, GetHostInfo. by do 6 alone_step. Qed.

Lemma alone_Publish races st s : alone (Publish_sections races st) s = Publish races st s.
Proof. unfold Publish_sections, Publish. do 3 alone_step. apply alone_atom. Qed.

Lemma alone_SubmitCommand auth m s : alone (SubmitCommand_sections auth m) s = SubmitCommand auth m s.
Proof. apply alone_bind; [apply alone_authorize|]. intros d s1. by do 4 alone_step. Qed.

Lemma alone_RevokeDevice dev s : alone (RevokeDevice_sections dev) s = RevokeDevice dev s.
Proof. unfold RevokeDevice_sections. do 2 alone_step. apply alone_drop. Qed.

Lemma alone_void {A} (p : program A) s : snd (alone (prog_void p) s) = snd (alone p s).
Proof.
  unfold prog_void. rewrite (alone_bind p _ (alone p) (fun _ => mret ())) by done. rewrite bind_eq.
  by destruct (alone p s) as [[]].
Qed.

Lemma alone_status_turns sub st ts s :
  snd (alone (status_turns sub st ts) s) = set_hub (fst (Streams.WatchStatus_loop sub (hub s, st) ts)) s.
Proof.
  induction ts as [|t ts IH] in st, s |- *; [by destruct s|]. cbn [status_turns].
  unfold mbind, prog_mbind. cbn. unfold status_turn, locked.
  unfold Streams.WatchStatus_loop, Streams.run_stream. cbn [fold_left].
  destruct (Streams.sched_step _ _ _ _ _) as [h st'] eqn:E. cbn. rewrite IH. by destruct s.
Qed.

Lemma alone_pane_turns k st ts s :
  snd (alone (pane_turns k st ts) s) = set_panes (fst (Streams.WatchPane_loop k (panes s, st) ts)) s.
Proof.
  induction ts as [|t ts IH] in st, s |- *; [by destruct s|]. cbn [pane_turns].
  unfold mbind, prog_mbind. cbn. unfold pane_turn, locked.
  unfold Streams.WatchPane_loop, Streams.run_stream. cbn [fold_left].
  destruct (Streams.sched_step _ _ _ _ _) as [h st'] eqn:E. cbn. rewrite IH. by destruct s.
Qed.

Lemma WatchStatus_state auth ok ts s :
  snd (alone (WatchStatus_sections auth ok ts) s) = Handler.watch_status auth ok ts s.
Proof.
  unfold WatchStatus_sections, Handler.watch_status, Streams.WatchStatus, WatchStatus_start.
  rewrite (alone_bind _ _ (authorize auth Registry.CapStatusRead) (fun dev => alone (
    '(sub, opening) ← silent (watch_open dev);
    st ← silent (locked (fun s => let '(h, st) := Streams.begin Streams.status_msg sub ok (Some opening) (hub s) in
                                (st, set_hub h s)));
    status_turns sub st ts))) by (done || apply alone_authorize).
  rewrite authorize_bind, bind_eq, authorize_bind. destruct (authorized _ _ s) as [dev|e|]; [|done..].
  unfold mbind at 1, prog_mbind. cbn [alone prog_bind silent atom]. unfold watch_open, locked.
  destruct (Hub.subscribe dev _) as [[sub o] h]. cbn.
  apply alone_status_turns.
Qed.

Lemma WatchPane_state auth m ok ts s :
  snd (alone (WatchPane_sections auth m ok ts) s) = Handler.watch_pane auth m ok ts s.
Proof.
  unfold WatchPane_sections, Handler.watch_pane, Streams.WatchPane, WatchPane_start.
  match goal with |- context [authorize_sections auth ?c ≫= ?k] =>
    rewrite (alone_bind _ k (authorize auth c) (fun dev => alone (k dev))) by (done || apply alone_authorize) end.
  rewrite authorize_bind, bind_eq, authorize_bind. destruct (authorized _ _ s) as [dev|e|]; [|done..].
  unfold mbind at 1, prog_mbind. cbn [alone prog_bind silent atom gets fst snd]. rewrite gets_bind.
  destruct (PaneHub.source _) as [src|]; [|done]. cbv zeta. destruct (_ || _); [done|].
  cbn. unfold pane_open. destruct (PaneHub.subscribe _ _ _) as [[[sub o]|e|] h]; [|done..]. cbn.
  unfold locked. destruct o; cbn; apply alone_pane_turns.
Qed.

(** The next process: it opens the devices file and loads the same identity from
    its own. *)
Definition host_boot (ow : Options * World) (s : server) : option server :=
  let '(o, w) := ow in
  Trust.reboot (MkOptions (Some (id s)) (op_Registry o) (op_Pairing o) (op_Executor o) (op_HostName o)
                  (op_Panes o) (op_Digests o) (op_Heartbeat o)) w s.

(** What a call does alone. *)
Definition call_alone (c : call) (s : server) : server :=
  match c with
  | Remote q => Handler.serve_request q s
  | OpenWindow => Trust.open_window s
  | CloseWindow => set_pairs (Pairing.Close (pairs s)) s
  | Publishes races st => snd (Publish races st s)
  | PublishesPane races sid f => PublishPane races sid f s
  | Revokes dev => snd (RevokeDevice dev s)
  | SetsCapabilities dev caps => set_book (snd (Registry.SetCapabilities dev caps (book s))) s
  end.

Lemma alone_call c s : snd (alone (call_sections c) s) = call_alone c s.
Proof.
  destruct c as [q| | |races st|races sid f|dev|dev caps]; cbn [call_sections call_alone]; [|
    |done|by rewrite alone_void, alone_Publish|done|by rewrite alone_RevokeDevice|done].
  - destruct q; cbn [request_sections Handler.serve_request]; rewrite ?alone_void.
    + by rewrite alone_GetHostInfo.
    + by rewrite alone_Pair.
    + by rewrite alone_Challenge.
    + by rewrite alone_Authenticate.
    + by rewrite alone_GetStatus.
    + by rewrite alone_SubmitAnswer.
    + by rewrite alone_SubmitCommand.
    + by rewrite alone_GetDigest.
    + apply WatchStatus_state.
    + apply WatchPane_state.
  - rewrite alone_void, alone_atom. unfold open_section, Trust.open_window.
    by destruct (Pairing.Open _ _ _) as [[[]|?|] ?].
Qed.

(** ** In a pool *)

(** A handler is the run of its sections. Alone, the program of each handler
    gives the handler's outcome and state, errors included; and a call whose
    sections run in a pool without a break ends, after finitely many of them,
    with the state the handler leaves, whatever else waits in the pool. *)
Theorem handlers_are_their_sections :
  (forall s, alone GetHostInfo_sections s = GetHostInfo s) /\
  (forall m s, alone (Pair_sections m) s = Pair m s) /\
  (forall m s, alone (Challenge_sections m) s = Challenge m s) /\
  (forall m s, alone (Authenticate_sections m) s = Authenticate m s) /\
  (forall auth s, alone (GetStatus_sections auth) s = GetStatus auth s) /\
  (forall auth m s, alone (GetDigest_sections auth m) s = GetDigest auth m s) /\
  (forall auth m s, alone (SubmitAnswer_sections auth m) s = SubmitAnswer auth m s) /\
  (forall auth m s, alone (SubmitCommand_sections auth m) s = SubmitCommand auth m s) /\
  (forall dev s, alone (RevokeDevice_sections dev) s = RevokeDevice dev s) /\
  (forall c x, exists n,
     let x' := moves call_sections host_boot (Spawn c :: repeat (Run (length (pool x))) n) x in
     state x' = call_alone c (state x) /\ exists r, pool x' !! length (pool x) = Some (Ret r)).
Proof.
  split_and!; [apply alone_GetHostInfo|apply alone_Pair|apply alone_Challenge|apply alone_Authenticate|apply alone_GetStatus
    |apply alone_GetDigest|apply alone_SubmitAnswer|apply alone_SubmitCommand|apply alone_RevokeDevice|].
  intros c x. destruct (thread_ends call_sections host_boot (length (pool x)) (call_sections c)
    (make call_sections host_boot x (Spawn c)))
    as (n & Hs & Hp & _).
  { cbn. by apply list_lookup_middle. }
  exists n. cbv zeta. rewrite <- alone_call. split; [exact Hs|]. by eexists.
Qed.
End programs.
