(* ===== verification/Interleaved.v ===== *)
(** * The host with its calls interleaved (link/server.go)

    Any number of calls in flight at once, under any schedule of their critical
    sections, the process dying and coming up again at any point between two of
    them: what authority rests on, and what a revocation still stops. The
    invariant holds between sections; a thread's own knowledge is the facts it
    has seen noted, which stay noted. *)

From stdpp Require Import gmap sets.
From S2P Require Import Prelude GoStrings BaseN Json GoTime GoOS Crypto Convert Threads Sections.
From S2P Require Projection Identity Registry Pairing Tokens Hub PaneHub Streams Handler Trust.
From S2P Require Import Server.

#[local] Notation "'program'" := (prog server rpcerr fact).
#[local] Existing Instances Streams.status_watch Streams.pane_watch.

(** ** What the log must say *)

Definition effect_of (x : fact) : option effect := match x with Submitted _ e => Some e | _ => None end.

(** The capability an effect needs, and that it came out of validation. *)
Definition needs (e : effect) : bytes :=
  match e with EAnswer _ => Registry.CapAgentAnswer | ECommand _ => Registry.CapAgentCommand end.
Definition validated (e : effect) : Prop :=
  match e with
  | EAnswer a => exists ask text t, Projection.ValidAnswer ask text t = Ok a
  | ECommand c => exists k sid ws p t, Projection.ValidCommand k sid ws p t = Ok c
  end.

(** Revoked, and not paired again since. *)
Definition revoked_in (L : list fact) (dev : bytes) : Prop :=
  exists A B, L = A ++ Revoked dev :: B /\ forall pub, Enrolled dev pub ∉ B.

Lemma revoked_in_snoc L x dev : revoked_in (L ++ [x]) dev ->
  x = Revoked dev \/ (revoked_in L dev /\ forall pub, x <> Enrolled dev pub).
Proof.
  intros (A & B & HL & HB). destruct B as [|y B _] using rev_ind.
  - apply app_inj_tail in HL as [_ ->]. by left.
  - rewrite app_comm_cons, app_assoc in HL. apply app_inj_tail in HL as [-> ->]. right. split.
    + exists A, B. split; [done|]. intros pub Hin. apply (HB pub), elem_of_app. by left.
    + intros pub ->. apply (HB pub), elem_of_app. right. by left.
Qed.

Section authority.
Context `{Ed25519, Registry.RegistryLibLaws, Host}.
Variable who : Identity.Identity.

(** What each fact rests on, given the facts before it. *)
Definition rests (L : list fact) (x : fact) : Prop :=
  match x with
  | Opened _ | Revoked _ | Challenged _ _ => True
  | Redeemed secret pub proof =>
    Opened secret ∈ L /\ exists hostID, Identity.HostID who = Some hostID /\
    Identity.VerifyPairProof (E := rpcerr) pub hostID secret proof = Ok true
  | Enrolled dev pub => dev = Identity.DeviceIDFor pub /\ exists secret proof, Redeemed secret pub proof ∈ L
  | Granted dev tok nonce sig =>
    Challenged dev nonce ∈ L /\
    exists pub hostID, Enrolled dev pub ∈ L /\ Identity.DeviceIDFor pub = dev /\
      Identity.HostID who = Some hostID /\
      Identity.VerifyAuth (E := rpcerr) pub hostID dev nonce sig = Ok true
  | Cleared tok dev cap => ~ revoked_in L dev /\ exists nonce sig, Granted dev tok nonce sig ∈ L
  | Submitted dev e => validated e /\ exists tok, Cleared tok dev (needs e) ∈ L
  end.
Definition founded (L : list fact) : Prop := forall A x B, L = A ++ x :: B -> rests A x.

Lemma founded_snoc L x : founded L -> rests L x -> founded (L ++ [x]).
Proof.
  intros HL Hx A y B E. destruct B as [|z B _] using rev_ind.
  - by apply app_inj_tail in E as [<- <-].
  - rewrite app_comm_cons, app_assoc in E. apply app_inj_tail in E as [-> _]. by eapply HL.
Qed.

(** An entry of the book, or of its file. *)
Definition filed (L : list fact) (dev : bytes) (d : Registry.Device) : Prop :=
  Enrolled dev (Registry.d_PublicKey d) ∈ L /\ Identity.DeviceIDFor (Registry.d_PublicKey d) = dev /\
  Registry.d_ID d = dev /\ (revoked_in L dev -> Registry.Revoked d = true).

Lemma filed_durable L : Trust.durable (filed L).
Proof.
  split; [split|].
  - by intros dev d (_ & _ & ? & _).
  - intros dev d (He & Hk & Hi & Hr). assert (mended dev = dev) as Hm by by rewrite <- Hk, Trust.mended_DeviceID.
    rewrite Hm. split_and!; [done|done| |exact Hr]. cbn [Registry.mend_device Registry.d_ID]. by rewrite Hi.
  - intros dev d d' (Hk' & Hi' & Hr') (He & Hk & Hi & Hr). unfold filed. rewrite Hk', Hi'. split_and!; [done..|].
    intros Hrev. specialize (Hr Hrev). apply Registry.Revoked_spec in Hr as [t Ht]. apply Registry.Revoked_spec.
    exists t. rewrite Hr'; [done|by rewrite Ht].
Qed.

(** More facts, unless a revocation is among them. *)
Lemma filed_more L x b : (forall dev, x <> Revoked dev) ->
  Registry.everywhere (filed L) b -> Registry.everywhere (filed (L ++ [x])) b.
Proof.
  intros Hx Hb. eapply Registry.everywhere_impl; [exact Hb|]. intros dev d (He & ? & ? & Hr).
  split_and!; [apply elem_of_app; by left|done..|]. intros [Hd|[Hd _]]%revoked_in_snoc; [by apply Hx in Hd|by apply Hr].
Qed.

(** The invariant between sections. *)
Record inv (L : list fact) (s : server) : Prop := MkInv {
  i_id : id s = who;
  i_window : Pairing.m_secret (pairs s) <> [] -> Opened (Pairing.m_secret (pairs s)) ∈ L;
  i_book : Registry.everywhere (filed L) (book s);
  i_nonces : forall raw n, Tokens.issued (nonces s) !! RawURLEncode raw = Some n -> Challenged (Tokens.n_deviceID n) raw ∈ L;
  i_tokens : forall tok x, Tokens.sessions (tokens s) !! tok = Some x ->
    exists nonce sig, Granted (Tokens.s_deviceID x) tok nonce sig ∈ L;
  i_effects : effects s = omap effect_of L;
  i_founded : founded L }.

(** Sections that note nothing keep it: what they may do. *)
Record still (s s' : server) : Prop := MkStill {
  k_id : id s' = id s;
  k_pairs : pairs s' = pairs s;
  k_book : Trust.file_keeps (book s) (book s');
  k_tokens : Tokens.sessions (tokens s') ⊆ Tokens.sessions (tokens s);
  k_effects : effects s' = effects s;
  k_nonces : Tokens.issued (nonces s') ⊆ Tokens.issued (nonces s) }.

Lemma still_fields s s' : id s' = id s -> pairs s' = pairs s -> effects s' = effects s ->
  registry s' = registry s -> disk (world s') = disk (world s) ->
  Tokens.sessions (tokens s') ⊆ Tokens.sessions (tokens s) ->
  Tokens.issued (nonces s') ⊆ Tokens.issued (nonces s) -> still s s'.
Proof.
  intros ??? Hr Hw ??. split; try done. intros P _ [Hb Hf]. unfold registry, world in *.
  split; [unfold Registry.devices; by rewrite Hr|]. by rewrite Hr, Hw.
Qed.

Lemma inv_still L s s' : inv L s -> still s s' -> inv L s'.
Proof.
  intros [Hi Hw Hb Hn Ht He Hf] [Qi Qp Qb Qt Qe Kn]. split.
  - congruence.
  - by rewrite Qp.
  - apply Qb; [apply filed_durable|done].
  - intros raw n Hx. apply Hn. by eapply lookup_weaken.
  - intros tok x Hx. apply Ht. by eapply lookup_weaken.
  - congruence.
  - done.
Qed.

(** A new fact, when the state agrees with it. *)
Lemma inv_note L x s : inv L s -> rests L x ->
  (forall dev, x <> Revoked dev) -> effect_of x = None -> inv (L ++ [x]) s.
Proof.
  intros [Hi Hw Hb Hn Ht He Hf] Hx Hrev Hno.
  assert (forall y, y ∈ L -> y ∈ L ++ [x]) as Hin by (intros y Hy; apply elem_of_app; by left).
  split; [done|by intros ?%Hw%Hin|by apply filed_more| | | |by apply founded_snoc].
  - intros raw n ?%Hn. by apply Hin.
  - intros tok y (nonce & sig & Hy)%Ht. exists nonce, sig. by apply Hin.
  - rewrite omap_app, He. cbn. rewrite Hno. by rewrite app_nil_r.
Qed.


(** ** Quiet sections *)

Lemma still_refl s : still s s.
Proof. by apply still_fields. Qed.
Lemma still_tick s : still s (tick s).
Proof. by apply still_fields. Qed.
Lemma still_world w s : disk w = disk (world s) -> still s (set_world w s).
Proof. intros Hw. by apply still_fields. Qed.
Lemma still_hub h s : still s (set_hub h s).
Proof. by apply still_fields. Qed.
Lemma still_panes h s : still s (set_panes h s).
Proof. by apply still_fields. Qed.
Lemma still_drop_tokens dev s : still s (drop_tokens dev s).
Proof. apply still_fields; try done. apply Trust.drop_subset. Qed.
Lemma still_resolve tok t s : still s (set_tokens (snd (Tokens.token_resolve tok t (tokens s))) s).
Proof. apply still_fields; try done. apply Trust.resolve_subset. Qed.
Lemma still_consume raw dev t s : still s (set_nonces (snd (Tokens.nonce_consume raw dev t (nonces s))) s).
Proof.
  apply still_fields; try done. cbn. unfold Tokens.nonce_consume.
  destruct (_ !! _); [apply delete_subseteq|done].
Qed.

Lemma still_op op s : (if op is Registry.OAdd _ then False else True) ->
  still s (set_book (snd (Registry.run_op op (book s))) s).
Proof.
  intros Hop. split; try done. by apply Trust.op_file.
Qed.

#[local] Hint Resolve still_refl still_tick still_world still_hub still_panes still_drop_tokens still_resolve
  still_consume : core.

(** ** Rules for sections *)

Lemma wp_still {A} Q (m : SE server rpcerr A) L :
  (forall s, still s (snd (m s))) ->
  (forall L' s a, L `prefix_of` L' -> inv L' s -> fst (m s) = Ok a -> Q L' a) -> wp inv Q (silent m) L.
Proof.
  intros Hm HQ. apply wp_silent. intros L' s HL Hs. split; [by eapply inv_still|]. intros a Ha. by eapply HQ.
Qed.

Lemma wp_refuse_if Q b e L : (b = false -> Q L ()) -> wp inv Q (refuse_if b e) L.
Proof. by destruct b; intros HQ; [|apply HQ]. Qed.

Lemma wp_or_panic {A} Q (o : option A) L :
  (forall a, o = Some a -> Q L a) -> wp inv Q (Ret (or_panic o) : prog server rpcerr fact A) L.
Proof. intros HQ. destruct o as [a|]; [|done]. apply wp_ret. by apply HQ. Qed.

Lemma wp_now Q L : (forall L' t, L `prefix_of` L' -> Q L' t) -> wp inv Q (silent now) L.
Proof. intros HQ. apply wp_still; [intros s; apply still_tick|]. intros L' s t HL _ _. by apply HQ. Qed.

Lemma wp_gets {A} Q (f : server -> A) L :
  (forall L' s, L `prefix_of` L' -> inv L' s -> Q L' (f s)) -> wp inv Q (silent (gets (E := rpcerr) f)) L.
Proof. intros HQ. apply wp_still; [auto|]. intros L' s a HL Hs [= <-]. by apply HQ. Qed.

Lemma wp_modify Q (f : server -> server) L :
  (forall s, still s (f s)) -> (forall L', L `prefix_of` L' -> Q L' ()) -> wp inv Q (silent (modify (E := rpcerr) f)) L.
Proof. intros Hf HQ. apply wp_still; [exact Hf|]. intros L' s [] HL _ _. by apply HQ. Qed.

Lemma wp_drop Q dev L : (forall L', L `prefix_of` L' -> Q L' ()) -> wp inv Q (drop_sections dev) L.
Proof.
  intros HQ. apply wp_bind, wp_modify; [auto|]. intros L1 P1. apply wp_bind, wp_modify; [intros; apply still_hub|].
  intros L2 P2. apply wp_modify; [intros; apply still_panes|]. intros L3 P3. apply HQ. by do 2 (etrans; [eassumption|]).
Qed.

Lemma wp_touch Q dev L : (forall L', L `prefix_of` L' -> Q L' ()) -> wp inv Q (touch_sections dev) L.
Proof.
  intros HQ. apply wp_bind, wp_now. intros L1 t P1. apply wp_modify.
  - intros s. exact (still_op (Registry.OTouch dev t) s I).
  - intros L2 P2. apply HQ. by etrans.
Qed.

Lemma inv_known L s dev d : inv L s -> Registry.Get dev (registry s) = Some d ->
  Enrolled dev (Registry.d_PublicKey d) ∈ L /\ Identity.DeviceIDFor (Registry.d_PublicKey d) = dev /\ Registry.d_ID d = dev.
Proof. intros Hs Hd. by destruct (proj1 (i_book _ _ Hs) dev d Hd) as (? & ? & ? & _). Qed.

(** Who is revoked in the log is let through no more. *)
Lemma inv_revoked L s dev cap : inv L s -> revoked_in L dev -> Registry.Allowed dev cap (registry s) <> Ok ().
Proof.
  intros Hs Hrev. unfold Registry.Allowed. destruct (Registry.r_devices (registry s) !! dev) as [d|] eqn:Hd; [|done].
  destruct (proj1 (i_book _ _ Hs) dev d Hd) as (_ & _ & _ & Hr). by rewrite Hr.
Qed.

Lemma wp_known Q dev L :
  (forall L' d, L `prefix_of` L' -> Enrolled dev (Registry.d_PublicKey d) ∈ L' ->
     Identity.DeviceIDFor (Registry.d_PublicKey d) = dev -> Registry.d_ID d = dev -> Q L' d) ->
  wp inv Q (known_section dev) L.
Proof.
  intros HQ. apply wp_bind, wp_gets. intros L' s HL Hs. destruct (Registry.Get dev _) as [d|] eqn:Hd; [|done].
  destruct (Registry.Revoked d); [done|]. destruct (inv_known _ _ _ _ Hs Hd) as (? & ? & ?). apply wp_ret. by apply HQ.
Qed.

Lemma wp_authorize Q auth cap L :
  (forall L' dev tok, L `prefix_of` L' -> Cleared tok dev cap ∈ L' -> Q L' dev) ->
  wp inv Q (authorize_sections auth cap) L.
Proof.
  intros HQ. unfold authorize_sections. destruct (negb _); [done|]. cbv zeta. set (tok := TrimPrefix _ _).
  apply wp_bind, wp_now. intros L1 t P1. apply wp_bind, wp_still.
  { intros s. unfold resolve_token, locked. destruct (Tokens.token_resolve _ _ _) eqn:E. cbn.
    replace t0 with (snd (Tokens.token_resolve tok t (tokens s))) by (by rewrite E). auto. }
  intros L2 s2 dev P2 Hs2 Hdev. apply wp_bind, wp_refuse_if. intros Hne%bool_decide_eq_false.
  assert (exists nonce sig, Granted dev tok nonce sig ∈ L2) as (nonce & sig & Hg).
  { unfold resolve_token, locked in Hdev. destruct (Tokens.token_resolve _ _ _) as [dev' ts] eqn:E.
    injection Hdev as ->. destruct (Trust.resolve_session tok t (tokens s2) dev Hne) as (x & Hx & <-); [by rewrite E|].
    by apply (i_tokens _ _ Hs2). }
  apply wp_bind, wp_atom. intros L3 s3 P3 Hs3. unfold allowed. rewrite gets_bind. unfold of_res.
  destruct (Registry.Allowed dev cap (registry s3)) as [[]|e|] eqn:Ha; cbn [res_map_err fst snd];
    [|by rewrite app_nil_r..].
  assert (~ revoked_in L3 dev) as Hnr.
  { intros Hrev. by apply (inv_revoked _ _ _ cap Hs3 Hrev). }
  split.
  - apply inv_note; [done| |done|done]. split; [done|]. exists nonce, sig. by eapply elem_of_prefix.
  - intros [] _. apply wp_ret. eapply (HQ _ _ tok).
    + do 2 (etrans; [eassumption|]). etrans; [eassumption|]. by apply prefix_app_r.
    + apply elem_of_app. right. by left.
Qed.


(** ** Sections that note a fact *)

Lemma persist_error b e : fst (Registry.persistLocked b) = Err e ->
  e = Registry.EMarshal \/ exists x, e = Registry.ERegIO x.
Proof.
  unfold Registry.persistLocked, zoom, map_err, gets, of_res, of_option, mbind, SE_bind.
  destruct (Registry.reg_Marshal _); cbn; [|by intros [= <-]; left].
  destruct (write_atomically _ _ _ _) as [[[]|x|] w]; cbn; [done| |done]. intros [= <-]. right. by exists x.
Qed.

Lemma add_device_eq d s : add_device d s =
  let '(r, b) := Registry.Add d (book s) in
  (res_map_err (fun e => RPCError InvalidArgument (RRegistry e)) r, set_book b s).
Proof. unfold add_device, map_err, zoom. by destruct (Registry.Add d (book s)). Qed.

Lemma add_outcome d s dev pub :
  let '(r, s') := add_device d s in
  (s' = s /\ enrolls dev pub r = []) \/
  (exists b, s' = set_book b s /\ enrolls dev pub r = [Enrolled dev pub] /\
     forall P, Registry.carried P -> Registry.everywhere P (book s) ->
       P (Registry.d_ID d) (Registry.set_Capabilities (Registry.filter_caps (Registry.d_Capabilities d)) d) ->
       Registry.everywhere P b).
Proof.
  rewrite add_device_eq. pose proof (Registry.run_op_eq (Registry.OAdd d) (book s)) as He.
  pose proof (fun P => Registry.run_op_everywhere P (Registry.OAdd d) (book s)) as Hall.
  unfold Registry.op_book in Hall.
  cbn [Registry.run_op Registry.forgiving] in He, Hall. rewrite He in *. clear He.
  destruct (Registry.op_refusal _ _) as [e|] eqn:Hr.
  - cbv beta iota. left. split; [by destruct s|]. cbn [Registry.op_refusal] in Hr.
    destruct (negb _); [by injection Hr as <-|]. destruct (bool_decide _); [by injection Hr as <-|done].
  - set (b0 := Registry.set_book _ _) in *. pose proof (persist_error b0) as Herr.
    pose proof (Registry.persistLocked_cases b0) as Hc.
    assert (forall P : bytes -> Registry.Device -> Prop, map_Forall P (Registry.devices (book s)) ->
      P (Registry.d_ID d) (Registry.set_Capabilities (Registry.filter_caps (Registry.d_Capabilities d)) d) ->
      map_Forall P (Registry.op_effect (Registry.OAdd d) (Registry.devices (book s)))) as Hins
      by (intros P HP Hd; by apply map_Forall_insert_2).
    destruct (Registry.persistLocked b0) as [[[]|e|] b]; cbn [fst snd] in *; [| |done]; right; exists b;
      (split; [done|]); (split; [|intros P HP Hb Hd; apply Hall; [done..|]; apply Hins; [apply Hb|done]]); [done|].
    by destruct (Herr e eq_refl) as [->|[x ->]].
Qed.

Lemma inv_enrolled L s b d pub : inv L s -> rests L (Enrolled (Registry.d_ID d) pub) -> Registry.d_PublicKey d = pub ->
  (forall P, Registry.carried P -> Registry.everywhere P (book s) ->
     P (Registry.d_ID d) (Registry.set_Capabilities (Registry.filter_caps (Registry.d_Capabilities d)) d) ->
     Registry.everywhere P b) ->
  inv (L ++ [Enrolled (Registry.d_ID d) pub]) (set_book b s).
Proof.
  intros [Hi Hw Hb Hn Ht He Hf] Hx Hpub Hbook. pose proof Hx as [Hid _].
  assert (forall y, y ∈ L -> y ∈ L ++ [Enrolled (Registry.d_ID d) pub]) as Hin by (intros y Hy; apply elem_of_app; by left).
  split; [done|by intros ?%Hw%Hin| | | | |by apply founded_snoc]; cbn [set_book book nonces tokens effects].
  - apply Hbook; [apply filed_durable|by apply filed_more|]. unfold filed.
    cbn [Registry.set_Capabilities Registry.d_PublicKey Registry.d_ID]. rewrite Hpub. split_and!; [|done..|].
    + apply elem_of_app. right. by left.
    + intros [?|[_ Hne]]%revoked_in_snoc; [done|]. by destruct (Hne pub).
  - intros raw n ?%Hn. by apply Hin.
  - intros tok y (nonce & sig & Hy)%Ht. exists nonce, sig. by apply Hin.
  - rewrite omap_app, He. cbn. by rewrite app_nil_r.
Qed.

Lemma inv_challenged L s w dev raw t : inv L s -> disk w = disk (world s) ->
  inv (L ++ [Challenged dev raw]) (set_nonces (Tokens.nonce_insert raw dev t (nonces s)) (set_world w s)).
Proof.
  intros Hs Hdisk. assert (inv (L ++ [Challenged dev raw]) (set_world w s)) as [Hi Hw Hb Hn Ht He Hf].
  { apply inv_note; [|done..]. eapply inv_still; [exact Hs|by apply still_world]. }
  split; try done. cbn [set_nonces nonces set_world set_book Tokens.nonce_insert Tokens.issued].
  intros raw' n [[Heq <-]|[_ [Hx _]%map_lookup_filter_Some]]%lookup_insert_Some.
  - apply (inj RawURLEncode) in Heq as <-. apply elem_of_app. right. by left.
  - apply elem_of_app. left. by apply (i_nonces _ _ Hs).
Qed.

Lemma inv_granted L s w dev tok nonce sig t : inv L s -> disk w = disk (world s) -> rests L (Granted dev tok nonce sig) ->
  inv (L ++ [Granted dev tok nonce sig]) (set_tokens (Tokens.token_insert tok dev t (tokens s)) (set_world w s)).
Proof.
  intros Hs Hdisk Hx. assert (inv (L ++ [Granted dev tok nonce sig]) (set_world w s)) as [Hi Hw Hb Hn Ht He Hf].
  { apply inv_note; [|done..]. eapply inv_still; [exact Hs|by apply still_world]. }
  split; try done. cbn [set_tokens tokens set_world set_book Tokens.token_insert Tokens.sessions].
  intros tok' x [[<- <-]|[_ Hy]]%lookup_insert_Some; [|by apply Ht].
  exists nonce, sig. apply elem_of_app. right. by left.
Qed.

Lemma inv_submitted L s dev e : inv L s -> rests L (Submitted dev e) -> inv (L ++ [Submitted dev e]) (add_effect e s).
Proof.
  intros [Hi Hw Hb Hn Ht He Hf] Hx.
  assert (forall y, y ∈ L -> y ∈ L ++ [Submitted dev e]) as Hin by (intros y Hy; apply elem_of_app; by left).
  split; cbn [add_effect id pairs book nonces tokens effects];
    [done|by intros ?%Hw%Hin|by apply filed_more| | | |by apply founded_snoc].
  - intros raw n ?%Hn. by apply Hin.
  - intros tok y (nonce & sig & Hy)%Ht. exists nonce, sig. by apply Hin.
  - by rewrite omap_app, He.
Qed.

Lemma inv_pairs L s m : inv L s -> (Pairing.m_secret m <> [] -> Opened (Pairing.m_secret m) ∈ L) ->
  inv L (set_pairs m s).
Proof. intros [? _ ? ? ? ? ?] Hm. by split. Qed.

(** ** The calls *)

Lemma wp_Pair m L : wp inv (fun _ _ => True) (Pair_sections m) L.
Proof.
  unfold Pair_sections. destruct (negb _); [done|]. destruct (negb _); [done|]. cbv zeta.
  apply wp_bind, wp_gets. intros L1 s1 P1 Hs1. rewrite (i_id _ _ Hs1).
  apply wp_bind, wp_or_panic. intros hid Hid.
  destruct (Identity.VerifyPairProof _ _ _ _) as [[]|e|] eqn:Hv; [|done..]. cbn [mbind prog_mbind prog_bind negb].
  apply wp_bind, wp_refuse_if. intros _. apply wp_bind, wp_now. intros L2 t P2. apply wp_bind, wp_atom.
  intros L3 s3 P3 Hs3. unfold Redeem, locked. rewrite Pairing.Redeem_spec.
  destruct (decide _) as [[Hopen Hsec]|]; cbn [fst snd]; rewrite ?app_nil_r.
  2:{ split; [by destruct s3|]. by intros a [= <-]. }
  set (f := Redeemed _ _ _).
  assert (rests L3 f) as Hf.
  { split; [|by exists hid]. rewrite Hsec. apply (i_window _ _ Hs3). unfold Pairing.OpenNow in Hopen.
    by apply andb_true_iff in Hopen as [Hn%negb_true_iff%bool_decide_eq_false _]. }
  split.
  { apply inv_note; [|done..]. by apply inv_pairs. }
  intros [] _; [|done]. apply wp_bind, wp_refuse_if. intros _. apply wp_bind, wp_now. intros L4 t' P4.
  set (d := Registry.MkDevice _ _ _ _ _ _ _ _). apply wp_bind, wp_atom. intros L5 s5 P5 Hs5.
  assert (rests L5 (Enrolled (Registry.d_ID d) (DevicePublicKey m))) as He.
  { split; [done|]. exists (PairingSecret m), (Proof_ m). eapply elem_of_prefix; [|exact P5].
    eapply elem_of_prefix; [|exact P4]. apply elem_of_app. right. by left. }
  pose proof (add_outcome d s5 (Registry.d_ID d) (DevicePublicKey m)) as Ha.
  change (Identity.DeviceIDFor (DevicePublicKey m)) with (Registry.d_ID d).
  destruct (add_device d s5) as [r s']. cbn [fst snd]. split.
  - destruct Ha as [[-> ->]|(b & -> & -> & Hb)]; [by rewrite app_nil_r|]. by apply inv_enrolled.
  - intros [] _. apply wp_bind, wp_drop. intros L6 P6. apply wp_bind, wp_gets. intros L7 s7 P7 _.
    rewrite Hid. by destruct (Identity.PublicKey who).
Qed.

Lemma wp_Challenge m L : wp inv (fun _ _ => True) (Challenge_sections m) L.
Proof.
  apply wp_bind, wp_known. intros L1 d P1 _ _ _. apply wp_bind, wp_now. intros L2 t P2.
  apply wp_bind, wp_atom. intros L3 s P3 Hs. unfold mint_nonce, Tokens.nonce_mint. rewrite bind_eq.
  pose proof (Trust.rand_disk 32 (world s)) as Hdisk.
  destruct (rand_Read 32 _) as [[raw|e|] w]; cbn [fst snd mret SE_ret] in *.
  - split; [by apply inv_challenged|]. by intros [] _.
  - rewrite app_nil_r. split; [by eapply inv_still; [|apply still_world]|done].
  - rewrite app_nil_r. split; [by eapply inv_still; [|apply still_world]|done].
Qed.

Lemma wp_Authenticate m L : wp inv (fun _ _ => True) (Authenticate_sections m) L.
Proof.
  apply wp_bind, wp_known. intros L1 d P1 Hen Hid Hd. apply wp_bind, wp_now. intros L2 t P2.
  apply wp_bind, wp_still.
  { intros s. unfold consume_nonce, locked. pose proof (still_consume (ar_Nonce m) (Registry.d_ID d) t s) as Hc.
    by destruct (Tokens.nonce_consume _ _ _ _). }
  intros L3 s3 live P3 Hs3 Hlive. apply wp_bind, wp_refuse_if. intros ->%negb_false_iff.
  assert (Challenged (ar_DeviceId m) (ar_Nonce m) ∈ L3) as Hch.
  { unfold consume_nonce, locked, Tokens.nonce_consume in Hlive. destruct (_ !! _) as [n|] eqn:Hn; [|done].
    cbn in Hlive. injection Hlive as Hlive. apply andb_true_iff in Hlive as [_ Hn'%bool_decide_eq_true].
    rewrite <- Hd, <- Hn'. by apply (i_nonces _ _ Hs3). }
  apply wp_bind, wp_gets. intros L4 s4 P4 Hs4. rewrite (i_id _ _ Hs4).
  apply wp_bind, wp_or_panic. intros hid Hhid.
  destruct (Identity.VerifyAuth _ _ _ _ _) as [[]|e|] eqn:Hv; [|done..].
  cbn [mbind prog_mbind prog_bind negb]. apply wp_bind, wp_refuse_if. intros _. apply wp_bind, wp_now. intros L5 t' P5.
  apply wp_bind, wp_atom. intros L6 s6 P6 Hs6. unfold mint_token, Tokens.token_mint. rewrite bind_eq.
  pose proof (Trust.rand_disk 32 (world s6)) as Hdisk.
  destruct (rand_Read 32 _) as [[raw|e|] w]; cbn [fst snd mret SE_ret] in *.
  2,3: rewrite app_nil_r; split; [by eapply inv_still; [|apply still_world]|done].
  assert (L3 `prefix_of` L6) as P36 by (do 2 (etrans; [eassumption|]); done).
  split.
  - apply inv_granted; [done..|]. rewrite Hd in Hv |- *. split; [by eapply elem_of_prefix|].
    exists (Registry.d_PublicKey d), hid. split_and!; [|done..].
    eapply elem_of_prefix; [exact Hen|]. etrans; [exact P2|]. by etrans.
  - intros [tok exp] _. apply wp_bind, wp_touch. intros L7 P7. by apply wp_gets.
Qed.

(** An effect of a caller that was let through. *)
Lemma wp_submit {A B} (Q : list fact -> B -> Prop) dev e (f : server -> A) (k : A -> program B) L tok :
  Cleared tok dev (needs e) ∈ L -> validated e ->
  (forall L' a, L `prefix_of` L' -> wp inv Q (k a) L') ->
  wp inv Q (x ← atom (locked (fun s => (f s, add_effect e s))) (fun _ => [Submitted dev e]); k x) L.
Proof.
  intros Hc Hv Hk. apply wp_bind, wp_atom. intros L1 s1 P1 Hs1. unfold locked. cbn [fst snd]. split.
  - apply inv_submitted; [done|]. split; [done|]. exists tok. by eapply elem_of_prefix.
  - intros a _. apply Hk. etrans; [exact P1|]. by apply prefix_app_r.
Qed.

Lemma wp_SubmitAnswer auth m L : wp inv (fun _ _ => True) (SubmitAnswer_sections auth m) L.
Proof.
  apply wp_bind, wp_authorize. intros L1 dev tok P1 Hc. apply wp_bind, wp_still.
  { intros s. unfold valid_answer. destruct (Projection.ValidAnswer _ _ _); [apply still_tick|apply still_refl..]. }
  intros L2 s a P2 _ Ha. apply (wp_submit _ dev (EAnswer a) _ _ _ tok); [by eapply elem_of_prefix| |].
  { unfold valid_answer in Ha. destruct (Projection.ValidAnswer _ _ _) as [a'|e|] eqn:Hv; [|done..].
    injection Ha as ->. by eexists _, _, _. }
  intros L3 out P3. by apply wp_bind, wp_touch.
Qed.

Lemma wp_SubmitCommand auth m L : wp inv (fun _ _ => True) (SubmitCommand_sections auth m) L.
Proof.
  apply wp_bind, wp_authorize. intros L1 dev tok P1 Hc. apply wp_bind, wp_now. intros L2 t P2.
  destruct (Projection.ValidCommand _ _ _ _ t) as [c|e|] eqn:Ha; [|done..]. cbn [res_map_err mbind prog_mbind prog_bind].
  apply (wp_submit _ dev (ECommand c) _ _ _ tok); [by eapply elem_of_prefix|by eexists _, _, _, _, _|].
  intros L3 out P3. by apply wp_bind, wp_touch.
Qed.

Lemma wp_GetDigest auth m L : wp inv (fun _ _ => True) (GetDigest_sections auth m) L.
Proof.
  apply wp_bind, wp_authorize. intros L1 dev tok _ _. apply wp_bind, wp_gets. intros L2 s _ _.
  destruct (digests s) as [look|]; [|done]. cbv zeta. destruct (_ || _); [done|]. by destruct (look _).
Qed.

(** A section on a hub. *)
Lemma wp_hub {A} Q (f : server -> A * server) L :
  (forall s, still s (snd (f s))) -> (forall L' a, Q L' a) -> wp inv Q (silent (locked f)) L.
Proof.
  intros Hf HQ. apply wp_still; [|by intros]. intros s. specialize (Hf s). unfold locked. by destruct (f s).
Qed.

Lemma wp_status_turns sub st ts L : wp inv (fun _ _ => True) (status_turns sub st ts) L.
Proof.
  induction ts as [|t ts IH] in st, L |- *; [done|]. cbn [status_turns]. apply wp_bind, wp_hub; [|by intros].
  intros s. destruct (Streams.WatchStatus_loop _ _ _). apply still_hub.
Qed.
Lemma wp_WatchStatus auth ok ts L : wp inv (fun _ _ => True) (WatchStatus_sections auth ok ts) L.
Proof.
  apply wp_bind, wp_authorize. intros L1 dev tok _ _. apply wp_bind, wp_hub.
  { intros s. destruct (Hub.subscribe dev _) as [[]]. apply still_hub. }
  intros L2 [sub o]. apply wp_bind, wp_hub; [intros s; apply still_hub|]. intros L3 st. apply wp_status_turns.
Qed.

Lemma wp_pane_turns k st ts L : wp inv (fun _ _ => True) (pane_turns k st ts) L.
Proof.
  induction ts as [|t ts IH] in st, L |- *; [done|]. cbn [pane_turns]. apply wp_bind, wp_hub; [|by intros].
  intros s. destruct (Streams.WatchPane_loop _ _ _). apply still_panes.
Qed.
Lemma wp_WatchPane auth m ok ts L : wp inv (fun _ _ => True) (WatchPane_sections auth m ok ts) L.
Proof.
  apply wp_bind, wp_authorize. intros L1 dev tok _ _. apply wp_bind, wp_gets. intros L2 s _ _.
  destruct (PaneHub.source _); [|done]. cbv zeta. destruct (_ || _); [done|]. apply wp_bind, wp_still.
  { intros s'. unfold pane_open. destruct (PaneHub.subscribe _ _ _) as [[[]|e|] h]; apply still_panes. }
  intros L3 s3 [sub o] _ _ _. apply wp_bind, wp_hub.
  { intros s'. destruct o; apply still_panes. }
  intros L4 st. apply wp_pane_turns.
Qed.

(** A revocation that was saved. *)
Lemma inv_revocation L s b t dev : inv L s -> Registry.Revoke dev t (book s) = (Ok (), b) ->
  inv (L ++ [Revoked dev]) (set_book b s).
Proof.
  intros [Hi Hw Hb Hn Ht He Hf] Hrev. set (op := Registry.ORevoke dev t).
  change (Registry.run_op op (book s) = (Ok (), b)) in Hrev.
  assert (forall y, y ∈ L -> y ∈ L ++ [Revoked dev]) as Hin by (intros y Hy; apply elem_of_app; by left).
  split; cbn [set_book id pairs book nonces tokens effects]; [done|by intros ?%Hw%Hin| | | | |by apply founded_snoc].
  - pose proof (Registry.run_op_saved (filed (L ++ [Revoked dev])) op (book s)
      (Trust.du_carried _ (filed_durable _))) as Hs.
    pose proof (Trust.op_keeps op (book s) I) as Hk. pose proof (proj1 (Registry.run_op_devices op (book s))) as Hd.
    rewrite Hrev in Hs, Hk, Hd. cbn [fst snd] in *. apply Hs; [done|done|]. rewrite <- Hd. intros k d' Hd'.
    destruct (Trust.book_keeps_same _ _ _ _ Hk Hd') as (d & Hdk & Hkey & Hid & Hr).
    destruct (proj1 Hb k d Hdk) as (Hen & Hp & Hi' & Hr0). unfold filed. rewrite Hkey, Hid.
    split_and!; [by apply Hin|done..|]. intros [[= ->]|[Hold _]]%revoked_in_snoc.
    + destruct (Registry.op_book_Revoke k t d _ Hdk) as (d2 & Hd2 & Ht2). rewrite Hd in Hd'.
      assert (Some d2 = Some d') as [= <-] by (by rewrite <- Hd2, <- Hd'). apply Registry.Revoked_spec. eauto.
    + specialize (Hr0 Hold). apply Registry.Revoked_spec in Hr0 as [u Hu]. apply Registry.Revoked_spec. exists u.
      rewrite Hr; [done|by rewrite Hu].
  - intros raw n ?%Hn. by apply Hin.
  - intros tok y (nonce & sig & Hy)%Ht. exists nonce, sig. by apply Hin.
  - rewrite omap_app, He. cbn. by rewrite app_nil_r.
Qed.

Lemma wp_RevokeDevice dev L : wp inv (fun _ _ => True) (RevokeDevice_sections dev) L.
Proof.
  apply wp_bind, wp_now. intros L1 t P1. apply wp_bind, wp_atom. intros L2 s P2 Hs.
  pose proof (inv_still _ _ _ Hs (still_op (Registry.ORevoke dev t) s I)) as Hs'.
  pose proof (inv_revocation L2 s) as Hrev. cbn [Registry.run_op] in Hs'. unfold map_err, zoom.
  destruct (Registry.Revoke dev t (book s)) as [[[]|e|] b] eqn:Hr; cbn [res_map_err fst snd] in *; [|by rewrite app_nil_r..].
  split; [by eapply Hrev|]. by intros [] _; apply wp_drop.
Qed.

Lemma wp_open L : wp inv (fun _ _ => True)
  (atom open_section (fun r => match r with Ok secret => [Opened secret] | _ => [] end)) L.
Proof.
  apply wp_atom. intros L1 s P1 Hs. split; [|done]. unfold open_section.
  assert (inv L1 (tick s)) as Ht by by eapply inv_still.
  assert (disk (snd (Pairing.Open (tnow s) (pairs s) (world (tick s)))) = disk (world (tick s))) as Hdisk.
  { unfold Pairing.Open. rewrite bind_eq. pose proof (Trust.rand_disk Pairing.secretLen (world (tick s))) as Hr.
    by destruct (rand_Read _ _) as [[]]. }
  destruct (Pairing.Open _ _ _) as [[[secret m]|e|] w] eqn:Ho; cbn [fst snd] in *;
    [|rewrite app_nil_r; eapply inv_still; [exact Ht|by apply still_world]..].
  apply Pairing.Open_secret in Ho as [-> _]. apply inv_pairs.
  - apply inv_note; [|done..]. eapply inv_still; [exact Ht|by apply still_world].
  - intros _. apply elem_of_app. right. by left.
Qed.

Lemma wp_void {A} (p : program A) L : wp inv (fun _ _ => True) p L -> wp inv (fun _ _ => True) (prog_void p) L.
Proof. intros Hp. apply wp_bind. by eapply wp_wand. Qed.

Lemma wp_call c : wp inv (fun _ _ => True) (call_sections c) [].
Proof.
  destruct c as [q| | |races st|races sid f|dev|dev caps]; cbn [call_sections].
  - destruct q; cbn [request_sections]; try apply wp_void.
    + apply wp_bind, wp_gets. intros L1 s1 _ _. apply wp_bind, wp_or_panic. intros hid _.
      apply wp_bind, wp_gets. intros L2 s2 _ _. apply wp_bind, wp_now. intros L3 t _.
      apply wp_bind, wp_gets. intros L4 s4 _ _. by apply wp_bind, wp_or_panic.
    + apply wp_Pair.
    + apply wp_Challenge.
    + apply wp_Authenticate.
    + apply wp_bind, wp_authorize. intros L dev tok _ _. by apply wp_gets.
    + apply wp_SubmitAnswer.
    + apply wp_SubmitCommand.
    + apply wp_GetDigest.
    + apply wp_WatchStatus.
    + apply wp_WatchPane.
  - apply wp_void, wp_open.
  - apply wp_silent. intros L s _ Hs. split; [|done]. by apply inv_pairs.
  - apply wp_void, wp_bind, wp_gets. intros L1 s1 _ _. apply wp_bind, wp_or_panic. intros hid _.
    apply wp_bind, wp_now. intros L t _. apply wp_hub; [|done]. intros s.
    cbv zeta. case_match. apply still_hub.
  - apply wp_modify; [|done]. intros s. apply still_panes.
  - apply wp_RevokeDevice.
  - apply wp_modify; [|done]. intros s. exact (still_op (Registry.OSetCapabilities dev caps) s I).
Qed.

(** ** Restarts *)

Lemma inv_boot L ow s s' : inv L s -> host_boot ow s = Some s' -> inv L s'.
Proof.
  intros [Hi Hw Hb Hn Ht He Hf]. destruct ow as [o w]. intros [Ri Rp Rt Rn Re _ Rb]%Trust.reboot_spec.
  cbn [op_Identity] in Ri. split; [congruence|by rewrite Rp|by apply Rb| | |congruence|done].
  - intros raw n. by rewrite Rn.
  - intros tok x. by rewrite Rt.
Qed.

(** A host nobody has paired with. *)
Definition fresh (s : server) : Prop :=
  id s = who /\ Pairing.m_secret (pairs s) = [] /\ Registry.everywhere (fun _ _ => False) (book s) /\
  Tokens.sessions (tokens s) = ∅ /\ effects s = [] /\ Tokens.issued (nonces s) = ∅.

Lemma fresh_inv s : fresh s -> inv [] s.
Proof.
  intros (Hi & Hp & Hd & Ht & He & Hn). split; [done|by rewrite Hp| | | |done|].
  - by eapply Registry.everywhere_impl; [exact Hd|].
  - intros raw n. by rewrite Hn, lookup_empty.
  - intros tok x. by rewrite Ht, lookup_empty.
  - by intros [] x B [=].
Qed.


(** ** Properties *)

(** The host under a schedule: calls arrive and run section by section. *)
Definition host_after (ms : list (move call (Options * World))) (s : server) : system server rpcerr fact :=
  moves call_sections host_boot ms (MkSystem s [] []).

Lemma host_inv s ms : fresh s -> inv (log (host_after ms s)) (state (host_after ms s)).
Proof.
  intros Hs. apply (pool_safe inv call_sections host_boot (MkSystem s [] []) ms); [apply wp_call|by intros ?*; apply inv_boot|].
  split; [by apply fresh_inv|constructor].
Qed.

(** C4: authority under interleaving. However the critical sections of any
    number of calls in flight interleave on a fresh host, and wherever between
    them its process dies and comes up again from its files, its effects are those
    of the Submitted facts, in order; every fact rests on earlier ones: an
    effect was validated and its caller let through for the capability it
    needs, with a token granted for an answered challenge under an enrolled
    key, enrolled by redeeming a secret with a verifying proof, in a window that
    was opened; all tokens and devices of the host are such; and once a
    revocation has passed the registry nobody is let through as that device
    until its key is enrolled again. *)
Theorem interleaved_authority s ms : fresh s ->
  let x := host_after ms s in
  effects (state x) = omap effect_of (log x) /\ founded (log x) /\
  (forall tok y, Tokens.sessions (tokens (state x)) !! tok = Some y ->
     exists nonce sig, Granted (Tokens.s_deviceID y) tok nonce sig ∈ log x) /\
  (forall dev d, Registry.devices (book (state x)) !! dev = Some d ->
     Enrolled dev (Registry.d_PublicKey d) ∈ log x /\ Identity.DeviceIDFor (Registry.d_PublicKey d) = dev) /\
  (forall dev A B, log x = A ++ Revoked dev :: B -> (forall pub, Enrolled dev pub ∉ B) ->
     (forall tok cap, Cleared tok dev cap ∉ B) /\
     forall cap, Registry.Allowed dev cap (registry (state x)) <> Ok ()).
Proof.
  intros Hs x. pose proof (host_inv s ms Hs) as Hinv. fold x in Hinv. pose proof Hinv as [_ _ Hb _ Ht He Hf].
  split_and!; [done|done|done| |].
  - intros dev d Hd. by destruct (proj1 Hb dev d Hd) as (? & ? & _).
  - intros dev A B HL HB. split; [|intros cap; apply (inv_revoked _ _ _ _ Hinv); by exists A, B]. intros tok cap Hin.
    apply list_elem_of_split in Hin as (B1 & B2 & ->). rewrite app_comm_cons, app_assoc in HL.
    destruct (Hf _ _ _ HL) as [Hn _]. apply Hn. exists A, B1. split; [done|]. intros pub Hp.
    apply (HB pub), elem_of_app. by left.
Qed.
End authority.

(** ** A life with calls in flight *)

#[local] Existing Instances Registry.toy_registry_lib Registry.toy_registry_laws toy_host.

Definition phone_pair : PairRequest :=
  MkPairRequest ProtocolVersion Trust.the_secret phone_pub (str "Phone") [] []
    (ed_sign phone_priv (Identity.pairBytes Trust.host_id Trust.the_secret phone_pub)).
Definition phone_answer : AuthenticateRequest :=
  MkAuthenticateRequest ProtocolVersion phone_id Trust.the_nonce
    (ed_sign phone_priv (Identity.authBytes Trust.host_id phone_id Trust.the_nonce)).
Definition phone_token : bytes := RawURLEncode (repeat x03 32).

(** The phone pairs and authenticates; its answer is let through (three
    sections), the phone is revoked, and only then does the answer go on. *)
Definition in_flight : list (move call (Options * World)) :=
  concat (imap (fun i c => Spawn c :: repeat (Run i) 16)
    [OpenWindow; Remote (Handler.QPair phone_pair); Remote (Handler.QChallenge (MkChallengeRequest phone_id));
     Remote (Handler.QAuthenticate phone_answer)]) ++
  Spawn (Remote (Handler.QSubmitAnswer (bearerPrefix ++ phone_token) (MkSubmitAnswerRequest (str "ask") (str "yes"))))
    :: repeat (Run 4) 3 ++ Spawn (Revokes phone_id) :: repeat (Run 5) 8 ++ repeat (Run 4) 8.
Definition after_revocation : system server rpcerr fact := host_after in_flight Trust.fresh_host.

Lemma nobody_fresh : fresh (id Trust.fresh_host) Trust.fresh_host.
Proof.
  split; [done|]. split; [done|]. split; [exact (proj1 (proj2 Trust.fresh_host_fresh))|by split_and!].
Qed.

(** Then the process dies, and the phone asks the next one for a challenge. *)
Definition and_a_crash : list (move call (Options * World)) :=
  in_flight ++ Crash (MkOptions None None None true (str "host") None None 0, calm 9 x01)
    :: Spawn (Remote (Handler.QChallenge (MkChallengeRequest phone_id))) :: repeat (Run 0) 8.

Lemma interleaved_authority_witness :
  let x := host_after and_a_crash Trust.fresh_host in
  fresh (id Trust.fresh_host) Trust.fresh_host /\
  effects (state x) = [EAnswer (Projection.MkAnswer (str "ask") (str "yes") 5)] /\
  founded (id Trust.fresh_host) (log x) /\
  (exists e, pool x = [Ret (Err e)]) /\
  Registry.Allowed phone_id Registry.CapStatusRead (registry (state x)) <> Ok ().
Proof.
  intros x. assert (fresh (id Trust.fresh_host) Trust.fresh_host) as Hf by exact nobody_fresh.
  split; [exact Hf|]. split; [vm_compute; reflexivity|].
  destruct (interleaved_authority (id Trust.fresh_host) Trust.fresh_host and_a_crash Hf) as (_ & Hfo & _ & _ & Hr).
  split; [exact Hfo|]. split; [eexists; vm_compute; reflexivity|].
  assert (exists A, log x = A ++ Revoked phone_id ::
    [Submitted phone_id (EAnswer (Projection.MkAnswer (str "ask") (str "yes") 5))]) as [A HA]
    by (exists (take 6 (log x)); vm_compute; reflexivity).
  apply (Hr phone_id A _ HA). intros pub [[=]|[]%elem_of_nil]%elem_of_cons.
Defined.

(** A call already let through is not stopped: the revocation returns success,
    and the answer reaches the executor after it. *)
Theorem answer_lands_after_revocation :
  drop 5 (log after_revocation) =
    [Cleared phone_token phone_id Registry.CapAgentAnswer; Revoked phone_id;
     Submitted phone_id (EAnswer (Projection.MkAnswer (str "ask") (str "yes") 5))] /\
  pool after_revocation !! 5%nat = Some (Ret (Ok ())) /\
  effects (state after_revocation) = [EAnswer (Projection.MkAnswer (str "ask") (str "yes") 5)].
Proof. vm_compute. by split_and!. Qed.
