(* ===== verification/EdgeConnect.v ===== *)
(** * The edge protocol's generated connect code, and the client it is built for
    (gen/rook/edge/v1/edgev1connect/edge.connect.go, edgeclient/client.go)

    The seven procedures of the edge service, its client, its handler and the
    handler that implements nothing; then [NewRPC], which builds the client
    that authenticates every call. *)

From stdpp Require Import gmap.
From S2P Require Import Prelude GoStrings GoURL EdgeProto Http Connect.
From S2P Require Server EdgeClient.

Abbreviation RegisterDeviceRequest := EdgeClient.RegisterDeviceRequest.
Abbreviation RegisterDeviceResponse := EdgeClient.RegisterDeviceResponse.
Abbreviation SyncEdgeResponse := EdgeClient.SyncEdgeResponse.
Abbreviation SubmitEventsResponse := EdgeClient.SubmitEventsResponse.

(** The messages the edge client does not otherwise look into. *)
Record SyncEdgeRequest := MkSyncEdgeRequest {
  sq_ProtocolVersion : bytes; sq_AckedDeviceSequence : Z; MaxCommands : Z; sq_PolicyHash : bytes }.
Record AckCommandRequest := MkAckCommandRequest { aq_CommandId : bytes }.
Record AckCommandResponse := MkAckCommandResponse {}.
Record SubmitEventsRequest := MkSubmitEventsRequest { Events : list EdgeEvent }.
Record RenewLeasesRequest := MkRenewLeasesRequest { LeaseIds : list bytes }.
Record Lease := MkLease {
  LeaseId : bytes; l_ResourceType : bytes; l_ResourceId : bytes; l_FencingToken : Z; l_ExpiresAt : option Timestamp }.
Record RenewLeasesResponse := MkRenewLeasesResponse { Leases : list Lease }.
Record WatchEdgeRequest := MkWatchEdgeRequest { we_ProtocolVersion : bytes }.
Record WatchEdgeResponse := MkWatchEdgeResponse { we_Kind : Z }.
Record ResolveArtifactUploadRequest := MkResolveArtifactUploadRequest {
  ArtifactKind : bytes; ContentDigest : bytes; SizeBytes : Z }.
Record ResolveArtifactUploadResponse := MkResolveArtifactUploadResponse { UploadUrl : bytes; Locator : bytes }.

(** What of each message encodes: the types of the fields are those of the
    [protobuf] tags of gen/rook/edge/v1/edge.pb.go. *)

#[export] Instance Any_proto : Proto Any := {|
  encodable m := utf8_valid (TypeUrl m);
  normal _ := true |}.
#[export] Instance EdgeCommand_proto : Proto EdgeCommand := {|
  encodable m := 
    utf8_valid (ProtocolVersion m) && utf8_valid (c_CommandId m) && utf8_valid (LogicalOperationId m) &&
    uint32b (Attempt m) && utf8_valid (c_DeviceId m) && utf8_valid (TaskId m) &&
    utf8_valid (WorkflowRunId m) && utf8_valid (ResourceType m) && utf8_valid (ResourceId m) &&
    uint64b (c_FencingToken m) && uint64b (ExpectedAggregateVersion m) &&
    option_encodable (ExpiresAt m) && utf8_valid (IdempotencyKey m) && utf8_valid (ApprovalGrantId m) &&
    utf8_valid (PolicyContextHash m) && option_encodable (c_Payload m);
  normal _ := true |}.
#[export] Instance EdgeEvent_proto : Proto EdgeEvent := {|
  encodable m := 
    utf8_valid (EventId m) && utf8_valid (e_DeviceId m) && uint64b (DeviceSequence m) &&
    utf8_valid (e_CommandId m) && utf8_valid (Type_ m) && option_encodable (OccurredAt m) &&
    uint64b (e_FencingToken m) && option_encodable (e_Payload m) && utf8_valid (Traceparent m);
  normal _ := true |}.
#[export] Instance RegisterDeviceRequest_proto : Proto RegisterDeviceRequest := {|
  encodable m := 
    utf8_valid (EdgeClient.rg_ProtocolVersion m) && utf8_valid (EdgeClient.rg_DeviceName m) &&
    utf8_valid (EdgeClient.rg_Platform m) && forallb utf8_valid (EdgeClient.rg_Capabilities m) &&
    utf8_valid (EdgeClient.rg_PolicyHash m);
  normal m := nonempty_bytes (EdgeClient.rg_PublicKey m) |}.
#[export] Instance RegisterDeviceResponse_proto : Proto RegisterDeviceResponse := {|
  encodable m := utf8_valid (EdgeClient.rd_DeviceId m) && uint32b (EdgeClient.rd_PollIntervalSeconds m);
  normal m := nonempty_bytes (EdgeClient.CloudPublicKey m) |}.
#[export] Instance SyncEdgeRequest_proto : Proto SyncEdgeRequest := {|
  encodable m := 
    utf8_valid (sq_ProtocolVersion m) && uint64b (sq_AckedDeviceSequence m) &&
    uint32b (MaxCommands m) && utf8_valid (sq_PolicyHash m);
  normal _ := true |}.
#[export] Instance SyncEdgeResponse_proto : Proto SyncEdgeResponse := {|
  encodable m := 
    list_encodable (EdgeClient.Commands m) && uint64b (EdgeClient.sy_AckedDeviceSequence m) &&
    uint32b (EdgeClient.PollIntervalSeconds m) && forallb utf8_valid (EdgeClient.RevokedLeaseIds m);
  normal _ := true |}.
#[export] Instance AckCommandRequest_proto : Proto AckCommandRequest := {|
  encodable m := utf8_valid (aq_CommandId m);
  normal _ := true |}.
#[export] Instance AckCommandResponse_proto : Proto AckCommandResponse := {|
  encodable _ := true;
  normal _ := true |}.
#[export] Instance SubmitEventsRequest_proto : Proto SubmitEventsRequest := {|
  encodable m := list_encodable (Events m);
  normal _ := true |}.
#[export] Instance EventRejection_proto : Proto EdgeClient.EventRejection := {|
  encodable m := uint64b (EdgeClient.rj_DeviceSequence m) && utf8_valid (EdgeClient.rj_Reason m);
  normal _ := true |}.
#[export] Instance SubmitEventsResponse_proto : Proto SubmitEventsResponse := {|
  encodable m := uint64b (EdgeClient.sb_AckedDeviceSequence m) && list_encodable (EdgeClient.sb_Rejections m);
  normal _ := true |}.
#[export] Instance RenewLeasesRequest_proto : Proto RenewLeasesRequest := {|
  encodable m := forallb utf8_valid (LeaseIds m);
  normal _ := true |}.
#[export] Instance Lease_proto : Proto Lease := {|
  encodable m := 
    utf8_valid (LeaseId m) && utf8_valid (l_ResourceType m) && utf8_valid (l_ResourceId m) &&
    uint64b (l_FencingToken m) && option_encodable (l_ExpiresAt m);
  normal _ := true |}.
#[export] Instance RenewLeasesResponse_proto : Proto RenewLeasesResponse := {|
  encodable m := list_encodable (Leases m);
  normal _ := true |}.
#[export] Instance WatchEdgeRequest_proto : Proto WatchEdgeRequest := {|
  encodable m := utf8_valid (we_ProtocolVersion m);
  normal _ := true |}.
#[export] Instance WatchEdgeResponse_proto : Proto WatchEdgeResponse := {|
  encodable m := int32b (we_Kind m);
  normal _ := true |}.
#[export] Instance ResolveArtifactUploadRequest_proto : Proto ResolveArtifactUploadRequest := {|
  encodable m := utf8_valid (ArtifactKind m) && utf8_valid (ContentDigest m) && uint64b (SizeBytes m);
  normal _ := true |}.
#[export] Instance ResolveArtifactUploadResponse_proto : Proto ResolveArtifactUploadResponse := {|
  encodable m := utf8_valid (UploadUrl m) && utf8_valid (Locator m);
  normal _ := true |}.

(** The encodings of the messages. *)

Class EdgeMessages := {
  RegisterDeviceRequest_message :: Message RegisterDeviceRequest;
  RegisterDeviceResponse_message :: Message RegisterDeviceResponse;
  SyncEdgeRequest_message :: Message SyncEdgeRequest;
  SyncEdgeResponse_message :: Message SyncEdgeResponse;
  AckCommandRequest_message :: Message AckCommandRequest;
  AckCommandResponse_message :: Message AckCommandResponse;
  SubmitEventsRequest_message :: Message SubmitEventsRequest;
  SubmitEventsResponse_message :: Message SubmitEventsResponse;
  RenewLeasesRequest_message :: Message RenewLeasesRequest;
  RenewLeasesResponse_message :: Message RenewLeasesResponse;
  WatchEdgeRequest_message :: Message WatchEdgeRequest;
  WatchEdgeResponse_message :: Message WatchEdgeResponse;
  ResolveArtifactUploadRequest_message :: Message ResolveArtifactUploadRequest;
  ResolveArtifactUploadResponse_message :: Message ResolveArtifactUploadResponse }.
Class EdgeMessagesLaws `{EdgeMessages} : Prop := {
  RegisterDeviceRequest_laws :: MessageLaws RegisterDeviceRequest;
  RegisterDeviceResponse_laws :: MessageLaws RegisterDeviceResponse;
  SyncEdgeRequest_laws :: MessageLaws SyncEdgeRequest;
  SyncEdgeResponse_laws :: MessageLaws SyncEdgeResponse;
  AckCommandRequest_laws :: MessageLaws AckCommandRequest;
  AckCommandResponse_laws :: MessageLaws AckCommandResponse;
  SubmitEventsRequest_laws :: MessageLaws SubmitEventsRequest;
  SubmitEventsResponse_laws :: MessageLaws SubmitEventsResponse;
  RenewLeasesRequest_laws :: MessageLaws RenewLeasesRequest;
  RenewLeasesResponse_laws :: MessageLaws RenewLeasesResponse;
  WatchEdgeRequest_laws :: MessageLaws WatchEdgeRequest;
  WatchEdgeResponse_laws :: MessageLaws WatchEdgeResponse;
  ResolveArtifactUploadRequest_laws :: MessageLaws ResolveArtifactUploadRequest;
  ResolveArtifactUploadResponse_laws :: MessageLaws ResolveArtifactUploadResponse }.

Definition EdgeServiceName : bytes := str "rook.edge.v1.EdgeService".
Definition EdgeServiceRegisterDeviceProcedure : bytes := str "/rook.edge.v1.EdgeService/RegisterDevice".
Definition EdgeServiceSyncEdgeProcedure : bytes := str "/rook.edge.v1.EdgeService/SyncEdge".
Definition EdgeServiceAckCommandProcedure : bytes := str "/rook.edge.v1.EdgeService/AckCommand".
Definition EdgeServiceSubmitEventsProcedure : bytes := str "/rook.edge.v1.EdgeService/SubmitEvents".
Definition EdgeServiceRenewLeasesProcedure : bytes := str "/rook.edge.v1.EdgeService/RenewLeases".
Definition EdgeServiceWatchEdgeProcedure : bytes := str "/rook.edge.v1.EdgeService/WatchEdge".
Definition EdgeServiceResolveArtifactUploadProcedure : bytes := str "/rook.edge.v1.EdgeService/ResolveArtifactUpload".

Section service.
Context {S : Type} `{Connect S, EdgeMessages}.

(** The interface a client has, and the one a server implements. *)
Record EdgeServiceClient := MkEdgeServiceClient {
  c_RegisterDevice : UnaryCall RegisterDeviceRequest RegisterDeviceResponse;
  c_SyncEdge : UnaryCall SyncEdgeRequest SyncEdgeResponse;
  c_AckCommand : UnaryCall AckCommandRequest AckCommandResponse;
  c_SubmitEvents : UnaryCall SubmitEventsRequest SubmitEventsResponse;
  c_RenewLeases : UnaryCall RenewLeasesRequest RenewLeasesResponse;
  c_WatchEdge : StreamCall WatchEdgeRequest WatchEdgeResponse;
  c_ResolveArtifactUpload : UnaryCall ResolveArtifactUploadRequest ResolveArtifactUploadResponse }.
Record EdgeServiceHandler := MkEdgeServiceHandler {
  RegisterDevice : UnaryCall RegisterDeviceRequest RegisterDeviceResponse;
  SyncEdge : UnaryCall SyncEdgeRequest SyncEdgeResponse;
  AckCommand : UnaryCall AckCommandRequest AckCommandResponse;
  SubmitEvents : UnaryCall SubmitEventsRequest SubmitEventsResponse;
  RenewLeases : UnaryCall RenewLeasesRequest RenewLeasesResponse;
  WatchEdge : StreamServe WatchEdgeRequest WatchEdgeResponse;
  ResolveArtifactUpload : UnaryCall ResolveArtifactUploadRequest ResolveArtifactUploadResponse }.

Record edgeServiceClient := MkedgeServiceClient {
  registerDevice : Client RegisterDeviceRequest RegisterDeviceResponse;
  syncEdge : Client SyncEdgeRequest SyncEdgeResponse;
  ackCommand : Client AckCommandRequest AckCommandResponse;
  submitEvents : Client SubmitEventsRequest SubmitEventsResponse;
  renewLeases : Client RenewLeasesRequest RenewLeasesResponse;
  watchEdge : Client WatchEdgeRequest WatchEdgeResponse;
  resolveArtifactUpload : Client ResolveArtifactUploadRequest ResolveArtifactUploadResponse }.

Definition edgeServiceClient_RegisterDevice (c : edgeServiceClient) : UnaryCall RegisterDeviceRequest
  RegisterDeviceResponse :=
  fun ctx req => CallUnary (registerDevice c) ctx req.
Definition edgeServiceClient_SyncEdge (c : edgeServiceClient) : UnaryCall SyncEdgeRequest SyncEdgeResponse :=
  fun ctx req => CallUnary (syncEdge c) ctx req.
Definition edgeServiceClient_AckCommand (c : edgeServiceClient) : UnaryCall AckCommandRequest AckCommandResponse :=
  fun ctx req => CallUnary (ackCommand c) ctx req.
Definition edgeServiceClient_SubmitEvents (c : edgeServiceClient) : UnaryCall SubmitEventsRequest
  SubmitEventsResponse :=
  fun ctx req => CallUnary (submitEvents c) ctx req.
Definition edgeServiceClient_RenewLeases (c : edgeServiceClient) : UnaryCall RenewLeasesRequest RenewLeasesResponse :=
  fun ctx req => CallUnary (renewLeases c) ctx req.
Definition edgeServiceClient_WatchEdge (c : edgeServiceClient) : StreamCall WatchEdgeRequest WatchEdgeResponse :=
  fun ctx req => CallServerStream (watchEdge c) ctx req.
Definition edgeServiceClient_ResolveArtifactUpload (c : edgeServiceClient) : UnaryCall ResolveArtifactUploadRequest
  ResolveArtifactUploadResponse :=
  fun ctx req => CallUnary (resolveArtifactUpload c) ctx req.

Definition NewEdgeServiceClient (httpClient : HTTPClient) (baseURL : bytes) (opts : list ClientOption)
    : EdgeServiceClient :=
  let baseURL := TrimRight baseURL (str "/") in
  let edgeServiceMethods := method_ByName (str "EdgeService") in
  let c := MkedgeServiceClient
    (NewClient RegisterDeviceRequest RegisterDeviceResponse httpClient (baseURL ++ EdgeServiceRegisterDeviceProcedure)
       [WithClientSchema (edgeServiceMethods (str "RegisterDevice")); WithClientOptions opts])
    (NewClient SyncEdgeRequest SyncEdgeResponse httpClient (baseURL ++ EdgeServiceSyncEdgeProcedure)
       [WithClientSchema (edgeServiceMethods (str "SyncEdge")); WithClientOptions opts])
    (NewClient AckCommandRequest AckCommandResponse httpClient (baseURL ++ EdgeServiceAckCommandProcedure)
       [WithClientSchema (edgeServiceMethods (str "AckCommand")); WithClientOptions opts])
    (NewClient SubmitEventsRequest SubmitEventsResponse httpClient (baseURL ++ EdgeServiceSubmitEventsProcedure)
       [WithClientSchema (edgeServiceMethods (str "SubmitEvents")); WithClientOptions opts])
    (NewClient RenewLeasesRequest RenewLeasesResponse httpClient (baseURL ++ EdgeServiceRenewLeasesProcedure)
       [WithClientSchema (edgeServiceMethods (str "RenewLeases")); WithClientOptions opts])
    (NewClient WatchEdgeRequest WatchEdgeResponse httpClient (baseURL ++ EdgeServiceWatchEdgeProcedure)
       [WithClientSchema (edgeServiceMethods (str "WatchEdge")); WithClientOptions opts])
    (NewClient ResolveArtifactUploadRequest ResolveArtifactUploadResponse httpClient (baseURL ++
      EdgeServiceResolveArtifactUploadProcedure)
       [WithClientSchema (edgeServiceMethods (str "ResolveArtifactUpload")); WithClientOptions opts]) in
  MkEdgeServiceClient (edgeServiceClient_RegisterDevice c) (edgeServiceClient_SyncEdge c)
    (edgeServiceClient_AckCommand c) (edgeServiceClient_SubmitEvents c) (edgeServiceClient_RenewLeases c)
      (edgeServiceClient_WatchEdge c) (edgeServiceClient_ResolveArtifactUpload c).

Definition NewEdgeServiceHandler (svc : EdgeServiceHandler) (opts : list HandlerOption)
    : bytes * HTTPHandler Payload Output S :=
  let edgeServiceMethods := method_ByName (str "EdgeService") in
  let edgeServiceRegisterDeviceHandler := NewUnaryHandler RegisterDeviceRequest RegisterDeviceResponse
    EdgeServiceRegisterDeviceProcedure (RegisterDevice svc)
       [WithHandlerSchema (edgeServiceMethods (str "RegisterDevice")); WithHandlerOptions opts] in
  let edgeServiceSyncEdgeHandler := NewUnaryHandler SyncEdgeRequest SyncEdgeResponse EdgeServiceSyncEdgeProcedure
    (SyncEdge svc)
       [WithHandlerSchema (edgeServiceMethods (str "SyncEdge")); WithHandlerOptions opts] in
  let edgeServiceAckCommandHandler := NewUnaryHandler AckCommandRequest AckCommandResponse
    EdgeServiceAckCommandProcedure (AckCommand svc)
       [WithHandlerSchema (edgeServiceMethods (str "AckCommand")); WithHandlerOptions opts] in
  let edgeServiceSubmitEventsHandler := NewUnaryHandler SubmitEventsRequest SubmitEventsResponse
    EdgeServiceSubmitEventsProcedure (SubmitEvents svc)
       [WithHandlerSchema (edgeServiceMethods (str "SubmitEvents")); WithHandlerOptions opts] in
  let edgeServiceRenewLeasesHandler := NewUnaryHandler RenewLeasesRequest RenewLeasesResponse
    EdgeServiceRenewLeasesProcedure (RenewLeases svc)
       [WithHandlerSchema (edgeServiceMethods (str "RenewLeases")); WithHandlerOptions opts] in
  let edgeServiceWatchEdgeHandler := NewServerStreamHandler WatchEdgeRequest WatchEdgeResponse
    EdgeServiceWatchEdgeProcedure (WatchEdge svc)
       [WithHandlerSchema (edgeServiceMethods (str "WatchEdge")); WithHandlerOptions opts] in
  let edgeServiceResolveArtifactUploadHandler := NewUnaryHandler ResolveArtifactUploadRequest
    ResolveArtifactUploadResponse EdgeServiceResolveArtifactUploadProcedure (ResolveArtifactUpload svc)
       [WithHandlerSchema (edgeServiceMethods (str "ResolveArtifactUpload")); WithHandlerOptions opts] in
  (str "/rook.edge.v1.EdgeService/", fun r s =>
    if bool_decide (URL_Path r = EdgeServiceRegisterDeviceProcedure) then ServeHTTP
      edgeServiceRegisterDeviceHandler r s
    else if bool_decide (URL_Path r = EdgeServiceSyncEdgeProcedure) then ServeHTTP edgeServiceSyncEdgeHandler r s
    else if bool_decide (URL_Path r = EdgeServiceAckCommandProcedure) then ServeHTTP edgeServiceAckCommandHandler r s
    else if bool_decide (URL_Path r = EdgeServiceSubmitEventsProcedure) then ServeHTTP
      edgeServiceSubmitEventsHandler r s
    else if bool_decide (URL_Path r = EdgeServiceRenewLeasesProcedure) then ServeHTTP edgeServiceRenewLeasesHandler
      r s
    else if bool_decide (URL_Path r = EdgeServiceWatchEdgeProcedure) then ServeHTTP edgeServiceWatchEdgeHandler r s
    else if bool_decide (URL_Path r = EdgeServiceResolveArtifactUploadProcedure) then ServeHTTP
      edgeServiceResolveArtifactUploadHandler r s
    else http_NotFound r s).

(** [UnimplementedEdgeServiceHandler]. *)
Definition UnimplementedEdgeServiceHandler_RegisterDevice : UnaryCall RegisterDeviceRequest RegisterDeviceResponse :=
  fun _ _ => throw (NewError Server.Unimplemented (str "rook.edge.v1.EdgeService.RegisterDevice is not implemented")).
Definition UnimplementedEdgeServiceHandler_SyncEdge : UnaryCall SyncEdgeRequest SyncEdgeResponse :=
  fun _ _ => throw (NewError Server.Unimplemented (str "rook.edge.v1.EdgeService.SyncEdge is not implemented")).
Definition UnimplementedEdgeServiceHandler_AckCommand : UnaryCall AckCommandRequest AckCommandResponse :=
  fun _ _ => throw (NewError Server.Unimplemented (str "rook.edge.v1.EdgeService.AckCommand is not implemented")).
Definition UnimplementedEdgeServiceHandler_SubmitEvents : UnaryCall SubmitEventsRequest SubmitEventsResponse :=
  fun _ _ => throw (NewError Server.Unimplemented (str "rook.edge.v1.EdgeService.SubmitEvents is not implemented")).
Definition UnimplementedEdgeServiceHandler_RenewLeases : UnaryCall RenewLeasesRequest RenewLeasesResponse :=
  fun _ _ => throw (NewError Server.Unimplemented (str "rook.edge.v1.EdgeService.RenewLeases is not implemented")).
Definition UnimplementedEdgeServiceHandler_WatchEdge : StreamServe WatchEdgeRequest WatchEdgeResponse :=
  fun _ _ _ => throw (NewError Server.Unimplemented (str "rook.edge.v1.EdgeService.WatchEdge is not implemented")).
Definition UnimplementedEdgeServiceHandler_ResolveArtifactUpload : UnaryCall ResolveArtifactUploadRequest
  ResolveArtifactUploadResponse :=
  fun _ _ => throw (NewError Server.Unimplemented (str "rook.edge.v1.EdgeService.ResolveArtifactUpload is not implemented")).
Definition UnimplementedEdgeServiceHandler : EdgeServiceHandler :=
  MkEdgeServiceHandler UnimplementedEdgeServiceHandler_RegisterDevice UnimplementedEdgeServiceHandler_SyncEdge
    UnimplementedEdgeServiceHandler_AckCommand UnimplementedEdgeServiceHandler_SubmitEvents
      UnimplementedEdgeServiceHandler_RenewLeases UnimplementedEdgeServiceHandler_WatchEdge
        UnimplementedEdgeServiceHandler_ResolveArtifactUpload.
End service.

(** ** [NewRPC]: the client that carries the machine's token *)

Definition bearer_interceptor (token : bytes) : Interceptor :=
  MkInterceptor (fun A => EdgeClient.WrapUnary token) (fun A => EdgeClient.WrapStreamingClient token)
    (fun A => EdgeClient.WrapStreamingHandler token).

Definition NewRPC {S : Type} `{Connect S, EdgeMessages} (httpClient : HTTPClient) (baseURL token : bytes)
    : EdgeServiceClient :=
  NewEdgeServiceClient httpClient baseURL [WithInterceptors [bearer_interceptor token]].

Lemma bearer_header {S : Type} `{ConnectLaws S} d token :
  client_header [WithClientSchema d; WithClientOptions [WithInterceptors [bearer_interceptor token]]]
    (EdgeClient.stamp token).
Proof.
  assert (interceptors [WithClientSchema d; WithClientOptions [WithInterceptors [bearer_interceptor token]]] =
    [bearer_interceptor token]) as Hi.
  { rewrite interceptors_schema, interceptors_options, interceptors_with. by rewrite !interceptors_none. }
  split; rewrite Hi; done.
Qed.

(** What a call of [NewRPC]'s client is, if its message encodes and it has no
    other header than a credential: one run of the service's method of the same
    name, whose request carries the message and the bearer token, in place of
    whatever credential the caller had set. *)
Definition authenticated_call {S : Type} `{Wire S} {Req Res : Type} `{Message Req, Message Res} (token : bytes)
    (call impl : UnaryCall Req Res) : Prop :=
  forall ctx req s, lasting ctx = true -> delete Authorization (req_Header req) = ∅ -> encodes (Msg req) ->
  exists ctx' req',
    Msg req' = Msg req /\ req_Header req' !! Authorization = Some (str "Bearer " ++ token) /\
    snd (call ctx req s) = snd (impl ctx' req' s) /\
    same_outcome (fst (call ctx req s)) (fst (impl ctx' req' s)).

(** The same for a stream, of a request without headers of its own: connect adds
    a request's headers to those of the stream's connection. *)
Definition authenticated_stream {S : Type} `{Wire S} {Req Res : Type} `{Message Req} (token : bytes)
    (call : StreamCall Req Res) (impl : StreamServe Req Res) : Prop :=
  forall ctx m s, lasting ctx = true -> encodes m -> exists ctx' req' stream,
    Msg req' = m /\ req_Header req' !! Authorization = Some (str "Bearer " ++ token) /\
    snd (call ctx (NewRequest m) s) = snd (impl ctx' req' stream s).

Lemma stamped_plain token header :
  field_value (str "Bearer " ++ token) = true -> delete Authorization header = ∅ ->
  header_plain (EdgeClient.stamp token header).
Proof.
  intros Hv Hd. unfold EdgeClient.stamp. change (str "Authorization") with Authorization.
  rewrite <- insert_delete_eq, Hd, insert_empty. unfold header_plain. by rewrite map_Forall_singleton.
Qed.

Lemma authenticated_unary {S : Type} `{Wire S} {Req Res : Type} `{Message Req, Message Res} token
    (call impl : UnaryCall Req Res) :
  field_value (str "Bearer " ++ token) = true ->
  unary_reaches (EdgeClient.stamp token) call impl -> authenticated_call token call impl.
Proof.
  intros Hv Hr ctx req s Hl Hh He. destruct (Hr ctx req s) as (ctx' & req' & Hm & Ha & Hs).
  { split_and!; [done|by apply stamped_plain|done]. }
  exists ctx', req'. rewrite Ha. split; [done|]. split; [|done]. apply lookup_insert_eq.
Qed.

Lemma authenticated_streaming {S : Type} `{ConnectLaws S} {Req Res : Type} `{Message Req} token
    (call : StreamCall Req Res) (impl : StreamServe Req Res) :
  field_value (str "Bearer " ++ token) = true ->
  stream_reaches (EdgeClient.stamp token) call impl -> authenticated_stream token call impl.
Proof.
  intros Hv Hr ctx m s Hl He. destruct (Hr ctx (NewRequest m) s) as (ctx' & req' & stream & Hm & Ha & Hs).
  { rewrite Header_NewRequest. apply map_disjoint_empty_r. }
  { rewrite Header_NewRequest, Msg_NewRequest, map_union_empty. split_and!; [done|by apply stamped_plain|done]. }
  exists ctx', req', stream. rewrite Hm, Ha, Msg_NewRequest, Header_NewRequest, map_union_empty.
  split_and!; [done|apply lookup_insert_eq|done].
Qed.

(** C25: the machine's token rides on every call, and every call reaches its own
    method. For a token that makes a header value, a context that lasts, a
    message that encodes and no header but a credential, whatever slashes the base URL ends in, each of the six
    unary methods of [NewRPC]'s client runs the service method of the same name
    once, on the message sent, under the Authorization header [Bearer <token>],
    which replaces any the request had, and returns that method's response, an
    internal error if that does not encode, or its error; and the wake stream,
    opened as the client opens it with a request that has no headers of its own,
    runs under that header too. *)
Theorem NewRPC_authenticates {S : Type} `{ConnectLaws S, EdgeMessagesLaws} h o n token (svc : EdgeServiceHandler) :
  origin_ok o = true -> serves h (NewEdgeServiceHandler svc []) ->
  field_value (str "Bearer " ++ token) = true ->
  let c := NewRPC (over h) (origin_url o ++ repeat x2f n) token in
  authenticated_call token (c_RegisterDevice c) (RegisterDevice svc) /\
  authenticated_call token (c_SyncEdge c) (SyncEdge svc) /\
  authenticated_call token (c_AckCommand c) (AckCommand svc) /\
  authenticated_call token (c_SubmitEvents c) (SubmitEvents svc) /\
  authenticated_call token (c_RenewLeases c) (RenewLeases svc) /\
  authenticated_stream token (c_WatchEdge c) (WatchEdge svc) /\
  authenticated_call token (c_ResolveArtifactUpload c) (ResolveArtifactUpload svc).
Proof.
  intros Ho Hs Hv. split_and!;
    (first [apply authenticated_unary; [exact Hv|eapply unary_call]|apply authenticated_streaming; [exact Hv|eapply stream_call]];
     [exact Ho|reflexivity|apply bearer_header|]); intros x s; by rewrite Hs.
Qed.

(** ** An encoding of the messages *)

#[local] Instance Any_eq_dec : EqDecision Any.
Proof. solve_decision. Defined.
#[local] Instance Any_countable : Countable Any.
Proof.
  apply (inj_countable'
    (fun x => (TypeUrl x, Value x))
    (fun '(a0, a1) => MkAny a0 a1)).
  by intros [].
Defined.

#[local] Instance Timestamp_eq_dec : EqDecision Timestamp.
Proof. solve_decision. Defined.
#[local] Instance Timestamp_countable : Countable Timestamp.
Proof.
  apply (inj_countable'
    (fun x => (Seconds x, Nanos x))
    (fun '(a0, a1) => MkTimestamp a0 a1)).
  by intros [].
Defined.

#[local] Instance EdgeCommand_eq_dec : EqDecision EdgeCommand.
Proof. solve_decision. Defined.
#[local] Instance EdgeCommand_countable : Countable EdgeCommand.
Proof.
  apply (inj_countable'
    (fun x => (ProtocolVersion x, c_CommandId x, LogicalOperationId x, Attempt x, c_DeviceId x, TaskId x,
      WorkflowRunId x, ResourceType x, ResourceId x, c_FencingToken x, ExpectedAggregateVersion x, ExpiresAt x,
        IdempotencyKey x, ApprovalGrantId x, PolicyContextHash x, c_Payload x, c_PayloadDigest x, CloudSignature x,
          ApprovalGrant x, LedgerPayload x))
    (fun '(a0, a1, a2, a3, a4, a5, a6, a7, a8, a9, a10, a11, a12, a13, a14, a15, a16, a17, a18, a19) =>
      MkEdgeCommand a0 a1 a2 a3 a4 a5 a6 a7 a8 a9 a10 a11 a12 a13 a14 a15 a16 a17 a18 a19)).
  by intros [].
Defined.

#[local] Instance EdgeEvent_eq_dec : EqDecision EdgeEvent.
Proof. solve_decision. Defined.
#[local] Instance EdgeEvent_countable : Countable EdgeEvent.
Proof.
  apply (inj_countable'
    (fun x => (EventId x, e_DeviceId x, DeviceSequence x, e_CommandId x, Type_ x, OccurredAt x, e_FencingToken x,
      e_Payload x, e_PayloadDigest x, DeviceSignature x, Traceparent x))
    (fun '(a0, a1, a2, a3, a4, a5, a6, a7, a8, a9, a10) => MkEdgeEvent a0 a1 a2 a3 a4 a5 a6 a7 a8 a9 a10)).
  by intros [].
Defined.

#[local] Instance RegisterDeviceRequest_eq_dec : EqDecision EdgeClient.RegisterDeviceRequest.
Proof. solve_decision. Defined.
#[local] Instance RegisterDeviceRequest_countable : Countable EdgeClient.RegisterDeviceRequest.
Proof.
  apply (inj_countable'
    (fun x => (EdgeClient.rg_ProtocolVersion x, EdgeClient.rg_DeviceName x, EdgeClient.rg_Platform x,
      EdgeClient.rg_Capabilities x, EdgeClient.rg_PolicyHash x, EdgeClient.rg_PublicKey x))
    (fun '(a0, a1, a2, a3, a4, a5) => EdgeClient.MkRegister a0 a1 a2 a3 a4 a5)).
  by intros [].
Defined.

#[local] Instance RegisterDeviceResponse_eq_dec : EqDecision EdgeClient.RegisterDeviceResponse.
Proof. solve_decision. Defined.
#[local] Instance RegisterDeviceResponse_countable : Countable EdgeClient.RegisterDeviceResponse.
Proof.
  apply (inj_countable'
    (fun x => (EdgeClient.rd_DeviceId x, EdgeClient.rd_PollIntervalSeconds x, EdgeClient.CloudPublicKey x))
    (fun '(a0, a1, a2) => EdgeClient.MkRegistered a0 a1 a2)).
  by intros [].
Defined.

#[local] Instance SyncEdgeResponse_eq_dec : EqDecision EdgeClient.SyncEdgeResponse.
Proof. solve_decision. Defined.
#[local] Instance SyncEdgeResponse_countable : Countable EdgeClient.SyncEdgeResponse.
Proof.
  apply (inj_countable'
    (fun x => (EdgeClient.Commands x, EdgeClient.sy_AckedDeviceSequence x, EdgeClient.PollIntervalSeconds x,
      EdgeClient.RevokedLeaseIds x))
    (fun '(a0, a1, a2, a3) => EdgeClient.MkSync a0 a1 a2 a3)).
  by intros [].
Defined.

#[local] Instance EventRejection_eq_dec : EqDecision EdgeClient.EventRejection.
Proof. solve_decision. Defined.
#[local] Instance EventRejection_countable : Countable EdgeClient.EventRejection.
Proof.
  apply (inj_countable'
    (fun x => (EdgeClient.rj_DeviceSequence x, EdgeClient.rj_Reason x))
    (fun '(a0, a1) => EdgeClient.MkRejection a0 a1)).
  by intros [].
Defined.

#[local] Instance SubmitEventsResponse_eq_dec : EqDecision EdgeClient.SubmitEventsResponse.
Proof. solve_decision. Defined.
#[local] Instance SubmitEventsResponse_countable : Countable EdgeClient.SubmitEventsResponse.
Proof.
  apply (inj_countable'
    (fun x => (EdgeClient.sb_AckedDeviceSequence x, EdgeClient.sb_Rejections x))
    (fun '(a0, a1) => EdgeClient.MkSubmitted a0 a1)).
  by intros [].
Defined.

#[local] Instance SyncEdgeRequest_eq_dec : EqDecision SyncEdgeRequest.
Proof. solve_decision. Defined.
#[local] Instance SyncEdgeRequest_countable : Countable SyncEdgeRequest.
Proof.
  apply (inj_countable'
    (fun x => (sq_ProtocolVersion x, sq_AckedDeviceSequence x, MaxCommands x, sq_PolicyHash x))
    (fun '(a0, a1, a2, a3) => MkSyncEdgeRequest a0 a1 a2 a3)).
  by intros [].
Defined.

#[local] Instance AckCommandRequest_eq_dec : EqDecision AckCommandRequest.
Proof. solve_decision. Defined.
#[local] Instance AckCommandRequest_countable : Countable AckCommandRequest.
Proof.
  apply (inj_countable'
    (aq_CommandId)
    (MkAckCommandRequest)).
  by intros [].
Defined.

#[local] Instance AckCommandResponse_eq_dec : EqDecision AckCommandResponse.
Proof. solve_decision. Defined.
#[local] Instance AckCommandResponse_countable : Countable AckCommandResponse.
Proof.
  apply (inj_countable'
    (fun _ => ())
    (fun _ => MkAckCommandResponse)).
  by intros [].
Defined.

#[local] Instance SubmitEventsRequest_eq_dec : EqDecision SubmitEventsRequest.
Proof. solve_decision. Defined.
#[local] Instance SubmitEventsRequest_countable : Countable SubmitEventsRequest.
Proof.
  apply (inj_countable'
    (Events)
    (MkSubmitEventsRequest)).
  by intros [].
Defined.

#[local] Instance RenewLeasesRequest_eq_dec : EqDecision RenewLeasesRequest.
Proof. solve_decision. Defined.
#[local] Instance RenewLeasesRequest_countable : Countable RenewLeasesRequest.
Proof.
  apply (inj_countable'
    (LeaseIds)
    (MkRenewLeasesRequest)).
  by intros [].
Defined.

#[local] Instance Lease_eq_dec : EqDecision Lease.
Proof. solve_decision. Defined.
#[local] Instance Lease_countable : Countable Lease.
Proof.
  apply (inj_countable'
    (fun x => (LeaseId x, l_ResourceType x, l_ResourceId x, l_FencingToken x, l_ExpiresAt x))
    (fun '(a0, a1, a2, a3, a4) => MkLease a0 a1 a2 a3 a4)).
  by intros [].
Defined.

#[local] Instance RenewLeasesResponse_eq_dec : EqDecision RenewLeasesResponse.
Proof. solve_decision. Defined.
#[local] Instance RenewLeasesResponse_countable : Countable RenewLeasesResponse.
Proof.
  apply (inj_countable'
    (Leases)
    (MkRenewLeasesResponse)).
  by intros [].
Defined.

#[local] Instance WatchEdgeRequest_eq_dec : EqDecision WatchEdgeRequest.
Proof. solve_decision. Defined.
#[local] Instance WatchEdgeRequest_countable : Countable WatchEdgeRequest.
Proof.
  apply (inj_countable'
    (we_ProtocolVersion)
    (MkWatchEdgeRequest)).
  by intros [].
Defined.

#[local] Instance WatchEdgeResponse_eq_dec : EqDecision WatchEdgeResponse.
Proof. solve_decision. Defined.
#[local] Instance WatchEdgeResponse_countable : Countable WatchEdgeResponse.
Proof.
  apply (inj_countable'
    (we_Kind)
    (MkWatchEdgeResponse)).
  by intros [].
Defined.

#[local] Instance ResolveArtifactUploadRequest_eq_dec : EqDecision ResolveArtifactUploadRequest.
Proof. solve_decision. Defined.
#[local] Instance ResolveArtifactUploadRequest_countable : Countable ResolveArtifactUploadRequest.
Proof.
  apply (inj_countable'
    (fun x => (ArtifactKind x, ContentDigest x, SizeBytes x))
    (fun '(a0, a1, a2) => MkResolveArtifactUploadRequest a0 a1 a2)).
  by intros [].
Defined.

#[local] Instance ResolveArtifactUploadResponse_eq_dec : EqDecision ResolveArtifactUploadResponse.
Proof. solve_decision. Defined.
#[local] Instance ResolveArtifactUploadResponse_countable : Countable ResolveArtifactUploadResponse.
Proof.
  apply (inj_countable'
    (fun x => (UploadUrl x, Locator x))
    (fun '(a0, a1) => MkResolveArtifactUploadResponse a0 a1)).
  by intros [].
Defined.

Definition counted_EdgeMessages : EdgeMessages.
Proof. split; exact counted_message. Defined.
Lemma counted_EdgeMessages_laws : EdgeMessagesLaws (H := counted_EdgeMessages).
Proof. split; exact counted_laws. Qed.

#[local] Existing Instance counted_EdgeMessages.
#[local] Existing Instance counted_EdgeMessages_laws.
#[local] Existing Instance loop_connect.
#[local] Existing Instance loop_wire.
#[local] Existing Instance loop_laws.

(** A cloud whose one live method notes the credentials of its callers. *)
Definition noting_cloud : EdgeServiceHandler (S := list bytes) :=
  MkEdgeServiceHandler UnimplementedEdgeServiceHandler_RegisterDevice UnimplementedEdgeServiceHandler_SyncEdge
    (fun _ req s => (Ok (NewResponse MkAckCommandResponse), s ++ [default [] (req_Header req !! Authorization)]))
    UnimplementedEdgeServiceHandler_SubmitEvents UnimplementedEdgeServiceHandler_RenewLeases
    (fun _ req _ s => (Ok (), s ++ [default [] (req_Header req !! Authorization)]))
    UnimplementedEdgeServiceHandler_ResolveArtifactUpload.

Lemma NewRPC_authenticates_witness :
  let h := snd (NewEdgeServiceHandler noting_cloud []) in
  let c := NewRPC (S := list bytes) (over h) (str "https://cloud.example/") (str "tok") in
  exists req, Msg req = MkAckCommandRequest (str "c1") /\
    req_Header req !! Authorization = Some (str "Bearer tok") /\
    snd (c_AckCommand c () (NewRequest (MkAckCommandRequest (str "c1"))) []) = snd (AckCommand noting_cloud () req []) /\
    snd (c_WatchEdge c () (NewRequest (MkWatchEdgeRequest (str "rook-edge/1"))) []) = [str "Bearer tok"].
Proof.
  intros h c.
  pose proof (NewRPC_authenticates h (MkOrigin (str "https") (str "cloud.example") None) 1 (str "tok") noting_cloud
    eq_refl (fun _ _ _ _ => eq_refl) eq_refl) as (_ & _ & Ha & _ & _ & Hw & _).
  destruct (Ha () (NewRequest (MkAckCommandRequest (str "c1"))) []) as ([] & req & Hm & Hh & Hs & _);
    [reflexivity|reflexivity|vm_compute; repeat split; reflexivity|].
  exists req. split_and!; [exact Hm|exact Hh|exact Hs|].
  destruct (Hw () (MkWatchEdgeRequest (str "rook-edge/1")) []) as (ctx & r & st & _ & Hr & Hs');
    [reflexivity|vm_compute; repeat split; reflexivity|].
  transitivity (snd (WatchEdge noting_cloud ctx r st [])); [exact Hs'|].
  change ([] ++ [default [] (req_Header r !! Authorization)] = [str "Bearer tok"]). by rewrite Hr.
Defined.
