(* ===== verification/Transport.v ===== *)
(** * The front door: the TLS listener, and the addresses it may be reached at
    (transport/transport.go)

    The listener is a state machine: the goroutine [Listen] starts, the kernel's
    listener, the connections, the requests in flight on them, the channel that
    carries a serve failure to [Err], and the calls of [Shutdown], under any
    interleaving. Of [net/http] and [crypto/tls] it has what this package relies
    on: the minimum version, the certificate, tracked listeners, the two ways
    [ServeTLS] returns, and a [Shutdown] that closes idle connections until none
    is left or its context ends. A handler is a program of sections ([Threads]),
    so a request, and a stream above all, stays in flight from its first section
    to its last; when its client goes away it runs on without a connection. A
    request may be read from any connection that is still open, during a
    shutdown too. *)

From stdpp Require Import gmap.
From S2P Require Import Prelude GoStrings GoTime GoOS Http Crypto Threads Connect LinkConnect.
From S2P Require Identity Pairing Registry Server Handler Trust.

(** ** [crypto/tls] *)

Definition VersionTLS13 : Z := 0x0304.

Record Config := MkConfig { Certificates : list Identity.TLSCertificate; MinVersion : Z }.

(** What a client that speaks up to [v] agrees on: a version, and the
    certificate it is shown. *)
Definition handshake (c : Config) (v : Z) : option (Z * Identity.TLSCertificate) :=
  cert ← head (Certificates c);
  if MinVersion c <=? v then Some (Z.min v VersionTLS13, cert) else None.

(** ** The listener *)

(** How [ServeTLS] returned: [http.ErrServerClosed], or with an error. *)
Inductive serve_end := ServerClosed | ServeFailed (e : bytes).

(** Where the goroutine is: not yet in [ServeTLS], in its accept loop, back with
    a result, past the send, past the close. *)
Inductive thread := Spawned | Accepting | Returned (r : serve_end) | Sent | Finished.

Section listener.
Context {Payload S E F : Type}.

(** [http.Server]: the fields set here, and whether it is shutting down. *)
Record http_Server := MkHTTPServer {
  Handler : HTTPRequest Payload -> prog S E F unit; TLSConfig : Config; ReadHeaderTimeout : Z; inShutdown : bool }.

(** [done]: a channel of capacity one, and whether it is closed. *)
Record Listener := MkListener {
  srv : http_Server; ln_open : bool; port : Z; done_buf : option bytes; done_closed : bool; serving : thread }.

(** [bind] is the kernel's answer to [net.Listen]: the port bound. *)
Definition Listen (bind : bytes -> res oserr Z) (addr : bytes) (id : Identity.Identity)
    (handler : HTTPRequest Payload -> prog S E F unit) : res oserr Listener :=
  match bind addr with
  | Ok p =>
    let srv := MkHTTPServer handler (MkConfig [Identity.TLSCert id] VersionTLS13) (10 * Second) false in
    Ok (MkListener srv true p None false Spawned)
  | Err e => Err e
  | Panic => Panic
  end.

Definition Port (l : Listener) : Z := port l.

Definition set_thread (t : thread) (l : Listener) : Listener :=
  MkListener (srv l) (ln_open l) (port l) (done_buf l) (done_closed l) t.
Definition close_ln (l : Listener) : Listener :=
  MkListener (srv l) false (port l) (done_buf l) (done_closed l) (serving l).
Definition set_done (buf : option bytes) (closed : bool) (l : Listener) : Listener :=
  MkListener (srv l) (ln_open l) (port l) buf closed (serving l).

(** [ServeTLS] returns: it closes the listener on every path. *)
Definition serve_returns (r : serve_end) (l : Listener) : Listener := set_thread (Returned r) (close_ln l).

(** [Accept] fails for good; a server that is shutting down says so instead. *)
Definition accept_fails (e : bytes) (l : Listener) : Listener :=
  serve_returns (if inShutdown (srv l) then ServerClosed else ServeFailed e) l.

(** The goroutine's next step. A send on a full channel blocks, on a closed one
    panics, as does a second close. *)
Definition go_step (l : Listener) : res unit Listener :=
  match serving l with
  | Spawned => Ok (if inShutdown (srv l) then serve_returns ServerClosed l else set_thread Accepting l)
  | Accepting => Ok (if ln_open l then l else accept_fails (str "use of closed network connection") l)
  | Returned (ServeFailed e) =>
    if done_closed l then Panic
    else match done_buf l with
         | Some _ => Ok l
         | None => Ok (set_thread Sent (set_done (Some e) false l))
         end
  | Returned ServerClosed | Sent =>
    if done_closed l then Panic else Ok (set_thread Finished (set_done (done_buf l) true l))
  | Finished => Ok l
  end.

(** A receive on a closed, drained channel yields nil at once; on an open, empty
    one the default branch is taken. *)
Definition Err_ (l : Listener) : option bytes * Listener :=
  match done_buf l with
  | Some e => (Some e, set_done None (done_closed l) l)
  | None => (None, l)
  end.

Fixpoint Errs (n : nat) (l : Listener) : list (option bytes) :=
  match n with O => [] | Datatypes.S n' => let '(e, l) := Err_ l in e :: Errs n' l end.

(** ** A life of the listener *)

(** A connection [net/http] tracks: what was agreed, and whether it is still to
    send its first request. *)
Record conn := MkConn { agreed : Z * Identity.TLSCertificate; fresh : bool }.

(** A call of [Shutdown]: waiting, with the error of closing the listeners, or
    back with its result. *)
Inductive shutdown_call := Waiting (lnerr : option bytes) | Back (r : option bytes).

(** The listener, its connections, the host with the handlers in flight, the
    connection each of them answers to (none once its client has gone), what
    [Err] has answered, and the calls of [Shutdown]. *)
Record door := MkDoor {
  front : Listener; conns : gmap nat conn; work : system S E F; owners : list (option nat);
  errs : list (option bytes); calls : list shutdown_call }.

Definition start (l : Listener) (s : S) : door := MkDoor l ∅ (MkSystem s [] []) [] [] [].
Definition host (d : door) : S := state (work d).

Definition set_front (l : Listener) (d : door) : door :=
  MkDoor l (conns d) (work d) (owners d) (errs d) (calls d).
Definition set_conns (cs : gmap nat conn) (d : door) : door :=
  MkDoor (front d) cs (work d) (owners d) (errs d) (calls d).
Definition set_work (w : system S E F) (os : list (option nat)) (d : door) : door :=
  MkDoor (front d) (conns d) w os (errs d) (calls d).
Definition set_calls (ks : list shutdown_call) (d : door) : door :=
  MkDoor (front d) (conns d) (work d) (owners d) (errs d) ks.

(** Whether the handler [k] has sections left, and whether a connection has such
    a handler. *)
Definition running (d : door) (k : nat) : bool :=
  match pool (work d) !! k with Some (Act _ _) => true | _ => false end.
Definition busy (d : door) (c : nat) : bool :=
  existsb (fun k => bool_decide (owners d !! k = Some (Some c)) && running d k) (seq 0 (length (owners d))).

Inductive event :=
| Go | AcceptFails (e : bytes) | Dial (c : nat) (v : Z) | Hangup (c : nat)
| Begin (c : nat) (rq : HTTPRequest Payload) | Section_ (k : nat) | Abandon (k : nat)
| CallShutdown (lnerr : option bytes) | Poll (i : nat) (stale : nat -> bool) | Deadline (i : nat) (e : bytes)
| CallErr.

Definition accepting (l : Listener) : bool := match serving l with Accepting => ln_open l | _ => false end.

(** The handlers as the calls of a pool; nothing restarts it. *)
Definition serve (hd : HTTPRequest Payload -> prog S E F unit) : system S E F -> move (HTTPRequest Payload) unit -> system S E F :=
  make hd (fun _ _ => None).

Definition dial (c : nat) (v : Z) (d : door) : door :=
  match conns d !! c with
  | Some _ => d
  | None =>
    match (if accepting (front d) then handshake (TLSConfig (srv (front d))) v else None) with
    | Some a => set_conns (<[c := MkConn a true]> (conns d)) d
    | None => d
    end
  end.

(** A client leaves a connection; what it asked for has no connection now. *)
Definition hangup (c : nat) (d : door) : door :=
  set_work (work d) (map (fun o => if bool_decide (o = Some c) then None else o) (owners d))
    (set_conns (delete c (conns d)) d).

(** A request is read from a connection and its handler started. *)
Definition begin_request (c : nat) (rq : HTTPRequest Payload) (d : door) : door :=
  match conns d !! c with
  | Some x =>
    set_conns (<[c := MkConn (agreed x) false]> (conns d))
      (set_work (serve (Handler (srv (front d))) (work d) (Spawn rq)) (owners d ++ [Some c]) d)
  | None => d
  end.

(** [http.Server.Shutdown], up to its wait: the server is shutting down, and the
    listeners [ServeTLS] has registered are closed, which may fail. *)
Definition begin_shutdown (lnerr : option bytes) (d : door) : door :=
  let l := front d in
  let '(l, r) := match serving l with Accepting => (close_ln l, lnerr) | _ => (l, None) end in
  let s := srv l in
  set_calls (calls d ++ [Waiting r])
    (set_front (MkListener (MkHTTPServer (Handler s) (TLSConfig s) (ReadHeaderTimeout s) true)
       (ln_open l) (port l) (done_buf l) (done_closed l) (serving l)) d).

(** One round of its wait, once no [ServeTLS] runs: idle connections are closed,
    those included that have sent nothing for five seconds ([stale]); with none
    left the call returns. *)
Definition shutdown_poll (i : nat) (stale : nat -> bool) (d : door) : door :=
  match calls d !! i, serving (front d) with
  | Some (Waiting lnerr), (Spawned | Returned _ | Sent | Finished) =>
    let rest := filter (fun cx => busy d (fst cx) || (fresh (snd cx) && negb (stale (fst cx))) = true) (conns d) in
    set_calls (if bool_decide (rest = ∅) then <[i := Back lnerr]> (calls d) else calls d) (set_conns rest d)
  | _, _ => d
  end.

(** Its context ends first: it returns the context's error. *)
Definition shutdown_deadline (i : nat) (e : bytes) (d : door) : door :=
  match calls d !! i, serving (front d) with
  | Some (Waiting _), (Spawned | Returned _ | Sent | Finished) => set_calls (<[i := Back (Some e)]> (calls d)) d
  | _, _ => d
  end.

Definition step (d : door) (e : event) : res unit door :=
  match e with
  | Go => match go_step (front d) with Ok l => Ok (set_front l d) | _ => Panic end
  | AcceptFails e => Ok (if accepting (front d) then set_front (accept_fails e (front d)) d else d)
  | Dial c v => Ok (dial c v d)
  | Hangup c => Ok (hangup c d)
  | Begin c rq => Ok (begin_request c rq d)
  | Section_ k => Ok (set_work (serve (Handler (srv (front d))) (work d) (Run k)) (owners d) d)
  | Abandon k => Ok (set_work (work d) (<[k := None]> (owners d)) d)
  | CallShutdown lnerr => Ok (begin_shutdown lnerr d)
  | Poll i stale => Ok (shutdown_poll i stale d)
  | Deadline i e => Ok (shutdown_deadline i e d)
  | CallErr =>
    let '(e, l) := Err_ (front d) in
    Ok (MkDoor l (conns d) (work d) (owners d) (errs d ++ [e]) (calls d))
  end.

Fixpoint run (es : list event) (d : door) : res unit door :=
  match es with
  | [] => Ok d
  | e :: es => match step d e with Ok d => run es d | Err u => Err u | Panic => Panic end
  end.
End listener.
Arguments Listener : clear implicits.
Arguments door : clear implicits.
Arguments event : clear implicits.

(** ** Package [net]: IP addresses *)

Definition IP := bytes.
Inductive Addr := IPNet (ip : IP) | OtherAddr.

Definition v4InV6Prefix : bytes := repeat x00 10 ++ [xff; xff].
Definition To4 (ip : IP) : option IP :=
  if (length ip =? 4)%nat then Some ip
  else if (length ip =? 16)%nat && bool_decide (take 12 ip = v4InV6Prefix) then Some (drop 12 ip)
  else None.
Definition octet (ip : IP) (i : nat) : Z := Zb (default x00 (ip !! i)).

Definition IsLoopback (ip : IP) : bool :=
  match To4 ip with
  | Some v4 => octet v4 0 =? 127
  | None => bool_decide (ip = repeat x00 15 ++ [x01])
  end.
Definition IsLinkLocalUnicast (ip : IP) : bool :=
  match To4 ip with
  | Some v4 => (octet v4 0 =? 169) && (octet v4 1 =? 254)
  | None => (length ip =? 16)%nat && (octet ip 0 =? 0xfe) && (Z.land (octet ip 1) 0xc0 =? 0x80)
  end.
(** [String] of a four-octet address. *)
Definition dotted (v4 : IP) : bytes := Join (map (fun b => dec (Zb b)) v4) (str ".").

(** ** [Addrs] *)

(** One round of the loop. *)
Definition hint (a : Addr) : option bytes :=
  match a with
  | OtherAddr => None
  | IPNet ip =>
    if IsLoopback ip || IsLinkLocalUnicast ip then None
    else dotted <$> To4 ip
  end.
(** [None] is a failing [net.InterfaceAddrs]. *)
Definition Addrs (ifaces : option (list Addr)) : list bytes :=
  match ifaces with None => [] | Some l => omap hint l end.

(** ** Lemmas *)

Lemma Errs_quiet {Payload S E F} n (l : Listener Payload S E F) :
  done_buf l = None -> Errs n l = repeat None n.
Proof. induction n as [|n IH] in l |- *; intros Hb; [done|]. cbn. unfold Err_. rewrite Hb. by rewrite IH. Qed.

Lemma length_To4 ip v4 : To4 ip = Some v4 -> length v4 = 4%nat.
Proof.
  unfold To4. destruct (Nat.eqb_spec (length ip) 4) as [Hl|]; [congruence|].
  destruct (Nat.eqb_spec (length ip) 16) as [Hl|]; cbn [andb]; [|done].
  case_bool_decide; [|done]. intros [= <-]. rewrite length_drop. lia.
Qed.

Lemma dec_digits b : forallb is_digit (dec (Zb b)) = true.
Proof. apply dec_spec, Zb_range. Qed.

(** Every character of a hint is a digit or a dot. *)
Lemma Join_chars (P : byte -> bool) (sep : byte) xs :
  P sep = true -> Forall (fun x => forallb P x = true) xs -> forallb P (Join xs [sep]) = true.
Proof.
  intros Hs. induction 1 as [|x xs Hx Hxs IH]; [done|]. destruct xs as [|y xs]; [done|].
  change (forallb P (x ++ [sep] ++ Join (y :: xs) [sep]) = true).
  rewrite !forallb_app, Hx. cbn [forallb andb]. by rewrite Hs, IH.
Qed.

Lemma dotted_chars v4 : forallb (fun b => is_digit b || bool_decide (b = x2e)) (dotted v4) = true.
Proof.
  unfold dotted. apply (Join_chars _ x2e); [done|]. apply Forall_forall. intros x Hx.
  apply in_map_iff in Hx as (b & <- & _). pose proof (dec_digits b) as Hd.
  apply forallb_forall. intros c Hc. rewrite forallb_forall in Hd. by rewrite (Hd c Hc).
Qed.

Lemma dec_no_dot b : x2e ∉ dec (Zb b).
Proof.
  intros Hin%list_elem_of_In. apply (proj1 (forallb_forall _ _) (dec_digits b)) in Hin. by vm_compute in Hin.
Qed.

(** A dotted address determines its octets. *)
Lemma dotted_inj v w : v <> [] -> w <> [] -> dotted v = dotted w -> v = w.
Proof.
  intros Hv Hw E%(f_equal (fun s => Split s x2e)). unfold dotted in E.
  assert (forall u : IP, u <> [] -> Split (Join (map (fun b => dec (Zb b)) u) (str ".")) x2e = map (fun b => dec (Zb b)) u) as Hs.
  { intros u Hu. apply (Split_Join _ x2e); [by destruct u|]. apply Forall_forall. intros x Hx.
    apply in_map_iff in Hx as (b & <- & _). apply dec_no_dot. }
  rewrite !Hs in E by done. clear Hs Hv Hw. revert w E. induction v as [|b v IH]; intros [|c w] E; [done..|].
  cbn [map] in E. apply cons_inj_both in E as [Hd E]. apply dec_inj in Hd; [|apply Zb_range..].
  apply (inj Zb) in Hd. by rewrite Hd, (IH w E).
Qed.

Lemma elem_hint (x : bytes) (l : list Addr) : x ∈ omap hint l <-> exists a, a ∈ l /\ hint a = Some x.
Proof. apply list_elem_of_omap. Qed.

(** ** Properties *)

(** The hints are exactly the reachable IPv4 addresses. A string is offered
    when, and only when, it is the dotted form of an interface's IPv4 address
    that is neither loopback nor link-local; the text determines the four
    octets; and every list of hints survives the QR code's comma-joining. IPv6
    addresses are never offered. *)
Theorem Addrs_spec (l : list Addr) :
  (forall x, x ∈ Addrs (Some l) <->
     exists ip v4, IPNet ip ∈ l /\ To4 ip = Some v4 /\ octet v4 0 <> 127 /\
                   ~ (octet v4 0 = 169 /\ octet v4 1 = 254) /\ x = dotted v4) /\
  (forall v w, length v = 4%nat -> length w = 4%nat -> dotted v = dotted w -> v = w) /\
  Addrs (Some l) <> [[]] /\ Forall (fun a => x2c ∉ a) (Addrs (Some l)).
Proof.
  assert (forall x, x ∈ Addrs (Some l) <->
     exists ip v4, IPNet ip ∈ l /\ To4 ip = Some v4 /\ octet v4 0 <> 127 /\
                   ~ (octet v4 0 = 169 /\ octet v4 1 = 254) /\ x = dotted v4) as Hx.
  { intros x. cbn [Addrs]. rewrite elem_hint. split.
    - intros ([ip|] & Hin & Hh); [|done]. cbn [hint] in Hh. unfold IsLoopback, IsLinkLocalUnicast in Hh.
      destruct (To4 ip) as [v4|] eqn:E4; [|by destruct (_ || _)].
      destruct (Z.eqb_spec (octet v4 0) 127), (Z.eqb_spec (octet v4 0) 169), (Z.eqb_spec (octet v4 1) 254);
        cbn in Hh; simplify_eq; exists ip, v4; split_and!; try done; tauto.
    - intros (ip & v4 & Hin & E4 & Hl & Hll & ->). exists (IPNet ip). split; [done|]. cbn [hint].
      unfold IsLoopback, IsLinkLocalUnicast. rewrite E4.
      destruct (Z.eqb_spec (octet v4 0) 127), (Z.eqb_spec (octet v4 0) 169), (Z.eqb_spec (octet v4 1) 254);
        try done; tauto. }
  split_and!; [exact Hx| | |].
  - intros v w Hv Hw. apply dotted_inj; by intros ->.
  - intros E. assert ([] ∈ Addrs (Some l)) as Hin by (rewrite E; by left).
    apply Hx in Hin as (ip & v4 & _ & E4%length_To4 & _ & _ & Hd).
    destruct v4 as [|b [|c v]]; [done|done|]. apply (f_equal length) in Hd. cbn in Hd.
    rewrite length_app in Hd. cbn in Hd. lia.
  - apply Forall_forall. intros x Hin%list_elem_of_In Hc. apply Hx in Hin as (ip & v4 & _ & _ & _ & _ & ->).
    apply list_elem_of_In in Hc. apply (proj1 (forallb_forall _ _) (dotted_chars v4)) in Hc. by vm_compute in Hc.
Qed.

(** ** The listener's invariant *)

Section door.
Context {Payload S E F : Type} (h : HTTPRequest Payload -> prog S E F unit) (cert : Identity.TLSCertificate) (s0 : S).

(** A failure between [ServeTLS] and [Err]: still to be sent, in the channel, or
    answered. *)
Definition pending (l : Listener Payload S E F) : list bytes := match serving l with Returned (ServeFailed e) => [e] | _ => [] end.
Definition failures (d : door Payload S E F) : list bytes :=
  omap id (errs d) ++ option_list (done_buf (front d)) ++ pending (front d).
(** Before the goroutine has anything to send. *)
Definition early (l : Listener Payload S E F) : bool :=
  match serving l with Spawned | Accepting | Returned ServerClosed => true | _ => false end.

(** The events so far account for the failures. *)
Definition accounted (es : list (event Payload)) (fs : list bytes) : Prop :=
  fs = [] \/ exists e es1 es2, es = es1 ++ AcceptFails e :: es2 /\ (forall x, CallShutdown x ∉ es1) /\ fs = [e].

(** The moves of the pool of handlers that a life asks for, and the pool after
    some of them. *)
Definition move_of (e : event Payload) : option (move (HTTPRequest Payload) unit) :=
  match e with Begin _ rq => Some (Spawn rq) | Section_ k => Some (Run k) | _ => None end.
Definition handlers (ms : list (move (HTTPRequest Payload) unit)) : system S E F :=
  fold_left (serve h) ms (MkSystem s0 [] []).

(** The parts of the front fit together. *)
Record sound (l : Listener Payload S E F) : Prop := MkSound {
  s_handler : Handler (srv l) = h;
  s_config : TLSConfig (srv l) = MkConfig [cert] VersionTLS13;
  s_closed : done_closed l = match serving l with Finished => true | _ => false end;
  s_buf : match serving l with Spawned | Accepting | Returned _ => done_buf l = None | _ => True end;
  s_open : match serving l with
           | Spawned => ln_open l = true
           | Accepting => ln_open l = negb (inShutdown (srv l))
           | Returned _ | Sent | Finished => ln_open l = false
           end }.

(** What a call of [Shutdown] has come to. *)
Definition explained (es : list (event Payload)) (d : door Payload S E F) (i : nat) (k : shutdown_call) : Prop :=
  match k with
  | Waiting x => x = None \/ CallShutdown x ∈ es
  | Back r => (conns d = ∅ /\ (r = None \/ CallShutdown r ∈ es)) \/ exists e, r = Some e /\ Deadline i e ∈ es
  end.

Record well (es : list (event Payload)) (d : door Payload S E F) : Prop := MkWell {
  w_sound : sound (front d);
  w_early : early (front d) = true -> omap id (errs d) = [];
  w_fail : accounted es (failures d);
  w_shut : inShutdown (srv (front d)) = true <-> exists x, CallShutdown x ∈ es;
  w_agreed : forall c x, conns d !! c = Some x -> agreed x = (VersionTLS13, cert);
  w_work : exists ms, (ms `sublist_of` omap move_of es) /\ work d = handlers ms;
  w_owned : length (owners d) = length (pool (work d));
  w_attached : forall k c, owners d !! k = Some (Some c) -> running d k = true -> is_Some (conns d !! c);
  w_called : calls d <> [] -> inShutdown (srv (front d)) = true;
  w_calls : forall i k, calls d !! i = Some k -> explained es d i k }.

Lemma accounted_later es fs e : accounted es fs -> accounted (es ++ [e]) fs.
Proof.
  intros [->|(x & es1 & es2 & -> & Hn & ->)]; [by left|]. right. exists x, es1, (es2 ++ [e]).
  by rewrite <- app_assoc.
Qed.

Lemma shut_more es (e : event Payload) : (forall x, e <> CallShutdown x) ->
  (exists x, CallShutdown x ∈ es ++ [e]) <-> exists x, CallShutdown x ∈ es.
Proof.
  intros He. setoid_rewrite elem_of_app. setoid_rewrite list_elem_of_singleton.
  split; intros [x Hx]; exists x; [|by left]. destruct Hx as [?|Hx]; [done|]. by destruct (He x).
Qed.

Lemma work_more es e w : (exists ms, (ms `sublist_of` omap move_of es) /\ w = handlers ms) ->
  exists ms, (ms `sublist_of` omap move_of (es ++ [e])) /\ w = handlers ms.
Proof. intros (ms & Hm & ->). exists ms. split; [|done]. rewrite omap_app. by apply sublist_inserts_r. Qed.

Lemma work_moved es e m w : move_of e = Some m -> (exists ms, (ms `sublist_of` omap move_of es) /\ w = handlers ms) ->
  exists ms, (ms `sublist_of` omap move_of (es ++ [e])) /\ serve h w m = handlers ms.
Proof.
  intros He (ms & Hm & ->). exists (ms ++ [m]). split.
  - rewrite omap_app. apply sublist_app; [exact Hm|]. cbn [omap list_omap]. by rewrite He.
  - unfold handlers. by rewrite fold_left_app.
Qed.

Lemma explained_more es e d i k : explained es d i k -> explained (es ++ [e]) d i k.
Proof.
  assert (forall x : event Payload, x ∈ es -> x ∈ es ++ [e]) as Hin by (intros x Hx; apply elem_of_app; by left).
  destruct k as [x|r]; cbn; [intros [?|?]; auto|]. intros [[? [?|?]]|(y & ? & ?)]; eauto 6.
Qed.

Lemma busy_spec (d : door Payload S E F) c :
  busy d c = true <-> exists k, owners d !! k = Some (Some c) /\ running d k = true.
Proof.
  unfold busy. rewrite existsb_exists. split.
  - intros (k & _ & [Ho%bool_decide_eq_true Hr]%andb_true_iff). by exists k.
  - intros (k & Ho & Hr). exists k. split; [|by rewrite bool_decide_eq_true_2, Hr].
    apply in_seq. apply lookup_lt_Some in Ho. lia.
Qed.

(** ** The steps keep it *)

(** The goroutine never blocks and never panics. *)
Lemma go_step_sound l : sound l -> exists l', go_step l = Ok l' /\ sound l' /\ srv l' = srv l /\
  (early l' = true -> early l = true) /\
  option_list (done_buf l') ++ pending l' = option_list (done_buf l) ++ pending l.
Proof.
  destruct l as [[hd cf to sh] op p buf cl th]. intros [Hh Hc Hcl Hb Ho].
  unfold go_step, pending, early. cbn in *.
  destruct th as [| |[|e]| |]; subst cl; try subst buf; try subst op.
  1,2: destruct sh.
  all: eexists; (split; [reflexivity|]); split_and!; first [done|by split].
Qed.

Lemma accept_fails_sound e l : sound l -> accepting l = true -> sound (accept_fails e l) /\
  srv (accept_fails e l) = srv l /\ done_buf (accept_fails e l) = None /\ serving (accept_fails e l) = Returned (ServeFailed e) /\
  inShutdown (srv l) = false /\ early l = true.
Proof.
  destruct l as [[hd cf to sh] op p buf cl th]. intros [Hh Hc Hcl Hb Ho] Hacc.
  unfold accepting in Hacc. cbn in *. destruct th; try done. subst. destruct sh; [done|]. cbn. split; [by split|done].
Qed.

Lemma shut_accepting l : sound l -> inShutdown (srv l) = true -> accepting l = false.
Proof. intros [_ _ _ _ Ho] Hs. unfold accepting. destruct (serving l); try done. by rewrite Ho, Hs. Qed.

Lemma drained_sound l : sound l -> sound (set_done None (done_closed l) l).
Proof. intros [Hh Hc Hcl Hb Ho]. split; try done. cbn. by destruct (serving l). Qed.

(** An event that moves only the front and what [Err] has answered. *)
Lemma well_front es e d l' log' :
  well es d -> (forall x, e <> CallShutdown x) -> srv l' = srv (front d) -> sound l' ->
  (early l' = true -> omap id log' = []) ->
  let d' := MkDoor l' (conns d) (work d) (owners d) log' (calls d) in
  accounted (es ++ [e]) (failures d') -> well (es ++ [e]) d'.
Proof.
  intros [_ _ _ Hs Ha Hw Ho Hat Hc Hk] He Hsrv Hl Hearly d' Hf.
  split; try done; cbn [d' front conns work owners calls]; rewrite ?Hsrv; try done.
  - by rewrite shut_more.
  - by apply work_more.
  - intros i k Hi. by apply (explained_more es e d i k), Hk.
Qed.

(** One that leaves the front alone. *)
Lemma well_behind es e d d' :
  well es d -> (forall x, e <> CallShutdown x) -> front d' = front d -> errs d' = errs d ->
  (forall c x, conns d' !! c = Some x -> agreed x = (VersionTLS13, cert)) ->
  (exists ms, (ms `sublist_of` omap move_of (es ++ [e])) /\ work d' = handlers ms) ->
  length (owners d') = length (pool (work d')) ->
  (forall k c, owners d' !! k = Some (Some c) -> running d' k = true -> is_Some (conns d' !! c)) ->
  (calls d' <> [] -> inShutdown (srv (front d)) = true) ->
  (forall i k, calls d' !! i = Some k -> explained (es ++ [e]) d' i k) -> well (es ++ [e]) d'.
Proof.
  intros [Hl He Hf Hs _ _ _ _ _ _] Hne Hfr Her ? ? ? ? ? ?. split; rewrite ?Hfr, ?Her; try done.
  - unfold failures. rewrite Hfr, Her. by apply accounted_later.
  - by rewrite shut_more.
Qed.

(** Connections that are gone stay gone. *)
Lemma explained_fewer es e d d' i k :
  (conns d = ∅ -> conns d' = ∅) -> explained es d i k -> explained (es ++ [e]) d' i k.
Proof.
  intros Hc Hk%(explained_more es e). destruct k as [x|r]; [exact Hk|]. cbn in *. destruct Hk as [[? ?]|?]; auto.
Qed.

Lemma handler_runs (w : system S E F) k :
  exists s p l, serve h w (Run k) = MkSystem s p l /\ length p = length (pool w) /\
    forall j, j <> k -> p !! j = pool w !! j.
Proof.
  cbn. unfold run_thread. destruct (pool w !! k) as [[r|go next]|].
  - by exists (state w), (pool w), (log w); destruct w.
  - destruct (go (state w)) as [l s]. eexists s, _, _. split_and!; [reflexivity|apply length_insert|].
    intros j Hj. by apply list_lookup_insert_ne.
  - by exists (state w), (pool w), (log w); destruct w.
Qed.

(** A handler that has returned does not run again. *)
Lemma running_section (d : door Payload S E F) k j :
  running (set_work (serve h (work d) (Run k)) (owners d) d) j = true -> running d j = true.
Proof.
  unfold running. cbn [set_work work]. destruct (decide (j = k)) as [->|Hne].
  - cbn. unfold run_thread. destruct (pool (work d) !! k) as [[r|go next]|] eqn:Hp; [by rewrite Hp|done|by rewrite Hp].
  - destruct (handler_runs (work d) k) as (s & p & l & -> & _ & Hj). cbn [pool]. by rewrite Hj.
Qed.

Lemma well_skip es d e : well es d -> (forall x, e <> CallShutdown x) -> well (es ++ [e]) d.
Proof.
  intros Hw He. pose proof (well_front es e d (front d) (errs d) Hw He eq_refl (w_sound _ _ Hw) (w_early _ _ Hw)) as Hf.
  destruct d. apply Hf, accounted_later, (w_fail _ _ Hw).
Qed.

Lemma well_dial es d c v : well es d -> well (es ++ [Dial c v]) (dial c v d).
Proof.
  intros Hw. unfold dial. destruct (conns d !! c) eqn:Hc; [by apply well_skip|].
  destruct (accepting (front d)) eqn:Hacc; [|by apply well_skip].
  rewrite (s_config _ (w_sound _ _ Hw)). unfold handshake. cbn [Certificates MinVersion head mbind option_bind].
  destruct (Z.leb_spec VersionTLS13 v); [|by apply well_skip].
  assert (calls d = []) as Hno.
  { destruct (calls d) eqn:Hk; [done|]. pose proof (w_called _ _ Hw) as Hs. rewrite Hk in Hs.
    by rewrite (shut_accepting _ (w_sound _ _ Hw)) in Hacc by by apply Hs. }
  eapply well_behind; [exact Hw|done|done|done|..]; cbn [set_conns conns work owners calls].
  - intros c' x [[_ <-]|[_ Hx]]%lookup_insert_Some; [cbn; by rewrite Z.min_r|by eapply (w_agreed _ _ Hw)].
  - by apply work_more, Hw.
  - apply Hw.
  - intros k c' Ho Hr. apply lookup_insert_is_Some'. right. by apply (w_attached _ _ Hw k).
  - apply Hw.
  - intros i k. by rewrite Hno.
Qed.

Lemma well_hangup es d c : well es d -> well (es ++ [Hangup c]) (hangup c d).
Proof.
  intros Hw. eapply well_behind; [exact Hw|done|done|done|..]; cbn [hangup set_work set_conns conns work owners calls].
  - intros c' x [_ Hx]%lookup_delete_Some. by eapply (w_agreed _ _ Hw).
  - by apply work_more, Hw.
  - rewrite length_map. apply Hw.
  - intros k c' Ho Hr. change (map ?f ?l) with (f <$> l) in Ho. rewrite list_lookup_fmap in Ho.
    destruct (owners d !! k) as [o|] eqn:Hk; cbn in Ho; [|done]. case_bool_decide as Hc; [done|]. injection Ho as ->.
    destruct (w_attached _ _ Hw k c' Hk Hr) as [x Hx]. exists x. apply lookup_delete_Some. split; [congruence|done].
  - apply Hw.
  - intros i k Hi. apply (explained_fewer es _ d); [|by apply (w_calls _ _ Hw)]. cbn. intros ->. apply delete_empty.
Qed.

Lemma well_begin es d c rq : well es d -> well (es ++ [Begin c rq]) (begin_request c rq d).
Proof.
  intros Hw. unfold begin_request. destruct (conns d !! c) as [x|] eqn:Hc; [|by apply well_skip].
  rewrite (s_handler _ (w_sound _ _ Hw)).
  eapply well_behind; [exact Hw|done|done|done|..]; cbn [set_work set_conns conns work owners calls].
  - intros c' x' [[_ <-]|[_ Hx]]%lookup_insert_Some; [cbn|]; by eapply (w_agreed _ _ Hw).
  - by apply work_moved, Hw.
  - cbn. by rewrite !length_app, (w_owned _ _ Hw).
  - intros k c' Ho Hr. apply lookup_insert_is_Some'. apply lookup_app_Some in Ho as [Ho|[Hlen Ho]].
    + right. apply (w_attached _ _ Hw k); [done|]. revert Hr. unfold running. cbn.
      pose proof (lookup_lt_Some _ _ _ Ho) as Hlt. rewrite (w_owned _ _ Hw) in Hlt. by rewrite lookup_app_l.
    + apply list_lookup_singleton_Some in Ho as [_ [= ->]]. by left.
  - apply Hw.
  - intros i k Hi. apply (explained_fewer es _ d); [|by apply (w_calls _ _ Hw)]. intros He. by rewrite He in Hc.
Qed.

Lemma well_section es d k : well es d ->
  well (es ++ [Section_ k]) (set_work (serve h (work d) (Run k)) (owners d) d).
Proof.
  intros Hw. eapply well_behind; [exact Hw|done|done|done|..]; cbn [set_work conns owners calls].
  - apply Hw.
  - apply work_moved; [done|apply Hw].
  - destruct (handler_runs (work d) k) as (s & p & l & Hp & Hl & _). cbn [work set_work]. rewrite Hp. cbn [pool].
    by rewrite Hl, (w_owned _ _ Hw).
  - intros j c Ho Hr%running_section. by apply (w_attached _ _ Hw j).
  - apply Hw.
  - intros i x Hi. by apply (explained_fewer es _ d), (w_calls _ _ Hw).
Qed.

Lemma well_abandon es d k : well es d -> well (es ++ [Abandon k]) (set_work (work d) (<[k := None]> (owners d)) d).
Proof.
  intros Hw. eapply well_behind; [exact Hw|done|done|done|..]; cbn [set_work conns work owners calls].
  - apply Hw.
  - by apply work_more, Hw.
  - rewrite length_insert. apply Hw.
  - intros j c [(_ & [=] & _)|[_ Ho]]%list_lookup_insert_Some Hr. by apply (w_attached _ _ Hw j).
  - apply Hw.
  - intros i x Hi. by apply (explained_fewer es _ d), (w_calls _ _ Hw).
Qed.

Lemma well_call_shutdown es d lnerr : well es d -> well (es ++ [CallShutdown lnerr]) (begin_shutdown lnerr d).
Proof.
  intros [[Hh Hc Hcl Hb Ho] He Hf Hs Ha Hw Hlen Hat Hca Hk]. destruct d as [[sv op p buf cl th] cs w os log ks].
  cbn [front srv done_closed serving done_buf ln_open] in *.
  assert (CallShutdown lnerr ∈ es ++ [CallShutdown lnerr]) as Hin by (apply elem_of_app; right; by left).
  unfold begin_shutdown. cbn [front serving]. set (lr := match th with Accepting => _ | _ => _ end).
  assert (lr = (MkListener sv (match th with Accepting => false | _ => op end) p buf cl th,
                match th with Accepting => lnerr | _ => None end)) as -> by by destruct th.
  split; cbn [set_calls set_front front conns work owners errs calls srv ln_open port done_buf done_closed serving] in *; try done.
  - split; cbn; try done. by destruct th.
  - revert Hf. unfold failures, pending. cbn. apply accounted_later.
  - split; [|done]. intros _. by exists lnerr.
  - by apply work_more.
  - intros i k [Hi|[_ Hi]]%lookup_app_Some; [exact (explained_more es _ _ i k (Hk i k Hi))|].
    apply list_lookup_singleton_Some in Hi as [_ <-]. cbn. destruct th; auto.
Qed.

Lemma well_poll es d i stale : well es d -> well (es ++ [Poll i stale]) (shutdown_poll i stale d).
Proof.
  intros Hw. unfold shutdown_poll. destruct (calls d !! i) as [[x|r]|] eqn:Hi; [|by apply well_skip..].
  set (rest := filter _ (conns d)).
  assert (rest ⊆ conns d) as Hsub by apply map_filter_subseteq.
  assert (conns d = ∅ -> rest = ∅) as Hempty by (intros Hc; unfold rest; rewrite Hc; apply map_filter_empty).
  assert (well (es ++ [Poll i stale]) (set_calls (if bool_decide (rest = ∅) then <[i := Back x]> (calls d) else calls d)
    (set_conns rest d))) as Hgo.
  { eapply well_behind; [exact Hw|done|done|done|..]; cbn [set_calls set_conns conns work owners calls].
    - intros c y Hc. eapply (w_agreed _ _ Hw). by eapply lookup_weaken.
    - by apply work_more, Hw.
    - apply Hw.
    - intros k c Ho Hr. destruct (w_attached _ _ Hw k c Ho Hr) as [y Hy]. exists y.
      apply map_lookup_filter_Some_2; [done|]. cbn [fst snd].
      by rewrite (proj2 (busy_spec d c)) by by exists k.
    - intros _. apply (w_called _ _ Hw). by intros Hn; rewrite Hn in Hi.
    - assert (forall j k, calls d !! j = Some k -> explained (es ++ [Poll i stale])
        (set_calls (if bool_decide (rest = ∅) then <[i := Back x]> (calls d) else calls d) (set_conns rest d)) j k) as Hold.
      { intros j k Hj. apply (explained_fewer es _ d); [exact Hempty|by apply (w_calls _ _ Hw)]. }
      intros j k. case_bool_decide as Hr; [|apply Hold].
      intros [(<- & <- & _)|[_ Hj]]%list_lookup_insert_Some; [|by apply Hold].
      left. split; [exact Hr|]. pose proof (w_calls _ _ Hw _ _ Hi) as Hx. exact (explained_more es _ d i (Waiting x) Hx). }
  destruct (serving (front d)); [exact Hgo|by apply well_skip|exact Hgo..].
Qed.

Lemma well_deadline es d i e : well es d -> well (es ++ [Deadline i e]) (shutdown_deadline i e d).
Proof.
  intros Hw. unfold shutdown_deadline. destruct (calls d !! i) as [[x|r]|] eqn:Hi; [|by apply well_skip..].
  assert (well (es ++ [Deadline i e]) (set_calls (<[i := Back (Some e)]> (calls d)) d)) as Hgo.
  { eapply well_behind; [exact Hw|done|done|done|..]; cbn [set_calls conns work owners calls]; try apply Hw.
    - by apply work_more, Hw.
    - intros _. apply (w_called _ _ Hw). by intros Hn; rewrite Hn in Hi.
    - intros j k [(-> & <- & _)|[_ Hj]]%list_lookup_insert_Some.
      + right. exists e. split; [done|]. apply elem_of_app. right. by left.
      + by apply (explained_fewer es _ d), (w_calls _ _ Hw). }
  destruct (serving (front d)); [exact Hgo|by apply well_skip|exact Hgo..].
Qed.

Lemma well_err es d : well es d ->
  let '(e, l) := Err_ (front d) in
  well (es ++ [CallErr]) (MkDoor l (conns d) (work d) (owners d) (errs d ++ [e]) (calls d)).
Proof.
  intros Hw. pose proof (accounted_later es _ CallErr (w_fail _ _ Hw)) as Hf. pose proof (w_sound _ _ Hw) as Hl.
  unfold Err_. destruct (done_buf (front d)) as [x|] eqn:Hb.
  - apply (well_front es CallErr d _ _ Hw); [done|done|by apply drained_sound| |].
    + intros He. exfalso. revert He. pose proof (s_buf _ Hl) as Hbuf. rewrite Hb in Hbuf.
      unfold early, set_done. cbn [serving]. by destruct (serving (front d)) as [| |[]| |].
    + revert Hf. unfold failures, pending. cbn [front errs set_done serving done_buf]. rewrite Hb, omap_app.
      cbn [option_list omap list_omap id app]. by rewrite <- app_assoc.
  - apply (well_front es CallErr d _ _ Hw); [done|done|done| |].
    + intros He. by rewrite omap_app, (w_early _ _ Hw He).
    + revert Hf. unfold failures. cbn [front errs]. rewrite omap_app. cbn [omap list_omap id]. by rewrite app_nil_r.
Qed.

Lemma well_step es d e : well es d -> exists d', step d e = Ok d' /\ well (es ++ [e]) d'.
Proof.
  intros Hw. pose proof (accounted_later es _ e (w_fail _ _ Hw)) as Hf. pose proof (w_sound _ _ Hw) as Hl.
  destruct e as [|e|c v|c|c rq|k|k|x|i stale|i e|]; cbn [step].
  - destruct (go_step_sound _ Hl) as (l' & -> & Hl' & Hsrv & He & Hbuf). eexists. split; [reflexivity|].
    apply (well_front es Go d _ _ Hw); [done|done|done|by intros ?%He%(w_early _ _ Hw)|].
    revert Hf. unfold failures. cbn [front errs]. by rewrite Hbuf.
  - eexists. split; [reflexivity|]. destruct (accepting (front d)) eqn:Hacc; [|by apply well_skip].
    destruct (accept_fails_sound e _ Hl Hacc) as (Hl' & Hsrv & Hbuf & Hth & Hsh & He).
    apply (well_front es (AcceptFails e) d _ _ Hw); [done|done|done|by intros _; apply (w_early _ _ Hw)|].
    right. exists e, es, []. split_and!; [done| |].
    + intros x Hx. assert (inShutdown (srv (front d)) = true) as Ht by (apply (w_shut _ _ Hw); by exists x). congruence.
    + unfold failures, pending. cbn [front errs]. by rewrite Hbuf, Hth, (w_early _ _ Hw He).
  - eexists. split; [reflexivity|]. by apply well_dial.
  - eexists. split; [reflexivity|]. by apply well_hangup.
  - eexists. split; [reflexivity|]. by apply well_begin.
  - eexists. split; [reflexivity|]. rewrite (s_handler _ Hl). by apply well_section.
  - eexists. split; [reflexivity|]. by apply well_abandon.
  - eexists. split; [reflexivity|]. by apply well_call_shutdown.
  - eexists. split; [reflexivity|]. by apply well_poll.
  - eexists. split; [reflexivity|]. by apply well_deadline.
  - pose proof (well_err es d Hw) as He. destruct (Err_ (front d)) as [r l]. by eexists.
Qed.

Lemma well_run es0 es d : well es0 d -> exists d', run es d = Ok d' /\ well (es0 ++ es) d'.
Proof.
  induction es as [|e es IH] in es0, d |- *; intros Hw; [exists d; by rewrite app_nil_r|].
  destruct (well_step _ _ e Hw) as (d1 & Hd1 & Hw1). destruct (IH _ _ Hw1) as (d' & Hd' & Hw').
  exists d'. cbn [run]. rewrite Hd1. split; [done|]. by rewrite <- app_assoc in Hw'.
Qed.

(** ** After a shutdown *)

Definition of_shutdown (e : event Payload) : bool :=
  match e with CallShutdown _ | Poll _ _ | Deadline _ _ => true | _ => false end.

(** No connection is accepted. *)
Lemma fewer_step es d e d' : well es d -> inShutdown (srv (front d)) = true -> step d e = Ok d' ->
  dom (conns d') ⊆ dom (conns d).
Proof.
  intros Hw Hs. destruct e as [|e|c v|c|c rq|k|k|x|i stale|i e|]; cbn [step].
  - destruct (go_step _) as [l|u|]; [intros [= <-]|..]; done.
  - intros [= <-]. by destruct (accepting _).
  - intros [= <-]. unfold dial. rewrite (shut_accepting _ (w_sound _ _ Hw) Hs). by destruct (conns d !! c).
  - intros [= <-]. cbn. rewrite dom_delete_L. set_solver.
  - intros [= <-]. unfold begin_request. destruct (conns d !! c) as [y|] eqn:Hc; [|done]. cbn.
    rewrite dom_insert_L. apply elem_of_dom_2 in Hc. set_solver.
  - by intros [= <-].
  - by intros [= <-].
  - intros [= <-]. unfold begin_shutdown. by destruct (serving _).
  - intros [= <-]. unfold shutdown_poll. destruct (calls d !! i) as [[y|r]|]; [|done..].
    destruct (serving _); [|done|..]; cbn; apply dom_filter_subseteq.
  - intros [= <-]. unfold shutdown_deadline. destruct (calls d !! i) as [[y|r]|]; [|done..]. by destruct (serving _).
  - destruct (Err_ _). by intros [= <-].
Qed.

Lemma fewer_run es0 es d d' : well es0 d -> inShutdown (srv (front d)) = true -> run es d = Ok d' ->
  dom (conns d') ⊆ dom (conns d).
Proof.
  induction es as [|e es IH] in es0, d |- *; intros Hw Hs; cbn [run]; [by intros [= <-]|].
  destruct (well_step _ _ e Hw) as (d1 & Hd1 & Hw1). rewrite Hd1. intros Hd'.
  etrans; [|by eapply fewer_step]. eapply IH; [exact Hw1| |exact Hd']. apply (w_shut _ _ Hw1).
  apply (w_shut _ _ Hw) in Hs as [x Hx]. exists x. apply elem_of_app. by left.
Qed.

(** A call of [Shutdown] runs no handler and closes no busy connection. *)
Lemma uncut_step (d : door Payload S E F) e d' : of_shutdown e = true -> step d e = Ok d' ->
  work d' = work d /\ owners d' = owners d /\ forall c, busy d c = true -> conns d' !! c = conns d !! c.
Proof.
  destruct e as [|e|c v|c|c rq|k|k|x|i stale|i e|]; intros He; try discriminate He; intros [= <-].
  - unfold begin_shutdown. by destruct (serving _).
  - unfold shutdown_poll. destruct (calls d !! i) as [[y|r]|]; [|done..].
    assert (forall c, busy d c = true -> filter (fun cx => busy d (fst cx) || (fresh (snd cx) && negb (stale (fst cx))) = true) (conns d)
      !! c = conns d !! c) as Hf.
    { intros c Hc. destruct (conns d !! c) as [y'|] eqn:Hy.
      - apply map_lookup_filter_Some_2; [done|]. cbn [fst snd]. by rewrite Hc.
      - apply map_lookup_filter_None. by left. }
    by destruct (serving _).
  - unfold shutdown_deadline. destruct (calls d !! i) as [[y|r]|]; [|done..]. by destruct (serving _).
Qed.

(** With no connection and no handler at work, nothing moves the host. *)
Lemma still_step es d e d' : well es d -> inShutdown (srv (front d)) = true -> conns d = ∅ ->
  (forall k, running d k = false) -> step d e = Ok d' -> work d' = work d.
Proof.
  intros Hw Hs Hc Hr. destruct e as [|e|c v|c|c rq|k|k|x|i stale|i e|]; cbn [step].
  - destruct (go_step _) as [l|u|]; [intros [= <-]|..]; done.
  - intros [= <-]. by destruct (accepting _).
  - intros [= <-]. unfold dial. rewrite (shut_accepting _ (w_sound _ _ Hw) Hs). by destruct (conns d !! c).
  - by intros [= <-].
  - intros [= <-]. unfold begin_request. by rewrite Hc, lookup_empty.
  - intros [= <-]. cbn. specialize (Hr k). unfold running in Hr. unfold run_thread.
    destruct (pool (work d) !! k) as [[]|]; by destruct (work d).
  - by intros [= <-].
  - intros [= <-]. by apply (uncut_step d (CallShutdown x)).
  - intros [= <-]. by apply (uncut_step d (Poll i stale)).
  - intros [= <-]. by apply (uncut_step d (Deadline i e)).
  - destruct (Err_ _). by intros [= <-].
Qed.

Lemma still_run es0 es d d' : well es0 d -> inShutdown (srv (front d)) = true -> conns d = ∅ ->
  (forall k, running d k = false) -> run es d = Ok d' -> work d' = work d.
Proof.
  induction es as [|e es IH] in es0, d |- *; intros Hw Hs Hc Hr; cbn [run]; [by intros [= <-]|].
  destruct (well_step _ _ e Hw) as (d1 & Hd1 & Hw1). rewrite Hd1. intros Hd'.
  pose proof (still_step _ _ _ _ Hw Hs Hc Hr Hd1) as Hwk. rewrite <- Hwk.
  eapply IH; [exact Hw1| | | |exact Hd'].
  - apply (w_shut _ _ Hw1). apply (w_shut _ _ Hw) in Hs as [x Hx]. exists x. apply elem_of_app. by left.
  - apply dom_empty_inv_L. pose proof (fewer_step _ _ _ _ Hw Hs Hd1) as Hd. rewrite Hc in Hd. set_solver.
  - intros k. unfold running. rewrite Hwk. apply Hr.
Qed.

(** Two steps of the goroutine end it. *)
Lemma go_twice es d : well es d -> inShutdown (srv (front d)) = true ->
  exists l', (forall es', run (Go :: Go :: es') d = run es' (set_front l' d)) /\ serving l' = Finished /\
    ln_open l' = false /\ done_closed l' = true.
Proof.
  intros Hw Hsh. destruct (w_sound _ _ Hw) as [_ _ Hcl Hb Ho].
  destruct d as [[[hd cf to sh] op p buf cl th] cs w os log ks]. cbn in *. subst sh.
  destruct th as [| |[|e]| |]; cbn in *; subst cl; try subst buf; try subst op; eexists; by split.
Qed.

(** What holds once [Shutdown] has been called. *)
Record shut_down (es : list (event Payload)) (d : door Payload S E F) : Prop := MkShutDown {
  (** No connection is accepted any more. *)
  sd_fewer : forall more d', run more d = Ok d' -> dom (conns d') ⊆ dom (conns d);
  (** The goroutine ends, with the port released and the channel closed. *)
  sd_ends : exists d', run [Go; Go] d = Ok d' /\ serving (front d') = Finished /\ ln_open (front d') = false /\
    done_closed (front d') = true;
  (** A call waits for the requests in flight: it neither cuts nor runs one. *)
  sd_uncut : forall e d', of_shutdown e = true -> step d e = Ok d' ->
    work d' = work d /\ forall c, busy d c = true -> conns d' !! c = conns d !! c;
  (** It is back with no connection left, and the error of closing the
      listeners if there was one, or with the error of its context. *)
  sd_result : forall i r, calls d !! i = Some (Back r) ->
    (conns d = ∅ /\ (r = None \/ CallShutdown r ∈ es)) \/ exists e, r = Some e /\ Deadline i e ∈ es;
  (** With no connection left, whatever still runs was given up by its client;
      when that has ended too, nothing touches the host again. *)
  sd_drained : conns d = ∅ ->
    (forall k c, owners d !! k = Some (Some c) -> running d k = false) /\
    ((forall k, running d k = false) -> forall more d', run more d = Ok d' -> work d' = work d);
  (** A call returns once no connection has a request in flight, or at its
      context's end, with the requests in flight going on. *)
  sd_returns : forall i x, calls d !! i = Some (Waiting x) ->
    ((forall c, busy d c = false) ->
     exists d', run [Go; Go; Poll i (fun _ => true)] d = Ok d' /\ calls d' !! i = Some (Back x) /\ conns d' = ∅ /\ work d' = work d) /\
    (forall e, exists d', run [Go; Go; Deadline i e] d = Ok d' /\ calls d' !! i = Some (Back (Some e)) /\
       conns d' = conns d /\ work d' = work d) }.

Lemma well_shut_down es d : well es d -> (exists x, CallShutdown x ∈ es) -> shut_down es d.
Proof.
  intros Hw Hsd. pose proof (proj2 (w_shut _ _ Hw) Hsd) as Hs.
  destruct (go_twice es d Hw Hs) as (l' & Hgo & Hfin & Hop & Hcl). split.
  - intros more d'. by eapply fewer_run.
  - exists (set_front l' d). by rewrite Hgo.
  - intros e d' He Hd'. destruct (uncut_step _ _ _ He Hd') as (? & _ & ?). done.
  - intros i r Hi. exact (w_calls _ _ Hw i (Back r) Hi).
  - intros Hc. split; [|by intros Hr more d'; eapply still_run]. intros k c Ho. apply not_true_is_false. intros Hr.
    destruct (w_attached _ _ Hw k c Ho Hr) as [y Hy]. by rewrite Hc in Hy.
  - intros i x Hi. pose proof (lookup_lt_Some _ _ _ Hi) as Hlt. split.
    + intros Hb. rewrite Hgo. cbn [run step]. unfold shutdown_poll. cbn [set_front calls front conns]. rewrite Hi, Hfin.
      eexists. split; [reflexivity|]. cbn [set_calls set_conns calls conns work].
      assert (filter (fun cx => busy (set_front l' d) (fst cx) || (fresh (snd cx) && negb true) = true) (conns d) = ∅) as Hf.
      { apply map_empty. intros c. apply map_lookup_filter_None. right. intros y _. cbn [fst snd].
        change (busy (set_front l' d) c) with (busy d c). rewrite Hb. by destruct (fresh y). }
      split_and!; [|exact Hf|done]. rewrite bool_decide_eq_true_2 by exact Hf. by apply list_lookup_insert_eq.
    + intros e. rewrite Hgo. cbn [run step]. unfold shutdown_deadline. cbn [set_front calls front]. rewrite Hi, Hfin.
      eexists. split; [reflexivity|]. split; [by apply list_lookup_insert_eq|done].
Qed.
End door.

(** ** Properties *)

(** C39: the front door. Once [Listen] has bound a port, under every interleaving
    of the serving goroutine, the handlers in flight, dials, hang-ups, accept
    failures, [Err] and calls of [Shutdown], nothing panics or blocks for ever:
    every connection speaks TLS 1.3 and was shown the identity's certificate;
    the host behind it is moved only by sections of handlers started for
    requests read from a connection; [Err] answers at most one failure, one that
    happened before any shutdown. Once [Shutdown] has been called, no connection
    is accepted, the goroutine ends within two steps with the port released and
    the channel closed, and requests in flight go on: a call returns nil only
    when no connection is left, and then nothing touches the host but handlers
    whose client had gone; it can return as soon as no connection is busy; and
    when its context ends first it returns that error, the requests in flight
    going on. *)
Theorem front_door {Payload S E F : Type} (bind : bytes -> res oserr Z) addr id
    (h : HTTPRequest Payload -> prog S E F unit) l s0 es :
  Listen bind addr id h = Ok l ->
  bind addr = Ok (Port l) /\
  exists d, run es (start l s0) = Ok d /\
    (forall c x, conns d !! c = Some x -> agreed x = (VersionTLS13, Identity.TLSCert id)) /\
    (exists ms, (ms `sublist_of` omap move_of es) /\ work d = handlers h s0 ms) /\
    accounted es (omap Datatypes.id (errs d)) /\
    ((exists x, CallShutdown x ∈ es) -> shut_down es d).
Proof.
  unfold Listen. intros Hl. destruct (bind addr) as [p|e|]; [|done..]. injection Hl as <-. split; [done|].
  assert (well h (Identity.TLSCert id) s0 [] (start (MkListener (MkHTTPServer h (MkConfig [Identity.TLSCert id] VersionTLS13)
    (10 * Second) false) true p None false Spawned) s0)) as Hw.
  { split; cbn; [by split|done|by left| |by intros c a; rewrite lookup_empty|exists []; split; [constructor|done]|done|
      by intros k c|done|by intros i k]. split; [done|by intros [x ?%elem_of_nil]]. }
  destruct (well_run h _ s0 [] es _ Hw) as (d & Hd & Hw'). cbn [app] in *. clear Hw.
  exists d. split_and!; [exact Hd|apply Hw'|apply Hw'| |by apply (well_shut_down h (Identity.TLSCert id) s0)].
  destruct (w_fail _ _ _ _ _ Hw') as [Hf|(e & es1 & es2 & Hes & Hn & Hf)]; unfold failures in Hf.
  - left. by apply app_eq_nil in Hf as [? _].
  - destruct (omap Datatypes.id (errs d)) as [|x xs]; [by left|]. right. exists e, es1, es2.
    split_and!; [done..|]. injection Hf as -> Hf. by apply app_eq_nil in Hf as [-> _].
Qed.

(** A serve failure is reported once. Before the server returns, and after
    an orderly shutdown, [Err] is nil. After a failure the first call reports
    it and every later call is nil again, as while healthy. *)
Theorem Err_reports_once {Payload S E F : Type} (bind : bytes -> res oserr Z) addr id
    (h : HTTPRequest Payload -> prog S E F unit) l e n :
  Listen bind addr id h = Ok l ->
  Errs n l = repeat None n /\ Errs n (serve_returns ServerClosed l) = repeat None n /\
  exists l', go_step (serve_returns (ServeFailed e) l) = Ok l' /\ Errs (Datatypes.S n) l' = Some e :: repeat None n.
Proof.
  unfold Listen. destruct (bind addr) as [p|e'|]; [|done..]. intros [= <-]. split_and!; [by apply Errs_quiet..|].
  eexists. split; [reflexivity|]. cbn. f_equal. by apply Errs_quiet.
Qed.

(** ** Witness: a paired host behind its door *)

#[local] Existing Instances Registry.toy_registry_lib Server.toy_host.
#[local] Existing Instances counted_LinkMessages counted_LinkMessages_laws.
#[local] Existing Instances loop_connect loop_wire loop_laws Handler.toy_texts Handler.toy_turns.

(** A handler whose work on the host is one section. *)
Definition one_section {Payload Output S : Type} (h : HTTPHandler Payload Output S)
    : HTTPRequest Payload -> prog S unit unit unit :=
  fun rq => silent (fun s => (Ok tt, snd (h rq s))).
Definition house : HTTPRequest (Header * bytes) -> prog Server.server unit unit unit := one_section Handler.host_handler.

(** The requests of [Trust.a_life] over one connection, each handled before the
    next is sent, but the last. *)
Definition requests_of (es : list Trust.event) : list (HTTPRequest (Header * bytes)) :=
  omap (fun e => match e with Trust.HTTP rq => Some rq | _ => None end) es.
Definition in_turn (rqs : list (HTTPRequest (Header * bytes))) : list (event (Header * bytes)) :=
  concat (imap (fun k rq => [Begin 3 rq; Section_ k]) rqs).

(** Shutdown is called while the last request, an answer, is in flight; its
    context ends; the answer goes on; a second call then finds no connection
    busy. *)
Definition a_session : list (event (Header * bytes)) :=
  [Dial 1 0x0303; Go; Dial 2 0x0303; Dial 3 0x0304] ++
  removelast (in_turn (requests_of Trust.a_life)) ++
  [CallErr; CallShutdown None; Go; Go; Poll 0 (fun _ => true); Deadline 0 (str "context deadline exceeded")].
Definition and_after : list (event (Header * bytes)) :=
  [Section_ 3; CallShutdown None; Poll 1 (fun _ => true)].

Definition bind_any (addr : bytes) : res oserr Z := if bool_decide (addr = str ":0") then Ok 49152 else Err EIO.

Definition seen (r : res unit (door (Header * bytes) Server.server unit unit)) : nat * nat * list shutdown_call :=
  match r with Ok d => (length (Server.effects (host d)), size (conns d), calls d) | _ => (0%nat, 0%nat, []) end.

Lemma front_door_witness :
  exists l d d', Listen bind_any (str ":0") (Server.id Trust.fresh_host) house = Ok l /\
    let s := Trust.open_window Trust.fresh_host in
    run a_session (start l s) = Ok d /\ run (a_session ++ and_after) (start l s) = Ok d' /\
    Server.effects (host d) = [] /\ calls d = [Back (Some (str "context deadline exceeded"))] /\
    length (Server.effects (host d')) = 1%nat /\ calls d' = [Back (Some (str "context deadline exceeded")); Back None] /\
    forall more d2, run more d' = Ok d2 -> dom (conns d2) ⊆ dom (conns d').
Proof.
  destruct (Listen bind_any (str ":0") (Server.id Trust.fresh_host) house) as [l|e|] eqn:Hl; [|discriminate Hl..].
  set (s := Trust.open_window Trust.fresh_host).
  destruct (front_door bind_any (str ":0") (Server.id Trust.fresh_host) house l s a_session Hl) as (_ & d & Hd & _).
  destruct (front_door bind_any (str ":0") (Server.id Trust.fresh_host) house l s (a_session ++ and_after) Hl)
    as (_ & d' & Hd' & _ & _ & _ & Hs).
  exists l, d, d'. split; [done|]. cbv zeta. fold s. split; [exact Hd|]. split; [exact Hd'|]. injection Hl as <-.
  pose proof (f_equal seen Hd) as Ed. pose proof (f_equal seen Hd') as Ed'.
  match type of Ed with ?x = _ => assert (x = (0%nat, 1%nat, [Back (Some (str "context deadline exceeded"))])) as E by (vm_compute; reflexivity); rewrite E in Ed; clear E end.
  match type of Ed' with ?x = _ => assert (x = (1%nat, 0%nat, [Back (Some (str "context deadline exceeded")); Back None])) as E by (vm_compute; reflexivity); rewrite E in Ed'; clear E end.
  cbn [seen] in Ed, Ed'. injection Ed as He _ Hc. injection Ed' as He' _ Hc'.
  split_and!; [by apply nil_length_inv|done..|].
  apply Hs. exists None. apply elem_of_app. left. apply elem_of_app. right. apply elem_of_app. right. by right; left.
Defined.

Example Addrs_example :
  Addrs (Some [IPNet (map bZ [127; 0; 0; 1]); IPNet (v4InV6Prefix ++ map bZ [192; 168; 1; 20]); OtherAddr;
               IPNet (map bZ [169; 254; 3; 4]); IPNet (map bZ [0xfe; 0x80] ++ repeat x00 13 ++ [x01])]) =
  [str "192.168.1.20"].
Proof. by vm_compute. Qed.

