(* ===== verification/Bonjour.v ===== *)
(** * The mDNS advertisement (bonjour/bonjour.go, bonjour_darwin.go,
    bonjour_other.go)

    The TXT hints, their wire form, the port in network byte order; and for each
    of the two builds [Advertise], [Stop] and the goroutine between them. The
    system daemon and the third-party responder are parameters. *)

From stdpp Require Import gmap.
From S2P Require Import Prelude GoStrings.

Definition ServiceType : bytes := str "_rook-link._tcp.".

Record Info := MkInfo {
  Name : bytes; Port : Z; HostID : bytes; TrustDomainID : bytes; ProtocolVersion : bytes }.

Definition txt (i : Info) : gmap bytes bytes :=
  <[str "v" := str "1"]> (<[str "hid" := HostID i]> (<[str "td" := TrustDomainID i]>
    (<[str "pv" := ProtocolVersion i]> ∅))).

Definition keys : list bytes := [str "v"; str "hid"; str "td"; str "pv"].

(** [kv[k]] is the empty string when absent. *)
Definition entry (kv : gmap bytes bytes) (k : bytes) : bytes := k ++ str "=" ++ default [] (kv !! k).

(** The loop of [txtRecord]; the error names the key. *)
Fixpoint txt_loop (kv : gmap bytes bytes) (ks : list bytes) (out : bytes) : res bytes bytes :=
  match ks with
  | [] => Ok out
  | k :: rest =>
    let e := entry kv k in
    if (255 <? length e)%nat then Err k
    else txt_loop kv rest ((out ++ [bZ (Z.of_nat (length e))]) ++ e)
  end.
Definition txtRecord (kv : gmap bytes bytes) : res bytes bytes := txt_loop kv keys [].

(** [C.uint16_t(((p & 0xff) << 8) | ((p >> 8) & 0xff))] *)
Definition nbo (p : Z) : Z :=
  (Z.lor (Z.shiftl (Z.land p 0xff) 8) (Z.land (Z.shiftr p 8) 0xff)) mod 2 ^ 16.

(** The memory image of a [uint16] on the little-endian hosts this file is
    compiled for. *)
Definition le16 (z : Z) : bytes := [bZ z; bZ (z / 256)].

(** ** Reading a TXT record: length-prefixed strings, each a key and a value
    separated by its first equals sign *)

Fixpoint txt_entries (fuel : nat) (s : bytes) : option (list bytes) :=
  match s with
  | [] => Some []
  | n :: s' =>
    match fuel with
    | O => None
    | S fuel' =>
      let k := Z.to_nat (Zb n) in
      if (length s' <? k)%nat then None
      else cons (take k s') <$> txt_entries fuel' (drop k s')
    end
  end.

Fixpoint split_eq (s : bytes) : option (bytes * bytes) :=
  match s with
  | [] => None
  | b :: s' =>
    if bool_decide (b = x3d) then Some ([], s')
    else (fun kv => (b :: fst kv, snd kv)) <$> split_eq s'
  end.

Definition txt_parse (s : bytes) : option (list (bytes * bytes)) :=
  es ← txt_entries (length s) s; mapM split_eq es.

(** What a browser should read. *)
Definition hints (i : Info) : list (bytes * bytes) :=
  [(str "v", str "1"); (str "hid", HostID i); (str "td", TrustDomainID i); (str "pv", ProtocolVersion i)].

(** ** Lemmas *)

Definition fits_entry (e : bytes) : Prop := (length e <= 255)%nat.

Lemma txt_loop_spec kv ks out :
  match txt_loop kv ks out with
  | Ok r => Forall (fun k => fits_entry (entry kv k)) ks /\
            r = out ++ concat (map (fun k => bZ (Z.of_nat (length (entry kv k))) :: entry kv k) ks)
  | Err k => k ∈ ks /\ ~ fits_entry (entry kv k)
  | Panic => False
  end.
Proof.
  revert out. induction ks as [|k ks IH]; intros out; cbn [txt_loop map concat].
  { split; [constructor|by rewrite app_nil_r]. }
  unfold fits_entry in *. destruct (Nat.ltb_spec 255 (length (entry kv k))); [split; [by left|lia]|].
  specialize (IH ((out ++ [bZ (Z.of_nat (length (entry kv k)))]) ++ entry kv k)).
  destruct (txt_loop kv ks _) as [r|k'|]; [|by destruct IH; split; [right|]|done].
  destruct IH as [Hf ->]. split; [by apply List.Forall_cons|]. by rewrite <- !app_assoc.
Qed.

Lemma txt_entries_concat fuel es :
  Forall fits_entry es ->
  (length (concat (map (fun e => bZ (Z.of_nat (length e)) :: e) es)) <= fuel)%nat ->
  txt_entries fuel (concat (map (fun e => bZ (Z.of_nat (length e)) :: e) es)) = Some es.
Proof.
  intros Hf. revert fuel. induction Hf as [|e es He _ IH]; intros fuel Hl; [by destruct fuel|].
  cbn [map concat app] in *. destruct fuel as [|fuel]; [cbn in Hl; lia|]. cbn [txt_entries].
  unfold fits_entry in He. rewrite Zb_bZ, Z.mod_small, Nat2Z.id by lia.
  rewrite (proj2 (Nat.ltb_ge _ _)) by (rewrite length_app; lia).
  rewrite take_app_length, drop_app_length, IH; [done|]. cbn in Hl. rewrite length_app in Hl. lia.
Qed.

Lemma split_eq_app k v : x3d ∉ k -> split_eq (k ++ x3d :: v) = Some (k, v).
Proof.
  induction k as [|b k IH]; intros Hk; cbn [app split_eq]; [done|].
  rewrite bool_decide_eq_false_2 by set_solver. by rewrite IH by set_solver.
Qed.

Lemma mapM_entries kv ks :
  Forall (fun k => x3d ∉ k) ks -> mapM split_eq (map (entry kv) ks) = Some (map (fun k => (k, default [] (kv !! k))) ks).
Proof.
  induction 1 as [|k ks Hk _ IH]; [done|]. cbn [map mapM]. change (entry kv k) with (k ++ x3d :: default [] (kv !! k)).
  rewrite split_eq_app by done. cbn [mbind option_bind]. by rewrite IH.
Qed.

(** ** Properties *)

(** The hints survive the wire. The record is refused exactly when one of
    the four entries exceeds 255 octets; otherwise reading it gives back the
    version, host id, trust domain and protocol version, in that order and
    whatever octets they hold, and it is short enough for its 16-bit length. *)
Lemma txtRecord_roundtrip i :
  match txtRecord (txt i) with
  | Ok r => txt_parse r = Some (hints i) /\ (length r <= 1024)%nat
  | Err k => exists kv, kv ∈ hints i /\ fst kv = k /\ (255 < length (k ++ str "=" ++ snd kv))%nat
  | Panic => False
  end.
Proof.
  assert (map (fun k => (k, default [] (txt i !! k))) keys = hints i) as Hh.
  { unfold hints, keys, txt. cbn [map].
    repeat first [rewrite lookup_insert_eq | rewrite lookup_insert_ne by (vm_compute; discriminate)]. done. }
  pose proof (txt_loop_spec (txt i) keys []) as Hs. unfold txtRecord.
  destruct (txt_loop (txt i) keys []) as [r|k|]; [| |done].
  - destruct Hs as [Hf ->]. cbn [app]. rewrite <- Hh, <- (map_map (entry (txt i)) (fun e => bZ (Z.of_nat (length e)) :: e)).
    assert (Forall fits_entry (map (entry (txt i)) keys)) as Hf' by (by apply Forall_map).
    split.
    + unfold txt_parse. rewrite txt_entries_concat by done. cbn [mbind option_bind].
      apply mapM_entries. repeat apply List.Forall_cons; [apply (bool_decide_eq_true_1 _); by vm_compute..|constructor].
    + revert Hf'. unfold keys. cbn [map concat]. rewrite !Forall_cons_iff. unfold fits_entry.
      intros (? & ? & ? & ? & _). rewrite !length_app. cbn [length]. lia.
  - destruct Hs as [Hin Hn]. exists (k, default [] (txt i !! k)). split_and!; [|done|unfold fits_entry, entry in Hn; cbn [snd]; lia].
    rewrite <- Hh. by apply (list_elem_of_fmap_2 (fun k => (k, default [] (txt i !! k)))).
Qed.

Lemma lor_disjoint x y n : 0 <= n -> 0 <= y < 2 ^ n -> Z.lor (x * 2 ^ n) y = x * 2 ^ n + y.
Proof.
  intros Hn Hy. assert (Z.land (x * 2 ^ n) y = 0) as Hl.
  { apply Z.bits_inj'. intros m Hm. rewrite Z.land_spec, Z.bits_0.
    destruct (Z.ltb_spec m n); [by rewrite Z.mul_pow2_bits_low|].
    rewrite <- (Z.mod_small y (2 ^ n)), Z.mod_pow2_bits_high, andb_false_r by lia. done. }
  pose proof (Z.add_lor_land (x * 2 ^ n) y). lia.
Qed.

(** The port reaches the daemon in network byte order: of a port number, the
    memory image is the big-endian one; of anything larger, only the low 16 bits
    remain. *)
Lemma nbo_bytes p : le16 (nbo p) = be_bytes 2 (p mod 2 ^ 16).
Proof.
  unfold nbo, le16, be_bytes.
  change 0xff with (Z.ones 8). rewrite !Z.land_ones, Z.shiftl_mul_pow2, Z.shiftr_div_pow2 by lia.
  rewrite (lor_disjoint _ _ 8) by first [apply Z.mod_pos_bound; lia|lia]. change (256 ^ Z.of_nat 1) with 256. change (256 ^ Z.of_nat 0) with 1.
  change (2 ^ 8) with 256. change (2 ^ 16) with 65536.
  assert (bZ (((p mod 256) * 256 + (p / 256) mod 256) mod 65536) = bZ (p mod 65536 / 256)) as ->.
  { apply (inj Zb). rewrite !Zb_bZ. Z.div_mod_to_equations. lia. }
  f_equal. f_equal. apply (inj Zb). rewrite !Zb_bZ. Z.div_mod_to_equations. lia.
Qed.

(** ** Advertising on darwin *)

Module Darwin.

(** What the daemon is asked to register: C strings, the port and the TXT
    record with its length. *)
Record registration := MkRegistration {
  r_name : bytes; r_type : bytes; r_port : Z; r_txtLen : Z; r_txt : bytes }.

(** A C string ends at its first zero octet. *)
Fixpoint c_string (s : bytes) : bytes :=
  match s with [] => [] | b :: s' => if bool_decide (b = x00) then [] else b :: c_string s' end.

Definition kDNSServiceErr_NoError : Z := 0.

(** The registration, whether its context is done, and how often the goroutine
    has released the daemon's reference. *)
Record Advertiser := MkAdvertiser { ref : registration; ctx_done : bool; released : nat }.

Inductive adverr := ETxt (key : bytes) | ERegister (rc : Z).

(** [DNSServiceRegister]: the daemon's answer to a registration. *)
Definition Advertise (DNSServiceRegister : registration -> Z) (cancelled : bool) (i : Info) : res adverr Advertiser :=
  match txtRecord (txt i) with
  | Err k => Err (ETxt k)
  | Panic => Panic
  | Ok [] => Panic
  | Ok (b :: t) =>
    let record := b :: t in
    let r := MkRegistration (c_string (Name i)) (c_string (str "_rook-link._tcp")) (nbo (Port i))
               (Z.of_nat (length record) mod 2 ^ 16) record in
    let rc := DNSServiceRegister r in
    if negb (rc =? kDNSServiceErr_NoError) then Err (ERegister rc) else Ok (MkAdvertiser r cancelled 0)
  end.

Definition cancel (a : Advertiser) : Advertiser := MkAdvertiser (ref a) true (released a).
Definition Stop (a : Advertiser) : Advertiser := cancel a.

(** The goroutine: it waits for the context, releases the reference and ends. *)
Definition go_step (a : Advertiser) : Advertiser :=
  match released a with
  | O => if ctx_done a then MkAdvertiser (ref a) true 1 else a
  | S _ => a
  end.

Inductive event := Go | CallStop | CancelParent.
Definition step (a : Advertiser) (e : event) : Advertiser :=
  match e with Go => go_step a | CallStop => Stop a | CancelParent => cancel a end.
Definition run (es : list event) (a : Advertiser) : Advertiser := fold_left step es a.

(** Ended by [Stop] or from outside. *)
Definition ending (e : event) : bool := match e with Go => false | _ => true end.

(** After [es], the registration is the one made; the reference is released at
    most once, and then only because the context is done. *)
Record held (cancelled : bool) (r : registration) (es : list event) (a : Advertiser) : Prop := MkHeld {
  h_ref : ref a = r;
  h_ctx : ctx_done a = cancelled || existsb ending es;
  h_once : (released a <= 1)%nat;
  h_why : released a = 1%nat -> ctx_done a = true }.

Lemma held_step c r es a e : held c r es a -> held c r (es ++ [e]) (step a e).
Proof.
  destruct a as [r' d n]. intros [Hr Hc Hn Hw]. cbn [ref ctx_done released] in *.
  split; destruct e; cbn [step go_step Stop cancel ref ctx_done released]; rewrite ?existsb_app; cbn [existsb ending];
    rewrite ?orb_false_r, ?orb_true_r; try done; destruct n, d; cbn; first [done|lia|by rewrite <- Hc].
Qed.

Lemma held_run c r a es : held c r [] a -> held c r es (run es a).
Proof.
  intros H0. induction es as [|e es IH] using rev_ind; [done|]. unfold run. rewrite fold_left_app. by apply held_step.
Qed.

Lemma held_ends c r es a : held c r es a -> c || existsb ending es = true -> released (go_step a) = 1%nat.
Proof.
  intros [_ Hc Hn _] He. unfold go_step. destruct (released a) as [|[|n]] eqn:E; [|done|lia]. by rewrite Hc, He.
Qed.

(** C40: an advertisement says what it should and lasts until it is ended.
    [Advertise] never panics. It fails exactly when a TXT entry is too long or
    the daemon refuses. Otherwise the daemon has accepted one registration: its
    port in network byte order, its TXT record of the length told and read back
    as the four hints; it stays that registration, and it is withdrawn, once,
    by the goroutine's next step after [Stop] or the end of the context, and not
    before. *)
Theorem Advertise_exact DNSServiceRegister cancelled i :
  match Advertise DNSServiceRegister cancelled i with
  | Ok a =>
    DNSServiceRegister (ref a) = kDNSServiceErr_NoError /\
    le16 (r_port (ref a)) = be_bytes 2 (Port i mod 2 ^ 16) /\
    r_txtLen (ref a) = Z.of_nat (length (r_txt (ref a))) /\ txt_parse (r_txt (ref a)) = Some (hints i) /\
    (forall es, let a' := run es a in
       ref a' = ref a /\ (released a' <= 1)%nat /\
       (released a' = 1%nat -> cancelled || existsb ending es = true) /\
       (cancelled || existsb ending es = true -> released (go_step a') = 1%nat))
  | Err (ETxt k) => exists kv, kv ∈ hints i /\ fst kv = k /\ (255 < length (k ++ str "=" ++ snd kv))%nat
  | Err (ERegister rc) => rc <> kDNSServiceErr_NoError /\ exists r, DNSServiceRegister r = rc
  | Panic => False
  end.
Proof.
  unfold Advertise. pose proof (txtRecord_roundtrip i) as Ht. destruct (txtRecord (txt i)) as [t|k|]; [|done..].
  destruct Ht as [Hp Hlen]. destruct t as [|b t]; [by vm_compute in Hp|]. cbv zeta.
  set (r := MkRegistration _ _ _ _ _). destruct (Z.eqb_spec (DNSServiceRegister r) kDNSServiceErr_NoError) as [Hrc|Hrc];
    cbn [negb]; [|by split; [|exists r]].
  cbn [ref]. split_and!; [exact Hrc|apply nbo_bytes| |exact Hp|].
  - cbn [r_txtLen r_txt r]. apply Z.mod_small. change (2 ^ 16) with 65536. lia.
  - intros es. assert (held cancelled r [] (MkAdvertiser r cancelled 0)) as H0.
    { split; cbn; [done|by rewrite orb_false_r|lia|done]. }
    pose proof (held_run _ _ _ es H0) as Hh. cbv zeta. split_and!; [apply Hh|apply Hh| |].
    + intros Hx. rewrite <- (h_ctx _ _ _ _ Hh). by apply Hh.
    + by apply (held_ends cancelled r es).
Qed.
End Darwin.

(** ** Advertising everywhere else *)

Module Other.

(** [dnssd.Config] *)
Record Config := MkConfig { c_Name : bytes; c_Type : bytes; c_Text : gmap bytes bytes; c_Port : Z }.

(** The goroutine: inside [Respond], back from it, past [close(a.done)]. *)
Inductive thread := Responding (turns : nat) | Returned | Finished.

Record Advertiser := MkAdvertiser { ctx_done : bool; done_closed : bool; serving : thread }.

Section dnssd.
(** The third-party responder. Whether [Respond], given whether its context is
    done, has returned by its n-th turn; it returns when its context is done. *)
Context {Service Responder : Type} (NewService : Config -> res bytes Service) (NewResponder : res bytes Responder)
  (Add : Service -> Responder -> res bytes unit) (Respond : bool -> nat -> bool).
Hypothesis Respond_cancelled : forall n, Respond true n = true.

Definition Advertise (cancelled : bool) (i : Info) : res bytes Advertiser :=
  let cfg := MkConfig (Name i) ServiceType (txt i) (Port i) in
  match NewService cfg with
  | Ok sv =>
    match NewResponder with
    | Ok rp =>
      match Add sv rp with
      | Ok _ => Ok (MkAdvertiser cancelled false (Responding 0))
      | Err e => Err (str "bonjour: " ++ e)
      | Panic => Panic
      end
    | Err e => Err (str "bonjour: " ++ e)
    | Panic => Panic
    end
  | Err e => Err (str "bonjour: " ++ e)
  | Panic => Panic
  end.

Definition set_serving (t : thread) (a : Advertiser) : Advertiser := MkAdvertiser (ctx_done a) (done_closed a) t.
Definition cancel (a : Advertiser) : Advertiser := MkAdvertiser true (done_closed a) (serving a).

Definition go_step (a : Advertiser) : res bytes Advertiser :=
  match serving a with
  | Responding n => Ok (set_serving (if Respond (ctx_done a) n then Returned else Responding (S n)) a)
  | Returned => if done_closed a then Panic else Ok (MkAdvertiser (ctx_done a) true Finished)
  | Finished => Ok a
  end.

(** [Stop] cancels, then waits: whether the receive from [done] goes through. *)
Definition Stop (a : Advertiser) : Advertiser := cancel a.
Definition Stop_returns (a : Advertiser) : bool := done_closed a.

Inductive event := Go | CallStop | CancelParent.
Definition step (a : Advertiser) (e : event) : res bytes Advertiser :=
  match e with Go => go_step a | CallStop => Ok (Stop a) | CancelParent => Ok (cancel a) end.
Fixpoint run (es : list event) (a : Advertiser) : res bytes Advertiser :=
  match es with
  | [] => Ok a
  | e :: es => match step a e with Ok a => run es a | Err e => Err e | Panic => Panic end
  end.

Definition ending (e : event) : bool := match e with Go => false | _ => true end.
Definition closed_at_end (a : Advertiser) : Prop :=
  done_closed a = match serving a with Finished => true | _ => false end.

Lemma closed_step a e : closed_at_end a ->
  exists a', step a e = Ok a' /\ closed_at_end a' /\ ctx_done a' = ctx_done a || ending e /\
    (done_closed a = true -> done_closed a' = true).
Proof.
  destruct a as [c d [n| |]]; unfold closed_at_end; cbn; intros ->; destruct e; cbn [step go_step Stop cancel];
    unfold go_step; cbn; rewrite ?orb_true_r, ?orb_false_r; eexists; (split; [reflexivity|]); split_and!; try done;
    by destruct (Respond c n).
Qed.

Lemma closed_run es a : closed_at_end a ->
  exists a', run es a = Ok a' /\ closed_at_end a' /\ ctx_done a' = ctx_done a || existsb ending es /\
    (done_closed a = true -> done_closed a' = true).
Proof.
  induction es as [|e es IH] in a |- *; intros Ha; [exists a; cbn; by rewrite orb_false_r|].
  destruct (closed_step a e Ha) as (a1 & H1 & Ha1 & Hc1 & Hd1). destruct (IH a1 Ha1) as (a' & H' & Ha' & Hc' & Hd').
  exists a'. cbn [run existsb]. rewrite H1. split_and!; [done..| |by intros ?%Hd1%Hd'].
  by rewrite Hc', Hc1, orb_assoc.
Qed.

(** [Stop] returns. Whatever came before, once [Stop] has been called or the
    context has ended, two steps of the goroutine let every [Stop] go, now and
    later; the channel is never closed twice. *)
Lemma Stop_terminates cancelled i a es more :
  Advertise cancelled i = Ok a -> cancelled || existsb ending es = true ->
  exists a1 a2, run es a = Ok a1 /\ run ([Go; Go] ++ more) a1 = Ok a2 /\ Stop_returns a2 = true.
Proof.
  unfold Advertise. destruct (NewService _) as [sv|e|]; [|done..]. destruct NewResponder as [rp|e|]; [|done..].
  destruct (Add sv rp) as [[]|e|]; [|done..]. intros [= <-] He.
  destruct (closed_run es (MkAdvertiser cancelled false (Responding 0)) eq_refl) as (a1 & H1 & Ha1 & Hc1 & _).
  cbn [ctx_done] in Hc1. rewrite He in Hc1. exists a1.
  assert (exists a3, run [Go; Go] a1 = Ok a3 /\ closed_at_end a3 /\ done_closed a3 = true) as (a3 & H3 & Ha3 & Hd3).
  { destruct a1 as [c d [n| |]]; unfold closed_at_end in *; cbn in *; subst c d;
      unfold go_step; cbn; rewrite ?Respond_cancelled; cbn; eexists; by split. }
  destruct (closed_run more a3 Ha3) as (a2 & H2 & _ & _ & Hd2). exists a2. split_and!; [done| |by apply Hd2].
  cbn [app run] in H3 |- *. destruct (step a1 Go) as [x|e|]; [|done..]. destruct (step x Go) as [y|e|]; [|done..].
  by injection H3 as ->.
Qed.
End dnssd.
End Other.
